(* ===== verification/_CoqProject ===== *)
-Q . S2P
Prelude.v
Json.v
JsonParse.v
JsonPrint.v
Effects.v
Prompts.v
Adapter.v
Ums.v
Stream.v
Frame.v
Gateway.v
Coordinator.v
Protocol.v
Guarded.v
Session.v
Conversation.v
Wire.v
Dial.v
Liveness.v
Agent.v
Concurrent.v
App.v
