(* ===== verification/Prelude.v ===== *)
(** * MAS coordinator: a verified model of the routing-and-synthesis pipeline

    The program is a request router written in Python.  For each chat request
    it (1) asks a model which downstream agent should answer, (2) delegates to
    that agent while streaming the agent's text into a progress stage,
    (3) keeps the conversation id of the stateful agent in the reply's state,
    and (4) asks the model a second time to rewrite the agent's answer,
    streaming that text to the caller.

    ** Files, in dependency order

    - [Prelude] (this file): Python exceptions as the type [PyError], the
      [Result] error monad, the string operations of the source
      ([startswith], slices, [x or default]), the hint databases [py] and
      [pystr], and lemmas on lists and relations shared by the components.
    - [Json]: values produced by [json.loads] and carried in message state
      (type [JSON]), with the Python operators the source applies to them:
      truthiness, [in], subscripting, [dict.get], [+=] on a string;
      dictionaries as association lists in insertion order.
    - [JsonParse]: [json.loads] as a fuelled recursive-descent decoder over
      byte strings, with a budget of nested arrays and objects beyond
      which it raises [RecursionError] ([json_loads_at],
      [recursion_limit]), and the proofs that the fuel it is given
      suffices, that more fuel changes nothing and that what it returns is
      well formed and no deeper than the budget.
    - [JsonPrint]: the JSON text of a value as the peers write it
      ([json_encode]), and the proof that the decoder reads it back.
    - [Effects]: the data of a request ([Role], [Message], [Request]), the
      trace of observable effects ([Event]), the environment of external
      services ([Env]), the monad [M] in which handlers run with its laws
      and its equivalence, the stage and choice operations, and the loop
      [for_stream] over a finite stream.
    - [Prompts]: the two system prompts of [src/task/prompts.py].
    - [Adapter]: [MASCoordinator.__prepare_messages] of [src/task/agent.py]
      ([prepare_messages], with [prepare_message] for the body of its loop).
    - [Ums]: the gateway of [src/task/coordination/ums_agent.py]:
      [get_ums_conversation_id], [create_ums_conversation],
      [call_ums_agent] with the body [ums_line_body] of its line loop, and
      [response]; the abstract reading of a stream ([line_action],
      [sse_run]) that the loop refines.
    - [Stream]: the lines of the chat stream as the agent writes them
      ([data_line], [chunk_json]) and what the line loop makes of them, for
      every content.
    - [Frame]: the body of the chat answer: the lines the HTTP library
      cuts from it ([splitlines], the behaviour of [str.splitlines] on the
      bytes of a UTF-8 text) and the body as the agent writes it
      ([body_text]).
    - [Gateway]: the class [AgentGateway], which states what the coordinator
      relies on from a gateway, and its two instances: the stateful gateway
      of [Ums] and the stateless one, modelled from the specification
      because its source is not part of the repository.
    - [Coordinator]: [prepare_coordination_request],
      [handle_coordination_request], [final_response] and [handle_request]
      of [src/task/agent.py]; the phase machine Idle, Routing, Delegating,
      Synthesizing, Done as a function ([phase_step], [run_phases]) and as
      a transition relation ([phase_trans]).  The phases are the body of
      the handler cut where the machine of the specification changes
      state ([handle_request_phases]); they are there to state what holds
      after each phase, not as a second model of the code.
    - [Protocol]: the protocol of stages as a decidable property of the
      events of a run ([stage_ok]) and the count of requests to outside
      services ([external_calls]).
    - [Guarded]: [handle_request_guarded], the handler with a
      [try]/[finally] around each stage that the specification describes,
      written from the specification as a reference for [handle_request],
      and [stages_left_open], the stages a run opened and did not close.
    - [Session]: the turns of a conversation: the state set on the choice
      comes back with the history of the next request
      ([reply_message], [reachable_history]).
    - [Conversation]: the life cycle of the session id as the
      specification describes it, a machine with one step per turn
      ([session_step], [session_run]), and the history of a conversation
      together with the events of all its turns ([conversation]).
    - [Wire]: the requests to the stateful agent as the source writes
      them: method, address, body and the timeout of the client
      ([create_call], [chat_call]).
    - [Dial]: the client and the arguments of the two requests to the
      model as the source writes them ([dial_client],
      [routing_completion], [synthesis_completion]).
    - [Liveness]: peers described by the texts they send
      ([well_behaved]), requests the gateway can serve ([request_ok]), and
      environments described by what the program reads of their answers
      ([responsive]).
    - [Agent]: the stateful agent of the specification as a peer: a class
      of agents ([UmsAgent]), its store as a finite map, its two operations
      ([agent_create], [agent_chat]), and the coordinator, the caller and
      the agent together over the turns of a conversation ([system]).
    - [Concurrent]: turns served at the same time: interleavings of the
      calls of several runs ([interleaving]), served call by call
      ([serves_all]), against the turns served one after the other
      ([serial]).
    - [App]: the configuration, [chat_completion], the registration of the
      application and the start-up constants of [src/task/app.py].

    ** How state and effects are modelled

    The source mutates SDK objects (a choice, stages) and calls external
    services.  The model keeps one append-only trace of [Event]s: stage
    opened, text appended to a stage, stage closed, choice opened and
    closed, text appended to the choice, state set on the choice, one
    event per external call with the payload that was sent, and one per
    record handed to the logger.  Every view of
    the state (the text of a stage, whether a stage is open, the text and
    the state of the choice, the calls made) is a function of the trace.  A
    handler is a function from the trace so far to a result ([Ok v] or
    [Raise e]) and the events it added; events emitted before an exception
    are kept, as in Python.  A stage is named by the number of stages opened
    before it.

    External services are the fields of [Env]: functions from the payload
    of a call to its answer (a result, and for streams a finite list of
    items which may end in a fault).  A run calls each service at most
    once, so a function of the payload loses nothing.  Across the turns of
    a conversation each turn has an environment of its own
    ([reachable_history]).

    ** What the theorems show

    - [JsonParse], [JsonPrint]: the decoder returns a value or raises the
      decoder's error, [ValueError] or [RecursionError]; fuel beyond
      twice the length of a text does not change its result
      ([parse_fuel_stable]); a text that opens more arrays than the budget
      raises [RecursionError] whatever follows ([json_loads_at_deep]) and
      a text that starts like no value is rejected ([json_loads_at_head]);
      no object the decoder returns holds a key twice; it reads the text
      of every well-formed value with integers of at most 4300 digits and
      nesting within the recursion limit back to that value, and these
      are exactly the values it can return ([json_loads_image]).
    - [Adapter]: the system entry is first, the output has one entry per
      history message in order, and no user entry carries custom content.
    - [Ums], [Stream]: the line loop computes the abstract reading; the
      answer is the concatenation in arrival order of the fragments before
      the terminator, for fragments of any content; lines after the
      terminator are never read; lines that are not JSON are skipped,
      where the docstrings say that they raise; the errors that can leave
      the loop are listed, and a line nested beyond the recursion limit
      ends the reading with one of them ([deep_line_aborts]); the text
      appended to the
      stage is the text returned; a conversation is created exactly when
      the history carries no id, and the lookup returns the first id of the
      history.
    - [Frame]: the text of a chunk holds no line boundary, whatever control
      characters its fragment holds, so the lines read from a body are the
      lines written and the answer is the concatenation of the fragments
      ([chat_body_roundtrip]); the condition is that no fragment holds
      U+0085, U+2028 or U+2029 unescaped: a fragment that holds U+2028
      before a character that begins no JSON value is lost without an
      error, and the answer is that of the other fragments
      ([wide_boundary_loses_fragment]).
    - [Gateway]: both gateways satisfy the interface: their events are
      calls to their own agent, state updates and appends to the stage they
      were given, and the message returned holds the text of that stage.
    - [Coordinator]: the exact events of a successful run; one gateway per
      run, chosen by the decision; two model calls with the right prompts;
      both stages closed on success; what a failed run leaves behind in
      each phase; every decision is read back from its JSON text; the
      entry rewritten for the synthesis is the last of the prepared list
      whatever its role, which with an empty history is the system entry
      ([synthesis_messages_rewrites_last]); the phase machine as a
      transition relation ([phase_trans]) advances one phase at a time,
      makes four transitions at most, and keeps the stages balanced at
      every configuration it reaches ([phase_invariant]).
    - [Protocol]: every run follows the protocol of stages on every path,
      so the operations of the SDK are never applied to a stage that is
      not open; a run sends between one and four requests to outside
      services;
      the decision is handed to the logger once, after the coordination
      stage is closed, by the runs that obtained one
      ([handle_request_logged]).
    - [Guarded]: on every path the handler of the source returns or raises
      what the guarded handler does, and the events of the guarded handler
      are those of the source followed by the closing of the stages the
      source left open: none on a run that returns or that fails in the
      synthesis, the coordination stage when routing raises, the agent
      stage when the gateway raises ([handle_request_left_open]).
    - [Session]: in every history a conversation can reach, an id that is
      not [null] is the only value carried; on such histories the lookup of
      the source (first match) agrees with the lookup of the specification
      (most recent match) as long as the agent never issues [null] as an
      id, and disagrees on a reachable history once it does
      ([null_id_lookup_differs]); the id stored by one turn is the id the
      next turn finds and sends.
    - [Conversation]: the conversations of the coordinator are runs of the
      session machine ([conversation_session_run]), so over a whole
      conversation one conversation is created on the agent at most, its id
      is stored once and every chat call carries it; a run that raises after the creation leaves a
      conversation behind that the next attempt does not find
      ([failed_turn_creates]).
    - [Wire]: the address of a chat call determines the text of the id;
      the body decodes to the message that was sent; an id of [null] is
      sent as the path segment [None]; the timeout of 120 seconds is set
      on the client of the chat calls and not on the client of the
      creation ([http_calls_timeout]).
    - [Dial]: a run that returns made the routing request and the
      synthesis request, in this order and no other, with the client of
      the coordinator; every run made the routing request first
      ([handle_request_completions], [handle_request_first_completion]).
    - [Liveness]: a run returns when the history is not empty and holds
      states that are objects or null, and the peers send what they
      should: the model the text of a decision, the agents their answers,
      the synthesis a stream without fault
      ([well_behaved_run_returns]); under the same condition every
      reachable configuration of the phase machine leads on to Done.
    - [Agent]: in every state the coordinator and the agent can reach
      together, over turns that returned or raised, the id the history
      carries names a conversation of the agent that holds exactly the
      messages sent under it, conversations that existed before are
      untouched, and a conversation left behind by a failed turn holds one
      message ([system_session_record]); every chat call is addressed to
      a conversation the agent holds ([system_chat_accepted]); a turn
      returns whenever the model answers ([system_turn_returns]); every
      state can take a turn ([serving_env_serves]); the agent holds one
      conversation more for every creation request ([system_size]).
    - [Concurrent]: any interleaving of the calls of any number of
      turns is served as the turns are one after the other in some order,
      with the same answers to every run and the same conversations in
      the end ([concurrent_turns_serializable]); a chat call is a left
      mover ([chat_moves_before]); the agent must choose a new id by the
      ids in use, and one that does not is a counterexample
      ([skipping_not_serializable]).
    - [App]: the endpoint opens the choice first and closes it last on
      every path, and follows the protocol of stages.

    Each theorem with hypotheses is applied to a sample run built from
    [scripted_env], so that its hypotheses are seen to hold together.

    ** Bounds and fuel

    Streams are finite lists, so the loops are structural recursions.  The
    decoder takes [2 * length + 1] units of fuel.  A call on a value spends
    one unit and a call on the elements or members of a container one more,
    and each of them consumes at least one character before the next call
    ([parse_consumes]), so a call on a rest of [n] characters always has
    more than [2 * n] units left and the result with that fuel is the
    result with any more ([parse_fuel_stable]).  The budget of nesting is
    apart from the fuel: [json_loads] gives the decoder
    [recursion_limit] levels, 1000, the default of
    [sys.getrecursionlimit()].  What the interpreter leaves to a call of
    [json.loads] is lower by the frames in use and varies with its
    version; the lemmas on the decoder hold for every budget
    ([json_loads_at]), and the theorems on [json_loads] use of the number
    only that it is at least 4, the nesting of a content chunk.  The
    decimal digits of an integer [z] are computed
    with [log2 z] units of fuel, one per digit after the first, which
    suffices because a number below [2 ^ (n + 1)] is below [10 ^ (n + 1)]
    ([Z_digits_spec]).  The phase machine makes four transitions at most
    ([phase_trans_bounded]).

    ** Not modelled

    Of logging, the module [task/logging_config.py], which is not part of
    the repository: the record of [logger.info] in [handle_request] is an
    event that carries the literal and the decision formatted into it,
    not the text the decision is rendered to, and whether a record is
    written at the level configured is not represented; of the model
    client, what the library does with the arguments [Dial] writes out
    (the address it calls, headers, retries), and the schema of the
    decision, which [task/models.py] generates and which is a parameter
    there; the HTTP server; the wire format of HTTP requests,
    other than the addresses and the JSON value of the body that the source
    writes ([Wire]), and there the text of an id that is a float or a
    container; what the HTTP library does when a timeout passes, other
    than as a transport fault; the fields of an SDK message
    besides role, content and custom content; the binary value of a JSON
    float (kept as mantissa and decimal exponent, which decides its truth
    value), so that the text of a decimal is its mantissa and exponent and
    not the shortest representation Python prints; the frames in use
    when [json.loads] is called, which lower the nesting the decoder
    accepts below the recursion limit; the decoding of UTF-8 (strings are
    byte strings, which the
    decoder copies); the chunks the transport delivers a body in (the
    lines of [Frame] are those of the whole text, which is what the line
    reader of the HTTP library yields whatever the chunks).  The modules [task/models.py],
    [task/coordination/gpa.py] and [task/stage_util.py] are imported by the
    sources but are not part of the repository: the decision schema, the
    stateless gateway and the stage operations follow the specification,
    and the text an agent name is formatted to is taken to be its value.
    The peers (the model, the two agents, the caller that keeps the
    history) are outside the repository as well: what they send is
    described in [JsonPrint], [Stream], [Frame], [Session],
    [Conversation], [Liveness] and [Agent] from the interfaces the
    specification gives; between the coordinator and the agent of [Agent]
    every request and every answer arrives, and the agent serves each
    request as a whole; in [Agent] the turns come one after the other,
    in [Concurrent] their requests arrive in any order.  A conversation
    of [Session]
    and [Conversation] is made of the turns that returned; in [Agent] the
    turns that raised are part of it, and the caller keeps nothing of
    them: what a caller does with the state of a response that ended in
    an error is not specified ([failed_turn_creates]). *)

From Stdlib Require Import String Ascii ZArith List Lia Bool.
From stdpp Require Import base tactics option list strings relations.

(** ** Python exceptions raised by the modelled code *)

Inductive PyError : Type :=
| JSONDecodeError
| ValueError
| TypeError
| KeyError
| IndexError
| AttributeError
| RecursionError
| ValidationError
| HTTPStatusError (status : Z)
| TransportError
| APIError.

#[export] Instance PyError_eq_dec : EqDecision PyError.
Proof. solve_decision. Defined.

(** [except json.JSONDecodeError] catches that class only: [ValueError] is
    its base class and is not caught. *)
Definition is_JSONDecodeError (e : PyError) : bool :=
  match e with JSONDecodeError => true | _ => false end.

(** ** The error monad *)

Inductive Result (A : Type) : Type :=
| Ok (a : A)
| Raise (e : PyError).
Arguments Ok {A} a.
Arguments Raise {A} e.

#[export] Instance Result_eq_dec `{EqDecision A} : EqDecision (Result A).
Proof. solve_decision. Defined.

#[export] Instance Result_ret : MRet Result := @Ok.
#[export] Instance Result_bind : MBind Result := λ A B f m,
  match m with Ok a => f a | Raise e => Raise e end.
#[export] Instance Result_fmap : FMap Result := λ A B f m,
  match m with Ok a => Ok (f a) | Raise e => Raise e end.

Definition is_Ok {A} (r : Result A) : bool :=
  match r with Ok _ => true | Raise _ => false end.

Definition result_to_option {A} (r : Result A) : option A :=
  match r with Ok a => Some a | Raise _ => None end.

(** ** Strings as Python uses them

    A Python [str] is a sequence of code points; the model keeps its UTF-8
    bytes.  The source only tests emptiness, compares with ASCII literals,
    strips an ASCII prefix and concatenates, and these agree on both
    representations. *)

(** [if s:] on a string. *)
Definition str_truthy (s : string) : bool :=
  match s with EmptyString => false | String _ _ => true end.

(** [x or d] where [x : Optional[str]]. *)
Definition or_str (x : option string) (d : string) : string :=
  match x with
  | Some s => if str_truthy s then s else d
  | None => d
  end.

(** [if x:] where [x : Optional[str]]. *)
Definition opt_str_truthy (x : option string) : bool :=
  match x with Some s => str_truthy s | None => false end.

(** [s.startswith(p)]. *)
Definition startswith (p s : string) : bool := String.prefix p s.

(** [s[n:]]. *)
Fixpoint str_drop (n : nat) (s : string) : string :=
  match n, s with
  | O, _ => s
  | S n', String _ s' => str_drop n' s'
  | S _, EmptyString => EmptyString
  end.

(** The concatenation of a list of fragments, in order. *)
Definition str_concat (l : list string) : string :=
  foldr String.append EmptyString l.

(** One line feed and one double quote, built from their codes. *)
Definition LF : string := String "010"%char EmptyString.
Definition DQ : string := String "034"%char EmptyString.

(** [q s] is [s] between double quotes, for writing JSON text. *)
Definition q (s : string) : string := DQ +:+ s +:+ DQ.

(** ** Loop control of a [for] body: fall through or [continue], or [break] *)

Inductive LoopCtl : Type := Continue | Break.

#[export] Instance LoopCtl_eq_dec : EqDecision LoopCtl.
Proof. solve_decision. Defined.

(** ** Hint databases and tactics *)

Create HintDb py discriminated.
Create Rewrite HintDb py.
Create Rewrite HintDb pystr.

(** [case_result H] splits on the result named in the goal's [match]. *)
Ltac case_result :=
  match goal with
  | |- context [match ?r with Ok _ => _ | Raise _ => _ end] =>
      let E := fresh "E" in destruct r eqn:E
  end.

(** ** Lemmas on the error monad *)

Section ResultLaws.
Context {A B C : Type}.

Lemma result_bind_ok (a : A) (f : A → Result B) : (mret a ≫= f) = f a.
Proof. reflexivity. Qed.

Lemma result_bind_raise (e : PyError) (f : A → Result B) :
  (Raise e ≫= f) = Raise e.
Proof. reflexivity. Qed.

Lemma result_bind_ret (m : Result A) : (m ≫= mret) = m.
Proof. by destruct m. Qed.

Lemma result_bind_assoc (m : Result A) (f : A → Result B) (g : B → Result C) :
  ((m ≫= f) ≫= g) = (m ≫= λ x, f x ≫= g).
Proof. by destruct m. Qed.

Lemma result_bind_Ok_inv (m : Result A) (f : A → Result B) (b : B) :
  (m ≫= f) = Ok b → ∃ a, m = Ok a ∧ f a = Ok b.
Proof. destruct m; [eauto | discriminate]. Qed.

Lemma result_bind_Raise_inv (m : Result A) (f : A → Result B) (e : PyError) :
  (m ≫= f) = Raise e → m = Raise e ∨ ∃ a, m = Ok a ∧ f a = Raise e.
Proof. destruct m; [eauto | intros [= ->]; by left]. Qed.

End ResultLaws.

#[export] Hint Rewrite @result_bind_ok @result_bind_raise @result_bind_ret : py.

(** ** Lemmas on strings *)

Lemma str_app_cons (c : ascii) (s t : string) :
  String c s +:+ t = String c (s +:+ t).
Proof. reflexivity. Qed.

Lemma str_app_nil_l (s : string) : "" +:+ s = s.
Proof. reflexivity. Qed.

Lemma str_app_nil_r (s : string) : s +:+ "" = s.
Proof. induction s as [|c s IH]; [done|]. by rewrite str_app_cons, IH. Qed.

Lemma str_app_assoc (s t u : string) : (s +:+ t) +:+ u = s +:+ (t +:+ u).
Proof. induction s as [|c s IH]; [done|]. by rewrite !str_app_cons, IH. Qed.

Lemma str_app_length (s t : string) :
  String.length (s +:+ t) = String.length s + String.length t.
Proof. induction s as [|c s IH]; [done|]. rewrite str_app_cons. simpl. by rewrite IH. Qed.

Lemma str_app_eq_nil (s t : string) : s +:+ t = "" → s = "" ∧ t = "".
Proof. destruct s; [done|]. by rewrite str_app_cons. Qed.

#[export] Hint Rewrite str_app_nil_l str_app_nil_r str_app_assoc : pystr.

Lemma str_truthy_false (s : string) : str_truthy s = false ↔ s = "".
Proof. by destruct s. Qed.

Lemma str_truthy_true (s : string) : str_truthy s = true ↔ s ≠ "".
Proof. by destruct s. Qed.

Lemma str_truthy_app (s t : string) :
  str_truthy (s +:+ t) = str_truthy s || str_truthy t.
Proof. by destruct s. Qed.

Lemma startswith_app (p s : string) : startswith p (p +:+ s) = true.
Proof.
  unfold startswith. induction p as [|c p IH]; [by destruct s|].
  rewrite str_app_cons. simpl. by destruct (ascii_dec c c).
Qed.

Lemma startswith_inv (p s : string) :
  startswith p s = true → ∃ t, s = p +:+ t.
Proof.
  unfold startswith. revert s. induction p as [|c p IH]; intros s H.
  - by exists s.
  - destruct s as [|d s]; [done|]. simpl in H.
    destruct (ascii_dec c d) as [->|]; [|done].
    destruct (IH _ H) as [t ->]. by exists t.
Qed.

Lemma startswith_iff (p s : string) :
  startswith p s = true ↔ ∃ t, s = p +:+ t.
Proof.
  split; [apply startswith_inv|]. intros [t ->]. apply startswith_app.
Qed.

Lemma str_drop_app (p s : string) : str_drop (String.length p) (p +:+ s) = s.
Proof. induction p as [|c p IH]; [done|]. by rewrite str_app_cons. Qed.

Lemma str_drop_length (n : nat) (s : string) :
  String.length (str_drop n s) = String.length s - n.
Proof.
  revert s. induction n as [|n IH]; intros [|c s]; simpl; auto with lia.
Qed.

Lemma str_concat_nil : str_concat [] = "".
Proof. reflexivity. Qed.

Lemma str_concat_cons (s : string) (l : list string) :
  str_concat (s :: l) = s +:+ str_concat l.
Proof. reflexivity. Qed.

Lemma str_concat_app (l1 l2 : list string) :
  str_concat (l1 ++ l2) = str_concat l1 +:+ str_concat l2.
Proof.
  induction l1 as [|s l1 IH]; [done|].
  by rewrite <- app_comm_cons, !str_concat_cons, IH, str_app_assoc.
Qed.

Lemma str_concat_singleton (s : string) : str_concat [s] = s.
Proof. unfold str_concat. simpl. apply str_app_nil_r. Qed.

#[export] Hint Rewrite str_concat_nil str_concat_cons str_concat_app
  str_concat_singleton : pystr.

Lemma or_str_Some_truthy (s d : string) :
  str_truthy s = true → or_str (Some s) d = s.
Proof. unfold or_str. by intros ->. Qed.

Lemma or_str_None (d : string) : or_str None d = d.
Proof. reflexivity. Qed.

Lemma or_str_empty_default (x : option string) :
  or_str x "" = default "" x.
Proof. destruct x as [[|c s]|]; reflexivity. Qed.

(** ** Lists *)

Lemma forallb_impl {A} (f g : A → bool) (l : list A) :
  (∀ x, f x = true → g x = true) → forallb f l = true → forallb g l = true.
Proof.
  intros Hfg. induction l as [|x l IH]; [done|]. simpl.
  intros [Hx Hl]%andb_true_iff. by rewrite (Hfg x Hx), IH.
Qed.

Lemma omap_map_None {A B C} (f : B → option C) (g : A → B) (l : list A) :
  (∀ x, f (g x) = None) → omap f (map g l) = [].
Proof. intros H. induction l as [|x l IH]; [done|]. simpl. by rewrite H. Qed.

Lemma omap_map_Some {A B} (f : B → option A) (g : A → B) (l : list A) :
  (∀ x, f (g x) = Some x) → omap f (map g l) = l.
Proof. intros H. induction l as [|x l IH]; [done|]. simpl. rewrite H. f_equal. apply IH. Qed.

Lemma forallb_rev {A} (f : A → bool) (l : list A) :
  forallb f (rev l) = forallb f l.
Proof.
  induction l as [|x l IH]; [done|]. simpl.
  rewrite forallb_app, IH. simpl. rewrite andb_true_r. apply andb_comm.
Qed.

(** ** Relations *)

(** Along a deterministic relation, every state reached from [x] leads on
    to the final state that [x] leads to. *)
Lemma rtc_deterministic_final {A} (R : relation A) (x y c : A) :
  (∀ a b b', R a b → R a b' → b = b') → (∀ z, ¬ R y z) →
  rtc R x y → rtc R x c → rtc R c y.
Proof.
  intros Hdet Hfin Hy Hc. induction Hc as [x|x x' c Hstep _ IH]; [done|].
  apply IH. destruct Hy as [|x x'' y Hstep' Hy]; [by destruct (Hfin x')|].
  by rewrite (Hdet _ _ _ Hstep Hstep').
Qed.
