(* ===== verification/Json.v ===== *)
(** * Json: JSON values and the Python operators the source applies to them

    [json.loads] and the request body decoder produce Python values built
    from [None], [bool], [int], [float], [str], [list] and [dict] with string
    keys.  The type [JSON] is that universe.  The operators below are the
    ones written in [src/task/coordination/ums_agent.py]: truthiness
    ([if state], [if content]), membership ([KEY in state],
    ["choices" in chunk_data]), subscripting ([state[KEY]], [data["id"]],
    [chunk_data["choices"][0]]), [dict.get] with a default and [+=] on a
    string accumulator.  Each returns [Raise] with the exception class that
    Python raises when the operand has the wrong shape. *)

From Stdlib Require Import String Ascii ZArith List Lia Bool.
From stdpp Require Import base tactics option list strings.
From S2P Require Import Prelude.

(** ** Numbers *)

(** An [int] is exact.  A [float] literal is kept as the decimal
    [m * 10 ^ e]; [nan] and the infinities are the extra literals that
    [json.loads] accepts. *)
Inductive PyNumber : Type :=
| PInt (z : Z)
| PFloat (m e : Z)
| PNaN
| PInf (negative : bool).

#[export] Instance PyNumber_eq_dec : EqDecision PyNumber.
Proof. solve_decision. Defined.

(** A decimal rounds to the float zero when its magnitude is at most half
    the least subnormal, [2 ^ -1075]. *)
Definition py_float_is_zero (m e : Z) : bool :=
  if (0 <=? e)%Z then (m =? 0)%Z
  else (Z.abs m * 2 ^ 1075 <=? 10 ^ (- e))%Z.

Definition num_truthy (n : PyNumber) : bool :=
  match n with
  | PInt z => negb (z =? 0)%Z
  | PFloat m e => negb (py_float_is_zero m e)
  | PNaN => true
  | PInf _ => true
  end.

(** ** Values *)

Inductive JSON : Type :=
| JNull
| JBool (b : bool)
| JNum (n : PyNumber)
| JString (s : string)
| JArray (xs : list JSON)
| JObject (kvs : list (string * JSON)).

(** ** Dictionaries: insertion-ordered association lists *)

Section Dict.
Context {V : Type}.

(** [d[k]] when present. *)
Fixpoint dict_get (k : string) (d : list (string * V)) : option V :=
  match d with
  | [] => None
  | (k', v) :: d' => if String.eqb k k' then Some v else dict_get k d'
  end.

(** [d[k] = v]: an existing key keeps its position, a new key goes last. *)
Fixpoint dict_set (k : string) (v : V) (d : list (string * V)) : list (string * V) :=
  match d with
  | [] => [(k, v)]
  | (k', v') :: d' =>
      if String.eqb k k' then (k, v) :: d' else (k', v') :: dict_set k v d'
  end.

(** [k in d]. *)
Definition dict_mem (k : string) (d : list (string * V)) : bool :=
  match dict_get k d with Some _ => true | None => false end.

Definition dict_keys (d : list (string * V)) : list string := map fst d.

End Dict.

(** ** Python operators on values *)

(** [if v:]. *)
Definition truthy (v : JSON) : bool :=
  match v with
  | JNull => false
  | JBool b => b
  | JNum n => num_truthy n
  | JString s => str_truthy s
  | JArray xs => match xs with [] => false | _ :: _ => true end
  | JObject kvs => match kvs with [] => false | _ :: _ => true end
  end.

(** [v is None]. *)
Definition is_None (v : JSON) : bool :=
  match v with JNull => true | _ => false end.

(** [needle in hay] on two strings: substring test. *)
Fixpoint str_contains (needle hay : string) : bool :=
  startswith needle hay ||
  match hay with
  | EmptyString => false
  | String _ hay' => str_contains needle hay'
  end.

(** [x == k] for a string [k]: only the string [k] itself is equal. *)
Definition eq_str (k : string) (x : JSON) : bool :=
  match x with JString s => String.eqb s k | _ => false end.

(** [k in v] for a string [k]. *)
Definition py_contains (k : string) (v : JSON) : Result bool :=
  match v with
  | JObject kvs => Ok (dict_mem k kvs)
  | JArray xs => Ok (existsb (eq_str k) xs)
  | JString s => Ok (str_contains k s)
  | JNull | JBool _ | JNum _ => Raise TypeError
  end.

(** [v[k]] for a string [k]. *)
Definition py_getitem_str (v : JSON) (k : string) : Result JSON :=
  match v with
  | JObject kvs =>
      match dict_get k kvs with Some x => Ok x | None => Raise KeyError end
  | _ => Raise TypeError
  end.

(** The first code point of a UTF-8 string, by the length its lead byte
    announces (one byte when the lead byte announces nothing). *)
Definition utf8_width (c : ascii) : nat :=
  let n := nat_of_ascii c in
  if n <? 192 then 1 else if n <? 224 then 2 else if n <? 240 then 3
  else if n <? 248 then 4 else 1.

Fixpoint str_take (n : nat) (s : string) : string :=
  match n, s with
  | S n', String c s' => String c (str_take n' s')
  | _, _ => EmptyString
  end.

(** [v[0]]. *)
Definition py_getitem_0 (v : JSON) : Result JSON :=
  match v with
  | JArray xs =>
      match xs with x :: _ => Ok x | [] => Raise IndexError end
  | JString s =>
      match s with
      | String c _ => Ok (JString (str_take (utf8_width c) s))
      | EmptyString => Raise IndexError
      end
  | JObject _ => Raise KeyError
  | JNull | JBool _ | JNum _ => Raise TypeError
  end.

(** [v.get(k, d)]. *)
Definition py_get (v : JSON) (k : string) (d : JSON) : Result JSON :=
  match v with
  | JObject kvs => Ok (default d (dict_get k kvs))
  | _ => Raise AttributeError
  end.

(** [acc += v] for a string accumulator. *)
Definition py_iadd_str (acc : string) (v : JSON) : Result string :=
  match v with
  | JString s => Ok (acc +:+ s)
  | _ => Raise TypeError
  end.

(** ** Well-formed values: every object has distinct keys *)

Fixpoint nodup_keys (ks : list string) : bool :=
  match ks with
  | [] => true
  | k :: ks' => negb (existsb (String.eqb k) ks') && nodup_keys ks'
  end.

Fixpoint json_wf (v : JSON) : bool :=
  match v with
  | JArray xs => forallb json_wf xs
  | JObject kvs =>
      nodup_keys (map fst kvs) && forallb (λ kv, json_wf (snd kv)) kvs
  | _ => true
  end.

(** ** Induction on values, with the hypothesis for every element *)

Section JsonInd.
Variable P : JSON → Prop.
Hypothesis Hnull : P JNull.
Hypothesis Hbool : ∀ b, P (JBool b).
Hypothesis Hnum : ∀ n, P (JNum n).
Hypothesis Hstr : ∀ s, P (JString s).
Hypothesis Harr : ∀ xs, Forall P xs → P (JArray xs).
Hypothesis Hobj : ∀ kvs, Forall (λ kv, P (snd kv)) kvs → P (JObject kvs).

Fixpoint JSON_ind_nested (v : JSON) : P v :=
  match v with
  | JNull => Hnull
  | JBool b => Hbool b
  | JNum n => Hnum n
  | JString s => Hstr s
  | JArray xs =>
      Harr xs ((fix go (l : list JSON) : Forall P l :=
                  match l with
                  | [] => @List.Forall_nil _ P
                  | x :: l' => @List.Forall_cons _ P x l' (JSON_ind_nested x) (go l')
                  end) xs)
  | JObject kvs =>
      Hobj kvs ((fix go (l : list (string * JSON)) : Forall (λ kv, P (snd kv)) l :=
                   match l with
                   | [] => @List.Forall_nil _ (λ kv, P (snd kv))
                   | kv :: l' =>
                       @List.Forall_cons _ (λ kv, P (snd kv)) kv l'
                         (JSON_ind_nested (snd kv)) (go l')
                   end) kvs)
  end.

End JsonInd.

(** ** Decidable equality *)

Fixpoint json_eqb (x y : JSON) : bool :=
  match x, y with
  | JNull, JNull => true
  | JBool a, JBool b => Bool.eqb a b
  | JNum a, JNum b => bool_decide (a = b)
  | JString a, JString b => String.eqb a b
  | JArray xs, JArray ys =>
      (fix go (l1 l2 : list JSON) : bool :=
         match l1, l2 with
         | [], [] => true
         | a :: l1', b :: l2' => json_eqb a b && go l1' l2'
         | _, _ => false
         end) xs ys
  | JObject xs, JObject ys =>
      (fix go (l1 l2 : list (string * JSON)) : bool :=
         match l1, l2 with
         | [], [] => true
         | (k1, a) :: l1', (k2, b) :: l2' =>
             String.eqb k1 k2 && json_eqb a b && go l1' l2'
         | _, _ => false
         end) xs ys
  | _, _ => false
  end.

Lemma json_eqb_eq (x y : JSON) : json_eqb x y = true ↔ x = y.
Proof.
  revert y. induction x as [|b|n|s|xs IH|kvs IH] using JSON_ind_nested;
    intros [|b'|n'|s'|ys|kvs']; simpl; try (split; [discriminate|congruence]).
  - done.
  - rewrite Bool.eqb_true_iff. split; congruence.
  - rewrite bool_decide_eq_true. split; congruence.
  - rewrite String.eqb_eq. split; congruence.
  - revert ys. induction IH as [|x xs Hx _ IHxs]; intros [|y ys];
      try (split; [discriminate|congruence]); [done|].
    rewrite andb_true_iff, Hx, IHxs. split; [intros [-> [= ->]]|intros [= -> ->]]; done.
  - revert kvs'. induction IH as [|[k x] kvs Hx _ IHk]; intros [|[k' y] kvs'];
      try (split; [discriminate|congruence]); [done|].
    simpl in Hx. rewrite !andb_true_iff, String.eqb_eq, Hx, IHk.
    split; [intros [[-> ->] [= ->]]|intros [= -> -> ->]]; done.
Qed.

#[export] Instance JSON_eq_dec : EqDecision JSON := λ x y,
  match json_eqb x y as b return json_eqb x y = b → Decision (x = y) with
  | true => λ H, left (proj1 (json_eqb_eq x y) H)
  | false => λ H, right (λ Heq,
      eq_ind true (λ b, b = false → False) (λ H', Bool.diff_true_false H')
        _ (eq_sym (proj2 (json_eqb_eq x y) Heq)) H)
  end eq_refl.

(** ** Lemmas on dictionaries *)

Section DictLemmas.
Context {V : Type}.
Implicit Types (d : list (string * V)) (k : string) (v : V).

Lemma dict_get_set_eq k v d : dict_get k (dict_set k v d) = Some v.
Proof.
  induction d as [|[k' v'] d IH]; simpl.
  - by rewrite String.eqb_refl.
  - destruct (String.eqb k k') eqn:E; simpl; [by rewrite String.eqb_refl|].
    by rewrite E.
Qed.

Lemma dict_get_set_ne k k' v d :
  k ≠ k' → dict_get k' (dict_set k v d) = dict_get k' d.
Proof.
  intros Hne. induction d as [|[k2 v2] d IH]; simpl.
  - destruct (String.eqb_spec k' k); congruence.
  - destruct (String.eqb_spec k k2) as [->|]; simpl.
    + destruct (String.eqb_spec k' k2); congruence.
    + destruct (String.eqb_spec k' k2); congruence.
Qed.

Lemma dict_mem_set k v d : dict_mem k (dict_set k v d) = true.
Proof. unfold dict_mem. by rewrite dict_get_set_eq. Qed.

Lemma dict_get_Some_In k v d : dict_get k d = Some v → In (k, v) d.
Proof.
  induction d as [|[k' v'] d IH]; simpl; [done|].
  destruct (String.eqb_spec k k') as [->|]; [intros [= ->]; by left|].
  intros H. right. by apply IH.
Qed.

Lemma dict_get_None_keys k d : dict_get k d = None ↔ ¬ In k (dict_keys d).
Proof.
  induction d as [|[k' v'] d IH]; simpl; [tauto|].
  destruct (String.eqb_spec k k') as [->|]; [split; [done|tauto]|].
  rewrite IH. split; [intros H [?|?]; [congruence|done] | tauto].
Qed.

Lemma dict_keys_set_mem k v d :
  dict_mem k d = true → dict_keys (dict_set k v d) = dict_keys d.
Proof.
  unfold dict_mem, dict_keys. induction d as [|[k' v'] d IH]; simpl; [done|].
  destruct (String.eqb_spec k k') as [->|]; simpl; [done|].
  intros H. f_equal. by apply IH.
Qed.

Lemma dict_keys_set_new k v d :
  dict_mem k d = false → dict_keys (dict_set k v d) = dict_keys d ++ [k].
Proof.
  unfold dict_mem, dict_keys. induction d as [|[k' v'] d IH]; simpl; [done|].
  destruct (String.eqb_spec k k') as [->|]; simpl; [done|].
  intros H. f_equal. by apply IH.
Qed.

Lemma dict_set_new k v d : k ∉ dict_keys d → dict_set k v d = d ++ [(k, v)].
Proof.
  unfold dict_keys. induction d as [|[k' v'] d IH]; simpl; [done|].
  intros [Hne Hk]%not_elem_of_cons.
  destruct (String.eqb_spec k k'); [done|]. by rewrite IH.
Qed.

End DictLemmas.

Lemma nodup_keys_NoDup (ks : list string) :
  nodup_keys ks = true ↔ NoDup ks.
Proof.
  induction ks as [|k ks IH]; simpl; [split; [constructor|done]|].
  rewrite andb_true_iff, negb_true_iff, IH, NoDup_cons.
  assert (existsb (String.eqb k) ks = false ↔ k ∉ ks) as ->; [|done].
  rewrite <- not_true_iff_false, existsb_exists. split.
  - intros H Hin. apply H. exists k. split; [by apply list_elem_of_In|].
    apply String.eqb_refl.
  - intros H (x & Hin & Heq). apply String.eqb_eq in Heq as ->.
    by apply H, list_elem_of_In.
Qed.

Lemma dict_set_nodup {V} (k : string) (v : V) (d : list (string * V)) :
  nodup_keys (dict_keys d) = true → nodup_keys (dict_keys (dict_set k v d)) = true.
Proof.
  intros Hd. destruct (dict_mem k d) eqn:E.
  - by rewrite dict_keys_set_mem.
  - rewrite dict_keys_set_new by done. apply nodup_keys_NoDup.
    apply nodup_keys_NoDup in Hd. apply NoDup_app. split_and!; [done| |].
    + intros x Hx ->%list_elem_of_singleton. unfold dict_mem in E.
      destruct (dict_get k d) eqn:G; [done|].
      apply dict_get_None_keys in G. by apply G, list_elem_of_In.
    + apply NoDup_singleton.
Qed.

(** ** Lemmas on the operators *)

Lemma truthy_JString (s : string) : truthy (JString s) = str_truthy s.
Proof. reflexivity. Qed.

Lemma py_contains_dict (k : string) (kvs : list (string * JSON)) :
  py_contains k (JObject kvs) = Ok (dict_mem k kvs).
Proof. reflexivity. Qed.

(** [k in v] raises only [TypeError], and only on scalars. *)
Lemma py_contains_raise (k : string) (v : JSON) (e : PyError) :
  py_contains k v = Raise e →
  e = TypeError ∧ (v = JNull ∨ (∃ b, v = JBool b) ∨ ∃ n, v = JNum n).
Proof. destruct v; simpl; intros [= <-]; eauto 6. Qed.

(** Subscripting by a string succeeds exactly on a dictionary holding the key. *)
Lemma py_getitem_str_Ok (v : JSON) (k : string) (x : JSON) :
  py_getitem_str v k = Ok x ↔ ∃ kvs, v = JObject kvs ∧ dict_get k kvs = Some x.
Proof.
  split.
  - destruct v; simpl; try discriminate.
    destruct (dict_get k kvs) eqn:E; [|discriminate]. intros [= ->]. eauto.
  - intros (kvs & -> & H). simpl. by rewrite H.
Qed.

(** After a successful membership test on a dictionary, subscripting succeeds. *)
Lemma py_contains_getitem (k : string) (kvs : list (string * JSON)) :
  py_contains k (JObject kvs) = Ok true →
  ∃ x, py_getitem_str (JObject kvs) k = Ok x.
Proof.
  simpl. unfold dict_mem. destruct (dict_get k kvs) eqn:E; [eauto|discriminate].
Qed.

(** A dictionary holding [k] is truthy, contains [k] and yields its value. *)
Lemma dict_get_Some_ops (k : string) (kvs : list (string * JSON)) (x : JSON) :
  dict_get k kvs = Some x →
  truthy (JObject kvs) = true ∧
  py_contains k (JObject kvs) = Ok true ∧
  py_getitem_str (JObject kvs) k = Ok x.
Proof.
  intros H. split_and!.
  - by destruct kvs.
  - simpl. unfold dict_mem. by rewrite H.
  - simpl. by rewrite H.
Qed.

(** [get] never raises on a dictionary and raises [AttributeError] elsewhere. *)
Lemma py_get_raise (v : JSON) (k : string) (d : JSON) (e : PyError) :
  py_get v k d = Raise e → e = AttributeError ∧ ∀ kvs, v ≠ JObject kvs.
Proof. destruct v; simpl; intros [= <-]; split; congruence. Qed.

Lemma py_iadd_str_Ok (acc : string) (v : JSON) (r : string) :
  py_iadd_str acc v = Ok r ↔ ∃ s, v = JString s ∧ r = acc +:+ s.
Proof.
  split.
  - destruct v; simpl; try discriminate. intros [= <-]. eauto.
  - by intros (s & -> & ->).
Qed.

(** None of the operators raises [JSONDecodeError]: inside the [try] of the
    stream loop only [json.loads] can. *)
Lemma py_contains_not_JSONDecodeError (k : string) (v : JSON) :
  py_contains k v ≠ Raise JSONDecodeError.
Proof. by destruct v. Qed.

Lemma py_getitem_str_not_JSONDecodeError (v : JSON) (k : string) :
  py_getitem_str v k ≠ Raise JSONDecodeError.
Proof. destruct v as [| | | | |kvs]; simpl; try done. by destruct (dict_get k kvs). Qed.

Lemma py_getitem_0_not_JSONDecodeError (v : JSON) :
  py_getitem_0 v ≠ Raise JSONDecodeError.
Proof. destruct v as [| | |s|xs|]; simpl; try done; [by destruct s|by destruct xs]. Qed.

Lemma py_get_not_JSONDecodeError (v : JSON) (k : string) (d : JSON) :
  py_get v k d ≠ Raise JSONDecodeError.
Proof. by destruct v. Qed.

Lemma py_iadd_str_not_JSONDecodeError (acc : string) (v : JSON) :
  py_iadd_str acc v ≠ Raise JSONDecodeError.
Proof. by destruct v. Qed.

#[export] Hint Resolve py_contains_not_JSONDecodeError
  py_getitem_str_not_JSONDecodeError py_getitem_0_not_JSONDecodeError
  py_get_not_JSONDecodeError py_iadd_str_not_JSONDecodeError : py.

(** A decimal with a non-negative exponent is zero only when its mantissa is. *)
Lemma py_float_is_zero_nonneg (m e : Z) :
  (0 ≤ e)%Z → py_float_is_zero m e = bool_decide (m = 0%Z).
Proof.
  intros He. unfold py_float_is_zero.
  destruct (Z.leb_spec 0 e); [|lia].
  destruct (Z.eqb_spec m 0);
    [by rewrite bool_decide_eq_true_2|by rewrite bool_decide_eq_false_2].
Qed.
