(* ===== verification/JsonParse.v ===== *)
(** * JsonParse: [json.loads] on a string

    The stream loop of the stateful gateway calls [json.loads] on every line
    and treats [JSONDecodeError] as "skip this line"; the routing classifier
    calls it on the model's answer and lets the error abort the run.  Which
    inputs parse, and to what value, therefore decides what the program does.

    The parser follows CPython's default decoder: leading and trailing
    whitespace is blank, tab, line feed and carriage return; the literals
    are [null], [true], [false], [NaN], [Infinity] and [-Infinity]; a number
    is an optional minus, [0] or a non-zero digit and more digits, an
    optional fraction and an optional exponent; a string may not hold a raw
    control character and its escapes are the eight short ones and
    [\uXXXX], two of which form one code point when they are a surrogate
    pair; a repeated key of an object keeps its first position and its last
    value.  An integer literal of more than 4300 digits raises [ValueError],
    which is not a [JSONDecodeError].

    Strings are UTF-8 byte strings, so an escape above 127 is written as its
    UTF-8 encoding.  The recursion consumes fuel; [json_loads] supplies
    [2 * length + 1], and any more gives the same result
    ([parse_fuel_stable]).

    CPython's scanner enters a recursive call for every array and object
    and raises [RecursionError] when the interpreter allows no more.  The
    decoder takes the number of levels left to it ([json_loads_at]);
    [json_loads] gives it [recursion_limit], the default of
    [sys.getrecursionlimit()].  The frames in use at the call, which lower
    that number, are not counted.  A text that opens more arrays than the
    budget raises [RecursionError] whatever follows
    ([json_loads_at_deep]), and every value returned is nested within the
    budget ([json_loads_at_depth]). *)

From Stdlib Require Import String Ascii ZArith List Lia Bool.
From stdpp Require Import base tactics option list strings.
From S2P Require Import Prelude Json.

(** ** Characters *)

Definition is_ws (c : ascii) : bool :=
  match c with
  | " " | "009" | "010" | "013" => true
  | _ => false
  end%char.

Fixpoint skip_ws (s : string) : string :=
  match s with
  | String c s' => if is_ws c then skip_ws s' else s
  | EmptyString => s
  end.

Definition digit_val (c : ascii) : option Z :=
  let n := Z.of_nat (nat_of_ascii c) in
  if (48 <=? n)%Z && (n <=? 57)%Z then Some (n - 48)%Z else None.

Definition hex_val (c : ascii) : option Z :=
  match c with
  | "a" | "A" => Some 10 | "b" | "B" => Some 11 | "c" | "C" => Some 12
  | "d" | "D" => Some 13 | "e" | "E" => Some 14 | "f" | "F" => Some 15
  | _ => digit_val c
  end%char%Z.

(** [strip_prefix p s] is the rest of [s] after [p], when [s] starts with [p]. *)
Fixpoint strip_prefix (p s : string) : option string :=
  match p, s with
  | EmptyString, _ => Some s
  | String a p', String b s' => if Ascii.eqb a b then strip_prefix p' s' else None
  | String _ _, EmptyString => None
  end.

(** ** Numbers *)

(** The longest run of decimal digits at the head of [s], and the rest. *)
Fixpoint span_digits (s : string) : list Z * string :=
  match s with
  | String c s' =>
      match digit_val c with
      | Some d => let '(ds, r) := span_digits s' in (d :: ds, r)
      | None => ([], s)
      end
  | EmptyString => ([], s)
  end.

Definition digits_Z (ds : list Z) : Z :=
  fold_left (λ a d, 10 * a + d)%Z ds 0%Z.

(** The limit on the digits of an integer literal. *)
Definition max_str_digits : nat := 4300.

(** The integer part: [0] alone, or a non-zero digit and the digits after. *)
Definition span_int (s : string) : option (list Z * string) :=
  match s with
  | String c r =>
      match digit_val c with
      | Some d =>
          if (d =? 0)%Z then Some ([d], r)
          else let '(ds, r') := span_digits r in Some (d :: ds, r')
      | None => None
      end
  | EmptyString => None
  end.

(** The fraction: a point and at least one digit, or nothing. *)
Definition span_frac (s : string) : list Z * string :=
  match s with
  | String "." r =>
      match span_digits r with
      | ([], _) => ([], s)
      | (ds, r') => (ds, r')
      end
  | _ => ([], s)
  end.

(** The exponent: [e] or [E], an optional sign and at least one digit, or
    nothing. *)
Definition span_exp (s : string) : option Z * string :=
  match s with
  | String c r =>
      if Ascii.eqb c "e" || Ascii.eqb c "E" then
        let '(neg, r1) :=
          match r with
          | String "-" r' => (true, r')
          | String "+" r' => (false, r')
          | _ => (false, r)
          end in
        match span_digits r1 with
        | ([], _) => (None, s)
        | (ds, r2) => (Some (if neg then - digits_Z ds else digits_Z ds)%Z, r2)
        end
      else (None, s)
  | EmptyString => (None, s)
  end.

Definition parse_number (s : string) : Result (JSON * string) :=
  let '(neg, s1) :=
    match s with String "-" r => (true, r) | _ => (false, s) end in
  match span_int s1 with
  | None => Raise JSONDecodeError
  | Some (ids, s2) =>
      let '(fds, s3) := span_frac s2 in
      let '(ex, s4) := span_exp s3 in
      let sign (z : Z) := if neg then (- z)%Z else z in
      match fds, ex with
      | [], None =>
          if (max_str_digits <? length ids)%nat then Raise ValueError
          else Ok (JNum (PInt (sign (digits_Z ids))), s4)
      | _, _ =>
          Ok (JNum (PFloat (sign (digits_Z (ids ++ fds)))
                      (default 0%Z ex - Z.of_nat (length fds))), s4)
      end
  end.

(** ** Strings *)

Definition byte_of_Z (z : Z) : ascii := ascii_of_N (Z.to_N z).

(** The UTF-8 encoding of a code point (a lone surrogate is encoded like any
    other code point of its range). *)
Definition utf8_encode (cp : Z) : list ascii :=
  if (cp <? 128)%Z then [byte_of_Z cp]
  else if (cp <? 2048)%Z then
    [byte_of_Z (192 + cp / 64); byte_of_Z (128 + cp mod 64)]
  else if (cp <? 65536)%Z then
    [byte_of_Z (224 + cp / 4096); byte_of_Z (128 + (cp / 64) mod 64);
     byte_of_Z (128 + cp mod 64)]
  else
    [byte_of_Z (240 + cp / 262144); byte_of_Z (128 + (cp / 4096) mod 64);
     byte_of_Z (128 + (cp / 64) mod 64); byte_of_Z (128 + cp mod 64)].

Definition is_high_surrogate (cp : Z) : bool := (55296 <=? cp)%Z && (cp <=? 56319)%Z.
Definition is_low_surrogate (cp : Z) : bool := (56320 <=? cp)%Z && (cp <=? 57343)%Z.
Definition join_surrogates (hi lo : Z) : Z :=
  (65536 + (hi - 55296) * 1024 + (lo - 56320))%Z.

(** The character a short escape stands for. *)
Definition short_escape (c : ascii) : option ascii :=
  match c with
  | "034" => Some "034" | "\" => Some "\" | "/" => Some "/"
  | "b" => Some "008" | "f" => Some "012" | "n" => Some "010"
  | "r" => Some "013" | "t" => Some "009"
  | _ => None
  end%char.

(** Where the scanner is inside a string literal.  [hi] is a high surrogate
    already decoded and not yet written, kept while the scanner finds out
    whether a low surrogate follows. *)
Inductive SState : Type :=
| SNormal
| SEsc
| SHex (hi : option Z) (k : nat) (v : Z)
| SPendHi (hi : Z)
| SPendEsc (hi : Z).

(** [acc] holds the bytes written so far, last first. *)
Definition emit (cp : Z) (acc : list ascii) : list ascii :=
  rev_append (utf8_encode cp) acc.

(** A code point whose escape has just been read with nothing pending. *)
Definition fresh_cp (cp : Z) (acc : list ascii) : SState * list ascii :=
  if is_high_surrogate cp then (SPendHi cp, acc) else (SNormal, emit cp acc).

(** One character of a string literal: the next state and output, the end of
    the literal, or an error. *)
Inductive SStep : Type :=
| SGo (st : SState) (acc : list ascii)
| SDone (acc : list ascii)
| SErr.

Definition step_normal (c : ascii) (acc : list ascii) : SStep :=
  if Ascii.eqb c "034" then SDone acc
  else if Ascii.eqb c "\" then SGo SEsc acc
  else if (nat_of_ascii c <? 32)%nat then SErr
  else SGo SNormal (c :: acc).

Definition step_esc (c : ascii) (acc : list ascii) : SStep :=
  if Ascii.eqb c "u" then SGo (SHex None 0 0) acc
  else match short_escape c with
       | Some x => SGo SNormal (x :: acc)
       | None => SErr
       end.

Definition step_hex (hi : option Z) (k : nat) (v : Z) (c : ascii)
    (acc : list ascii) : SStep :=
  match hex_val c with
  | None => SErr
  | Some d =>
      let v' := (16 * v + d)%Z in
      if (k <? 3)%nat then SGo (SHex hi (S k) v') acc
      else match hi with
           | Some h =>
               if is_low_surrogate v'
               then SGo SNormal (emit (join_surrogates h v') acc)
               else let '(st, acc') := fresh_cp v' (emit h acc) in SGo st acc'
           | None => let '(st, acc') := fresh_cp v' acc in SGo st acc'
           end
  end.

Definition string_step (st : SState) (c : ascii) (acc : list ascii) : SStep :=
  match st with
  | SNormal => step_normal c acc
  | SEsc => step_esc c acc
  | SHex hi k v => step_hex hi k v c acc
  | SPendHi hi =>
      if Ascii.eqb c "\" then SGo (SPendEsc hi) acc
      else step_normal c (emit hi acc)
  | SPendEsc hi =>
      if Ascii.eqb c "u" then SGo (SHex (Some hi) 0 0) acc
      else step_esc c (emit hi acc)
  end.

(** The body of a string literal, after its opening quote. *)
Fixpoint scan_string (st : SState) (acc : list ascii) (s : string)
    : Result (string * string) :=
  match s with
  | EmptyString => Raise JSONDecodeError
  | String c s' =>
      match string_step st c acc with
      | SGo st' acc' => scan_string st' acc' s'
      | SDone acc' => Ok (string_of_list_ascii (rev acc'), s')
      | SErr => Raise JSONDecodeError
      end
  end.

Definition parse_string (s : string) : Result (string * string) :=
  scan_string SNormal [] s.

(** ** Values *)

(** A literal [lit] standing for [v] at the head of [s]. *)
Definition parse_literal (lit : string) (v : JSON) (s : string)
    : Result (JSON * string) :=
  match strip_prefix lit s with
  | Some r => Ok (v, r)
  | None => Raise JSONDecodeError
  end.

Fixpoint parse_value (fuel depth : nat) (s : string) : Result (JSON * string) :=
  match fuel with
  | O => Raise RecursionError
  | S fuel' =>
      match s with
      | EmptyString => Raise JSONDecodeError
      | String c r =>
          if Ascii.eqb c "034" then
            '(str, r') ← parse_string r; Ok (JString str, r')
          else if Ascii.eqb c "{" then
            match depth with
            | O => Raise RecursionError
            | S depth' =>
                match skip_ws r with
                | String "}" r' => Ok (JObject [], r')
                | r1 => parse_members fuel' depth' r1 []
                end
            end
          else if Ascii.eqb c "[" then
            match depth with
            | O => Raise RecursionError
            | S depth' =>
                match skip_ws r with
                | String "]" r' => Ok (JArray [], r')
                | r1 => parse_elems fuel' depth' r1 []
                end
            end
          else if Ascii.eqb c "n" then parse_literal "null" JNull s
          else if Ascii.eqb c "t" then parse_literal "true" (JBool true) s
          else if Ascii.eqb c "f" then parse_literal "false" (JBool false) s
          else if Ascii.eqb c "N" then parse_literal "NaN" (JNum PNaN) s
          else if Ascii.eqb c "I" then
            parse_literal "Infinity" (JNum (PInf false)) s
          else
            match parse_number s with
            | Ok x => Ok x
            | Raise ValueError => Raise ValueError
            | Raise _ => parse_literal "-Infinity" (JNum (PInf true)) s
            end
      end
  end

with parse_elems (fuel depth : nat) (s : string) (acc : list JSON)
    : Result (JSON * string) :=
  match fuel with
  | O => Raise RecursionError
  | S fuel' =>
      '(v, r) ← parse_value fuel' depth s;
      match skip_ws r with
      | String "]" r' => Ok (JArray (rev (v :: acc)), r')
      | String "," r' => parse_elems fuel' depth (skip_ws r') (v :: acc)
      | _ => Raise JSONDecodeError
      end
  end

with parse_members (fuel depth : nat) (s : string) (acc : list (string * JSON))
    : Result (JSON * string) :=
  match fuel with
  | O => Raise RecursionError
  | S fuel' =>
      match s with
      | String "034" r =>
          '(k, r1) ← parse_string r;
          match skip_ws r1 with
          | String ":" r2 =>
              '(v, r3) ← parse_value fuel' depth (skip_ws r2);
              let acc' := dict_set k v acc in
              match skip_ws r3 with
              | String "}" r' => Ok (JObject acc', r')
              | String "," r' => parse_members fuel' depth (skip_ws r') acc'
              | _ => Raise JSONDecodeError
              end
          | _ => Raise JSONDecodeError
          end
      | _ => Raise JSONDecodeError
      end
  end.

(** The UTF-8 encoding of the byte order mark. *)
Definition BOM : string :=
  String "239" (String "187" (String "191" EmptyString)).

Definition loads_fuel (s : string) : nat := 2 * String.length s + 1.

(** The decoder with [depth] levels of arrays and objects left to it. *)
Definition json_loads_at (depth : nat) (s : string) : Result JSON :=
  if startswith BOM s then Raise JSONDecodeError
  else
    '(v, r) ← parse_value (loads_fuel s) depth (skip_ws s);
    match skip_ws r with
    | EmptyString => Ok v
    | String _ _ => Raise JSONDecodeError
    end.

(** The levels the interpreter leaves to the decoder: the default of
    [sys.getrecursionlimit()]. *)
Definition recursion_limit : nat := 1000.

(** [json.loads(s)]. *)
Definition json_loads (s : string) : Result JSON := json_loads_at recursion_limit s.

(** A value whose arrays and objects are nested at most [depth] deep. *)
Fixpoint depth_within (depth : nat) (v : JSON) {struct v} : bool :=
  match v, depth with
  | JArray xs, S depth' => forallb (depth_within depth') xs
  | JObject kvs, S depth' => forallb (λ kv, depth_within depth' (snd kv)) kvs
  | (JArray _ | JObject _), O => false
  | _, _ => true
  end.

(** ** Predicates on the decoder *)

(** A scanner that returns leaves less than it was given. *)
Definition consumes (f : string → Result (JSON * string)) : Prop :=
  ∀ s v r, f s = Ok (v, r) → String.length r < String.length s.

(** A scanner whose result with some fuel and depth is its result with any
    more of either, unless it ran out. *)
Definition budget_stable (f : nat → nat → Result (JSON * string)) (fuel d : nat)
    : Prop :=
  ∀ fuel' d' x, fuel ≤ fuel' → d ≤ d' → f fuel d = x → x ≠ Raise RecursionError →
                f fuel' d' = x.

(** The errors the decoder raises. *)
Definition decoder_error (e : PyError) : Prop :=
  e = JSONDecodeError ∨ e = ValueError ∨ e = RecursionError.

(** The characters a JSON text may start with: a blank, or the first
    character of a value. *)
Definition opens_value (c : ascii) : bool :=
  is_ws c ||
  match c with
  | "034" | "{" | "[" | "-" | "n" | "t" | "f" | "N" | "I" => true
  | _ => match digit_val c with Some _ => true | None => false end
  end%char.

(** [n] opening brackets. *)
Fixpoint brackets (n : nat) : string :=
  match n with
  | O => EmptyString
  | S n' => String "[" (brackets n')
  end.

(** ** What the scanners leave is no longer than what they were given *)

Lemma skip_ws_length s : String.length (skip_ws s) ≤ String.length s.
Proof. induction s as [|c s IH]; simpl; [lia|]. destruct (is_ws c); simpl; lia. Qed.

Lemma strip_prefix_length p s r :
  strip_prefix p s = Some r → String.length s = String.length p + String.length r.
Proof.
  revert s. induction p as [|a p IH]; intros [|b s]; simpl; try done.
  - by intros [= <-].
  - by intros [= <-].
  - destruct (Ascii.eqb a b); [|done]. intros H%IH. lia.
Qed.

Lemma span_digits_length s : String.length (span_digits s).2 ≤ String.length s.
Proof.
  induction s as [|c s IH]; simpl; [lia|].
  destruct (digit_val c); simpl; [|lia].
  destruct (span_digits s) as [ds r]. simpl in *. lia.
Qed.

(** [span_bound]: every run of digits taken in the context bounds its rest. *)
Ltac span_bound :=
  repeat match goal with
  | H : span_digits ?x = (_, _) |- _ =>
      let H' := fresh in
      pose proof (span_digits_length x) as H'; rewrite H in H'; simpl in H';
      clear H
  end.

Lemma span_int_length s ds r : span_int s = Some (ds, r) → String.length r < String.length s.
Proof.
  destruct s as [|c s]; simpl; [done|].
  destruct (digit_val c) as [d|]; [|done].
  destruct (d =? 0)%Z; [intros [= _ <-]; lia|].
  pose proof (span_digits_length s).
  destruct (span_digits s) as [ds' r']. intros [= _ <-]. simpl in *. lia.
Qed.

Lemma span_frac_length s : String.length (span_frac s).2 ≤ String.length s.
Proof.
  destruct s as [|c s]; simpl; [lia|].
  repeat case_match; simplify_eq; span_bound; simpl in *; lia.
Qed.

Lemma span_exp_length s : String.length (span_exp s).2 ≤ String.length s.
Proof.
  destruct s as [|c s]; simpl; [lia|].
  destruct (Ascii.eqb c "e" || Ascii.eqb c "E"); simpl; [|lia].
  repeat case_match; simplify_eq; span_bound; simpl in *; lia.
Qed.

Lemma parse_number_length s v r : parse_number s = Ok (v, r) → String.length r < String.length s.
Proof.
  unfold parse_number.
  destruct (match s with String "-" r => (true, r) | _ => (false, s) end)
    as [neg s1] eqn:Hs.
  assert (String.length s1 ≤ String.length s) by (repeat case_match; simplify_eq; simpl; lia).
  destruct (span_int s1) as [[ids s2]|] eqn:Hi; [|done].
  apply span_int_length in Hi.
  pose proof (span_frac_length s2). destruct (span_frac s2) as [fds s3].
  pose proof (span_exp_length s3). destruct (span_exp s3) as [ex s4].
  simpl in *. repeat case_match; intros; simplify_eq; lia.
Qed.

Lemma scan_string_length st acc s str r :
  scan_string st acc s = Ok (str, r) → String.length r < String.length s.
Proof.
  revert st acc. induction s as [|c s IH]; intros st acc; simpl; [done|].
  destruct (string_step st c acc) as [st' acc'|acc'|]; [| |done].
  - intros H%IH. lia.
  - intros [= _ <-]. lia.
Qed.

Lemma parse_literal_consumes lit v s v' r :
  parse_literal lit v s = Ok (v', r) →
  String.length s = String.length lit + String.length r.
Proof.
  unfold parse_literal. destruct (strip_prefix lit s) eqn:H; [|done].
  intros [= _ <-]. by apply strip_prefix_length.
Qed.

(** [len_facts]: what the equations of the context say about lengths. *)
Ltac len_fact :=
  match goal with
  | H : skip_ws ?x = _ |- _ =>
      let H' := fresh in
      pose proof (skip_ws_length x) as H'; rewrite H in H'; simpl in H'; clear H
  | H : parse_string ?x = Ok _ |- _ => apply scan_string_length in H
  | H : parse_number ?x = Ok _ |- _ => apply parse_number_length in H
  | H : parse_literal _ _ ?x = Ok _ |- _ =>
      apply parse_literal_consumes in H; simpl in H
  end.

Ltac skip_ws_known x :=
  lazymatch goal with
  | _ : String.length (skip_ws x) ≤ String.length x |- _ => fail
  | _ => pose proof (skip_ws_length x)
  end.

Ltac skip_ws_bound :=
  match goal with
  | H : context [String.length (skip_ws ?x)] |- _ => skip_ws_known x
  | |- context [String.length (skip_ws ?x)] => skip_ws_known x
  end.

Ltac len_facts := repeat len_fact; repeat skip_ws_bound.

(** [result_cases H]: splits the binds and matches of [H]. *)
Ltac result_cases H :=
  repeat (simpl in H; unfold mbind, Result_bind in H;
          match type of H with
          | context [match ?x with _ => _ end] =>
              lazymatch x with
              | context [match _ with _ => _ end] => fail
              | _ => destruct x eqn:?; try done
              end
          end).

Lemma parse_consumes fuel :
  (∀ d, consumes (parse_value fuel d)) ∧
  (∀ d acc, consumes (λ s, parse_elems fuel d s acc)) ∧
  (∀ d acc, consumes (λ s, parse_members fuel d s acc)).
Proof.
  induction fuel as [|fuel (IHv & IHe & IHm)]; [done|].
  split_and!; [intros d|intros d acc..]; intros s v r H; simpl in H.
  - destruct s as [|c s]; [done|]. result_cases H; simplify_eq.
    all: try (apply IHe in H); try (apply IHm in H); len_facts; simpl in *; try lia.

  - result_cases H; simplify_eq.
    all: try (apply IHe in H);
      repeat match goal with H : parse_value _ _ _ = Ok _ |- _ => apply IHv in H end;
      len_facts; simpl in *; try lia.
  - result_cases H; simplify_eq.
    all: try (apply IHm in H);
      repeat match goal with H : parse_value _ _ _ = Ok _ |- _ => apply IHv in H end;
      len_facts; simpl in *; try lia.
Qed.

(** ** Only nesting consumes fuel *)

Lemma scan_string_raises st acc s e :
  scan_string st acc s = Raise e → e = JSONDecodeError.
Proof.
  revert st acc. induction s as [|c s IH]; intros st acc; simpl; [by intros [= <-]|].
  destruct (string_step st c acc); [apply IH|done|by intros [= <-]].
Qed.

Lemma parse_number_raises s e :
  parse_number s = Raise e → e = JSONDecodeError ∨ e = ValueError.
Proof.
  unfold parse_number.
  destruct (match s with String "-" r => (true, r) | _ => (false, s) end)
    as [neg s1].
  destruct (span_int s1) as [[ids s2]|]; [|intros [= <-]; by left].
  destruct (span_frac s2) as [fds s3], (span_exp s3) as [ex s4].
  repeat case_match; intros; simplify_eq; auto.
Qed.

Lemma parse_literal_raises lit v s e :
  parse_literal lit v s = Raise e → e = JSONDecodeError.
Proof. unfold parse_literal. destruct (strip_prefix lit s); by intros [= <-]. Qed.

(** [consumed]: what the calls of the context that returned say about
    lengths, keeping their equations. *)
Ltac consumed :=
  repeat match goal with
  | H : parse_value ?f ?d ?s = Ok (?v, ?r) |- _ =>
      pose proof (proj1 (parse_consumes f) d s v r H); revert H
  | H : parse_string ?s = Ok _ |- _ =>
      pose proof (scan_string_length _ _ _ _ _ H); revert H
  | H : skip_ws ?x = _ |- _ =>
      let H' := fresh in
      pose proof (skip_ws_length x) as H'; rewrite H in H'; simpl in H'; revert H
  end;
  intros; repeat skip_ws_bound.

(** [same_calls IHv]: rewrites the calls of the goal to the results the
    context has for them, through the induction hypothesis [IHv] on values. *)
Ltac same_calls IHv :=
  repeat (match goal with
    | H : parse_value ?f ?d ?s = _ |- context [parse_value ?f' ?d' ?s] =>
        rewrite (IHv d s f' d' _ ltac:(lia) ltac:(lia) H) by done
    | H : skip_ws ?s = _ |- context [skip_ws ?s] => rewrite H
    | H : parse_string ?s = _ |- context [parse_string ?s] => rewrite H
    end; simpl; unfold mbind, Result_bind; simpl).

(** ** Fuel beyond twice the length of the text changes nothing *)

Lemma parse_fuel_stable fuel :
  (∀ d s fuel', 2 * String.length s + 1 ≤ fuel → fuel ≤ fuel' →
        parse_value fuel' d s = parse_value fuel d s) ∧
  (∀ d s acc fuel', 2 * String.length s + 2 ≤ fuel → fuel ≤ fuel' →
        parse_elems fuel' d s acc = parse_elems fuel d s acc) ∧
  (∀ d s acc fuel', 2 * String.length s + 2 ≤ fuel → fuel ≤ fuel' →
        parse_members fuel' d s acc = parse_members fuel d s acc).
Proof.
  induction fuel as [|fuel (IHv & IHe & IHm)]; [split_and!; intros; lia|].
  split_and!; [intros d s [|fuel'] Hf Hle|intros d s acc [|fuel'] Hf Hle..];
    try lia; [destruct s as [|c s]; [done|]|..].
  all: match goal with |- _ = ?rhs => destruct rhs as [x|e] eqn:Hx end.
  all: simpl in Hx |- *.
  all: result_cases Hx; simplify_eq; unfold mbind, Result_bind; try done.
  all: consumed; simpl in *.
  all: repeat (match goal with
         | H : parse_value ?f ?d ?s = _ |- context [parse_value ?f' ?d ?s] =>
             rewrite (IHv d s f') by (simpl; repeat skip_ws_bound; lia); rewrite H
         | H : skip_ws ?s = _ |- context [skip_ws ?s] => rewrite H
         | H : parse_string ?s = _ |- context [parse_string ?s] => rewrite H
         end; simpl; unfold mbind, Result_bind; simpl).
  all: try done.
  all: first [rewrite IHm by (simpl; repeat skip_ws_bound; lia) | rewrite IHe by (simpl; repeat skip_ws_bound; lia)
             | rewrite IHv by (simpl; repeat skip_ws_bound; lia)]; done.
Qed.

(** ** More fuel and more depth change no result but [RecursionError] *)

Lemma parse_mono fuel :
  (∀ d s, budget_stable (λ n m, parse_value n m s) fuel d) ∧
  (∀ d s acc, budget_stable (λ n m, parse_elems n m s acc) fuel d) ∧
  (∀ d s acc, budget_stable (λ n m, parse_members n m s acc) fuel d).
Proof.
  unfold budget_stable.
  induction fuel as [|fuel (IHv & IHe & IHm)];
    [split_and!; intros; by simplify_eq/=|].
  split_and!;
    [intros d s [|fuel'] d' x Hle Hd Hx Hne|intros d s acc [|fuel'] d' x Hle Hd Hx Hne..];
    try lia; simpl in *; [destruct s as [|c s]; [done|]|..].
  all: result_cases Hx; simplify_eq; unfold mbind, Result_bind; try done.
  all: try (destruct d' as [|d']; [lia|]).
  all: same_calls IHv.
  all: try done.
  all: first [eapply IHm | eapply IHe | eapply IHv]; [lia| |reflexivity|done]; lia.
Qed.

Lemma parse_fuel_mono fuel d s fuel' x :
  fuel ≤ fuel' → parse_value fuel d s = x → x ≠ Raise RecursionError →
  parse_value fuel' d s = x.
Proof. intros Hle. by apply (proj1 (parse_mono fuel) d s). Qed.

Lemma parse_depth_mono fuel d s d' x :
  d ≤ d' → parse_value fuel d s = x → x ≠ Raise RecursionError →
  parse_value fuel d' s = x.
Proof. intros Hle. by apply (proj1 (parse_mono fuel) d s). Qed.

(** The result of the decoder with the fuel of [json_loads] is its result
    with any fuel and any smaller depth that do not run out. *)
Lemma parse_value_loads_fuel s fuel d d' x :
  parse_value fuel d s = x → x ≠ Raise RecursionError → d ≤ d' →
  parse_value (loads_fuel s) d' s = x.
Proof.
  intros Hx Hne Hd. apply (parse_depth_mono _ d); [done| |done]. unfold loads_fuel.
  destruct (Nat.le_gt_cases fuel (2 * String.length s + 1)).
  - by apply (parse_fuel_mono fuel).
  - rewrite <- Hx. symmetry. apply (proj1 (parse_fuel_stable _)); lia.
Qed.

(** The fuel of [json_loads] is enough: the decoder returns the same with
    any more. *)
Lemma json_loads_fuel d s fuel :
  loads_fuel (skip_ws s) ≤ fuel →
  parse_value fuel d (skip_ws s) = parse_value (loads_fuel s) d (skip_ws s).
Proof.
  intros Hf. pose proof (skip_ws_length s). unfold loads_fuel in *.
  rewrite (proj1 (parse_fuel_stable (2 * String.length (skip_ws s) + 1)) d _ fuel)
    by lia.
  symmetry. apply (proj1 (parse_fuel_stable _)); lia.
Qed.

Lemma parse_raises_all fuel :
  (∀ d s e, parse_value fuel d s = Raise e → decoder_error e) ∧
  (∀ d s acc e, parse_elems fuel d s acc = Raise e → decoder_error e) ∧
  (∀ d s acc e, parse_members fuel d s acc = Raise e → decoder_error e).
Proof.
  unfold decoder_error.
  induction fuel as [|fuel (IHv & IHe & IHm)];
    [split_and!; intros; simplify_eq/=; auto|].
  split_and!; [intros d s e H|intros d s acc e H..]; simpl in H;
    [destruct s as [|c s]; [simplify_eq; auto|]|..].
  all: result_cases H; simplify_eq; eauto.
  all: repeat match goal with
         | H : parse_string _ = Raise _ |- _ => apply scan_string_raises in H
         | H : parse_number _ = Raise _ |- _ => apply parse_number_raises in H
         | H : parse_literal _ _ _ = Raise _ |- _ => apply parse_literal_raises in H
         end; simplify_eq; auto.
  all: naive_solver.
Qed.

(** On every input the decoder returns a value or raises its own error,
    [ValueError] for an integer of too many digits, or [RecursionError]. *)
Lemma json_loads_at_total (d : nat) (s : string) :
  (∃ v, json_loads_at d s = Ok v) ∨
  (∃ e, json_loads_at d s = Raise e ∧ decoder_error e).
Proof.
  unfold json_loads_at. destruct (startswith BOM s); [right; eexists; split; [done|by left]|].
  destruct (parse_value _ _ _) as [[v r]|e] eqn:Hp; simpl.
  - destruct (skip_ws r); [eauto|right; eexists; split; [done|by left]].
  - right. exists e. split; [done|]. apply (proj1 (parse_raises_all _) _ _ _ Hp).
Qed.

Lemma json_loads_total (s : string) :
  (∃ v, json_loads s = Ok v) ∨ json_loads s = Raise JSONDecodeError ∨
  json_loads s = Raise ValueError ∨ json_loads s = Raise RecursionError.
Proof.
  destruct (json_loads_at_total recursion_limit s) as [?|(e & He & Hd)]; [by left|right].
  unfold json_loads. rewrite He. destruct Hd as [->|[->| ->]]; auto.
Qed.

(** ** A text that starts like no value is rejected *)

Lemma parse_value_head fuel d c r :
  opens_value c = false → parse_value (S fuel) d (String c r) = Raise JSONDecodeError.
Proof. by destruct c as [[] [] [] [] [] [] [] []]. Qed.

Lemma json_loads_at_head d c r :
  opens_value c = false → json_loads_at d (String c r) = Raise JSONDecodeError.
Proof.
  intros Hc. unfold json_loads_at. destruct (startswith BOM _); [done|].
  assert (is_ws c = false) as Hw by (by destruct c as [[] [] [] [] [] [] [] []]).
  cbn [skip_ws]. rewrite Hw. unfold loads_fuel. rewrite Nat.add_1_r.
  by rewrite parse_value_head.
Qed.

(** ** Nesting beyond the depth raises [RecursionError] *)

Lemma parse_value_deep d fuel r :
  parse_value fuel d (brackets (S d) +:+ r) = Raise RecursionError.
Proof.
  revert fuel. induction d as [|d IH]; intros [|fuel]; try done.
  cbn [brackets] in *. rewrite !str_app_cons in *. simpl.
  destruct fuel as [|fuel]; [done|]. simpl. by rewrite IH.
Qed.

(** A text that opens more arrays than the depth allows raises
    [RecursionError], whatever follows. *)
Lemma json_loads_at_deep d r :
  json_loads_at d (brackets (S d) +:+ r) = Raise RecursionError.
Proof.
  unfold json_loads_at. generalize (loads_fuel (brackets (S d) +:+ r)). intros fuel.
  pose proof (parse_value_deep d fuel r) as H.
  cbn [brackets] in *. rewrite !str_app_cons in *.
  change (skip_ws (String "[" ?t)) with (String "[" t).
  change (startswith BOM (String "[" ?t)) with false. cbv iota.
  by rewrite H.
Qed.

(** ** The values the decoder builds are well formed *)

Lemma dict_set_wf (k : string) (v : JSON) (d : list (string * JSON)) :
  json_wf v = true → json_wf (JObject d) = true →
  json_wf (JObject (dict_set k v d)) = true.
Proof.
  simpl. intros Hv [Hk Hd]%andb_true_iff. apply andb_true_iff. split.
  - by apply (dict_set_nodup k v d).
  - clear Hk. induction d as [|[k' v'] d IH]; simpl in *; [by rewrite Hv|].
    apply andb_true_iff in Hd as [H1 H2].
    destruct (String.eqb k k'); simpl; [by rewrite Hv|]. by rewrite H1, IH.
Qed.

Lemma parse_number_wf s v r : parse_number s = Ok (v, r) → json_wf v = true.
Proof.
  unfold parse_number.
  destruct (match s with String "-" r => (true, r) | _ => (false, s) end)
    as [neg s1].
  destruct (span_int s1) as [[ids s2]|]; [|done].
  destruct (span_frac s2) as [fds s3], (span_exp s3) as [ex s4].
  repeat case_match; intros; by simplify_eq.
Qed.

Lemma parse_literal_wf lit v s v' r :
  json_wf v = true → parse_literal lit v s = Ok (v', r) → json_wf v' = true.
Proof. unfold parse_literal. intros Hv. case_match; by intros [= <- _]. Qed.

Lemma parse_wf fuel :
  (∀ d s v r, parse_value fuel d s = Ok (v, r) → json_wf v = true) ∧
  (∀ d s acc v r, forallb json_wf acc = true →
      parse_elems fuel d s acc = Ok (v, r) → json_wf v = true) ∧
  (∀ d s acc v r, json_wf (JObject acc) = true →
      parse_members fuel d s acc = Ok (v, r) → json_wf v = true).
Proof.
  induction fuel as [|fuel (IHv & IHe & IHm)]; [done|].
  split_and!; [intros d s v r H|intros d s acc v r Hacc H..]; simpl in H;
    [destruct s as [|c s]; [done|]|..].
  all: result_cases H; simplify_eq; try done.
  all: repeat match goal with
         | H : parse_value _ _ _ = Ok _ |- _ => apply IHv in H
         | H : parse_number _ = Ok _ |- _ => apply parse_number_wf in H
         | H : parse_literal _ _ _ = Ok _ |- _ => by apply parse_literal_wf in H
         end; try done.
  all: try (by eapply IHe; [|exact H]).
  all: try (by eapply IHm; [|exact H]).
  all: try (eapply IHe; [|exact H]; simpl; by rewrite ?Hacc, ?andb_true_r).
  all: try (eapply IHm; [|exact H]; by apply dict_set_wf).
  all: try (by apply dict_set_wf).
  change (json_wf (JArray ?l)) with (forallb json_wf l).
  match goal with
  | Hj : json_wf _ = true |- _ =>
      by rewrite forallb_app, forallb_rev, Hacc; simpl; rewrite Hj
  end.
Qed.

(** Every value [json_loads] returns is well formed: no object
    in it holds a key twice. *)
Lemma json_loads_wf (s : string) (v : JSON) :
  json_loads s = Ok v → json_wf v = true.
Proof.
  unfold json_loads, json_loads_at. destruct (startswith BOM s); [done|].
  destruct (parse_value _ _ _) as [[v' r]|e] eqn:Hp; simpl; [|done].
  destruct (skip_ws r); [|done]. intros [= <-].
  by apply (proj1 (parse_wf _)) in Hp.
Qed.

(** ** The values the decoder builds are no deeper than its depth *)

Lemma dict_set_depth (d : nat) (k : string) (v : JSON) (kvs : list (string * JSON)) :
  depth_within d v = true → forallb (λ kv, depth_within d (snd kv)) kvs = true →
  forallb (λ kv, depth_within d (snd kv)) (dict_set k v kvs) = true.
Proof.
  intros Hv. induction kvs as [|[k' v'] kvs IH]; simpl; [by rewrite Hv|].
  intros [H1 H2]%andb_true_iff.
  destruct (String.eqb k k'); simpl; [by rewrite Hv|]. by rewrite H1, IH.
Qed.

Lemma parse_number_depth d s v r : parse_number s = Ok (v, r) → depth_within d v = true.
Proof.
  unfold parse_number.
  destruct (match s with String "-" r => (true, r) | _ => (false, s) end)
    as [neg s1].
  destruct (span_int s1) as [[ids s2]|]; [|done].
  destruct (span_frac s2) as [fds s3], (span_exp s3) as [ex s4].
  repeat case_match; intros; by simplify_eq.
Qed.

Lemma parse_depth fuel :
  (∀ d s v r, parse_value fuel d s = Ok (v, r) → depth_within d v = true) ∧
  (∀ d s acc v r, forallb (depth_within d) acc = true →
      parse_elems fuel d s acc = Ok (v, r) → depth_within (S d) v = true) ∧
  (∀ d s acc v r, forallb (λ kv, depth_within d (snd kv)) acc = true →
      parse_members fuel d s acc = Ok (v, r) → depth_within (S d) v = true).
Proof.
  induction fuel as [|fuel (IHv & IHe & IHm)]; [done|].
  split_and!; [intros d s v r H|intros d s acc v r Hacc H..]; simpl in H;
    [destruct s as [|c s]; [done|]|..].
  all: result_cases H; simplify_eq; try done.
  all: repeat match goal with
         | H : parse_value _ _ _ = Ok _ |- _ => apply IHv in H
         | H : parse_number _ = Ok _ |- _ => by apply (parse_number_depth d) in H
         | H : parse_literal _ _ _ = Ok _ |- _ =>
             unfold parse_literal in H; case_match; by simplify_eq
         end; try done.
  all: try (by eapply IHe; [|exact H]).
  all: try (by eapply IHm; [|exact H]).
  all: try (eapply IHe; [|exact H]; simpl; by rewrite ?Hacc, ?andb_true_r).
  all: try (eapply IHm; [|exact H]; by apply dict_set_depth).
  all: try (by apply dict_set_depth).
  cbn [depth_within].
  match goal with
  | Hj : depth_within _ _ = true |- _ =>
      by rewrite forallb_app, forallb_rev, Hacc; simpl; rewrite Hj
  end.
Qed.

(** Every value the decoder returns is nested no deeper than its depth. *)
Lemma json_loads_at_depth (d : nat) (s : string) (v : JSON) :
  json_loads_at d s = Ok v → depth_within d v = true.
Proof.
  unfold json_loads_at. destruct (startswith BOM s); [done|].
  destruct (parse_value _ _ _) as [[v' r]|e] eqn:Hp; simpl; [|done].
  destruct (skip_ws r); [|done]. intros [= <-].
  by apply (proj1 (parse_depth _)) in Hp.
Qed.
