(* ===== verification/JsonPrint.v ===== *)
(** * JsonPrint: the text of a JSON value, and the decoder on it

    The program only decodes: [json.loads] on the model's answer, on the
    body of the creation request and on every line of the chat stream.  What
    it decodes is written by its peers.  [json_encode] is the compact text
    of a value as a peer writes it: strings between quotes with the quote,
    the backslash and the control characters escaped, integers in decimal,
    a decimal [m * 10 ^ e] as its mantissa and exponent, arrays and objects
    with [,] and [:] and no blanks.

    The theorems show that the decoder of [JsonParse] reads every such text
    back to the value it was written from ([json_loads_encode]), for every
    well-formed value whose integers stay below the limit of 4300 digits
    and whose arrays and objects are nested within the recursion limit
    ([json_small]), and that these are the values [json.loads] can return
    ([json_loads_image]).  The proof goes through the scanners one by one (strings,
    numbers, elements, members) and uses that fuel beyond what a text needs
    does not change the result ([parse_fuel_mono]).  A text cut short
    inside a string is rejected ([parse_value_open_string] and the lemmas
    after it). *)

From Stdlib Require Import String Ascii ZArith List Lia Bool.
From stdpp Require Import base tactics option list strings.
From S2P Require Import Prelude Json JsonParse.

(** ** Strings *)

Definition hex_digit (n : nat) : ascii :=
  ascii_of_nat (if n <? 10 then 48 + n else 87 + n).

(** The text of one character inside a string literal. *)
Definition escape_char (c : ascii) : string :=
  let n := nat_of_ascii c in
  if Ascii.eqb c "034" then String "\" DQ
  else if Ascii.eqb c "\" then "\\"
  else if Ascii.eqb c "010" then "\n"
  else if Ascii.eqb c "013" then "\r"
  else if Ascii.eqb c "009" then "\t"
  else if Ascii.eqb c "008" then "\b"
  else if Ascii.eqb c "012" then "\f"
  else if n <? 32 then
    "\u00" +:+ String (hex_digit (n / 16)) (String (hex_digit (n mod 16)) "")
  else String c "".

Fixpoint json_escape (s : string) : string :=
  match s with
  | EmptyString => EmptyString
  | String c s' => escape_char c +:+ json_escape s'
  end.

Definition encode_string (s : string) : string := DQ +:+ json_escape s +:+ DQ.

(** ** Numbers *)

Definition is_digit (d : Z) : Prop := (0 ≤ d < 10)%Z.

Definition digit_char (d : Z) : ascii := ascii_of_nat (48 + Z.to_nat d).

(** The decimal digits of [z], most significant first, in front of [acc];
    [fuel] bounds the number of digits after the first. *)
Fixpoint digits_of (fuel : nat) (z : Z) (acc : list Z) : list Z :=
  match fuel with
  | O => z :: acc
  | S fuel' =>
      if (z <? 10)%Z then z :: acc
      else digits_of fuel' (z / 10) (z mod 10 :: acc)%Z
  end.

(** A number below [2 ^ (n + 1)] has at most [n + 1] decimal digits. *)
Definition Z_digits (z : Z) : list Z := digits_of (Z.to_nat (Z.log2 z)) z [].

Definition digits_string (ds : list Z) : string :=
  string_of_list_ascii (map digit_char ds).

Definition encode_Z (z : Z) : string :=
  if (z <? 0)%Z then String "-" (digits_string (Z_digits (- z)))
  else digits_string (Z_digits z).

Definition encode_num (n : PyNumber) : string :=
  match n with
  | PInt z => encode_Z z
  | PFloat m e => encode_Z m +:+ String "e" (encode_Z e)
  | PNaN => "NaN"
  | PInf false => "Infinity"
  | PInf true => "-Infinity"
  end.

(** ** Values *)

Fixpoint str_join (sep : string) (l : list string) : string :=
  match l with
  | [] => ""
  | x :: l' => match l' with [] => x | _ :: _ => x +:+ sep +:+ str_join sep l' end
  end.

Fixpoint json_encode (v : JSON) : string :=
  match v with
  | JNull => "null"
  | JBool b => if b then "true" else "false"
  | JNum n => encode_num n
  | JString s => encode_string s
  | JArray xs => "[" +:+ str_join "," (map json_encode xs) +:+ "]"
  | JObject kvs =>
      "{" +:+ str_join ","
                (map (λ kv, encode_string (fst kv) +:+ ":" +:+ json_encode (snd kv)) kvs)
          +:+ "}"
  end.

Definition encode_member (kv : string * JSON) : string :=
  encode_string (fst kv) +:+ ":" +:+ json_encode (snd kv).

(** The values whose integers the decoder accepts: at most 4300 digits. *)
Definition num_small (n : PyNumber) : bool :=
  match n with
  | PInt z => bool_decide (length (Z_digits (Z.abs z)) ≤ max_str_digits)
  | _ => true
  end.

Fixpoint ints_small (v : JSON) : bool :=
  match v with
  | JNum n => num_small n
  | JArray xs => forallb ints_small xs
  | JObject kvs => forallb (λ kv, ints_small (snd kv)) kvs
  | _ => true
  end.

(** The values the decoder accepts: integers of at most 4300 digits, and
    arrays and objects nested within the recursion limit. *)
Definition json_small (v : JSON) : bool :=
  ints_small v && depth_within recursion_limit v.

(** ** What the proofs speak of *)

(** Fuel that suffices to decode the text of a value. *)
Fixpoint json_fuel (v : JSON) : nat :=
  match v with
  | JArray xs => S (list_sum (map (λ x, S (json_fuel x)) xs))
  | JObject kvs => S (list_sum (map (λ kv, S (json_fuel (snd kv))) kvs))
  | _ => 1
  end.

Definition elems_fuel (xs : list JSON) : nat :=
  list_sum (map (λ x, S (json_fuel x)) xs).

Definition members_fuel (kvs : list (string * JSON)) : nat :=
  list_sum (map (λ kv, S (json_fuel (snd kv))) kvs).

(** A text that does not go on with a digit. *)
Definition no_digit (r : string) : bool :=
  match r with
  | EmptyString => true
  | String c _ => match digit_val c with Some _ => false | None => true end
  end.

(** What may follow a number. *)
Definition number_end (r : string) : bool :=
  match r with
  | EmptyString => true
  | String c _ =>
      no_digit r && negb (Ascii.eqb c "." || Ascii.eqb c "e" || Ascii.eqb c "E")
  end.

(** What follows a value inside a text: nothing, or a separator. *)
Definition delimited (r : string) : bool :=
  match r with
  | EmptyString => true
  | String c _ => Ascii.eqb c "," || Ascii.eqb c "]" || Ascii.eqb c "}"
  end.

(** The first character of a value: no blank, no separator, and not the
    first byte of the byte order mark. *)
Definition value_start (c : ascii) : bool :=
  negb (is_ws c || Ascii.eqb c "," || Ascii.eqb c "]" || Ascii.eqb c "}" ||
        Ascii.eqb c "239").

Definition starts_value (s : string) : Prop :=
  ∃ c s', s = String c s' ∧ value_start c = true.

(** A text that starts like a number: a minus sign or a digit. *)
Definition starts_number (s : string) : Prop :=
  ∃ c s', s = String c s' ∧
    (Ascii.eqb c "-" || match digit_val c with Some _ => true | None => false end) = true.

(** A value decodes from its text, whatever delimited text follows. *)
Definition decodes (v : JSON) : Prop :=
  ∀ fuel d r, json_fuel v ≤ fuel → depth_within d v = true → delimited r = true →
    parse_value fuel d (json_encode v +:+ r) = Ok (v, r).

(** ** Strings decode *)

Lemma scan_escape_char c acc r :
  scan_string SNormal acc (escape_char c +:+ r) = scan_string SNormal (c :: acc) r.
Proof. by destruct c as [[] [] [] [] [] [] [] []]. Qed.

Lemma string_of_list_ascii_snoc (l : list ascii) (c : ascii) (s : string) :
  string_of_list_ascii (l ++ [c]) +:+ s = string_of_list_ascii l +:+ String c s.
Proof. induction l as [|a l IH]; simpl; [done|]. by rewrite str_app_cons, IH. Qed.

Lemma scan_json_escape s acc r :
  scan_string SNormal acc (json_escape s +:+ DQ +:+ r) =
  Ok (string_of_list_ascii (rev acc) +:+ s, r).
Proof.
  revert acc. induction s as [|c s IH]; intros acc; simpl.
  - by rewrite str_app_nil_r.
  - rewrite str_app_assoc, scan_escape_char, IH. simpl.
    by rewrite string_of_list_ascii_snoc.
Qed.

Lemma parse_string_encode s r :
  parse_string (json_escape s +:+ DQ +:+ r) = Ok (s, r).
Proof. apply scan_json_escape. Qed.

(** An escaped text without its closing quote is no string. *)
Lemma scan_json_escape_open s acc :
  scan_string SNormal acc (json_escape s) = Raise JSONDecodeError.
Proof.
  revert acc. induction s as [|c s IH]; intros acc; [done|].
  cbn [json_escape]. by rewrite scan_escape_char.
Qed.

Lemma json_escape_app s t : json_escape (s +:+ t) = json_escape s +:+ json_escape t.
Proof.
  induction s as [|c s IH]; [by rewrite !str_app_nil_l|].
  rewrite str_app_cons. cbn [json_escape]. by rewrite IH, str_app_assoc.
Qed.

(** ** Numbers decode *)

Lemma digits_Z_snoc ds d : digits_Z (ds ++ [d]) = (10 * digits_Z ds + d)%Z.
Proof. unfold digits_Z. by rewrite fold_left_app. Qed.

Lemma digits_of_spec fuel z acc :
  (0 ≤ z < 10 ^ Z.of_nat (S fuel))%Z →
  ∃ d front, digits_of fuel z acc = d :: front ++ acc ∧
    Forall is_digit (d :: front) ∧ digits_Z (d :: front) = z ∧
    (z ≠ 0%Z → d ≠ 0%Z).
Proof.
  revert z acc. induction fuel as [|fuel IH]; intros z acc Hz.
  - exists z, []. simpl. change (10 ^ Z.of_nat 1)%Z with 10%Z in Hz.
    split_and!; [done|repeat constructor; lia|unfold digits_Z; simpl; lia|done].
  - simpl. destruct (Z.ltb_spec z 10).
    + exists z, [].
      split_and!; [done|repeat constructor; lia|unfold digits_Z; simpl; lia|done].
    + destruct (IH (z / 10)%Z (z mod 10 :: acc)%Z) as (d & front & -> & Hd & Hv & Hnz).
      { rewrite Nat2Z.inj_succ, Z.pow_succ_r in Hz by lia.
        split; [apply Z.div_pos; lia|apply Z.div_lt_upper_bound; lia]. }
      exists d, (front ++ [z mod 10])%Z. split_and!.
      * by rewrite <- app_assoc.
      * rewrite app_comm_cons. apply Forall_app. split; [done|].
        repeat constructor; apply Z.mod_pos_bound; lia.
      * rewrite app_comm_cons, digits_Z_snoc, Hv.
        pose proof (Z.div_mod z 10). lia.
      * intros _. apply Hnz. intros H0. apply Z.div_small_iff in H0; lia.
Qed.

Lemma Z_digits_spec z :
  (0 ≤ z)%Z →
  ∃ d front, Z_digits z = d :: front ∧ Forall is_digit (d :: front) ∧
    digits_Z (d :: front) = z ∧ (z ≠ 0%Z → d ≠ 0%Z).
Proof.
  intros Hz. unfold Z_digits.
  destruct (digits_of_spec (Z.to_nat (Z.log2 z)) z []) as (d & front & H & ?).
  - split; [done|]. destruct (decide (z = 0%Z)) as [->|]; [done|].
    rewrite Nat2Z.inj_succ, Z2Nat.id by apply Z.log2_nonneg.
    pose proof (Z.log2_spec z ltac:(lia)) as [_ Hlt].
    eapply Z.lt_le_trans; [exact Hlt|].
    apply Z.pow_le_mono_l. pose proof (Z.log2_nonneg z). lia.
  - exists d, front. by rewrite app_nil_r in H.
Qed.

Lemma Z_digits_value z : (0 ≤ z)%Z → digits_Z (Z_digits z) = z.
Proof. intros Hz. by destruct (Z_digits_spec z Hz) as (d & front & -> & _ & ? & _). Qed.

Lemma Z_digits_digits z : (0 ≤ z)%Z → Forall is_digit (Z_digits z).
Proof. intros Hz. by destruct (Z_digits_spec z Hz) as (d & front & -> & ? & _). Qed.

Lemma Z_digits_nonempty z : (0 ≤ z)%Z → Z_digits z ≠ [].
Proof. intros Hz. by destruct (Z_digits_spec z Hz) as (d & front & -> & _). Qed.

Lemma digit_val_digit_char d : is_digit d → digit_val (digit_char d) = Some d.
Proof.
  intros [H0 H9]. unfold digit_val, digit_char.
  rewrite nat_ascii_embedding by lia.
  rewrite Nat2Z.inj_add, Z2Nat.id by lia.
  destruct (Z.leb_spec 48 (Z.of_nat 48 + d)); [|lia].
  destruct (Z.leb_spec (Z.of_nat 48 + d) 57); [|lia].
  simpl. f_equal. lia.
Qed.

Lemma digits_string_cons d ds r :
  digits_string (d :: ds) +:+ r = String (digit_char d) (digits_string ds +:+ r).
Proof. done. Qed.

Lemma span_digits_string ds r :
  Forall is_digit ds → no_digit r = true →
  span_digits (digits_string ds +:+ r) = (ds, r).
Proof.
  intros Hds Hr. induction Hds as [|d ds Hd _ IH].
  - simpl. destruct r as [|c r]; [done|]. simpl in *.
    by destruct (digit_val c).
  - rewrite digits_string_cons. cbn [span_digits].
    by rewrite digit_val_digit_char, IH.
Qed.

Lemma number_end_no_digit r : number_end r = true → no_digit r = true.
Proof. destruct r as [|c r]; [done|]. simpl. by intros [? _]%andb_true_iff. Qed.

Lemma span_frac_end r : number_end r = true → span_frac r = ([], r).
Proof.
  destruct r as [|c r]; [done|]. simpl. intros [_ H]%andb_true_iff.
  by destruct c as [[] [] [] [] [] [] [] []].
Qed.

Lemma span_exp_end r : number_end r = true → span_exp r = (None, r).
Proof.
  destruct r as [|c r]; [done|]. simpl. intros [_ H]%andb_true_iff.
  by destruct c as [[] [] [] [] [] [] [] []].
Qed.

Lemma span_int_encode z r :
  (0 ≤ z)%Z → no_digit r = true →
  span_int (digits_string (Z_digits z) +:+ r) = Some (Z_digits z, r).
Proof.
  intros Hz Hr. destruct (decide (z = 0%Z)) as [->|Hnz]; [done|].
  destruct (Z_digits_spec z Hz) as (d & front & -> & Hd & _ & Hd0).
  rewrite digits_string_cons. cbn [span_int].
  inv Hd. rewrite digit_val_digit_char by done.
  destruct (Z.eqb_spec d 0); [by specialize (Hd0 Hnz)|].
  by rewrite span_digits_string.
Qed.

(** [digit_cases H]: the ten values of the digit that [H] speaks of. *)
Ltac digit_cases H :=
  let Hc := fresh in
  match type of H with
  | is_digit ?d =>
      assert (d = 0 ∨ d = 1 ∨ d = 2 ∨ d = 3 ∨ d = 4 ∨ d = 5 ∨ d = 6 ∨ d = 7 ∨
              d = 8 ∨ d = 9)%Z as Hc by (unfold is_digit in H; lia);
      repeat (destruct Hc as [Hc|Hc]); subst d
  end.

(** A run of digits carries no sign: the two tests of the number scanner. *)
Lemma digits_unsigned ds r :
  Forall is_digit ds → ds ≠ [] →
  match digits_string ds +:+ r with
  | String "-" r' => (true, r')
  | _ => (false, digits_string ds +:+ r)
  end = (false, digits_string ds +:+ r).
Proof. intros [|d ds' Hd _] ?; [done|]. by digit_cases Hd. Qed.

Lemma digits_unsigned_exp ds r :
  Forall is_digit ds → ds ≠ [] →
  match digits_string ds +:+ r with
  | String "-" r' => (true, r')
  | String "+" r' => (false, r')
  | _ => (false, digits_string ds +:+ r)
  end = (false, digits_string ds +:+ r).
Proof. intros [|d ds' Hd _] ?; [done|]. by digit_cases Hd. Qed.

Lemma parse_number_sign z r :
  match encode_Z z +:+ r with
  | String "-" r' => (true, r')
  | _ => (false, encode_Z z +:+ r)
  end = ((z <? 0)%Z, digits_string (Z_digits (Z.abs z)) +:+ r).
Proof.
  unfold encode_Z. destruct (Z.ltb_spec z 0).
  - rewrite str_app_cons. by rewrite Z.abs_neq by lia.
  - rewrite Z.abs_eq by done.
    apply digits_unsigned; [by apply Z_digits_digits|by apply Z_digits_nonempty].
Qed.

Lemma span_exp_sign e r :
  match encode_Z e +:+ r with
  | String "-" r' => (true, r')
  | String "+" r' => (false, r')
  | _ => (false, encode_Z e +:+ r)
  end = ((e <? 0)%Z, digits_string (Z_digits (Z.abs e)) +:+ r).
Proof.
  unfold encode_Z. destruct (Z.ltb_spec e 0).
  - rewrite str_app_cons. by rewrite Z.abs_neq by lia.
  - rewrite Z.abs_eq by done.
    apply digits_unsigned_exp; [by apply Z_digits_digits|by apply Z_digits_nonempty].
Qed.

Lemma signed_abs z : (if (z <? 0)%Z then - Z.abs z else Z.abs z)%Z = z.
Proof. destruct (Z.ltb_spec z 0); lia. Qed.

Lemma parse_number_encode_int z r :
  number_end r = true → length (Z_digits (Z.abs z)) ≤ max_str_digits →
  parse_number (encode_Z z +:+ r) = Ok (JNum (PInt z), r).
Proof.
  intros Hr Hlen. unfold parse_number. rewrite parse_number_sign.
  rewrite span_int_encode by (lia || by apply number_end_no_digit).
  rewrite span_frac_end, span_exp_end by done.
  destruct (Nat.ltb_spec max_str_digits (length (Z_digits (Z.abs z)))); [lia|].
  by rewrite Z_digits_value, signed_abs by lia.
Qed.

Lemma span_exp_encode e r :
  no_digit r = true → span_exp (String "e" (encode_Z e +:+ r)) = (Some e, r).
Proof.
  intros Hr. cbn [span_exp]. change (Ascii.eqb "e" "e" || Ascii.eqb "e" "E") with true.
  cbv iota. rewrite span_exp_sign, span_digits_string
    by (done || apply Z_digits_digits; lia).
  pose proof (Z_digits_nonempty (Z.abs e) ltac:(lia)).
  destruct (Z_digits (Z.abs e)) eqn:Hd; [done|]. rewrite <- Hd.
  by rewrite Z_digits_value, signed_abs by lia.
Qed.

Lemma parse_number_encode_float m e r :
  number_end r = true →
  parse_number (encode_Z m +:+ String "e" (encode_Z e +:+ r)) =
  Ok (JNum (PFloat m e), r).
Proof.
  intros Hr. unfold parse_number. rewrite parse_number_sign.
  rewrite span_int_encode by (lia || done). cbn [span_frac].
  rewrite span_exp_encode by by apply number_end_no_digit.
  rewrite app_nil_r, Z_digits_value, signed_abs by lia. simpl.
  by rewrite Z.sub_0_r.
Qed.

(** ** Where a value starts and ends *)

Lemma delimited_number_end r : delimited r = true → number_end r = true.
Proof.
  destruct r as [|c r]; [done|]. simpl.
  by destruct c as [[] [] [] [] [] [] [] []].
Qed.

Lemma skip_ws_starts_value s : starts_value s → skip_ws s = s.
Proof.
  intros (c & s' & -> & Hc). simpl. unfold value_start in Hc.
  by destruct (is_ws c).
Qed.

Lemma startswith_BOM_value s : starts_value s → startswith BOM s = false.
Proof.
  intros (c & s' & -> & Hc). by destruct c as [[] [] [] [] [] [] [] []].
Qed.

Lemma starts_value_app s r : starts_value s → starts_value (s +:+ r).
Proof. intros (c & s' & -> & Hc). exists c, (s' +:+ r). by rewrite str_app_cons. Qed.

Lemma encode_Z_starts z : starts_value (encode_Z z).
Proof.
  unfold encode_Z. destruct (Z.ltb_spec z 0); [by eexists _, _|].
  destruct (Z_digits_spec z) as (d & front & -> & Hd & _); [done|].
  apply Forall_cons in Hd as [Hd _].
  exists (digit_char d), (digits_string front). split; [done|].
  by digit_cases Hd.
Qed.

Lemma encode_Z_starts_number z r : starts_number (encode_Z z +:+ r).
Proof.
  unfold encode_Z. destruct (Z.ltb_spec z 0); [by eexists _, _|].
  destruct (Z_digits_spec z) as (d & front & -> & Hd & _); [done|].
  apply Forall_cons in Hd as [Hd _]. rewrite digits_string_cons.
  eexists _, _. split; [done|]. by rewrite digit_val_digit_char, orb_true_r.
Qed.

Lemma json_encode_starts v : starts_value (json_encode v).
Proof.
  destruct v as [|[]|[z|m e| |[]]|s|xs|kvs]; simpl; try by eexists _, _.
  - apply encode_Z_starts.
  - apply starts_value_app, encode_Z_starts.
Qed.

Lemma skip_ws_encode v r : skip_ws (json_encode v +:+ r) = json_encode v +:+ r.
Proof. apply skip_ws_starts_value, starts_value_app, json_encode_starts. Qed.

Lemma encode_member_starts kv : starts_value (encode_member kv).
Proof. by eexists _, _. Qed.

Lemma str_join_singleton sep x : str_join sep [x] = x.
Proof. done. Qed.

Lemma str_join_cons sep x y l :
  str_join sep (x :: y :: l) = x +:+ sep +:+ str_join sep (y :: l).
Proof. done. Qed.

Lemma str_join_starts sep x l r :
  starts_value x → starts_value (str_join sep (x :: l) +:+ r).
Proof.
  intros Hx. destruct l; [by apply starts_value_app|].
  rewrite str_join_cons, !str_app_assoc. by apply starts_value_app.
Qed.

#[local] Arguments str_join : simpl never.

(** ** Scalars decode *)

Lemma parse_value_number fuel d s :
  starts_number s →
  parse_value (S fuel) d s =
  match parse_number s with
  | Ok x => Ok x
  | Raise ValueError => Raise ValueError
  | Raise _ => parse_literal "-Infinity" (JNum (PInf true)) s
  end.
Proof.
  intros (c & s' & -> & Hc).
  by destruct c as [[] [] [] [] [] [] [] []].
Qed.

Lemma parse_value_encode_num fuel d n r :
  num_small n = true → delimited r = true →
  parse_value (S fuel) d (encode_num n +:+ r) = Ok (JNum n, r).
Proof.
  intros Hn Hr%delimited_number_end. destruct n as [z|m e| |[]]; try done.
  - cbn [encode_num].
    rewrite parse_value_number by apply encode_Z_starts_number.
    apply bool_decide_eq_true in Hn. by rewrite parse_number_encode_int.
  - cbn [encode_num]. rewrite str_app_assoc, str_app_cons.
    rewrite parse_value_number by apply encode_Z_starts_number.
    by rewrite parse_number_encode_float.
Qed.

Lemma parse_value_encode_string fuel d s r :
  parse_value (S fuel) d (encode_string s +:+ r) = Ok (JString s, r).
Proof.
  unfold encode_string. rewrite !str_app_assoc. unfold DQ at 1.
  rewrite str_app_cons, str_app_nil_l. cbn [parse_value].
  change (Ascii.eqb "034" "034") with true. cbv iota.
  by rewrite parse_string_encode.
Qed.

(** ** Arrays and objects decode *)

Lemma parse_value_array fuel d s :
  starts_value s → parse_value (S fuel) (S d) (String "[" s) = parse_elems fuel d s [].
Proof.
  intros (c & s' & -> & Hc). by destruct c as [[] [] [] [] [] [] [] []].
Qed.

Lemma parse_value_object fuel d s :
  starts_value s → parse_value (S fuel) (S d) (String "{" s) = parse_members fuel d s [].
Proof.
  intros (c & s' & -> & Hc). by destruct c as [[] [] [] [] [] [] [] []].
Qed.

Lemma parse_elems_encode xs :
  Forall decodes xs → xs ≠ [] →
  ∀ fuel d acc r, elems_fuel xs ≤ fuel → forallb (depth_within d) xs = true →
    parse_elems fuel d (str_join "," (map json_encode xs) +:+ String "]" r) acc =
    Ok (JArray (rev acc ++ xs), r).
Proof.
  induction 1 as [|x xs Hx Hxs IH]; [done|]. intros _ [|fuel] d acc r Hf Hd;
    unfold elems_fuel in *; simpl in Hf; [lia|].
  cbn [forallb] in Hd. apply andb_true_iff in Hd as [Hdx Hd].
  cbn [parse_elems]. destruct xs as [|y xs].
  - cbn [map]. rewrite str_join_singleton. by rewrite Hx by (done || lia).
  - cbn [map]. rewrite str_join_cons, !str_app_assoc, str_app_cons, str_app_nil_l.
    rewrite Hx by (done || lia). simpl.
    rewrite skip_ws_starts_value by apply str_join_starts, json_encode_starts.
    rewrite (IH ltac:(done)) by (done || (simpl in *; lia)).
    simpl. by rewrite <- app_assoc.
Qed.

Lemma encode_member_text k v r :
  encode_member (k, v) +:+ r =
  String "034" (json_escape k +:+ DQ +:+ String ":" (json_encode v +:+ r)).
Proof.
  unfold encode_member, encode_string. cbn [fst snd]. unfold DQ at 1.
  by rewrite !str_app_assoc, !str_app_cons, !str_app_nil_l.
Qed.

Lemma parse_members_encode kvs :
  Forall (λ kv, decodes (snd kv)) kvs → kvs ≠ [] →
  ∀ fuel d acc r, members_fuel kvs ≤ fuel →
    forallb (λ kv, depth_within d (snd kv)) kvs = true →
    NoDup (dict_keys (acc ++ kvs)) →
    parse_members fuel d (str_join "," (map encode_member kvs) +:+ String "}" r) acc =
    Ok (JObject (acc ++ kvs), r).
Proof.
  induction 1 as [|[k v] kvs Hv Hkvs IH]; [done|]. intros _ [|fuel] d acc r Hf Hd Hnd;
    unfold members_fuel in *; simpl in Hf; [lia|].
  cbn [forallb snd] in Hd. apply andb_true_iff in Hd as [Hdv Hd].
  assert (dict_set k v acc = acc ++ [(k, v)]) as Hset.
  { apply dict_set_new. unfold dict_keys in *. rewrite map_app in Hnd.
    apply NoDup_app in Hnd as (_ & Hnd & _). intros Hin. apply (Hnd _ Hin). by left. }
  cbn [parse_members]. destruct kvs as [|kv kvs].
  - cbn [map]. rewrite str_join_singleton, encode_member_text.
    rewrite parse_string_encode. simpl. rewrite skip_ws_encode.
    rewrite Hv by (done || simpl; lia). simpl. by rewrite Hset.
  - rewrite map_cons, (map_cons _ kv), str_join_cons, !str_app_assoc.
    rewrite <- (map_cons _ kv), encode_member_text.
    rewrite parse_string_encode. simpl. rewrite skip_ws_encode.
    rewrite Hv by (done || simpl; lia). simpl.
    rewrite skip_ws_starts_value
      by apply str_join_starts, encode_member_starts.
    rewrite str_app_nil_l, Hset.
    change (encode_member kv :: map encode_member kvs)
      with (map encode_member (kv :: kvs)).
    rewrite (IH ltac:(done)) by (rewrite <- ?app_assoc; simpl in *; done || lia).
    by rewrite <- app_assoc.
Qed.

Lemma json_encode_array xs r :
  json_encode (JArray xs) +:+ r =
  String "[" (str_join "," (map json_encode xs) +:+ String "]" r).
Proof. cbn [json_encode]. by rewrite !str_app_assoc. Qed.

Lemma json_encode_object kvs r :
  json_encode (JObject kvs) +:+ r =
  String "{" (str_join "," (map encode_member kvs) +:+ String "}" r).
Proof. cbn [json_encode]. by rewrite !str_app_assoc. Qed.

Lemma Forall_decodes {A} (f : A → JSON) (l : list A) :
  Forall (λ a, json_wf (f a) = true → ints_small (f a) = true → decodes (f a)) l →
  forallb (λ a, json_wf (f a)) l = true →
  forallb (λ a, ints_small (f a)) l = true →
  Forall (λ a, decodes (f a)) l.
Proof.
  induction 1 as [|a l Ha _ IH]; simpl; [done|].
  intros [? ?]%andb_true_iff [? ?]%andb_true_iff. constructor; auto.
Qed.

(** ** Every value decodes from its text *)

Lemma json_encode_decodes v : json_wf v = true → ints_small v = true → decodes v.
Proof.
  induction v as [|b|n|s|xs IH|kvs IH] using JSON_ind_nested;
    intros Hwf Hsm [|fuel] d r Hf Hd Hr; simpl in Hf; try lia.
  - done.
  - by destruct b.
  - by apply parse_value_encode_num.
  - apply parse_value_encode_string.
  - apply (Forall_decodes id) in IH; [|done..].
    destruct d as [|d]; [done|]. cbn [depth_within] in Hd.
    rewrite json_encode_array. destruct xs as [|x xs]; [done|].
    rewrite parse_value_array by apply str_join_starts, json_encode_starts.
    by apply (parse_elems_encode (x :: xs)); [|done|unfold elems_fuel; lia|].
  - cbn [json_wf ints_small] in Hwf, Hsm. apply andb_true_iff in Hwf as [Hnd Hwf].
    apply (Forall_decodes snd) in IH; [|done..].
    destruct d as [|d]; [done|]. cbn [depth_within] in Hd.
    rewrite json_encode_object. destruct kvs as [|kv kvs]; [done|].
    rewrite parse_value_object by apply str_join_starts, encode_member_starts.
    apply (parse_members_encode (kv :: kvs)); [done..|unfold members_fuel; lia|done|].
    by apply nodup_keys_NoDup.
Qed.

(** The decoder reads the text of a value back to the value: for every
    value with distinct keys in each object and integers of at most 4300
    digits, [json.loads] of its text returns it. *)
Lemma json_loads_at_encode d v :
  json_wf v = true → ints_small v = true → depth_within d v = true →
  json_loads_at d (json_encode v) = Ok v.
Proof.
  intros Hwf Hsm Hdv. unfold json_loads_at.
  rewrite startswith_BOM_value by apply json_encode_starts.
  rewrite skip_ws_starts_value by apply json_encode_starts.
  pose proof (json_encode_decodes v Hwf Hsm (json_fuel v) d "" (Nat.le_refl _) Hdv eq_refl)
    as Hd. rewrite str_app_nil_r in Hd.
  by rewrite (parse_value_loads_fuel _ _ d d _ Hd).
Qed.

Lemma json_loads_encode v :
  json_wf v = true → json_small v = true → json_loads (json_encode v) = Ok v.
Proof.
  intros Hwf [Hsm Hd]%andb_true_iff. by apply json_loads_at_encode.
Qed.

(** ** Texts cut short *)

(** A string that is opened and not closed. *)
Lemma parse_value_open_string fuel d s :
  parse_value (S fuel) d (DQ +:+ json_escape s) = Raise JSONDecodeError.
Proof.
  unfold DQ. rewrite str_app_cons, str_app_nil_l. cbn [parse_value].
  change (Ascii.eqb "034" "034") with true. cbv iota.
  unfold parse_string. by rewrite scan_json_escape_open.
Qed.

(** An object whose first member has a value that raises. *)
Lemma parse_value_open_object fuel d k x e :
  starts_value x → parse_value fuel d x = Raise e →
  parse_value (S (S fuel)) (S d) ("{" +:+ encode_string k +:+ ":" +:+ x) = Raise e.
Proof.
  intros Hx He. rewrite str_app_cons, str_app_nil_l.
  rewrite parse_value_object
    by (unfold encode_string, DQ; rewrite !str_app_cons; by eexists _, _).
  unfold encode_string, DQ at 1. rewrite !str_app_assoc, str_app_cons, str_app_nil_l.
  cbn [parse_members]. rewrite parse_string_encode. cbn -[parse_value skip_ws].
  rewrite str_app_cons, str_app_nil_l. cbn [skip_ws is_ws].
  by rewrite (skip_ws_starts_value _ Hx), He.
Qed.

(** An array whose first element raises. *)
Lemma parse_value_open_array fuel d x e :
  starts_value x → parse_value fuel d x = Raise e →
  parse_value (S (S fuel)) (S d) ("[" +:+ x) = Raise e.
Proof.
  intros Hx He. rewrite str_app_cons, str_app_nil_l.
  rewrite parse_value_array by done. cbn [parse_elems]. by rewrite He.
Qed.

(** The decoder raises what the scanner raises on a text that starts like
    a value, when the scanner did not run out. *)
Lemma json_loads_at_raise d fuel d0 s e :
  starts_value s → parse_value fuel d0 s = Raise e → e ≠ RecursionError → d0 ≤ d →
  json_loads_at d s = Raise e.
Proof.
  intros Hs He Hne Hd. unfold json_loads_at.
  rewrite (startswith_BOM_value _ Hs), (skip_ws_starts_value _ Hs).
  rewrite (parse_value_loads_fuel _ _ _ _ _ He); [done| |done]. congruence.
Qed.

(** ** What the decoder returns has small integers *)

Lemma digit_val_is_digit c d : digit_val c = Some d → is_digit d.
Proof.
  unfold digit_val, is_digit. intros H. case_match; [|done].
  apply andb_true_iff in H0 as [?%Z.leb_le ?%Z.leb_le]. simplify_eq. lia.
Qed.

Lemma span_digits_digits s : Forall is_digit (span_digits s).1.
Proof.
  induction s as [|c s IH]; simpl; [done|].
  destruct (digit_val c) as [d|] eqn:Hd; [|done].
  destruct (span_digits s) as [ds r]. simpl in *.
  constructor; [by eapply digit_val_is_digit|done].
Qed.

Lemma span_int_digits s ids r :
  span_int s = Some (ids, r) → Forall is_digit ids ∧ ids ≠ [].
Proof.
  destruct s as [|c s]; simpl; [done|].
  destruct (digit_val c) as [d|] eqn:Hd; [|done].
  apply digit_val_is_digit in Hd. destruct (d =? 0)%Z.
  - intros [= <- _]. split; [by constructor|done].
  - pose proof (span_digits_digits s). destruct (span_digits s) as [ds r'].
    intros [= <- _]. split; [by constructor|done].
Qed.

Lemma digits_Z_bound ds :
  Forall is_digit ds → (0 ≤ digits_Z ds < 10 ^ Z.of_nat (length ds))%Z.
Proof.
  induction ds as [|d ds IH] using rev_ind; [done|].
  intros [Hds Hd%Forall_inv]%Forall_app. specialize (IH Hds).
  rewrite digits_Z_snoc, length_app, Nat2Z.inj_add. simpl.
  rewrite Z.pow_add_r by lia. unfold is_digit in Hd. lia.
Qed.

Lemma digits_of_length fuel z acc n :
  (z < 10 ^ Z.of_nat (S n))%Z → length (digits_of fuel z acc) ≤ S n + length acc.
Proof.
  revert z acc n. induction fuel as [|fuel IH]; intros z acc n Hz; simpl; [lia|].
  destruct (Z.ltb_spec z 10); simpl; [lia|].
  destruct n as [|n]; [change (10 ^ Z.of_nat 1)%Z with 10%Z in Hz; lia|].
  rewrite (IH _ _ n); [simpl; lia|].
  rewrite Nat2Z.inj_succ, Z.pow_succ_r in Hz by lia.
  apply Z.div_lt_upper_bound; lia.
Qed.

Lemma Z_digits_length ds :
  Forall is_digit ds → ds ≠ [] → length (Z_digits (digits_Z ds)) ≤ length ds.
Proof.
  intros Hds Hne. pose proof (digits_Z_bound ds Hds) as [_ Hlt].
  destruct ds as [|d ds]; [done|]. unfold Z_digits.
  rewrite (digits_of_length _ _ _ (length ds)); simpl in *; lia.
Qed.

Lemma parse_number_small s v r : parse_number s = Ok (v, r) → ints_small v = true.
Proof.
  unfold parse_number.
  destruct (match s with String "-" r => (true, r) | _ => (false, s) end)
    as [neg s1].
  destruct (span_int s1) as [[ids s2]|] eqn:Hi; [|done].
  apply span_int_digits in Hi as [Hds Hne].
  destruct (span_frac s2) as [fds s3], (span_exp s3) as [ex s4].
  repeat case_match; intros; simplify_eq; try done.
  all: simpl; apply bool_decide_eq_true.
  all: match goal with H : (_ <? _) = false |- _ => apply Nat.ltb_ge in H end.
  all: pose proof (digits_Z_bound ids Hds).
  all: replace (Z.abs _) with (digits_Z ids) by lia.
  all: etrans; [by apply Z_digits_length|done].
Qed.

Lemma dict_set_small (k : string) (v : JSON) (d : list (string * JSON)) :
  ints_small v = true → forallb (λ kv, ints_small (snd kv)) d = true →
  forallb (λ kv, ints_small (snd kv)) (dict_set k v d) = true.
Proof.
  intros Hv. induction d as [|[k' v'] d IH]; simpl; [by rewrite Hv|].
  intros [H1 H2]%andb_true_iff.
  destruct (String.eqb k k'); simpl; [by rewrite Hv|]. by rewrite H1, IH.
Qed.

Lemma parse_small fuel :
  (∀ d s v r, parse_value fuel d s = Ok (v, r) → ints_small v = true) ∧
  (∀ d s acc v r, forallb ints_small acc = true →
      parse_elems fuel d s acc = Ok (v, r) → ints_small v = true) ∧
  (∀ d s acc v r, forallb (λ kv, ints_small (snd kv)) acc = true →
      parse_members fuel d s acc = Ok (v, r) → ints_small v = true).
Proof.
  induction fuel as [|fuel (IHv & IHe & IHm)]; [done|].
  split_and!; [intros d s v r H|intros d s acc v r Hacc H..]; simpl in H;
    [destruct s as [|c s]; [done|]|..].
  all: result_cases H; simplify_eq; try done.
  all: repeat match goal with
         | H : parse_value _ _ _ = Ok _ |- _ => apply IHv in H
         | H : parse_number _ = Ok _ |- _ => apply parse_number_small in H
         | H : parse_literal _ _ _ = Ok _ |- _ =>
             unfold parse_literal in H; case_match; by simplify_eq
         end; try done.
  all: try (by eapply IHe; [|exact H]).
  all: try (by eapply IHm; [|exact H]).
  all: try (eapply IHe; [|exact H]; simpl; by rewrite ?Hacc, ?andb_true_r).
  all: try (eapply IHm; [|exact H]; by apply dict_set_small).
  all: try (by apply dict_set_small).
  change (ints_small (JArray ?l)) with (forallb ints_small l).
  match goal with
  | Hj : ints_small _ = true |- _ =>
      by rewrite forallb_app, forallb_rev, Hacc; simpl; rewrite Hj
  end.
Qed.

(** Every integer [json.loads] returns has at most 4300 digits, and its
    arrays and objects are nested within the recursion limit. *)
Lemma json_loads_small (s : string) (v : JSON) :
  json_loads s = Ok v → json_small v = true.
Proof.
  intros Hs. unfold json_small. rewrite (json_loads_at_depth _ _ _ Hs), andb_true_r.
  revert Hs. unfold json_loads, json_loads_at. destruct (startswith BOM s); [done|].
  destruct (parse_value _ _ _) as [[v' r]|e] eqn:Hp; simpl; [|done].
  destruct (skip_ws r); [|done]. intros [= <-].
  by apply (proj1 (parse_small _)) in Hp.
Qed.

(** The values [json.loads] can return are exactly the well-formed ones
    with small integers. *)
Lemma json_loads_image v :
  (∃ s, json_loads s = Ok v) ↔ json_wf v = true ∧ json_small v = true.
Proof.
  split.
  - intros [s Hs]. split; [by eapply json_loads_wf|by eapply json_loads_small].
  - intros [Hwf Hsm]. exists (json_encode v). by apply json_loads_encode.
Qed.
