(* ===== verification/Effects.v ===== *)
(** * Effects: the data model, the trace of effects and the handler monad

    The handlers of [src/task/agent.py] and
    [src/task/coordination/ums_agent.py] read a [Request], write to a
    [Choice] and to [Stage]s of the DIAL SDK, and call three external
    services.  This file holds what they share:

    - the messages of a request ([Role], [CustomContent], [Message],
      [Request]) and the role/content entries sent to the model
      ([LLMMessage]);
    - [Event], one constructor per observable effect, and the views of a
      trace (text of a stage, text of the choice, open stages, the records
      handed to the logger);
    - [Env], the responses of the external services;
    - the monad [M]: a handler maps the trace so far to a [Result] and the
      events it adds, so that a handler can only append;
    - the SDK operations on stages and on the choice, and [logger_info];
    - [for_stream], the [async for] loop over a finite stream which may end
      in a transport fault, with [continue] and [break];
    - [try_except] and [try_finally]. *)

From Stdlib Require Import String Ascii ZArith List Lia Bool.
From stdpp Require Import base tactics option list strings.
From S2P Require Import Prelude Json.

(** ** Messages *)

Inductive Role : Type := SYSTEM | USER | ASSISTANT.

#[export] Instance Role_eq_dec : EqDecision Role.
Proof. solve_decision. Defined.

(** The value of the enumeration, as serialised. *)
Definition role_str (r : Role) : string :=
  match r with
  | SYSTEM => "system"
  | USER => "user"
  | ASSISTANT => "assistant"
  end.

(** Custom content of a message: opaque attachments and the state blob
    ([JNull] when absent). *)
Record CustomContent : Type := mkCustomContent {
  attachments : list JSON;
  state : JSON
}.

#[export] Instance CustomContent_eq_dec : EqDecision CustomContent.
Proof. solve_decision. Defined.

Record Message : Type := mkMessage {
  role : Role;
  content : option string;
  custom_content : option CustomContent
}.

#[export] Instance Message_eq_dec : EqDecision Message.
Proof. solve_decision. Defined.

Record Request : Type := mkRequest { messages : list Message }.

#[export] Instance Request_eq_dec : EqDecision Request.
Proof. solve_decision. Defined.

(** One entry of the list passed to the model: the dictionary with keys
    [role], [content] and [custom_content], a key being absent when its
    field is [None]. *)
Record LLMMessage : Type := mkLLMMessage {
  llm_role : string;
  llm_content : option string;
  llm_custom_content : option CustomContent
}.

#[export] Instance LLMMessage_eq_dec : EqDecision LLMMessage.
Proof. solve_decision. Defined.

(** [Message(role=Role.ASSISTANT, content=text)]. *)
Definition assistant_message (text : string) : Message :=
  mkMessage ASSISTANT (Some text) None.

(** ** Effects *)

(** A stage is named by the number of stages opened before it. *)
Definition Stage : Type := nat.

(** The parts of a logged f-string: its literal text and the values
    formatted into it.  The text a value is rendered to is left to the
    library that renders it. *)
Inductive LogPart : Type :=
| LogText (text : string)
| LogValue (value : JSON).

#[export] Instance LogPart_eq_dec : EqDecision LogPart.
Proof. solve_decision. Defined.

Inductive Event : Type :=
| EvStageOpen (sid : Stage) (name : string)
| EvStageAppend (sid : Stage) (text : string)
| EvStageClose (sid : Stage)
| EvChoiceOpen
| EvChoiceClose
| EvChoiceAppend (text : string)
| EvSetState (st : JSON)
| EvLLMComplete (model : string) (msgs : list LLMMessage)
| EvLLMStream (model : string) (msgs : list LLMMessage)
| EvUmsCreate (endpoint : string)
| EvUmsChat (endpoint : string) (conversation_id : JSON) (user_message : string)
| EvGpaCall (endpoint : string) (request : Request) (instructions : option string)
| EvLogInfo (message : list LogPart).

#[export] Instance Event_eq_dec : EqDecision Event.
Proof. solve_decision. Defined.

Definition Trace : Type := list Event.

(** ** External services *)

(** A finite stream: its items in arrival order and the fault that ends it,
    if any.  The fault is met only by a consumer that reads past the last
    item. *)
Record Stream (A : Type) : Type := mkStream {
  items : list A;
  fault : option PyError
}.
Arguments mkStream {A} items fault.
Arguments items {A} s.
Arguments fault {A} s.

(** A chunk of a streamed completion: [delta.content] of each of its
    choices. *)
Record Chunk : Type := mkChunk { chunk_choices : list (option string) }.

Record HttpResponse : Type := mkHttpResponse {
  status_code : Z;
  body : string
}.

(** The response to the streaming chat request: a status line, then lines. *)
Record ChatResponse : Type := mkChatResponse {
  chat_status : Z;
  chat_lines : Stream string
}.

Record Env : Type := mkEnv {
  (** the completion with a response format: [message.content] of each choice *)
  llm_complete : string → list LLMMessage → Result (list (option string));
  (** the streamed completion *)
  llm_stream : string → list LLMMessage → Result (Stream Chunk);
  (** [POST {endpoint}/conversations] *)
  ums_create : string → Result HttpResponse;
  (** [POST {endpoint}/conversations/{id}/chat] with the user message *)
  ums_chat : string → JSON → string → Result ChatResponse;
  (** the general-purpose agent's stream *)
  gpa_stream : string → Request → option string → Result (Stream Chunk)
}.

(** ** The handler monad *)

(** From the trace so far to the result and the events added. *)
Definition M (A : Type) : Type := Trace → Result A * Trace.

Definition ret {A} (a : A) : M A := λ _, (Ok a, []).

Definition bind {A B} (m : M A) (k : A → M B) : M B := λ past,
  match m past with
  | (Ok a, ev1) => let '(r, ev2) := k a (past ++ ev1) in (r, ev1 ++ ev2)
  | (Raise e, ev1) => (Raise e, ev1)
  end.

Definition raise {A} (e : PyError) : M A := λ _, (Raise e, []).

(** A pure computation that may raise. *)
Definition lift {A} (r : Result A) : M A := λ _, (r, []).

Definition emit_event (e : Event) : M unit := λ _, (Ok tt, [e]).

#[export] Instance M_ret : MRet M := @ret.
#[export] Instance M_bind : MBind M := λ A B k m, bind m k.

(** [try: m except E: h], where [catches] tells the classes [E] names.
    Events of [m] before the exception are kept. *)
Definition try_except {A} (m : M A) (catches : PyError → bool) (h : M A) : M A :=
  λ past,
  match m past with
  | (Ok a, ev1) => (Ok a, ev1)
  | (Raise e, ev1) =>
      if catches e
      then let '(r, ev2) := h (past ++ ev1) in (r, ev1 ++ ev2)
      else (Raise e, ev1)
  end.

(** [try: m finally: f]: [f] runs on both paths; the outcome of [m] is
    kept unless [f] raises, and then the error of [f] is the outcome. *)
Definition try_finally {A} (m : M A) (f : M unit) : M A := λ past,
  let '(r, ev1) := m past in
  match f (past ++ ev1) with
  | (Ok _, ev2) => (r, ev1 ++ ev2)
  | (Raise e, ev2) => (Raise e, ev1 ++ ev2)
  end.

(** Running a handler from an empty trace. *)
Definition run {A} (m : M A) : Result A * Trace := m [].

(** ** Views of a trace *)

(** The stages opened in [tr], and those closed. *)
Definition opened_stages (tr : Trace) : list Stage :=
  omap (λ e, match e with EvStageOpen s _ => Some s | _ => None end) tr.

Definition closed_stages (tr : Trace) : list Stage :=
  omap (λ e, match e with EvStageClose s => Some s | _ => None end) tr.

(** The number of stages opened so far: the name of the next one. *)
Definition n_stages (tr : Trace) : nat := length (opened_stages tr).

(** Whether stage [sid] is open after [tr]: its last open or close event
    decides. *)
Fixpoint stage_is_open_from (sid : Stage) (open : bool) (tr : Trace) : bool :=
  match tr with
  | [] => open
  | EvStageOpen s _ :: tr' =>
      stage_is_open_from sid (if decide (s = sid) then true else open) tr'
  | EvStageClose s :: tr' =>
      stage_is_open_from sid (if decide (s = sid) then false else open) tr'
  | _ :: tr' => stage_is_open_from sid open tr'
  end.

Definition stage_is_open (sid : Stage) (tr : Trace) : bool :=
  stage_is_open_from sid false tr.

(** The fragments appended to stage [sid], in order. *)
Definition stage_fragments (sid : Stage) (tr : Trace) : list string :=
  omap (λ e, match e with
             | EvStageAppend s t => if decide (s = sid) then Some t else None
             | _ => None
             end) tr.

Definition stage_text (sid : Stage) (tr : Trace) : string :=
  str_concat (stage_fragments sid tr).

(** The fragments appended to the choice, in order. *)
Definition choice_fragments (tr : Trace) : list string :=
  omap (λ e, match e with EvChoiceAppend t => Some t | _ => None end) tr.

Definition choice_text (tr : Trace) : string :=
  str_concat (choice_fragments tr).

(** The states set on the choice, in order, and the one attached in the
    end: the last one set. *)
Definition set_states (tr : Trace) : list JSON :=
  omap (λ e, match e with EvSetState st => Some st | _ => None end) tr.

Definition choice_state (tr : Trace) : option JSON := last (set_states tr).

(** The external calls recorded in a trace, by service. *)
Definition ums_create_calls (tr : Trace) : list string :=
  omap (λ e, match e with EvUmsCreate ep => Some ep | _ => None end) tr.

Definition ums_chat_calls (tr : Trace) : list (JSON * string) :=
  omap (λ e, match e with EvUmsChat _ cid msg => Some (cid, msg) | _ => None end) tr.

Definition gpa_calls (tr : Trace) : list (Request * option string) :=
  omap (λ e, match e with EvGpaCall _ r i => Some (r, i) | _ => None end) tr.

Definition llm_complete_calls (tr : Trace) : list (list LLMMessage) :=
  omap (λ e, match e with EvLLMComplete _ ms => Some ms | _ => None end) tr.

Definition llm_stream_calls (tr : Trace) : list (list LLMMessage) :=
  omap (λ e, match e with EvLLMStream _ ms => Some ms | _ => None end) tr.

(** The records handed to the logger, in order. *)
Definition logged (tr : Trace) : list (list LogPart) :=
  omap (λ e, match e with EvLogInfo msg => Some msg | _ => None end) tr.

(** ** SDK operations *)

(** [StageProcessor.open_stage(choice, name)]: creates and opens a stage. *)
Definition open_stage (name : string) : M Stage := λ past,
  let sid := n_stages past in (Ok sid, [EvStageOpen sid name]).

(** [logger.info(message)]: the record is handed to the logger; whether it
    is written depends on the level the logger is configured with. *)
Definition logger_info (message : list LogPart) : M unit :=
  emit_event (EvLogInfo message).

(** [stage.append_content(text)]. *)
Definition stage_append_content (sid : Stage) (text : string) : M unit :=
  emit_event (EvStageAppend sid text).

(** [StageProcessor.close_stage_safely(stage)]: closes an open stage; on a
    stage that is not open it does nothing and does not raise. *)
Definition close_stage_safely (sid : Stage) : M unit := λ past,
  if stage_is_open sid past then (Ok tt, [EvStageClose sid]) else (Ok tt, []).

(** [choice.append_content(text)]. *)
Definition choice_append_content (text : string) : M unit :=
  emit_event (EvChoiceAppend text).

(** [choice.set_state(st)]. *)
Definition choice_set_state (st : JSON) : M unit :=
  emit_event (EvSetState st).

(** [response.raise_for_status()]: any status outside 200..299 raises. *)
Definition raise_for_status (status : Z) : Result unit :=
  if (200 <=? status)%Z && (status <=? 299)%Z then Ok tt
  else Raise (HTTPStatusError status).

(** ** The loop over a stream *)

(** [async for x in stream: body], where the body returns the loop control
    and the new value of the loop's variables. *)
Fixpoint for_stream {A S} (body : A → S → M (LoopCtl * S))
    (xs : list A) (flt : option PyError) (acc : S) : M S :=
  match xs with
  | [] => match flt with Some e => raise e | None => ret acc end
  | x :: xs' =>
      bind (body x acc) (λ r,
        match fst r with
        | Break => ret (snd r)
        | Continue => for_stream body xs' flt (snd r)
        end)
  end.

(** ** Streams of completion chunks *)

(** The fragment a chunk carries: [chunk.choices[0].delta.content] when the
    chunk has a choice and that content is a non-empty string. *)
Definition chunk_content (chunk : Chunk) : option string :=
  match chunk_choices chunk with
  | c :: _ => if opt_str_truthy c then c else None
  | [] => None
  end.

(** The body of the loop over chunks: a fragment is added to the content
    and handed to [sink]; a chunk without one is passed over. *)
Definition chunk_body (sink : string → M unit) (chunk : Chunk)
    (content : string) : M (LoopCtl * string) :=
  match chunk_content chunk with
  | Some fragment =>
      let content' := content +:+ fragment in
      _ ← sink fragment;
      mret (Continue, content')
  | None => mret (Continue, content)
  end.

(** ** Events inside the choice *)

(** Events that neither open nor close the choice. *)
Definition inner_event (e : Event) : bool :=
  match e with EvChoiceOpen | EvChoiceClose => false | _ => true end.

(** ** Scripted environments *)

(** The environment in which every service answers with a fixed result,
    whatever it is asked. *)
Definition scripted_env (decision : Result (list (option string)))
    (final : Result (Stream Chunk)) (created : Result HttpResponse)
    (chat : Result ChatResponse) (gpa : Result (Stream Chunk)) : Env :=
  mkEnv (λ _ _, decision) (λ _ _, final) (λ _, created) (λ _ _ _, chat)
    (λ _ _ _, gpa).

(** ** Unfolding the monad when a handler is run *)

Ltac munfold :=
  unfold mbind, mret, M_bind, M_ret, bind, ret, lift, raise, emit_event,
    stage_append_content, choice_append_content, choice_set_state,
    try_except in *.

Ltac mrun := munfold; simpl.

(** ** Equality of handlers: same result and events on every trace *)

Definition M_equiv {A} (m1 m2 : M A) : Prop := ∀ past, m1 past = m2 past.

(** A handler whose result and events do not depend on the trace so far. *)
Definition past_independent {A} (m : M A) : Prop :=
  ∀ past1 past2, m past1 = m past2.

#[export] Instance M_equiv_Equiv {A} : Equiv (M A) := M_equiv.

#[export] Instance M_equiv_equivalence {A} : Equivalence (≡@{M A}).
Proof.
  split.
  - by intros m past.
  - intros m1 m2 H past. by rewrite (H past).
  - intros m1 m2 m3 H1 H2 past. by rewrite (H1 past), (H2 past).
Qed.

#[export] Instance bind_proper {A B} :
  Proper ((≡) ==> pointwise_relation A (≡) ==> (≡)) (@bind A B).
Proof.
  intros m1 m2 Hm k1 k2 Hk past. unfold bind. rewrite (Hm past).
  destruct (m2 past) as [[a|e] ev1]; [|done]. by rewrite (Hk a (past ++ ev1)).
Qed.

#[export] Instance try_except_proper {A} :
  Proper ((≡) ==> (=) ==> (≡) ==> (≡)) (@try_except A).
Proof.
  intros m1 m2 Hm c ? <- h1 h2 Hh past. unfold try_except. rewrite (Hm past).
  destruct (m2 past) as [[a|e] ev1]; [done|].
  destruct (c e); [|done]. by rewrite (Hh (past ++ ev1)).
Qed.

#[export] Instance try_finally_proper {A} :
  Proper ((≡) ==> (≡) ==> (≡)) (@try_finally A).
Proof.
  intros m1 m2 Hm f1 f2 Hf past. unfold try_finally. rewrite (Hm past).
  destruct (m2 past) as [r ev1]. by rewrite (Hf (past ++ ev1)).
Qed.

(** ** Monad laws *)

Section MonadLaws.
Context {A B C : Type}.

Lemma bind_ret_l (a : A) (k : A → M B) : bind (ret a) k ≡ k a.
Proof.
  intros past. unfold bind, ret. rewrite app_nil_r.
  by destruct (k a past).
Qed.

Lemma bind_ret_r (m : M A) : bind m ret ≡ m.
Proof.
  intros past. unfold bind, ret. destruct (m past) as [[a|e] ev]; [|done].
  by rewrite app_nil_r.
Qed.

Lemma bind_assoc (m : M A) (k : A → M B) (h : B → M C) :
  bind (bind m k) h ≡ bind m (λ a, bind (k a) h).
Proof.
  intros past. unfold bind. destruct (m past) as [[a|e] ev1]; [|done].
  destruct (k a (past ++ ev1)) as [[b|e] ev2]; [|done].
  rewrite <- app_assoc. destruct (h b (past ++ ev1 ++ ev2)) as [r ev3].
  by rewrite app_assoc.
Qed.

Lemma bind_raise (e : PyError) (k : A → M B) : bind (raise e) k ≡ raise e.
Proof. by intros past. Qed.

(** The finaliser runs after a body that returns and after one that
    raises. *)
Lemma try_finally_ret (a : A) (f : M unit) :
  try_finally (ret a) f ≡ bind f (λ _, ret a).
Proof.
  intros past. unfold try_finally, bind, ret. rewrite app_nil_r.
  destruct (f past) as [[u|e] ev]; [|done]. by rewrite app_nil_r.
Qed.

Lemma try_finally_raise (e : PyError) (f : M unit) :
  try_finally (raise e : M A) f ≡ bind f (λ _, raise e).
Proof.
  intros past. unfold try_finally, bind, raise. rewrite app_nil_r.
  destruct (f past) as [[u|e'] ev]; [|done]. by rewrite app_nil_r.
Qed.

Lemma bind_lift_Ok (a : A) (k : A → M B) : bind (lift (Ok a)) k ≡ k a.
Proof. apply bind_ret_l. Qed.

Lemma bind_lift_Raise (e : PyError) (k : A → M B) :
  bind (lift (Raise e)) k ≡ raise e.
Proof. by intros past. Qed.

End MonadLaws.

(** ** Running handlers: equations for each combinator *)

Section RunLemmas.
Context {A B : Type}.
Implicit Types (past : Trace).

Lemma run_bind_Ok (m : M A) (k : A → M B) past a ev1 r ev2 :
  m past = (Ok a, ev1) → k a (past ++ ev1) = (r, ev2) →
  bind m k past = (r, ev1 ++ ev2).
Proof. intros H1 H2. unfold bind. by rewrite H1, H2. Qed.

Lemma run_bind_Raise (m : M A) (k : A → M B) past e ev1 :
  m past = (Raise e, ev1) → bind m k past = (Raise e, ev1).
Proof. intros H1. unfold bind. by rewrite H1. Qed.

(** A bind succeeds only if both parts do, and the events are those of the
    first followed by those of the second. *)
Lemma run_bind_Ok_inv (m : M A) (k : A → M B) past b ev :
  bind m k past = (Ok b, ev) →
  ∃ a ev1 ev2, m past = (Ok a, ev1) ∧ k a (past ++ ev1) = (Ok b, ev2) ∧
               ev = ev1 ++ ev2.
Proof.
  unfold bind. destruct (m past) as [[a|e] ev1]; [|done].
  destruct (k a (past ++ ev1)) as [r ev2] eqn:E. intros [= -> <-].
  by exists a, ev1, ev2.
Qed.

Lemma run_bind_Raise_inv (m : M A) (k : A → M B) past e ev :
  bind m k past = (Raise e, ev) →
  m past = (Raise e, ev) ∨
  ∃ a ev1 ev2, m past = (Ok a, ev1) ∧ k a (past ++ ev1) = (Raise e, ev2) ∧
               ev = ev1 ++ ev2.
Proof.
  unfold bind. destruct (m past) as [[a|e'] ev1]; [|intros [= -> <-]; by left].
  destruct (k a (past ++ ev1)) as [r ev2] eqn:E. intros [= -> <-].
  right. by exists a, ev1, ev2.
Qed.

Lemma run_try_except_Ok (m h : M A) c past a ev :
  m past = (Ok a, ev) → try_except m c h past = (Ok a, ev).
Proof. intros H. unfold try_except. by rewrite H. Qed.

Lemma run_try_except_caught (m h : M A) c past e ev1 r ev2 :
  m past = (Raise e, ev1) → c e = true → h (past ++ ev1) = (r, ev2) →
  try_except m c h past = (r, ev1 ++ ev2).
Proof. intros H Hc Hh. unfold try_except. by rewrite H, Hc, Hh. Qed.

Lemma run_try_finally (m : M A) (f : M unit) past r ev1 ev2 :
  m past = (r, ev1) → f (past ++ ev1) = (Ok tt, ev2) →
  try_finally m f past = (r, ev1 ++ ev2).
Proof. intros H Hf. unfold try_finally. by rewrite H, Hf. Qed.

Lemma run_try_finally_Raise (m : M A) (f : M unit) past r ev1 e ev2 :
  m past = (r, ev1) → f (past ++ ev1) = (Raise e, ev2) →
  try_finally m f past = (Raise e, ev1 ++ ev2).
Proof. intros H Hf. unfold try_finally. by rewrite H, Hf. Qed.

Lemma run_try_except_uncaught (m h : M A) c past e ev1 :
  m past = (Raise e, ev1) → c e = false →
  try_except m c h past = (Raise e, ev1).
Proof. intros H Hc. unfold try_except. by rewrite H, Hc. Qed.

End RunLemmas.

(** ** Handlers that ignore the trace so far

    Every operation but [open_stage] and [close_stage_safely] adds events
    that do not depend on the past. *)

Lemma past_independent_ret {A} (a : A) : past_independent (ret a).
Proof. done. Qed.

Lemma past_independent_raise {A} (e : PyError) : past_independent (@raise A e).
Proof. done. Qed.

Lemma past_independent_lift {A} (r : Result A) : past_independent (lift r).
Proof. done. Qed.

Lemma past_independent_emit (e : Event) : past_independent (emit_event e).
Proof. done. Qed.

Lemma past_independent_bind {A B} (m : M A) (k : A → M B) :
  past_independent m → (∀ a, past_independent (k a)) →
  past_independent (bind m k).
Proof.
  intros Hm Hk p1 p2. unfold bind. rewrite (Hm p1 p2).
  destruct (m p2) as [[a|e] ev1]; [|done].
  by rewrite (Hk a (p1 ++ ev1) (p2 ++ ev1)).
Qed.

Lemma past_independent_try_except {A} (m h : M A) c :
  past_independent m → past_independent h →
  past_independent (try_except m c h).
Proof.
  intros Hm Hh p1 p2. unfold try_except. rewrite (Hm p1 p2).
  destruct (m p2) as [[a|e] ev1]; [done|]. destruct (c e); [|done].
  by rewrite (Hh (p1 ++ ev1) (p2 ++ ev1)).
Qed.

Lemma past_independent_for_stream {A S} (body : A → S → M (LoopCtl * S))
    xs flt acc :
  (∀ x s, past_independent (body x s)) →
  past_independent (for_stream body xs flt acc).
Proof.
  intros Hb. revert acc. induction xs as [|x xs IH]; intros acc; simpl.
  - destruct flt; [apply past_independent_raise|apply past_independent_ret].
  - apply past_independent_bind; [apply Hb|]. intros [[] s]; simpl;
      [apply IH|apply past_independent_ret].
Qed.

#[export] Hint Resolve past_independent_ret past_independent_raise
  past_independent_lift past_independent_emit past_independent_bind
  past_independent_try_except past_independent_for_stream : py.

(** ** Views distribute over concatenation *)

Lemma stage_fragments_app sid (t1 t2 : Trace) :
  stage_fragments sid (t1 ++ t2) = stage_fragments sid t1 ++ stage_fragments sid t2.
Proof. apply omap_app. Qed.

Lemma stage_text_app sid (t1 t2 : Trace) :
  stage_text sid (t1 ++ t2) = stage_text sid t1 +:+ stage_text sid t2.
Proof. unfold stage_text. by rewrite stage_fragments_app, str_concat_app. Qed.

Lemma choice_fragments_app (t1 t2 : Trace) :
  choice_fragments (t1 ++ t2) = choice_fragments t1 ++ choice_fragments t2.
Proof. apply omap_app. Qed.

Lemma choice_text_app (t1 t2 : Trace) :
  choice_text (t1 ++ t2) = choice_text t1 +:+ choice_text t2.
Proof. unfold choice_text. by rewrite choice_fragments_app, str_concat_app. Qed.

Lemma opened_stages_app (t1 t2 : Trace) :
  opened_stages (t1 ++ t2) = opened_stages t1 ++ opened_stages t2.
Proof. apply omap_app. Qed.

Lemma closed_stages_app (t1 t2 : Trace) :
  closed_stages (t1 ++ t2) = closed_stages t1 ++ closed_stages t2.
Proof. apply omap_app. Qed.

Lemma n_stages_app (t1 t2 : Trace) : n_stages (t1 ++ t2) = n_stages t1 + n_stages t2.
Proof. unfold n_stages. by rewrite opened_stages_app, length_app. Qed.

Lemma stage_is_open_from_app sid b (t1 t2 : Trace) :
  stage_is_open_from sid b (t1 ++ t2) =
  stage_is_open_from sid (stage_is_open_from sid b t1) t2.
Proof. revert b. induction t1 as [|[] t1 IH]; intros b; simpl; auto. Qed.

Lemma stage_is_open_app sid (t1 t2 : Trace) :
  stage_is_open sid (t1 ++ t2) = stage_is_open_from sid (stage_is_open sid t1) t2.
Proof. apply stage_is_open_from_app. Qed.

Lemma set_states_app (t1 t2 : Trace) :
  set_states (t1 ++ t2) = set_states t1 ++ set_states t2.
Proof. apply omap_app. Qed.

Lemma ums_create_calls_app (t1 t2 : Trace) :
  ums_create_calls (t1 ++ t2) = ums_create_calls t1 ++ ums_create_calls t2.
Proof. apply omap_app. Qed.

Lemma ums_chat_calls_app (t1 t2 : Trace) :
  ums_chat_calls (t1 ++ t2) = ums_chat_calls t1 ++ ums_chat_calls t2.
Proof. apply omap_app. Qed.

Lemma gpa_calls_app (t1 t2 : Trace) :
  gpa_calls (t1 ++ t2) = gpa_calls t1 ++ gpa_calls t2.
Proof. apply omap_app. Qed.

Lemma llm_complete_calls_app (t1 t2 : Trace) :
  llm_complete_calls (t1 ++ t2) = llm_complete_calls t1 ++ llm_complete_calls t2.
Proof. apply omap_app. Qed.

Lemma logged_app (t1 t2 : Trace) : logged (t1 ++ t2) = logged t1 ++ logged t2.
Proof. apply omap_app. Qed.

Lemma llm_stream_calls_app (t1 t2 : Trace) :
  llm_stream_calls (t1 ++ t2) = llm_stream_calls t1 ++ llm_stream_calls t2.
Proof. apply omap_app. Qed.

#[export] Hint Rewrite stage_fragments_app stage_text_app choice_fragments_app
  choice_text_app opened_stages_app closed_stages_app n_stages_app
  set_states_app ums_create_calls_app ums_chat_calls_app gpa_calls_app
  llm_complete_calls_app llm_stream_calls_app logged_app : py.

(** ** Views of a run of appends to one stage *)

Section StageAppends.
Context (sid : Stage) (fs : list string).

Lemma stage_fragments_appends : stage_fragments sid (map (EvStageAppend sid) fs) = fs.
Proof.
  unfold stage_fragments. induction fs as [|f l IH]; simpl; [done|].
  rewrite decide_True by done. f_equal. apply IH.
Qed.

Lemma stage_text_appends : stage_text sid (map (EvStageAppend sid) fs) = str_concat fs.
Proof. unfold stage_text. by rewrite stage_fragments_appends. Qed.

Lemma choice_fragments_appends : choice_fragments (map (EvStageAppend sid) fs) = [].
Proof. unfold choice_fragments. by induction fs. Qed.

Lemma opened_stages_appends : opened_stages (map (EvStageAppend sid) fs) = [].
Proof. unfold opened_stages. by induction fs. Qed.

Lemma closed_stages_appends : closed_stages (map (EvStageAppend sid) fs) = [].
Proof. unfold closed_stages. by induction fs. Qed.

Lemma set_states_appends : set_states (map (EvStageAppend sid) fs) = [].
Proof. unfold set_states. by induction fs. Qed.

Lemma ums_create_calls_appends : ums_create_calls (map (EvStageAppend sid) fs) = [].
Proof. unfold ums_create_calls. by induction fs. Qed.

Lemma ums_chat_calls_appends : ums_chat_calls (map (EvStageAppend sid) fs) = [].
Proof. unfold ums_chat_calls. by induction fs. Qed.

Lemma gpa_calls_appends : gpa_calls (map (EvStageAppend sid) fs) = [].
Proof. unfold gpa_calls. by induction fs. Qed.

Lemma llm_complete_calls_appends : llm_complete_calls (map (EvStageAppend sid) fs) = [].
Proof. unfold llm_complete_calls. by induction fs. Qed.

Lemma llm_stream_calls_appends : llm_stream_calls (map (EvStageAppend sid) fs) = [].
Proof. unfold llm_stream_calls. by induction fs. Qed.

Lemma stage_is_open_from_appends (s : Stage) (b : bool) :
  stage_is_open_from s b (map (EvStageAppend sid) fs) = b.
Proof. by induction fs. Qed.

End StageAppends.

#[export] Hint Rewrite stage_fragments_appends stage_text_appends
  choice_fragments_appends opened_stages_appends closed_stages_appends
  set_states_appends ums_create_calls_appends ums_chat_calls_appends gpa_calls_appends
  llm_complete_calls_appends llm_stream_calls_appends
  stage_is_open_from_appends : py.

(** ** Views of a run of appends to the choice *)

Section ChoiceAppends.
Context (fs : list string).

Lemma choice_fragments_choice : choice_fragments (map EvChoiceAppend fs) = fs.
Proof. unfold choice_fragments. by apply omap_map_Some. Qed.

Lemma choice_text_choice : choice_text (map EvChoiceAppend fs) = str_concat fs.
Proof. unfold choice_text. by rewrite choice_fragments_choice. Qed.

Lemma stage_fragments_choice sid : stage_fragments sid (map EvChoiceAppend fs) = [].
Proof. unfold stage_fragments. by apply omap_map_None. Qed.

Lemma stage_text_choice sid : stage_text sid (map EvChoiceAppend fs) = "".
Proof. unfold stage_text. by rewrite stage_fragments_choice. Qed.

Lemma opened_stages_choice : opened_stages (map EvChoiceAppend fs) = [].
Proof. unfold opened_stages. by apply omap_map_None. Qed.

Lemma closed_stages_choice : closed_stages (map EvChoiceAppend fs) = [].
Proof. unfold closed_stages. by apply omap_map_None. Qed.

Lemma set_states_choice : set_states (map EvChoiceAppend fs) = [].
Proof. unfold set_states. by apply omap_map_None. Qed.

Lemma ums_create_calls_choice : ums_create_calls (map EvChoiceAppend fs) = [].
Proof. unfold ums_create_calls. by apply omap_map_None. Qed.

Lemma ums_chat_calls_choice : ums_chat_calls (map EvChoiceAppend fs) = [].
Proof. unfold ums_chat_calls. by apply omap_map_None. Qed.

Lemma gpa_calls_choice : gpa_calls (map EvChoiceAppend fs) = [].
Proof. unfold gpa_calls. by apply omap_map_None. Qed.

Lemma llm_complete_calls_choice : llm_complete_calls (map EvChoiceAppend fs) = [].
Proof. unfold llm_complete_calls. by apply omap_map_None. Qed.

Lemma llm_stream_calls_choice : llm_stream_calls (map EvChoiceAppend fs) = [].
Proof. unfold llm_stream_calls. by apply omap_map_None. Qed.

Lemma stage_is_open_from_choice (s : Stage) (b : bool) :
  stage_is_open_from s b (map EvChoiceAppend fs) = b.
Proof. by induction fs. Qed.

End ChoiceAppends.

#[export] Hint Rewrite choice_fragments_choice choice_text_choice
  stage_fragments_choice stage_text_choice opened_stages_choice
  closed_stages_choice set_states_choice ums_create_calls_choice
  ums_chat_calls_choice gpa_calls_choice llm_complete_calls_choice
  llm_stream_calls_choice stage_is_open_from_choice : py.

(** ** [raise_for_status] *)

Lemma raise_for_status_Ok (st : Z) :
  raise_for_status st = Ok tt ↔ (200 ≤ st ≤ 299)%Z.
Proof.
  unfold raise_for_status.
  destruct (Z.leb_spec 200 st), (Z.leb_spec st 299); simpl; split;
    try done; try lia.
Qed.

Lemma raise_for_status_Raise (st : Z) (e : PyError) :
  raise_for_status st = Raise e → e = HTTPStatusError st ∧ ¬ (200 ≤ st ≤ 299)%Z.
Proof.
  intros H. split.
  - unfold raise_for_status in H. by destruct (_ && _); inv H.
  - intros Hr. apply raise_for_status_Ok in Hr. congruence.
Qed.

(** [for_stream] on the empty stream and on a first item. *)
Lemma for_stream_nil {A S} (body : A → S → M (LoopCtl * S)) flt acc past :
  for_stream body [] flt acc past =
  match flt with Some e => (Raise e, []) | None => (Ok acc, []) end.
Proof. simpl. by destruct flt. Qed.

Lemma for_stream_cons {A S} (body : A → S → M (LoopCtl * S)) x xs flt acc past :
  for_stream body (x :: xs) flt acc past =
  match body x acc past with
  | (Ok (Continue, acc'), ev1) =>
      let '(r, ev2) := for_stream body xs flt acc' (past ++ ev1) in
      (r, ev1 ++ ev2)
  | (Ok (Break, acc'), ev1) => (Ok acc', ev1)
  | (Raise e, ev1) => (Raise e, ev1)
  end.
Proof.
  simpl. unfold bind. destruct (body x acc past) as [[[[] acc']|e] ev1]; simpl;
    [done| |done].
  unfold ret. by rewrite app_nil_r.
Qed.

(** The loop over chunks, for a sink that records one event per fragment:
    the content grows by the fragments in arrival order, each fragment is
    recorded once, and a fault at the end of the stream is raised after the
    fragments before it were recorded. *)
Lemma for_stream_chunks (mk : string → Event) chunks flt acc past :
  for_stream (chunk_body (λ s, emit_event (mk s))) chunks flt acc past =
  (match flt with
   | Some e => Raise e
   | None => Ok (acc +:+ str_concat (omap chunk_content chunks))
   end,
   map mk (omap chunk_content chunks)).
Proof.
  revert acc past. induction chunks as [|c chunks IH]; intros acc past.
  - rewrite for_stream_nil. simpl. destruct flt; [done|]. by rewrite str_app_nil_r.
  - rewrite for_stream_cons. unfold chunk_body at 1. simpl.
    destruct (chunk_content c) as [f|]; mrun; rewrite IH; [|done].
    rewrite str_app_assoc. by destruct flt.
Qed.

(** ** Inner events *)

Lemma forallb_inner_stage_appends sid fs :
  forallb inner_event (map (EvStageAppend sid) fs) = true.
Proof. by induction fs. Qed.

Lemma forallb_inner_choice_appends fs :
  forallb inner_event (map EvChoiceAppend fs) = true.
Proof. by induction fs. Qed.
