(* ===== verification/Adapter.v ===== *)
(** * Adapter: from a request's history to the messages of a model call

    [MASCoordinator.__prepare_messages] of [src/task/agent.py] builds the
    list sent to the model: first one system entry holding the prompt, then
    one entry per message of the history.  A user message that carries
    custom content contributes its text only; any other message contributes
    its own fields, the absent ones left out.

    [prepare_messages] is the loop as written (start from the system entry,
    append one entry per message); [prepare_messages_unfold] gives its
    closed form. *)

From Stdlib Require Import String Ascii ZArith List Lia Bool.
From stdpp Require Import base tactics option list strings.
From S2P Require Import Prelude Json Effects.

(** [msg.dict(exclude_none=True)]. *)
Definition message_dict (msg : Message) : LLMMessage :=
  mkLLMMessage (role_str (role msg)) (content msg) (custom_content msg).

(** The condition [msg.role == Role.USER and msg.custom_content]. *)
Definition is_user_with_custom_content (msg : Message) : bool :=
  bool_decide (role msg = USER) &&
  match custom_content msg with Some _ => true | None => false end.

(** The entry appended for one message: the body of the loop. *)
Definition prepare_message (msg : Message) : LLMMessage :=
  if is_user_with_custom_content msg
  then mkLLMMessage "user" (Some (or_str (content msg) "")) None
  else message_dict msg.

(** The system entry the list starts with. *)
Definition system_message (system_prompt : string) : LLMMessage :=
  mkLLMMessage "system" (Some system_prompt) None.

(** [__prepare_messages(request, system_prompt)]: the accumulating loop. *)
Definition prepare_messages (request : Request) (system_prompt : string)
    : list LLMMessage :=
  fold_left (λ acc msg, acc ++ [prepare_message msg])
    (messages request) [system_message system_prompt].

(** ** The loop computes the reference form *)

Lemma fold_left_snoc_map {A B} (f : A → B) (l : list A) (init : list B) :
  fold_left (λ acc x, acc ++ [f x]) l init = init ++ map f l.
Proof.
  revert init. induction l as [|x l IH]; intros init; simpl.
  - by rewrite app_nil_r.
  - by rewrite IH, <- app_assoc.
Qed.

(** The accumulating loop yields the system entry followed by one entry per
    history message, in history order. *)
Lemma prepare_messages_unfold (request : Request) (system_prompt : string) :
  prepare_messages request system_prompt =
  system_message system_prompt :: map prepare_message (messages request).
Proof. unfold prepare_messages. by rewrite fold_left_snoc_map. Qed.

(** ** Properties of the output *)

Section AdapterProps.
Context (request : Request) (system_prompt : string).

(** Whatever the history, the output's first entry is the system entry
    holding the given prompt, and the output has exactly one more entry
    than the history. *)
Lemma prepare_messages_system_first :
  head (prepare_messages request system_prompt) =
    Some (system_message system_prompt) ∧
  length (prepare_messages request system_prompt) =
    S (length (messages request)).
Proof. rewrite prepare_messages_unfold. simpl. by rewrite length_map. Qed.

(** The entry at position [i + 1] comes from the history message at
    position [i]: order is preserved. *)
Lemma prepare_messages_lookup (i : nat) :
  prepare_messages request system_prompt !! S i =
  prepare_message <$> messages request !! i.
Proof. rewrite prepare_messages_unfold. simpl. apply list_lookup_fmap. Qed.

Lemma prepare_messages_ne_nil : prepare_messages request system_prompt ≠ [].
Proof. by rewrite prepare_messages_unfold. Qed.

End AdapterProps.

(** A user message with custom content is reduced to role and text. *)
Lemma prepare_message_user_custom (msg : Message) (cc : CustomContent) :
  role msg = USER → custom_content msg = Some cc →
  prepare_message msg = mkLLMMessage "user" (Some (default "" (content msg))) None.
Proof.
  intros Hr Hc. unfold prepare_message, is_user_with_custom_content.
  rewrite Hr, Hc. simpl. by rewrite or_str_empty_default.
Qed.

(** Any other message is forwarded with its own fields. *)
Lemma prepare_message_verbatim (msg : Message) :
  role msg ≠ USER ∨ custom_content msg = None →
  prepare_message msg = message_dict msg.
Proof.
  intros H. unfold prepare_message, is_user_with_custom_content.
  destruct H as [H| ->].
  - by rewrite bool_decide_eq_false_2.
  - by rewrite andb_false_r.
Qed.

Lemma role_str_inj (r1 r2 : Role) : role_str r1 = role_str r2 → r1 = r2.
Proof. by destruct r1, r2. Qed.

Lemma prepare_message_role (msg : Message) :
  llm_role (prepare_message msg) = role_str (role msg).
Proof.
  unfold prepare_message, is_user_with_custom_content.
  destruct msg as [r c cc]; simpl. by destruct r, cc.
Qed.

(** One entry never carries the custom content of a user message. *)
Lemma prepare_message_user_no_custom (msg : Message) :
  llm_role (prepare_message msg) = "user" →
  llm_custom_content (prepare_message msg) = None.
Proof.
  rewrite prepare_message_role. intros Hr.
  assert (role msg = USER) as E by (by apply role_str_inj).
  unfold prepare_message, is_user_with_custom_content.
  destruct msg as [r c cc]; simpl in *; subst r. by destruct cc.
Qed.

(** C33: no entry of the output with role user carries custom content, so
    attachments and state of user messages never reach the model. *)
Theorem prepare_messages_no_user_custom_content
    (request : Request) (system_prompt : string) :
  Forall (λ m, llm_role m = "user" → llm_custom_content m = None)
    (prepare_messages request system_prompt).
Proof.
  rewrite prepare_messages_unfold. constructor; [done|].
  apply Forall_map, Forall_forall. intros msg _.
  apply prepare_message_user_no_custom.
Qed.

(** An assistant message is forwarded with its custom content, state
    included: only user messages are reduced. *)
Lemma prepare_message_assistant_keeps_state (msg : Message) :
  role msg = ASSISTANT →
  llm_custom_content (prepare_message msg) = custom_content msg.
Proof.
  intros Hr. rewrite prepare_message_verbatim; [done|]. left. by rewrite Hr.
Qed.

(** The entries depend on the history only: the prompt changes the first
    entry and nothing else. *)
Lemma prepare_messages_tail (request : Request) (p1 p2 : string) :
  tail (prepare_messages request p1) = tail (prepare_messages request p2).
Proof. by rewrite !prepare_messages_unfold. Qed.
