(* ===== verification/Ums.v ===== *)
(** * Ums: the gateway to the stateful user-management agent

    Model of [src/task/coordination/ums_agent.py].  The gateway finds the
    agent's conversation id in the state of an earlier assistant message
    ([get_ums_conversation_id]), asks the agent for a new conversation when
    there is none ([create_ums_conversation]) and stores its id on the
    choice, builds the message to send from the last message of the history
    and the coordinator's instructions, and reads the answer as a stream of
    lines ([call_ums_agent]): an empty line is skipped, the prefix [data: ]
    is removed, the line [[DONE]] ends the reading, a line that is not JSON
    is skipped, and the content fragment of any other line is added to the
    answer and appended to the stage.

    The abstract view of the stream is [sse_run]: the fragments of the
    lines before the sentinel and how the reading ended.  Theorem
    [call_ums_agent_refines_sse] states that the loop computes it. *)

From Stdlib Require Import String Ascii ZArith List Lia Bool.
From stdpp Require Import base tactics option list strings.
From S2P Require Import Prelude Json JsonParse Effects.

(** The key under which the conversation id is kept in a message's state. *)
Definition _UMS_CONVERSATION_ID : string := "ums_conversation_id".

Record UMSAgentGateway : Type := mkUMSAgentGateway {
  ums_agent_endpoint : string
}.

(** ** Conversation lookup *)

(** [__get_ums_conversation_id]: the loop over the history; [JNull] is
    Python's [None]. *)
Fixpoint get_ums_conversation_id_from (msgs : list Message) : Result JSON :=
  match msgs with
  | [] => Ok JNull
  | message :: rest =>
      match role message, custom_content message with
      | ASSISTANT, Some cc =>
          let st := state cc in
          if truthy st then
            has ← py_contains _UMS_CONVERSATION_ID st;
            if has : bool then py_getitem_str st _UMS_CONVERSATION_ID
            else get_ums_conversation_id_from rest
          else get_ums_conversation_id_from rest
      | _, _ => get_ums_conversation_id_from rest
      end
  end.

Definition get_ums_conversation_id (request : Request) : Result JSON :=
  get_ums_conversation_id_from (messages request).

(** ** The line protocol *)

(** [if line.startswith("data: "): line = line[6:]]. *)
Definition strip_data_prefix (line : string) : string :=
  if startswith "data: " line then str_drop 6 line else line.

(** [chunk_data["choices"][0].get("delta", {})]. *)
Definition chunk_delta (chunk_data : JSON) : Result JSON :=
  choices ← py_getitem_str chunk_data "choices";
  first ← py_getitem_0 choices;
  py_get first "delta" (JObject []).

(** The string held by a value that [+=] accepted. *)
Definition as_str (v : JSON) : string :=
  match v with JString s => s | _ => "" end.

Section WithEnv.
Context (env : Env).

(** The statements under [try:] after [json.loads]: extract the content
    fragment of a parsed line, add it to the answer and append it to the
    stage. *)
Definition process_chunk (stage : Stage) (chunk_data : JSON)
    (accumulated_content : string) : M string :=
  has ← lift (py_contains "choices" chunk_data);
  if has : bool then
    delta ← lift (chunk_delta chunk_data);
    content ← lift (py_get delta "content" (JString ""));
    if truthy content then
      accumulated_content' ← lift (py_iadd_str accumulated_content content);
      _ ← stage_append_content stage (as_str content);
      mret accumulated_content'
    else mret accumulated_content
  else mret accumulated_content.

(** The body of [async for line in response.aiter_lines()]. *)
Definition ums_line_body (stage : Stage) (line : string)
    (accumulated_content : string) : M (LoopCtl * string) :=
  if negb (str_truthy line) then mret (Continue, accumulated_content)
  else
    let line := strip_data_prefix line in
    if String.eqb line "[DONE]" then mret (Break, accumulated_content)
    else
      try_except
        (chunk_data ← lift (json_loads line);
         accumulated_content' ← process_chunk stage chunk_data accumulated_content;
         mret (Continue, accumulated_content'))
        is_JSONDecodeError
        (mret (Continue, accumulated_content)).

(** [__call_ums_agent]. *)
Definition call_ums_agent (self : UMSAgentGateway) (conversation_id : JSON)
    (user_message : string) (stage : Stage) : M string :=
  _ ← emit_event (EvUmsChat (ums_agent_endpoint self) conversation_id user_message);
  response ← lift (ums_chat env (ums_agent_endpoint self) conversation_id user_message);
  _ ← lift (raise_for_status (chat_status response));
  for_stream (ums_line_body stage)
    (items (chat_lines response)) (fault (chat_lines response)) "".

(** ** Conversation creation *)

(** [response.json()] on a UTF-8 body: a leading byte order mark is
    dropped, then the text is parsed. *)
Definition response_json (text : string) : Result JSON :=
  json_loads (default text (strip_prefix BOM text)).

(** [__create_ums_conversation]. *)
Definition create_ums_conversation (self : UMSAgentGateway) : M JSON :=
  _ ← emit_event (EvUmsCreate (ums_agent_endpoint self));
  response ← lift (ums_create env (ums_agent_endpoint self));
  _ ← lift (raise_for_status (status_code response));
  data ← lift (response_json (body response));
  lift (py_getitem_str data "id").

(** ** The gateway's entry point *)

(** [request.messages[-1]]. *)
Definition last_message (request : Request) : Result Message :=
  match last (messages request) with
  | Some m => Ok m
  | None => Raise IndexError
  end.

(** The text sent to the agent: the last message's text, followed by the
    instructions in a block of their own when there are any. *)
Definition augment_user_content (last_message : Message)
    (additional_instructions : option string) : string :=
  let user_content := or_str (content last_message) "" in
  if opt_str_truthy additional_instructions
  then user_content +:+ LF +:+ LF +:+ "Additional context: "
         +:+ default "" additional_instructions
  else user_content.

(** [UMSAgentGateway.response]. *)
Definition response (self : UMSAgentGateway) (stage : Stage)
    (request : Request) (additional_instructions : option string) : M Message :=
  found ← lift (get_ums_conversation_id request);
  conversation_id ←
    (if is_None found then
       created ← create_ums_conversation self;
       _ ← choice_set_state (JObject [(_UMS_CONVERSATION_ID, created)]);
       mret created
     else mret found);
  last_message ← lift (last_message request);
  let user_content := augment_user_content last_message additional_instructions in
  response_content ← call_ums_agent self conversation_id user_content stage;
  mret (assistant_message response_content).

End WithEnv.

(** ** The abstract view of the stream *)

(** What one line asks the reader to do. *)
Inductive LineAction : Type :=
| Skip
| Stop
| Fragment (s : string)
| Fail (e : PyError).

(** The content fragment of a parsed line: [Some s] for a non-empty string
    under [choices[0].delta.content], [None] when there is nothing to add. *)
Definition chunk_fragment (chunk_data : JSON) : Result (option string) :=
  has ← py_contains "choices" chunk_data;
  if has : bool then
    delta ← chunk_delta chunk_data;
    content ← py_get delta "content" (JString "");
    if truthy content then
      match content with
      | JString s => Ok (Some s)
      | _ => Raise TypeError
      end
    else Ok None
  else Ok None.

Definition line_action (line : string) : LineAction :=
  if negb (str_truthy line) then Skip
  else
    let line := strip_data_prefix line in
    if String.eqb line "[DONE]" then Stop
    else match json_loads line with
         | Raise e => if is_JSONDecodeError e then Skip else Fail e
         | Ok chunk_data =>
             match chunk_fragment chunk_data with
             | Ok (Some s) => Fragment s
             | Ok None => Skip
             | Raise e => Fail e
             end
         end.

(** How the reading of a stream ended. *)
Inductive Ending : Type :=
| Stopped
| Exhausted
| Failed (e : PyError).

(** The fragments read, in order, and the ending. *)
Fixpoint sse_run (lines : list string) : list string * Ending :=
  match lines with
  | [] => ([], Exhausted)
  | line :: rest =>
      match line_action line with
      | Skip => sse_run rest
      | Stop => ([], Stopped)
      | Fragment s => let '(fs, e) := sse_run rest in (s :: fs, e)
      | Fail e => ([], Failed e)
      end
  end.

(** The result of the loop, from the ending and the stream's fault. *)
Definition sse_result (acc : string) (r : list string * Ending)
    (flt : option PyError) : Result string :=
  match snd r, flt with
  | Failed e, _ => Raise e
  | Exhausted, Some e => Raise e
  | _, _ => Ok (acc +:+ str_concat (fst r))
  end.

(** The id a creation request yields: the pure part of
    [create_ums_conversation]. *)
Definition created_id (env : Env) (self : UMSAgentGateway) : Result JSON :=
  resp ← ums_create env (ums_agent_endpoint self);
  _ ← raise_for_status (status_code resp);
  data ← response_json (body resp);
  py_getitem_str data "id".

(** ** The abstract view of the conversation lookup *)

(** What one message of the history yields: nothing, an id, or an error. *)
Definition message_conversation (m : Message) : Result (option JSON) :=
  match role m, custom_content m with
  | ASSISTANT, Some cc =>
      let st := state cc in
      if truthy st then
        has ← py_contains _UMS_CONVERSATION_ID st;
        if has : bool then Some <$> py_getitem_str st _UMS_CONVERSATION_ID
        else Ok None
      else Ok None
  | _, _ => Ok None
  end.

(** An assistant message whose state is a dictionary holding the key. *)
Definition carries_conversation (m : Message) (v : JSON) : Prop :=
  role m = ASSISTANT ∧
  ∃ cc kvs, custom_content m = Some cc ∧ state cc = JObject kvs ∧
            dict_get _UMS_CONVERSATION_ID kvs = Some v.

(** An assistant message with a state holding conversation id [v]. *)
Definition state_message (v : JSON) : Message :=
  mkMessage ASSISTANT None
    (Some (mkCustomContent [] (JObject [(_UMS_CONVERSATION_ID, v)]))).

(** Sample lines of a chat stream. *)
Definition content_line (s : string) : string :=
  "data: {" +:+ q "choices" +:+ ":[{" +:+ q "delta" +:+ ":{" +:+ q "content"
    +:+ ":" +:+ q s +:+ "}}]}".
Definition metadata_line : string :=
  "data: {" +:+ q "conversation_id" +:+ ":" +:+ q "abc" +:+ "}".
Definition done_line : string := "data: [DONE]".
Definition empty_choices_line : string := "data: {" +:+ q "choices" +:+ ":[]}".

(** ** A sample run *)

(** The lines of a sample chat stream: two fragments around a blank line,
    a metadata line, the terminator, and two lines after it. *)
Definition sample_lines : list string :=
  [content_line "Hel"; ""; content_line "lo"; metadata_line; done_line;
   content_line "late"; "garbage {"].

(** The text of a decision for agent [name]. *)
Definition decision_text (name : string) : string :=
  "{" +:+ q "agent_name" +:+ ": " +:+ q name +:+ "}".

(** The body of the answer to a creation request. *)
Definition created_body (id : string) : string :=
  "{" +:+ q "id" +:+ ": " +:+ q id +:+ "}".

(** An environment in which the classifier chooses the stateful agent, the
    agent creates conversation [c1] and answers with [sample_lines], and the
    synthesis stream carries two fragments. *)
Definition sample_env : Env :=
  scripted_env
    (Ok [Some (decision_text "UMS")])
    (Ok (mkStream [mkChunk [Some "Done: "]; mkChunk []; mkChunk [None];
                   mkChunk [Some "Alice created"]] None))
    (Ok (mkHttpResponse 200 (created_body "c1")))
    (Ok (mkChatResponse 200 (mkStream sample_lines None)))
    (Raise APIError).

Definition sample_gateway : UMSAgentGateway := mkUMSAgentGateway "http://ums".

Definition sample_user : Message := mkMessage USER (Some "create user Alice") None.

(** ** The operators inside the [try] never raise [JSONDecodeError] *)

Lemma chunk_delta_not_JSONDecodeError (d : JSON) :
  chunk_delta d ≠ Raise JSONDecodeError.
Proof.
  unfold chunk_delta. intros H.
  apply result_bind_Raise_inv in H as [H|(c & _ & H)]; [by eapply py_getitem_str_not_JSONDecodeError|].
  apply result_bind_Raise_inv in H as [H|(f & _ & H)]; [by eapply py_getitem_0_not_JSONDecodeError|].
  by eapply py_get_not_JSONDecodeError.
Qed.

Lemma chunk_fragment_not_JSONDecodeError (d : JSON) :
  chunk_fragment d ≠ Raise JSONDecodeError.
Proof.
  unfold chunk_fragment. intros H.
  apply result_bind_Raise_inv in H as [H|([] & _ & H)]; [by eapply py_contains_not_JSONDecodeError| |done].
  apply result_bind_Raise_inv in H as [H|(delta & _ & H)];
    [by apply chunk_delta_not_JSONDecodeError in H|].
  apply result_bind_Raise_inv in H as [H|(c & _ & H)]; [by eapply py_get_not_JSONDecodeError|].
  destruct (truthy c); [|done]. by destruct c.
Qed.

(** ** The loop computes the abstract view *)

Section StreamProofs.
Implicit Types (stage : Stage) (acc : string) (past : Trace).

Lemma process_chunk_run stage d acc past :
  process_chunk stage d acc past =
  match chunk_fragment d with
  | Ok (Some s) => (Ok (acc +:+ s), [EvStageAppend stage s])
  | Ok None => (Ok acc, [])
  | Raise e => (Raise e, [])
  end.
Proof.
  unfold process_chunk, chunk_fragment. mrun.
  destruct (py_contains "choices" d) as [[]|e]; simpl; try done.
  destruct (chunk_delta d) as [delta|e]; simpl; [|done].
  destruct (py_get delta "content" (JString "")) as [c|e]; simpl; [|done].
  destruct (truthy c) eqn:Ht; simpl; [|done]. by destruct c.
Qed.

Lemma ums_line_body_run stage line acc past :
  ums_line_body stage line acc past =
  match line_action line with
  | Skip => (Ok (Continue, acc), [])
  | Stop => (Ok (Break, acc), [])
  | Fragment s => (Ok (Continue, acc +:+ s), [EvStageAppend stage s])
  | Fail e => (Raise e, [])
  end.
Proof.
  unfold ums_line_body, line_action.
  destruct (str_truthy line); simpl; [|done].
  destruct (String.eqb _ "[DONE]"); [done|].
  unfold try_except, mbind, M_bind, bind, lift. simpl.
  destruct (json_loads (strip_data_prefix line)) as [d|e]; simpl.
  - rewrite process_chunk_run.
    pose proof (chunk_fragment_not_JSONDecodeError d) as Hne.
    destruct (chunk_fragment d) as [[s|]|e]; simpl; try done.
    by destruct e.
  - by destruct e.
Qed.

Lemma for_stream_sse stage lines flt acc past :
  for_stream (ums_line_body stage) lines flt acc past =
  (sse_result acc (sse_run lines) flt,
   map (EvStageAppend stage) (fst (sse_run lines))).
Proof.
  revert acc past. induction lines as [|line lines IH]; intros acc past.
  - rewrite for_stream_nil. unfold sse_result. simpl.
    destruct flt; [done|]. by rewrite str_app_nil_r.
  - rewrite for_stream_cons, ums_line_body_run. simpl.
    destruct (line_action line) as [| |s|e]; simpl.
    + by rewrite IH.
    + unfold sse_result. simpl. by rewrite str_app_nil_r.
    + rewrite IH. destruct (sse_run lines) as [fs en]. unfold sse_result. simpl.
      rewrite str_app_assoc. by destruct en, flt.
    + done.
Qed.

End StreamProofs.

Lemma chunk_fragment_raises (d : JSON) (e : PyError) :
  chunk_fragment d = Raise e →
  e = TypeError ∨ e = KeyError ∨ e = IndexError ∨ e = AttributeError.
Proof.
  unfold chunk_fragment, chunk_delta, py_contains, py_getitem_str, py_getitem_0,
    py_get.
  intros H. result_cases H; simplify_eq; auto.
Qed.

(** C31: the only errors that leave the body of the stream loop
    are [ValueError], for an integer literal of too many digits,
    [RecursionError], for arrays and objects nested beyond the recursion
    limit, and the errors of the operators applied to the parsed value; a
    decode error never leaves it, and a failing line adds no event. *)
Theorem ums_line_body_errors stage line acc past e ev :
  ums_line_body stage line acc past = (Raise e, ev) →
  ev = [] ∧
  e ∈ [ValueError; RecursionError; TypeError; KeyError; IndexError; AttributeError].
Proof.
  rewrite ums_line_body_run. unfold line_action.
  destruct (negb (str_truthy line)); [done|]. cbv zeta.
  destruct (String.eqb _ _); [done|].
  destruct (json_loads_total (strip_data_prefix line)) as [[v ->]|[-> |[-> | ->]]].
  - destruct (chunk_fragment v) as [[s|]|e'] eqn:Hf; try done.
    intros [= <- <-]. split; [done|].
    destruct (chunk_fragment_raises _ _ Hf) as [->|[->|[->| ->]]]; by repeat constructor.
  - done.
  - intros [= <- <-]. by repeat constructor.
  - intros [= <- <-]. by repeat constructor.
Qed.

(** ** Conversation lookup *)

Lemma get_ums_conversation_id_from_cons m rest :
  get_ums_conversation_id_from (m :: rest) =
  match message_conversation m with
  | Ok None => get_ums_conversation_id_from rest
  | Ok (Some v) => Ok v
  | Raise e => Raise e
  end.
Proof.
  simpl. unfold message_conversation.
  destruct (role m); try done. destruct (custom_content m) as [cc|]; [|done].
  simpl. destruct (truthy (state cc)); [|done].
  destruct (py_contains _ _) as [[]|e]; simpl; try done.
  by destruct (py_getitem_str _ _).
Qed.

Lemma get_ums_conversation_id_from_skip pre rest :
  Forall (λ x, message_conversation x = Ok None) pre →
  get_ums_conversation_id_from (pre ++ rest) = get_ums_conversation_id_from rest.
Proof.
  induction 1 as [|x pre Hx _ IH]; [done|].
  rewrite <- app_comm_cons, get_ums_conversation_id_from_cons. by rewrite Hx.
Qed.

Lemma carries_conversation_found m v :
  carries_conversation m v → message_conversation m = Ok (Some v).
Proof.
  intros (Hr & cc & kvs & Hc & Hs & Hg). unfold message_conversation.
  rewrite Hr, Hc. cbv zeta. rewrite Hs.
  destruct (dict_get_Some_ops _ _ _ Hg) as (-> & -> & ->). done.
Qed.

(** C6: the lookup returns the id of the first message of
    the history that carries one, whatever follows it: of two messages that
    carry an id, the earlier one wins. *)
Theorem get_ums_conversation_id_first_match pre m post v :
  Forall (λ x, message_conversation x = Ok None) pre →
  carries_conversation m v →
  get_ums_conversation_id (mkRequest (pre ++ m :: post)) = Ok v.
Proof.
  intros Hpre Hm. unfold get_ums_conversation_id. simpl.
  rewrite get_ums_conversation_id_from_skip by done.
  rewrite get_ums_conversation_id_from_cons.
  by rewrite (carries_conversation_found _ _ Hm).
Qed.

(** ** Laws of the abstract view *)

Lemma sse_run_app_Exhausted pre post fs :
  sse_run pre = (fs, Exhausted) →
  sse_run (pre ++ post) = (fs ++ (sse_run post).1, (sse_run post).2).
Proof.
  revert fs. induction pre as [|l pre IH]; intros fs; simpl.
  - intros [= <-]. by destruct (sse_run post).
  - destruct (line_action l); try done.
    + apply IH.
    + destruct (sse_run pre) as [fs' en] eqn:E. intros [= <- ->].
      rewrite (IH fs' eq_refl). done.
Qed.

Lemma sse_run_app_ended pre post fs en :
  sse_run pre = (fs, en) → en ≠ Exhausted → sse_run (pre ++ post) = (fs, en).
Proof.
  revert fs. induction pre as [|l pre IH]; intros fs; simpl.
  - by intros [= <- <-].
  - destruct (line_action l); try done.
    + apply IH.
    + destruct (sse_run pre) as [fs' en'] eqn:E. intros [= <- ->] Hne.
      by rewrite (IH fs' eq_refl Hne).
Qed.

Lemma line_action_done : line_action done_line = Stop.
Proof. reflexivity. Qed.

Lemma line_action_Stop_iff line :
  line_action line = Stop ↔ strip_data_prefix line = "[DONE]".
Proof.
  unfold line_action. destruct (str_truthy line) eqn:Ht; simpl.
  - destruct (String.eqb_spec (strip_data_prefix line) "[DONE]") as [->|Hne];
      [done|].
    split; [|done]. destruct (json_loads _) as [d|e].
    + by destruct (chunk_fragment d) as [[]|].
    + by destruct (is_JSONDecodeError e).
  - apply str_truthy_false in Ht as ->. done.
Qed.

Lemma line_action_not_json line :
  str_truthy line = true → strip_data_prefix line ≠ "[DONE]" →
  json_loads (strip_data_prefix line) = Raise JSONDecodeError →
  line_action line = Skip.
Proof.
  intros Ht Hne Hj. unfold line_action. rewrite Ht. simpl.
  destruct (String.eqb_spec (strip_data_prefix line) "[DONE]"); [done|].
  by rewrite Hj.
Qed.

Lemma sse_run_skip pre line post :
  line_action line = Skip → sse_run (pre ++ line :: post) = sse_run (pre ++ post).
Proof.
  intros Hs. induction pre as [|l pre IH]; simpl; [by rewrite Hs|].
  destruct (line_action l); try done. by rewrite IH.
Qed.

Lemma sse_run_stop pre line post :
  line_action line = Stop →
  sse_run (pre ++ line :: post) =
  ((sse_run pre).1, match (sse_run pre).2 with Exhausted => Stopped | en => en end).
Proof.
  intros Hs. induction pre as [|l pre IH]; simpl; [by rewrite Hs|].
  destruct (line_action l); try done. rewrite IH. by destruct (sse_run pre).
Qed.

Lemma get_ums_conversation_id_from_none msgs :
  Forall (λ x, message_conversation x = Ok None) msgs →
  get_ums_conversation_id_from msgs = Ok JNull.
Proof.
  intros H. rewrite <- (app_nil_r msgs).
  by rewrite get_ums_conversation_id_from_skip.
Qed.

Lemma message_conversation_not_assistant m :
  role m ≠ ASSISTANT → message_conversation m = Ok None.
Proof. unfold message_conversation. by destruct (role m). Qed.

Lemma message_conversation_no_custom m :
  custom_content m = None → message_conversation m = Ok None.
Proof. unfold message_conversation. intros ->. by destruct (role m). Qed.

Lemma chunk_fragment_empty_choices kvs :
  dict_get "choices" kvs = Some (JArray []) →
  chunk_fragment (JObject kvs) = Raise IndexError.
Proof.
  intros H. unfold chunk_fragment, chunk_delta.
  destruct (dict_get_Some_ops _ _ _ H) as (_ & -> & ->). done.
Qed.

Lemma line_action_parsed line d :
  str_truthy line = true → strip_data_prefix line ≠ "[DONE]" →
  json_loads (strip_data_prefix line) = Ok d →
  line_action line = match chunk_fragment d with
                     | Ok (Some s) => Fragment s
                     | Ok None => Skip
                     | Raise e => Fail e
                     end.
Proof.
  intros Ht Hne Hj. unfold line_action. rewrite Ht. simpl.
  destruct (String.eqb_spec (strip_data_prefix line) "[DONE]"); [done|].
  by rewrite Hj.
Qed.

(** ** The gateway's handlers *)

Section GatewayProofs.
Context (env : Env).
Implicit Types (stage : Stage) (acc : string) (past : Trace).

Lemma call_ums_agent_run self cid msg stage past :
  call_ums_agent env self cid msg stage past =
  let call := EvUmsChat (ums_agent_endpoint self) cid msg in
  match ums_chat env (ums_agent_endpoint self) cid msg with
  | Raise e => (Raise e, [call])
  | Ok resp =>
      match raise_for_status (chat_status resp) with
      | Raise e => (Raise e, [call])
      | Ok _ =>
          let r := sse_run (items (chat_lines resp)) in
          (sse_result "" r (fault (chat_lines resp)),
           call :: map (EvStageAppend stage) (fst r))
      end
  end.
Proof.
  unfold call_ums_agent. mrun.
  destruct (ums_chat _ _ _ _) as [resp|e]; simpl; [|done].
  destruct (raise_for_status _) as [[]|e]; simpl; [|done].
  by rewrite for_stream_sse.
Qed.

Lemma create_ums_conversation_run self past :
  create_ums_conversation env self past =
  (created_id env self, [EvUmsCreate (ums_agent_endpoint self)]).
Proof.
  unfold create_ums_conversation, created_id. mrun.
  destruct (ums_create _ _) as [resp|e]; simpl; [|done].
  destruct (raise_for_status _) as [[]|e]; simpl; [|done].
  destruct (response_json _) as [d|e]; simpl; [|done].
  by destruct (py_getitem_str d "id").
Qed.

(** C2: when the agent accepts the chat request, the chat
    call returns the result of the abstract reading of the lines
    ([sse_run]: skip, stop, fragment or failure per line) and its events are
    the call followed by one append to the stage per fragment read, in
    order. *)
Theorem call_ums_agent_refines_sse self cid msg stage past resp :
  ums_chat env (ums_agent_endpoint self) cid msg = Ok resp →
  (200 ≤ chat_status resp ≤ 299)%Z →
  call_ums_agent env self cid msg stage past =
  (sse_result "" (sse_run (items (chat_lines resp))) (fault (chat_lines resp)),
   EvUmsChat (ums_agent_endpoint self) cid msg
     :: map (EvStageAppend stage) (sse_run (items (chat_lines resp))).1).
Proof.
  intros Hc Hs. rewrite call_ums_agent_run, Hc. simpl.
  apply raise_for_status_Ok in Hs. by rewrite Hs.
Qed.

(** The terminator line ends the reading: the lines after it
    are not read, and a fault of the stream after it is not met. *)
Lemma done_truncates_stream stage pre post flt acc past :
  for_stream (ums_line_body stage) (pre ++ done_line :: post) flt acc past =
  for_stream (ums_line_body stage) pre None acc past.
Proof.
  rewrite !for_stream_sse, (sse_run_stop _ _ _ line_action_done).
  by destruct (sse_run pre) as [fs [| |e]], flt.
Qed.

(** C28: a non-empty line that is not the terminator and that
    [json.loads] rejects with a decode error is passed over: the reading
    gives the result and the events it gives without that line.  This is
    what the except clause at lines 188 to 190 does; the docstring of
    [__call_ums_agent] (lines 146 to 148) and of the module (line 12) say
    that such an error is raised. *)
Theorem non_json_line_skipped stage pre line post flt acc past :
  str_truthy line = true → strip_data_prefix line ≠ "[DONE]" →
  json_loads (strip_data_prefix line) = Raise JSONDecodeError →
  for_stream (ums_line_body stage) (pre ++ line :: post) flt acc past =
  for_stream (ums_line_body stage) (pre ++ post) flt acc past.
Proof.
  intros Ht Hne Hj. rewrite !for_stream_sse.
  by rewrite (sse_run_skip _ _ _ (line_action_not_json _ Ht Hne Hj)).
Qed.

(** When the reading succeeds, the text it returns is
    exactly the text it appended to the stage, nothing reached the choice,
    and the events are one append per fragment. *)
Lemma stage_text_is_answer stage lines flt past text ev :
  for_stream (ums_line_body stage) lines flt "" past = (Ok text, ev) →
  stage_text stage ev = text ∧ choice_text ev = "" ∧
  ev = map (EvStageAppend stage) (sse_run lines).1.
Proof.
  rewrite for_stream_sse. intros [= Hr <-].
  split_and!; [|unfold choice_text; by autorewrite with py|done].
  rewrite stage_text_appends. unfold sse_result in Hr.
  destruct (sse_run lines) as [fs [| |e]], flt; simpl in *; by inv Hr.
Qed.

(** The events of the chat call: the call, then appends to the stage. *)
Lemma call_ums_agent_events self cid msg stage past r ev :
  call_ums_agent env self cid msg stage past = (r, ev) →
  ∃ fs, ev = EvUmsChat (ums_agent_endpoint self) cid msg
               :: map (EvStageAppend stage) fs.
Proof.
  rewrite call_ums_agent_run. cbv zeta.
  destruct (ums_chat _ _ _ _) as [resp|e]; [|intros [= _ <-]; by exists []].
  destruct (raise_for_status _) as [[]|e]; intros [= _ <-]; [eauto|by exists []].
Qed.

Lemma call_ums_agent_past_independent self cid msg stage :
  past_independent (call_ums_agent env self cid msg stage).
Proof. intros p1 p2. by rewrite !call_ums_agent_run. Qed.

(** [response] once the lookup has answered. *)
Lemma response_run self stage request instr past :
  response env self stage request instr past =
  match get_ums_conversation_id request with
  | Raise e => (Raise e, [])
  | Ok found =>
      let pre := if is_None found
                 then [EvUmsCreate (ums_agent_endpoint self)] else [] in
      match (if is_None found then created_id env self else Ok found) with
      | Raise e => (Raise e, pre)
      | Ok cid =>
          let pre' := if is_None found
                      then pre ++ [EvSetState (JObject [(_UMS_CONVERSATION_ID, cid)])]
                      else pre in
          match last_message request with
          | Raise e => (Raise e, pre')
          | Ok m =>
              let '(r, ev) := call_ums_agent env self cid
                                (augment_user_content m instr) stage past in
              (assistant_message <$> r, pre' ++ ev)
          end
      end
  end.
Proof.
  unfold response.
  unfold mbind at 1, M_bind, bind at 1, lift at 1.
  destruct (get_ums_conversation_id request) as [found|e]; [|done].
  cbv zeta. rewrite app_nil_r.
  unfold mbind at 1, M_bind, bind at 1.
  destruct (is_None found).
  - unfold mbind at 1, M_bind, bind at 1. rewrite create_ums_conversation_run.
    destruct (created_id env self) as [cid|e]; [|done]. mrun.
    destruct (last_message request) as [m|e]; simpl; [|done].
    rewrite (call_ums_agent_past_independent _ _ _ _ _ past).
    destruct (call_ums_agent _ _ _ _ _ past) as [[text|e] ev]; simpl; [|done].
    by rewrite app_nil_r.
  - mrun. destruct (last_message request) as [m|e]; simpl; [|done].
    rewrite (call_ums_agent_past_independent _ _ _ _ _ past).
    destruct (call_ums_agent _ _ _ _ _ past) as [[text|e] ev]; simpl; [|done].
    by rewrite app_nil_r.
Qed.

(** What the stateful gateway stores: nothing when the history carries an
    id, the created id when it carries none. *)
Lemma response_set_states self stage request instr past r ev :
  response env self stage request instr past = (r, ev) →
  match get_ums_conversation_id request with
  | Raise _ => set_states ev = [] ∧ ums_create_calls ev = []
  | Ok found =>
      if is_None found then
        ums_create_calls ev = [ums_agent_endpoint self] ∧
        match created_id env self with
        | Ok cid => set_states ev = [JObject [(_UMS_CONVERSATION_ID, cid)]]
        | Raise _ => set_states ev = []
        end
      else set_states ev = [] ∧ ums_create_calls ev = []
  end.
Proof.
  rewrite response_run.
  destruct (get_ums_conversation_id request) as [found|e]; [|by intros [= _ <-]].
  cbv zeta. destruct (is_None found).
  - destruct (created_id env self) as [cid|e]; [|by intros [= _ <-]].
    destruct (last_message request) as [m|e]; [|by intros [= _ <-]].
    destruct (call_ums_agent _ _ _ _ _ _) as [r' ev'] eqn:Hc.
    intros [_ <-]%pair_equal_spec.
    destruct (call_ums_agent_events _ _ _ _ _ _ _ Hc) as [fs ->].
    change (EvUmsChat ?a ?b ?c :: ?l) with ([EvUmsChat a b c] ++ l).
    autorewrite with py. by simpl.
  - destruct (last_message request) as [m|e]; [|by intros [= _ <-]].
    destruct (call_ums_agent _ _ _ _ _ _) as [r' ev'] eqn:Hc.
    intros [_ <-]%pair_equal_spec.
    destruct (call_ums_agent_events _ _ _ _ _ _ _ Hc) as [fs ->].
    change (EvUmsChat ?a ?b ?c :: ?l) with ([EvUmsChat a b c] ++ l).
    autorewrite with py. by simpl.
Qed.

(** The chat calls of the stateful gateway once the lookup and the
    creation have answered. *)
Lemma response_chat_calls self stage request instr past r ev found m :
  response env self stage request instr past = (r, ev) →
  get_ums_conversation_id request = Ok found → is_None found = false →
  last_message request = Ok m →
  ums_chat_calls ev = [(found, augment_user_content m instr)].
Proof.
  rewrite response_run. intros H Hf Hn Hm. rewrite Hf, Hm in H. cbv zeta in H.
  rewrite Hn in H.
  destruct (call_ums_agent _ _ _ _ _ _) as [r' ev'] eqn:Hc.
  apply pair_equal_spec in H as [_ <-].
  destruct (call_ums_agent_events _ _ _ _ _ _ _ Hc) as [fs ->].
  simpl. f_equal. apply (ums_chat_calls_appends stage fs).
Qed.

(** A run of the gateway that returned, taken apart. *)
Lemma response_Ok_inv self stage request instr past msg ev :
  response env self stage request instr past = (Ok msg, ev) →
  ∃ found cid m,
    get_ums_conversation_id request = Ok found ∧
    (if is_None found then created_id env self else Ok found) = Ok cid ∧
    last_message request = Ok m ∧
    ums_chat_calls ev = [(cid, augment_user_content m instr)].
Proof.
  rewrite response_run.
  destruct (get_ums_conversation_id request) as [found|e]; [|done]. cbv zeta.
  destruct (if is_None found then _ else _) as [cid|e] eqn:Hid; [|done].
  destruct (last_message request) as [m|e]; [|done].
  destruct (call_ums_agent _ _ _ _ _ _) as [r' ev'] eqn:Hc.
  intros [_ <-]%pair_equal_spec. exists found, cid, m. split_and!; [done..|].
  destruct (call_ums_agent_events _ _ _ _ _ _ _ Hc) as [fs ->].
  rewrite ums_chat_calls_app. simpl.
  rewrite (ums_chat_calls_appends stage fs).
  by destruct (is_None found).
Qed.

(** C4: when the history carries no conversation id and the
    agent answers the creation request with [cid], the gateway issues
    exactly one creation call, stores [cid] under the tracked key in the
    choice's state, and only then issues the single chat call, which
    carries [cid] and the augmented text of the last message. *)
Theorem response_creates_conversation self stage request instr past cid m r ev :
  get_ums_conversation_id request = Ok JNull →
  created_id env self = Ok cid →
  last_message request = Ok m →
  call_ums_agent env self cid (augment_user_content m instr) stage past = (r, ev) →
  let st := JObject [(_UMS_CONVERSATION_ID, cid)] in
  let all := EvUmsCreate (ums_agent_endpoint self) :: EvSetState st :: ev in
  response env self stage request instr past = (assistant_message <$> r, all) ∧
  ums_create_calls all = [ums_agent_endpoint self] ∧
  ums_chat_calls all = [(cid, augment_user_content m instr)] ∧
  choice_state all = Some st ∧
  head ev = Some (EvUmsChat (ums_agent_endpoint self) cid (augment_user_content m instr)).
Proof.
  intros Hg Hc Hm Hcall. rewrite response_run, Hg. simpl. rewrite Hc, Hm, Hcall.
  destruct (call_ums_agent_events _ _ _ _ _ _ _ Hcall) as [fs ->].
  split_and!; try done.
  - simpl. f_equal. unfold ums_create_calls. simpl.
    apply (ums_create_calls_appends stage fs).
  - simpl. f_equal. apply (ums_chat_calls_appends stage fs).
  - unfold choice_state. simpl. by rewrite set_states_appends.
Qed.

(** C5: when the history carries conversation id [v], the gateway
    issues no creation call and sets no state; its only external call is
    the chat call, which carries [v] unchanged. *)
Theorem response_reuses_conversation self stage request instr past v m r ev :
  get_ums_conversation_id request = Ok v →
  is_None v = false →
  last_message request = Ok m →
  call_ums_agent env self v (augment_user_content m instr) stage past = (r, ev) →
  response env self stage request instr past = (assistant_message <$> r, ev) ∧
  ums_create_calls ev = [] ∧
  ums_chat_calls ev = [(v, augment_user_content m instr)] ∧
  choice_state ev = None.
Proof.
  intros Hg Hn Hm Hcall. rewrite response_run, Hg, Hn. simpl. rewrite Hm, Hcall.
  destruct (call_ums_agent_events _ _ _ _ _ _ _ Hcall) as [fs ->].
  split_and!; try done.
  - apply (ums_create_calls_appends stage fs).
  - simpl. f_equal. apply (ums_chat_calls_appends stage fs).
  - unfold choice_state. simpl. by rewrite set_states_appends.
Qed.

(** C37: on an empty history the gateway first creates a
    conversation and stores its id, and only then fails with [IndexError]
    on [request.messages[-1]]: the conversation is created and never used. *)
Theorem response_empty_history self stage instr past cid :
  created_id env self = Ok cid →
  response env self stage (mkRequest []) instr past =
  (Raise IndexError,
   [EvUmsCreate (ums_agent_endpoint self);
    EvSetState (JObject [(_UMS_CONVERSATION_ID, cid)])]).
Proof. intros Hc. rewrite response_run. simpl. by rewrite Hc. Qed.

(** C32: a line that parses to an object whose [choices]
    is the empty list is not ignored: [choices[0]] raises [IndexError],
    which the [except] clause does not catch, and the answer is lost. *)
Theorem empty_choices_line_raises stage line kvs acc past :
  str_truthy line = true → strip_data_prefix line ≠ "[DONE]" →
  json_loads (strip_data_prefix line) = Ok (JObject kvs) →
  dict_get "choices" kvs = Some (JArray []) →
  ums_line_body stage line acc past = (Raise IndexError, []).
Proof.
  intros Ht Hne Hj Hc. rewrite ums_line_body_run.
  rewrite (line_action_parsed _ _ Ht Hne Hj).
  by rewrite (chunk_fragment_empty_choices _ Hc).
Qed.

End GatewayProofs.

(** The text sent to the agent is the last message's text
    (empty when absent); instructions that are absent or empty add nothing,
    and non-empty instructions are appended after a blank line under the
    heading [Additional context: ]. *)
Lemma augment_user_content_spec (m : Message) :
  augment_user_content m None = default "" (content m) ∧
  augment_user_content m (Some "") = default "" (content m) ∧
  ∀ c s, augment_user_content m (Some (String c s)) =
         default "" (content m) +:+ LF +:+ LF +:+ "Additional context: "
           +:+ String c s.
Proof.
  unfold augment_user_content. rewrite or_str_empty_default. by split_and!.
Qed.

(** ** The theorems at the sample run *)

Lemma ums_line_body_errors_witness :
  ums_line_body 1 empty_choices_line "" [] = (Raise IndexError, []) ∧
  ([] : Trace) = [] ∧
  IndexError ∈ [ValueError; RecursionError; TypeError; KeyError; IndexError;
                AttributeError].
Proof.
  split; [by vm_compute|].
  apply (ums_line_body_errors 1 empty_choices_line "" []). by vm_compute.
Defined.

Lemma get_ums_conversation_id_first_match_witness :
  get_ums_conversation_id
    (mkRequest ([sample_user] ++ state_message (JString "c1")
                  :: [state_message (JString "c2")])) = Ok (JString "c1").
Proof.
  apply (get_ums_conversation_id_first_match [sample_user]
           (state_message (JString "c1")) [state_message (JString "c2")]).
  - by repeat constructor.
  - split; [done|]. by eexists _, _.
Defined.

Lemma call_ums_agent_refines_sse_witness :
  call_ums_agent sample_env sample_gateway (JString "c1") "hi" 1 [] =
  (Ok "Hello",
   [EvUmsChat "http://ums" (JString "c1") "hi";
    EvStageAppend 1 "Hel"; EvStageAppend 1 "lo"]).
Proof.
  rewrite (call_ums_agent_refines_sse sample_env sample_gateway (JString "c1")
             "hi" 1 [] (mkChatResponse 200 (mkStream sample_lines None)));
    [by vm_compute|done|simpl; lia].
Defined.

Lemma non_json_line_skipped_witness :
  for_stream (ums_line_body 1)
    ([content_line "a"] ++ "data: not json" :: [content_line "b"]) None "" [] =
  for_stream (ums_line_body 1) ([content_line "a"] ++ [content_line "b"])
    None "" [].
Proof.
  apply (non_json_line_skipped 1 [content_line "a"] "data: not json"
           [content_line "b"] None "" []); by vm_compute.
Defined.

Lemma stage_text_is_answer_sample :
  let ev := [EvStageAppend 1 "Hel"; EvStageAppend 1 "lo"] in
  stage_text 1 ev = "Hello" ∧ choice_text ev = "" ∧
  ev = map (EvStageAppend 1) (sse_run sample_lines).1.
Proof.
  apply (stage_text_is_answer 1 sample_lines None [] "Hello"). by vm_compute.
Qed.

Lemma response_creates_conversation_witness :
  let st := JObject [(_UMS_CONVERSATION_ID, JString "c1")] in
  let ev := [EvUmsChat "http://ums" (JString "c1") "create user Alice";
             EvStageAppend 1 "Hel"; EvStageAppend 1 "lo"] in
  let all := EvUmsCreate "http://ums" :: EvSetState st :: ev in
  response sample_env sample_gateway 1 (mkRequest [sample_user]) None [] =
    (Ok (assistant_message "Hello"), all) ∧
  ums_create_calls all = ["http://ums"] ∧
  ums_chat_calls all = [(JString "c1", "create user Alice")] ∧
  choice_state all = Some st ∧
  head ev = Some (EvUmsChat "http://ums" (JString "c1") "create user Alice").
Proof.
  apply (response_creates_conversation sample_env sample_gateway 1
           (mkRequest [sample_user]) None [] (JString "c1") sample_user
           (Ok "Hello")); by vm_compute.
Defined.

Lemma response_reuses_conversation_witness :
  let ev := [EvUmsChat "http://ums" (JString "c7") "create user Alice";
             EvStageAppend 1 "Hel"; EvStageAppend 1 "lo"] in
  response sample_env sample_gateway 1
    (mkRequest [state_message (JString "c7"); sample_user]) None [] =
    (Ok (assistant_message "Hello"), ev) ∧
  ums_create_calls ev = [] ∧
  ums_chat_calls ev = [(JString "c7", "create user Alice")] ∧
  choice_state ev = None.
Proof.
  apply (response_reuses_conversation sample_env sample_gateway 1
           (mkRequest [state_message (JString "c7"); sample_user]) None []
           (JString "c7") sample_user (Ok "Hello")); by vm_compute.
Defined.

Lemma response_empty_history_witness :
  response sample_env sample_gateway 1 (mkRequest []) None [] =
  (Raise IndexError,
   [EvUmsCreate "http://ums";
    EvSetState (JObject [(_UMS_CONVERSATION_ID, JString "c1")])]).
Proof.
  apply (response_empty_history sample_env sample_gateway 1 None [] (JString "c1")).
  by vm_compute.
Defined.

Lemma empty_choices_line_raises_witness :
  ums_line_body 1 empty_choices_line "" [] = (Raise IndexError, []).
Proof.
  apply (empty_choices_line_raises 1 empty_choices_line
           [("choices", JArray [])] "" []); by vm_compute.
Defined.
