(* ===== verification/Stream.v ===== *)
(** * Stream: the chat stream of the stateful agent, for every content

    The lines of the chat stream are written by the agent: [data: ] and the
    JSON text of a chunk.  [data_line] is such a line and [chunk_json] the
    chunk that carries a content fragment.  With the decoder's round trip of
    [JsonPrint], the reading of a line is determined by the value the line
    was written from ([line_action_data]), for every value and so for every
    fragment, whatever characters it holds.

    [content_stream_roundtrip] is the property the specification asks of
    the streaming call: the text returned and the text shown on the stage
    are the concatenation, in arrival order, of the fragments sent before
    the terminator; what follows the terminator is not read.

    The prefix is recognised only with its blank: a line [data:[DONE]]
    does not end the reading ([done_without_blank_skipped]).

    A line that opens more arrays than the recursion limit allows makes
    [json.loads] raise [RecursionError], which is not a decode error: the
    reading ends with it ([deep_line_aborts]). *)

From Stdlib Require Import String Ascii ZArith List Lia Bool.
From stdpp Require Import base tactics option list strings.
From S2P Require Import Prelude Json JsonParse JsonPrint Effects Ums.

(** The line that carries the value [v]. *)
Definition data_line (v : JSON) : string := "data: " +:+ json_encode v.

(** The value of a chunk whose delta holds the content [s]. *)
Definition chunk_json (s : string) : JSON :=
  JObject [("choices",
            JArray [JObject [("delta", JObject [("content", JString s)])]])].

(** What an item of a stream adds to the text. *)
Definition value_fragment (v : JSON) : option string :=
  match chunk_fragment v with Ok (Some s) => Some s | _ => None end.

(** The values a peer may send without ending the reading: well formed,
    with small integers, and either a content chunk or without content. *)
Definition value_ok (v : JSON) : Prop :=
  json_wf v = true ∧ json_small v = true ∧ is_Ok (chunk_fragment v) = true.

(** A line whose text opens one array more than the recursion limit
    allows, followed by [rest]. *)
Definition deep_line (rest : string) : string :=
  "data: " +:+ brackets (S recursion_limit) +:+ rest.

Lemma strip_data_prefix_data s : strip_data_prefix ("data: " +:+ s) = s.
Proof.
  unfold strip_data_prefix. rewrite startswith_app.
  apply (str_drop_app "data: ").
Qed.

Lemma json_encode_not_done v :
  json_wf v = true → json_small v = true → json_encode v ≠ "[DONE]".
Proof.
  intros Hwf Hsm Heq. pose proof (json_loads_encode v Hwf Hsm) as Hl.
  rewrite Heq in Hl. by vm_compute in Hl.
Qed.

Lemma line_action_data v :
  json_wf v = true → json_small v = true →
  line_action (data_line v) =
  match chunk_fragment v with
  | Ok (Some s) => Fragment s
  | Ok None => Skip
  | Raise e => Fail e
  end.
Proof.
  intros Hwf Hsm. unfold data_line. apply line_action_parsed.
  - done.
  - rewrite strip_data_prefix_data. by apply json_encode_not_done.
  - rewrite strip_data_prefix_data. by apply json_loads_encode.
Qed.

Lemma chunk_fragment_chunk_json s :
  chunk_fragment (chunk_json s) = Ok (if str_truthy s then Some s else None).
Proof. by destruct s. Qed.

Lemma chunk_json_ok s : value_ok (chunk_json s).
Proof. unfold value_ok. rewrite chunk_fragment_chunk_json. done. Qed.

Lemma sse_run_values vs :
  Forall value_ok vs →
  sse_run (map data_line vs) = (omap value_fragment vs, Exhausted).
Proof.
  induction 1 as [|v vs Hv _ IH]; [done|]. destruct Hv as (Hwf & Hsm & Hok).
  cbn [map sse_run]. rewrite line_action_data, IH by done.
  cbn [omap list_omap]. unfold value_fragment.
  by destruct (chunk_fragment v) as [[s|]|e].
Qed.

Lemma omap_value_fragment_chunks fs :
  omap value_fragment (map chunk_json fs) = filter (λ s, str_truthy s = true) fs.
Proof.
  induction fs as [|s fs IH]; [done|]. cbn [map omap list_omap]. rewrite IH.
  by destruct s.
Qed.

Lemma str_concat_filter_truthy fs :
  str_concat (filter (λ s, str_truthy s = true) fs) = str_concat fs.
Proof.
  induction fs as [|s fs IH]; [done|]. destruct s as [|c s].
  - by rewrite filter_cons_False.
  - rewrite filter_cons_True by done. by rewrite !str_concat_cons, IH.
Qed.

(** The sample lines of [Ums] are data lines: a fragment without a
    character to escape is written as it is. *)
Lemma content_line_data s :
  json_escape s = s → content_line s = data_line (chunk_json s).
Proof.
  intros Hs. unfold content_line, data_line. cbn. unfold encode_string.
  rewrite Hs. unfold q. by autorewrite with pystr.
Qed.

Section StreamTheorems.
Context (stage : Stage).

Lemma for_stream_values vs rest flt past :
  Forall value_ok vs →
  for_stream (ums_line_body stage) (map data_line vs ++ done_line :: rest) flt "" past =
  (Ok (str_concat (omap value_fragment vs)),
   map (EvStageAppend stage) (omap value_fragment vs)).
Proof.
  intros Hvs. rewrite for_stream_sse.
  rewrite (sse_run_stop _ _ _ line_action_done), (sse_run_values _ Hvs).
  unfold sse_result. simpl. by destruct flt.
Qed.

(** C13: whatever fragments the agent sends, each as the content
    of a chunk on a line of its own, and whatever characters they hold, the
    reading returns their concatenation in arrival order and appends each
    non-empty one to the stage, in that order; the lines after the
    terminator are not read and a fault of the stream after it is not
    met. *)
Theorem content_stream_roundtrip fs rest flt past :
  for_stream (ums_line_body stage)
    (map (λ s, data_line (chunk_json s)) fs ++ done_line :: rest) flt "" past =
  (Ok (str_concat fs),
   map (EvStageAppend stage) (filter (λ s, str_truthy s = true) fs)).
Proof.
  rewrite <- (map_map chunk_json data_line), for_stream_values.
  - by rewrite omap_value_fragment_chunks, str_concat_filter_truthy.
  - apply Forall_map, Forall_true. apply chunk_json_ok.
Qed.

Lemma line_action_deep rest : line_action (deep_line rest) = Fail RecursionError.
Proof.
  unfold line_action, deep_line. rewrite strip_data_prefix_data.
  unfold json_loads. rewrite json_loads_at_deep.
  by rewrite !str_app_cons.
Qed.

(** C30: a line nested beyond the recursion limit ends the reading
    with an error.  [json.loads] raises [RecursionError] on a text that
    opens more arrays than the interpreter allows, whatever follows them;
    the except clause catches decode errors only, so the loop raises: the
    fragments read before the line have been appended to the stage, the
    lines after it are not read, and no text is returned. *)
Theorem deep_line_aborts fs rest post flt past :
  for_stream (ums_line_body stage)
    (map (λ s, data_line (chunk_json s)) fs ++ deep_line rest :: post) flt "" past =
  (Raise RecursionError,
   map (EvStageAppend stage) (filter (λ s, str_truthy s = true) fs)).
Proof.
  rewrite for_stream_sse, <- (map_map chunk_json data_line).
  rewrite (sse_run_app_Exhausted _ _ _ (sse_run_values _ ltac:(apply Forall_map,
    Forall_true, chunk_json_ok))).
  cbn [sse_run]. rewrite line_action_deep, omap_value_fragment_chunks.
  unfold sse_result. cbn [fst snd]. by rewrite app_nil_r.
Qed.

End StreamTheorems.

(** ** Lines without the blank after the colon *)

(** A text that starts with [data:] is not a JSON text. *)
Lemma json_loads_data (s : string) : json_loads ("data:" +:+ s) = Raise JSONDecodeError.
Proof.
  rewrite !str_app_cons. by apply json_loads_at_head.
Qed.

(** Only the prefix with its blank is stripped. *)
Lemma strip_data_prefix_no_blank (c : ascii) (s : string) :
  c ≠ " "%char → strip_data_prefix ("data:" +:+ String c s) = "data:" +:+ String c s.
Proof.
  intros Hc. rewrite !str_app_cons, str_app_nil_l.
  unfold strip_data_prefix, startswith. cbn [String.prefix].
  repeat match goal with
         | |- context [ascii_dec ?a ?b] => destruct (ascii_dec a b); try congruence
         end.
Qed.

(** A line that keeps its [data:] prefix is not read as an event: without
    the blank after the colon the prefix is not stripped, the line fails to
    decode and is passed over. *)
Lemma line_action_data_no_blank (c : ascii) (s : string) :
  c ≠ " "%char → line_action ("data:" +:+ String c s) = Skip.
Proof.
  intros Hc. apply line_action_not_json; rewrite ?strip_data_prefix_no_blank by done.
  - by rewrite !str_app_cons.
  - by rewrite !str_app_cons.
  - apply json_loads_data.
Qed.

(** The terminator written without the blank does not end the reading. *)
Lemma done_without_blank_skipped stage pre post flt acc past :
  for_stream (ums_line_body stage) (pre ++ "data:[DONE]" :: post) flt acc past =
  for_stream (ums_line_body stage) (pre ++ post) flt acc past.
Proof.
  rewrite !for_stream_sse.
  by rewrite (sse_run_skip _ _ _ (line_action_data_no_blank "[" "DONE]" ltac:(done))).
Qed.
