(* ===== verification/Frame.v ===== *)
(** * Frame: the body of the chat answer and its lines

    The stateful gateway reads the answer of the chat call line by line
    ([response.aiter_lines()], line 165 of [task/coordination/ums_agent.py]).
    The lines are cut by the HTTP library, whatever chunks the transport
    delivers the body in: the reader has the behaviour of Python's
    [str.splitlines] on the whole text.  [splitlines] is that function on
    the bytes of a UTF-8 text: a line ends at a line feed, a carriage
    return (with the line feed after it, if there is one), a vertical tab,
    a form feed, a file, group or record separator, and at the characters
    U+0085, U+2028 and U+2029, which are two and three bytes long.

    The agent writes a body line by line ([body_text]): each line is
    followed by an end of line, LF or CR LF, and by any number of blank
    lines.  A text is read back as one line exactly when it holds no
    boundary ([unbroken], [splitlines_one]), and then the lines read from
    a body are the lines written ([splitlines_body]).

    The framing is sound for the chunks of [Stream]: the writer of JSON
    escapes the control characters, so the line of a chunk holds a
    boundary only if its fragment holds one of the three characters
    U+0085, U+2028 and U+2029 as it is ([narrow], [data_line_unbroken],
    [data_line_read_back]).  Without them the gateway returns the
    concatenation of the fragments ([chat_body_roundtrip]).  With one of
    them, which JSON allows in a string, the line reader cuts the line.
    For U+2028 the two parts are [head_half] and [tail_half]: the first is
    a text whose last string is not closed, the second starts with the
    rest of the fragment.  When that rest starts with a character that
    begins no JSON value ([inert]), neither part decodes, both are passed
    over, and the fragment is lost without an error, whatever the other
    fragments of the answer ([wide_boundary_loses_fragment]). *)

From Stdlib Require Import String Ascii List Lia Bool.
From stdpp Require Import base tactics option list strings.
From S2P Require Import Prelude Json JsonParse JsonPrint Effects Ums Stream.

(** ** Line boundaries *)

Definition LF : ascii := "010".
Definition CR : ascii := "013".
Definition QUOTE : ascii := "034".

(** The boundaries of one byte: LF, VT, FF, CR, and FS, GS, RS. *)
Definition is_break (c : ascii) : bool :=
  let n := nat_of_ascii c in
  (10 <=? n) && (n <=? 13) || (28 <=? n) && (n <=? 30).

Definition head_is (d : ascii) (s : string) : bool :=
  match s with String e _ => Ascii.eqb e d | EmptyString => false end.

Definition str_tail (s : string) : string :=
  match s with String _ r => r | EmptyString => EmptyString end.

(** The boundaries of several bytes, in UTF-8: U+0085 is [C2 85], U+2028
    and U+2029 are [E2 80 A8] and [E2 80 A9].  The result is the number of
    bytes of the boundary after the first. *)
Definition wide_break (c : ascii) (r : string) : option nat :=
  if Ascii.eqb c "194" && head_is "133" r then Some 1
  else if Ascii.eqb c "226" && head_is "128" r
          && (head_is "168" (str_tail r) || head_is "169" (str_tail r))
       then Some 2
  else None.

(** The boundary that starts at [c], followed by [r], if there is one. *)
Definition boundary (c : ascii) (r : string) : option nat :=
  if is_break c then Some (if Ascii.eqb c CR && head_is LF r then 1 else 0)
  else wide_break c r.

(** [c] in front of the first of the lines [ls]. *)
Definition cons_line (c : ascii) (ls : list string) : list string :=
  match ls with
  | [] => [String c ""]
  | l :: ls' => String c l :: ls'
  end.

(** The lines of [s], [skip] bytes into a boundary. *)
Fixpoint lines_from (skip : nat) (s : string) : list string :=
  match s with
  | EmptyString => []
  | String c r =>
      match skip with
      | S k => lines_from k r
      | O =>
          match boundary c r with
          | Some k => "" :: lines_from k r
          | None => cons_line c (lines_from 0 r)
          end
      end
  end.

(** [str.splitlines()]: the lines of a text, without their ends; a text
    that ends with a boundary has no empty last line. *)
Definition splitlines (s : string) : list string := lines_from 0 s.

(** ** The writer *)

(** The ends of line the agent may write. *)
Inductive line_end : string → Prop :=
| line_end_lf : line_end (String LF "")
| line_end_crlf : line_end (String CR (String LF "")).

(** U+2028 in UTF-8. *)
Definition line_separator : string := String "226" (String "128" (String "168" "")).

(** Where the reader cuts a text that holds no other boundary: at an end
    of line, and at U+2028. *)
Inductive cut : string → Prop :=
| cut_end eol : line_end eol → cut eol
| cut_separator : cut line_separator.

(** A line as it is written: its text, its end, and [blanks] blank lines. *)
Definition line_text (eol : string) (blanks : nat) (l : string) : string :=
  l +:+ str_concat (replicate (S blanks) eol).

Definition body_text (eol : string) (blanks : nat) (lines : list string) : string :=
  str_concat (map (line_text eol blanks) lines).

(** The lines with the blank lines written after each. *)
Definition spaced (blanks : nat) (lines : list string) : list string :=
  concat (map (λ l, l :: replicate blanks "") lines).

(** A text without a boundary. *)
Fixpoint unbroken (s : string) : bool :=
  match s with
  | EmptyString => true
  | String c r => match boundary c r with None => unbroken r | Some _ => false end
  end.

(** A text without a boundary of several bytes. *)
Fixpoint narrow (s : string) : bool :=
  match s with
  | EmptyString => true
  | String c r => match wide_break c r with None => narrow r | Some _ => false end
  end.

(** A character that starts no boundary. *)
Definition plain (c : ascii) : bool :=
  negb (is_break c) && negb (Ascii.eqb c "194") && negb (Ascii.eqb c "226").

Fixpoint all_plain (s : string) : bool :=
  match s with
  | EmptyString => true
  | String c r => plain c && all_plain r
  end.

(** The text of a content chunk around the escaped fragment. *)
Definition chunk_prefix : string :=
  "data: {" +:+ q "choices" +:+ ":[{" +:+ q "delta" +:+ ":{" +:+ q "content" +:+ ":" +:+ DQ.
Definition chunk_suffix : string := DQ +:+ "}}]}".

(** The fragment that holds [s], U+2028 and [t], and a sample. *)
Definition wide (s t : string) : string := s +:+ line_separator +:+ t.
Definition wide_fragment : string := wide "one" "two".

(** A character that starts neither a JSON text nor the prefix of a data
    line. *)
Definition inert (c : ascii) : bool := negb (opens_value c) && negb (Ascii.eqb c "d").

(** A byte that starts no character of one byte. *)
Definition high (t : string) : Prop := ∃ x r, t = String x r ∧ 128 ≤ nat_of_ascii x.

(** The line of the chunk that carries the fragment [s]. *)
Definition chunk_line (s : string) : string := data_line (chunk_json s).

(** The two parts of the line of a chunk whose fragment is [s], U+2028 and
    [t]: what is written before the separator and what is written after. *)
Definition head_half (s : string) : string := chunk_prefix +:+ json_escape s.
Definition tail_half (t : string) : string := json_escape t +:+ chunk_suffix.

(** ** The lines of a body *)

Lemma boundary_plain c r : plain c = true → boundary c r = None.
Proof.
  unfold plain, boundary, wide_break.
  intros [[Hb H1]%andb_true_iff H2]%andb_true_iff.
  apply negb_true_iff in Hb, H1, H2. by rewrite Hb, H1, H2.
Qed.

Lemma wide_break_line c l eol r :
  cut eol → wide_break c l = None → wide_break c (l +:+ eol +:+ r) = None.
Proof.
  intros [? []|] H; destruct l as [|d [|e l]]; revert H; unfold wide_break;
    rewrite ?str_app_cons, ?str_app_nil_l; cbn;
    repeat destruct (Ascii.eqb _ _); done.
Qed.

Lemma boundary_line c l eol r :
  cut eol → boundary c l = None → boundary c (l +:+ eol +:+ r) = None.
Proof.
  unfold boundary. intros He. destruct (is_break c); [done|].
  by apply wide_break_line.
Qed.

Lemma splitlines_end eol r : cut eol → splitlines (eol +:+ r) = "" :: splitlines r.
Proof. by intros [? []|]. Qed.

(** A text without a boundary is read back as a line when it is followed
    by an end of line or by U+2028. *)
Lemma splitlines_line l eol r :
  cut eol → unbroken l = true →
  splitlines (l +:+ eol +:+ r) = l :: splitlines r.
Proof.
  intros He. induction l as [|c l IH]; [intros _; rewrite str_app_nil_l; by apply splitlines_end|].
  cbn [unbroken]. destruct (boundary c l) eqn:Hb; [done|]. intros Hl.
  unfold splitlines in *. rewrite str_app_cons. cbn [lines_from].
  by rewrite (boundary_line _ _ _ _ He Hb), (IH Hl).
Qed.

Lemma splitlines_nil l : splitlines l = [] → l = "".
Proof.
  unfold splitlines. destruct l as [|c l]; [done|]. cbn [lines_from].
  destruct (boundary c l); [done|]. by destruct (lines_from 0 l).
Qed.

(** A text is read back as one line exactly when it holds no boundary. *)
Lemma splitlines_one l : l ≠ "" → splitlines l = [l] ↔ unbroken l = true.
Proof.
  unfold splitlines. induction l as [|c l IH]; [done|]. intros _.
  cbn [lines_from unbroken]. destruct (boundary c l); [done|].
  destruct l as [|d l]; [done|]. specialize (IH ltac:(done)).
  destruct (lines_from 0 (String d l)) as [|l1 ls] eqn:Hl.
  { by apply (splitlines_nil (String d l)) in Hl. }
  rewrite <- IH. cbn [cons_line]. split; [by intros [= -> ->]|by intros [= -> ->]].
Qed.

Lemma splitlines_blanks eol n r :
  line_end eol →
  splitlines (str_concat (replicate n eol) +:+ r) = replicate n "" ++ splitlines r.
Proof.
  intros He. induction n as [|n IH]; [done|].
  cbn [replicate]. rewrite str_concat_cons, str_app_assoc.
  by rewrite (splitlines_end _ _ (cut_end _ He)), IH.
Qed.

Lemma splitlines_line_text eol n l r :
  line_end eol → unbroken l = true →
  splitlines (line_text eol n l +:+ r) = (l :: replicate n "") ++ splitlines r.
Proof.
  intros He Hl. unfold line_text. cbn [replicate].
  rewrite str_concat_cons, !str_app_assoc, (splitlines_line _ _ _ (cut_end _ He) Hl).
  by rewrite (splitlines_blanks _ _ _ He).
Qed.

(** The lines read from a body are the lines written, with their blank
    lines, and then the lines of what follows. *)
Lemma splitlines_body eol n ls r :
  line_end eol → Forall (λ l, unbroken l = true) ls →
  splitlines (body_text eol n ls +:+ r) = spaced n ls ++ splitlines r.
Proof.
  intros He. induction 1 as [|l ls Hl _ IH]; [done|].
  unfold body_text, spaced in *. cbn [map concat].
  rewrite str_concat_cons, str_app_assoc, (splitlines_line_text _ _ _ _ He Hl), IH.
  by rewrite (assoc_L (++)).
Qed.

Lemma spaced_0 ls : spaced 0 ls = ls.
Proof. induction ls as [|l ls IH]; [done|]. unfold spaced in *. cbn in *. by rewrite IH. Qed.

(** A body written without blank lines is read back line by line. *)
Lemma splitlines_body_text eol ls :
  line_end eol → Forall (λ l, unbroken l = true) ls →
  splitlines (body_text eol 0 ls) = ls.
Proof.
  intros He Hls. rewrite <- (str_app_nil_r (body_text _ _ _)).
  rewrite (splitlines_body _ _ _ _ He Hls), spaced_0. apply app_nil_r.
Qed.

(** ** The text of a chunk holds no boundary *)

Lemma unbroken_plain_app p t : all_plain p = true → unbroken (p +:+ t) = unbroken t.
Proof.
  induction p as [|c p IH]; [done|]. cbn [all_plain].
  intros [Hc Hp]%andb_true_iff. rewrite str_app_cons. cbn [unbroken].
  by rewrite (boundary_plain _ _ Hc), IH.
Qed.

(** The text of an ASCII character holds no character that starts a
    boundary: the control characters are escaped. *)
Lemma escape_char_plain c : nat_of_ascii c < 128 → all_plain (escape_char c) = true.
Proof.
  destruct c as [[] [] [] [] [] [] [] []]; intros Hc;
    first [by vm_compute | exfalso; vm_compute in Hc; lia].
Qed.

(** A byte of a character of several bytes is written as it is. *)
Lemma escape_char_high c : 128 ≤ nat_of_ascii c → escape_char c = String c "".
Proof.
  destruct c as [[] [] [] [] [] [] [] []]; vm_compute; first [reflexivity|lia].
Qed.

Lemma escape_char_head c :
  ∃ r, escape_char c = String c r ∨ escape_char c = String "\" r.
Proof. unfold escape_char. repeat case_match; eauto. Qed.

Lemma boundary_high c r : 128 ≤ nat_of_ascii c → boundary c r = wide_break c r.
Proof.
  intros Hc. unfold boundary, is_break. cbn zeta.
  destruct (Nat.leb_spec (nat_of_ascii c) 13), (Nat.leb_spec (nat_of_ascii c) 30);
    try lia. by rewrite !andb_false_r.
Qed.

Lemma wide_break_low c r : nat_of_ascii c < 128 → wide_break c r = None.
Proof.
  intros Hc. unfold wide_break.
  assert (Ascii.eqb c "194" = false ∧ Ascii.eqb c "226" = false) as [-> ->]; [|done].
  split; apply Ascii.eqb_neq; intros ->; vm_compute in Hc; lia.
Qed.

Lemma head_is_high (x : ascii) (t : string) :
  ¬ high t → 128 ≤ nat_of_ascii x → head_is x t = false.
Proof.
  intros Ht Hx. destruct t as [|d t']; [done|]. cbn [head_is].
  apply Ascii.eqb_neq. intros ->. apply Ht. by eexists _, _.
Qed.

Lemma quote_not_high (t : string) : head_is QUOTE t = true → ¬ high t.
Proof.
  intros Ht (x & r & -> & Hx). cbn [head_is] in Ht. apply Ascii.eqb_eq in Ht.
  subst x. vm_compute in Hx. lia.
Qed.

Lemma nil_not_high : ¬ high "".
Proof. by intros (x & r & ? & _). Qed.

Section Escape.
Context (t : string) (Ht : ¬ high t).

(** The head of an escaped text is a byte of several only if the head of
    the text is. *)
Lemma head_is_escape (x : ascii) s :
  128 ≤ nat_of_ascii x → head_is x (json_escape s +:+ t) = head_is x s.
Proof.
  intros Hx.
  assert (Hq : Ascii.eqb x QUOTE = false ∧ Ascii.eqb "\" x = false).
  { split; apply Ascii.eqb_neq; intros Heq; subst x; vm_compute in Hx; lia. }
  destruct s as [|c s]; cbn [json_escape head_is];
    [rewrite str_app_nil_l; by apply head_is_high|]. destruct (Ascii.eqb_spec c x) as [->|Hne].
  - rewrite (escape_char_high _ Hx). cbn. apply Ascii.eqb_refl.
  - destruct (escape_char_head c) as [r [-> | ->]]; cbn.
    + by apply Ascii.eqb_neq.
    + apply Hq.
Qed.

Lemma wide_break_escape c s : wide_break c (json_escape s +:+ t) = wide_break c s.
Proof.
  unfold wide_break. rewrite !head_is_escape by (vm_compute; lia).
  destruct s as [|d s]; cbn [head_is]; [by rewrite !andb_false_r|].
  destruct (Ascii.eqb_spec d "128") as [->|Hd]; [|by rewrite !andb_false_r].
  cbn [json_escape]. rewrite (escape_char_high "128") by (vm_compute; lia).
  rewrite str_app_assoc, str_app_cons, str_app_nil_l. cbn [str_tail].
  by rewrite !head_is_escape by (vm_compute; lia).
Qed.

(** An escaped text holds a boundary only where the text holds one of
    several bytes. *)
Lemma unbroken_escape s : unbroken (json_escape s +:+ t) = narrow s && unbroken t.
Proof.
  induction s as [|c s IH]; [done|]. cbn [narrow json_escape].
  rewrite str_app_assoc. destruct (le_lt_dec 128 (nat_of_ascii c)) as [Hc|Hc].
  - rewrite (escape_char_high _ Hc), str_app_cons, str_app_nil_l. cbn [unbroken].
    rewrite (boundary_high _ _ Hc), wide_break_escape. by destruct (wide_break c s).
  - by rewrite (unbroken_plain_app _ _ (escape_char_plain _ Hc)), (wide_break_low _ _ Hc).
Qed.

End Escape.

Lemma data_line_chunk s :
  data_line (chunk_json s) = chunk_prefix +:+ json_escape s +:+ chunk_suffix.
Proof.
  unfold data_line, chunk_prefix, chunk_suffix. cbn. unfold encode_string, q.
  by autorewrite with pystr.
Qed.

(** The line of a content chunk holds no boundary, whatever control
    characters its fragment holds, unless the fragment holds a boundary of
    several bytes. *)
Lemma data_line_unbroken s : unbroken (data_line (chunk_json s)) = narrow s.
Proof.
  rewrite data_line_chunk, unbroken_plain_app, unbroken_escape
    by (done || by apply quote_not_high).
  apply andb_true_r.
Qed.

(** The line of a chunk is read back as one line exactly when its fragment
    holds no boundary of several bytes. *)
Lemma data_line_read_back s :
  splitlines (data_line (chunk_json s)) = [data_line (chunk_json s)] ↔ narrow s = true.
Proof. rewrite <- data_line_unbroken. by apply splitlines_one. Qed.

(** The lines of an answer hold no boundary. *)
Lemma chunk_lines_unbroken fs :
  Forall (λ s, narrow s = true) fs →
  Forall (λ l, unbroken l = true) (map (λ s, data_line (chunk_json s)) fs ++ [done_line]).
Proof.
  intros Hfs. apply Forall_app. split; [|by repeat constructor].
  apply Forall_map. eapply Forall_impl; [done|]. intros s Hs.
  by rewrite data_line_unbroken.
Qed.

(** ** Reading a body *)

Lemma sse_run_blanks n post : sse_run (replicate n "" ++ post) = sse_run post.
Proof. by induction n. Qed.

Lemma sse_run_spaced n ls post : sse_run (spaced n ls ++ post) = sse_run (ls ++ post).
Proof.
  induction ls as [|l ls IH]; [done|]. unfold spaced in *. cbn [map concat].
  rewrite <- !(assoc_L (++)). cbn [app sse_run]. by rewrite sse_run_blanks, IH.
Qed.

(** ** A fragment that holds U+2028 *)

Lemma json_escape_separator : json_escape line_separator = line_separator.
Proof. by vm_compute. Qed.

(** The line of such a fragment, as its two parts around the separator. *)
Lemma chunk_line_cut s t :
  chunk_line (wide s t) = head_half s +:+ line_separator +:+ tail_half t.
Proof.
  unfold chunk_line, head_half, tail_half, wide.
  rewrite data_line_chunk, !json_escape_app, json_escape_separator.
  by rewrite !str_app_assoc.
Qed.

Lemma head_half_unbroken s : unbroken (head_half s) = narrow s.
Proof.
  unfold head_half. rewrite <- (str_app_nil_r (json_escape s)).
  rewrite unbroken_plain_app, (unbroken_escape "" nil_not_high) by done.
  apply andb_true_r.
Qed.

Lemma tail_half_unbroken t : unbroken (tail_half t) = narrow t.
Proof.
  unfold tail_half. rewrite unbroken_escape by (by apply quote_not_high).
  apply andb_true_r.
Qed.

Lemma line_text_cut eol n a b :
  line_text eol n (a +:+ line_separator +:+ b) =
  a +:+ line_separator +:+ line_text eol n b.
Proof. unfold line_text. by rewrite !str_app_assoc. Qed.

Lemma body_text_app eol n xs ys :
  body_text eol n (xs ++ ys) = body_text eol n xs +:+ body_text eol n ys.
Proof. unfold body_text. by rewrite map_app, str_concat_app. Qed.

Lemma body_text_cons eol n x ys :
  body_text eol n (x :: ys) = line_text eol n x +:+ body_text eol n ys.
Proof. unfold body_text. cbn [map]. by rewrite str_concat_cons. Qed.

Lemma chunk_lines_narrow fs :
  Forall (λ s, narrow s = true) fs →
  Forall (λ l, unbroken l = true) (map chunk_line fs).
Proof.
  intros Hfs. apply Forall_map. eapply Forall_impl; [done|]. intros s Hs.
  unfold chunk_line. by rewrite data_line_unbroken.
Qed.

(** The lines read from a body in which one fragment holds U+2028: the
    line of its chunk arrives as two. *)
Lemma splitlines_cut_body eol n before s t after rest :
  line_end eol → Forall (λ s, narrow s = true) (before ++ s :: t :: after) →
  splitlines (body_text eol n (map chunk_line (before ++ wide s t :: after)
                                 ++ [done_line]) +:+ rest) =
  spaced n (map chunk_line before) ++
  head_half s :: spaced n (tail_half t :: map chunk_line after ++ [done_line]) ++
  splitlines rest.
Proof.
  intros He [Hb [Hs [Ht Ha]%Forall_cons]%Forall_cons]%Forall_app.
  rewrite map_app, <- (assoc_L (++)), body_text_app, str_app_assoc.
  rewrite (splitlines_body _ _ _ _ He (chunk_lines_narrow _ Hb)). f_equal.
  cbn [map app]. rewrite body_text_cons, chunk_line_cut, line_text_cut, !str_app_assoc.
  rewrite (splitlines_line _ _ _ cut_separator) by by rewrite head_half_unbroken.
  f_equal. rewrite <- str_app_assoc, <- body_text_cons.
  apply (splitlines_body _ _ _ _ He). constructor.
  - by rewrite tail_half_unbroken.
  - apply Forall_app. split; [by apply chunk_lines_narrow|by repeat constructor].
Qed.

(** Neither part decodes. *)
Lemma strip_head_half s :
  strip_data_prefix (head_half s) =
  "{" +:+ encode_string "choices" +:+ ":" +:+
  ("[" +:+ ("{" +:+ encode_string "delta" +:+ ":" +:+
  ("{" +:+ encode_string "content" +:+ ":" +:+ (DQ +:+ json_escape s)))).
Proof.
  unfold head_half, chunk_prefix, encode_string, q. cbn [json_escape].
  autorewrite with pystr. exact (strip_data_prefix_data (String "{" _)).
Qed.

Lemma json_loads_head_half s :
  json_loads (strip_data_prefix (head_half s)) = Raise JSONDecodeError.
Proof.
  rewrite strip_head_half.
  apply (json_loads_at_raise _ 9 4); [by eexists _, _| |done|unfold recursion_limit; lia].
  apply parse_value_open_object; [by eexists _, _|].
  apply parse_value_open_array; [by eexists _, _|].
  apply parse_value_open_object; [by eexists _, _|].
  apply parse_value_open_object; [by eexists _, _|].
  apply parse_value_open_string.
Qed.

Lemma line_action_head_half s : line_action (head_half s) = Skip.
Proof.
  apply line_action_not_json.
  - unfold head_half, chunk_prefix. by rewrite !str_app_cons.
  - by rewrite strip_head_half.
  - apply json_loads_head_half.
Qed.

Lemma strip_data_prefix_other c r :
  Ascii.eqb c "d" = false → strip_data_prefix (String c r) = String c r.
Proof.
  intros Hc%Ascii.eqb_neq. unfold strip_data_prefix, startswith.
  cbn [String.prefix]. destruct (ascii_dec _ _); congruence.
Qed.

Lemma line_action_head c r :
  inert c = true → line_action (String c r) = Skip.
Proof.
  unfold inert. intros [Hv%negb_true_iff Hd%negb_true_iff]%andb_true_iff.
  apply line_action_not_json; rewrite ?(strip_data_prefix_other _ _ Hd).
  - done.
  - intros [= -> _]. done.
  - by apply json_loads_at_head.
Qed.

Lemma line_action_tail_half c t :
  inert c = true → line_action (tail_half (String c t)) = Skip.
Proof.
  intros Hc. unfold tail_half. cbn [json_escape]. rewrite str_app_assoc.
  destruct (escape_char_head c) as [r [-> | ->]]; rewrite str_app_cons;
    by apply line_action_head.
Qed.

Lemma sse_run_app_cong pre xs ys :
  sse_run xs = sse_run ys → sse_run (pre ++ xs) = sse_run (pre ++ ys).
Proof.
  intros H. induction pre as [|l pre IH]; [done|]. cbn [app sse_run]. by rewrite IH.
Qed.

(** The reading of such a body is the reading of the body without the
    fragment. *)
Lemma sse_run_cut_body n before s c t after rest :
  inert c = true →
  sse_run (spaced n (map chunk_line before) ++
           head_half s :: spaced n (tail_half (String c t) :: map chunk_line after
                                      ++ [done_line]) ++ rest) =
  sse_run (map chunk_line (before ++ after) ++ done_line :: rest).
Proof.
  intros Hc. rewrite sse_run_spaced, (sse_run_skip _ _ _ (line_action_head_half s)).
  rewrite map_app, <- (assoc_L (++)). apply sse_run_app_cong.
  rewrite sse_run_spaced. cbn [app sse_run]. rewrite (line_action_tail_half _ _ Hc).
  by rewrite <- (assoc_L (++)).
Qed.

Section BodyTheorems.
Context (stage : Stage).

(** The blank lines between the lines of a body are passed over. *)
Lemma for_stream_spaced n ls post flt acc past :
  for_stream (ums_line_body stage) (spaced n ls ++ post) flt acc past =
  for_stream (ums_line_body stage) (ls ++ post) flt acc past.
Proof. by rewrite !for_stream_sse, sse_run_spaced. Qed.

(** C14: from the body to the answer.  When the agent writes the chunks
    of its answer and the terminator each on a line of its own, ended by
    LF or CR LF and followed by any number of blank lines, and no fragment
    holds one of U+0085, U+2028, U+2029, then the gateway, reading the
    lines the HTTP library cuts from the body, returns the concatenation
    of the fragments in the order written and appends each non-empty one
    to the stage; what the body holds after the terminator is not read. *)
Theorem chat_body_roundtrip eol blanks fs rest flt past :
  line_end eol → Forall (λ s, narrow s = true) fs →
  for_stream (ums_line_body stage)
    (splitlines (body_text eol blanks
                   (map (λ s, data_line (chunk_json s)) fs ++ [done_line]) +:+ rest))
    flt "" past =
  (Ok (str_concat fs),
   map (EvStageAppend stage) (filter (λ s, str_truthy s = true) fs)).
Proof.
  intros He Hfs.
  rewrite (splitlines_body _ _ _ _ He (chunk_lines_unbroken _ Hfs)), for_stream_spaced.
  rewrite <- (assoc_L (++)), <- (map_map chunk_json data_line). cbn [app].
  rewrite for_stream_values by apply Forall_map, Forall_true, chunk_json_ok.
  by rewrite omap_value_fragment_chunks, str_concat_filter_truthy.
Qed.

(** C29: a fragment that holds U+2028 as it is, which JSON allows
    in a string, is lost without an error.  Whatever fragments the agent
    sends before and after it, each on a line of its own ended by LF or CR
    LF, when the text after the separator starts with a character that
    begins neither a JSON value nor the prefix of a data line: the chunk of
    the fragment is JSON that [json.loads] reads back, yet the line reader
    cuts its line in two at the separator, neither part decodes, both are
    passed over as metadata, and the gateway returns the other fragments
    as if this one had not been sent. *)
Theorem wide_boundary_loses_fragment eol blanks before s c t after rest flt past :
  line_end eol → Forall (λ s, narrow s = true) (before ++ s :: String c t :: after) →
  inert c = true →
  json_loads (json_encode (chunk_json (wide s (String c t)))) =
    Ok (chunk_json (wide s (String c t))) ∧
  for_stream (ums_line_body stage)
    (splitlines (body_text eol blanks
                   (map chunk_line (before ++ wide s (String c t) :: after)
                      ++ [done_line]) +:+ rest))
    flt "" past =
  (Ok (str_concat (before ++ after)),
   map (EvStageAppend stage) (filter (λ s, str_truthy s = true) (before ++ after))).
Proof.
  intros He Hn Hc. split.
  - destruct (chunk_json_ok (wide s (String c t))) as (Hwf & Hsm & _).
    by apply json_loads_encode.
  - rewrite (splitlines_cut_body _ _ _ _ _ _ _ He Hn), for_stream_sse.
    rewrite (sse_run_cut_body _ _ _ _ _ _ _ Hc), <- (for_stream_sse stage _ flt "" past).
    unfold chunk_line. rewrite <- (map_map chunk_json data_line).
    rewrite for_stream_values by apply Forall_map, Forall_true, chunk_json_ok.
    by rewrite omap_value_fragment_chunks, str_concat_filter_truthy.
Qed.

(** The sample fragment, whose second part starts like the literal
    [true]: its line is cut in two, and it is lost as well. *)
Lemma wide_fragment_lost :
  length (splitlines (data_line (chunk_json wide_fragment))) = 2 ∧
  for_stream (ums_line_body stage)
    (splitlines (body_text (String LF "") 1
                   [data_line (chunk_json wide_fragment); done_line]))
    None "" [] = (Ok "", []).
Proof. by vm_compute. Qed.

(** The scenario of the specification, as a body: two chunks, a line of
    metadata, the terminator and a line after it. *)
Lemma scenario_body :
  for_stream (ums_line_body stage)
    (splitlines (body_text (String LF "") 1
                   [content_line "Hel"; content_line "lo"; metadata_line; done_line]
                 +:+ "trailing garbage"))
    None "" [] =
  (Ok "Hello", [EvStageAppend stage "Hel"; EvStageAppend stage "lo"]).
Proof. by vm_compute. Qed.

End BodyTheorems.

Lemma chat_body_roundtrip_witness :
  for_stream (ums_line_body 1)
    (splitlines (body_text (String CR (String LF "")) 1
                   (map (λ s, data_line (chunk_json s)) ["Hel"; "lo"] ++ [done_line])
                 +:+ "trailing"))
    None "" [] =
  (Ok (str_concat ["Hel"; "lo"]),
   map (EvStageAppend 1) (filter (λ s, str_truthy s = true) ["Hel"; "lo"])).
Proof.
  apply (chat_body_roundtrip 1 (String CR (String LF "")) 1 ["Hel"; "lo"]
           "trailing" None []); [constructor|by repeat constructor].
Defined.

Lemma wide_boundary_loses_fragment_witness :
  json_loads (json_encode (chunk_json (wide "lo wor" "ld"))) =
    Ok (chunk_json (wide "lo wor" "ld")) ∧
  for_stream (ums_line_body 1)
    (splitlines (body_text (String LF "") 1
                   (map chunk_line (["Hel"] ++ wide "lo wor" "ld" :: ["!"])
                      ++ [done_line]) +:+ ""))
    None "" [] =
  (Ok (str_concat (["Hel"] ++ ["!"])),
   map (EvStageAppend 1) (filter (λ s, str_truthy s = true) (["Hel"] ++ ["!"]))).
Proof.
  apply (wide_boundary_loses_fragment 1 (String LF "") 1 ["Hel"] "lo wor" "l" "d" ["!"]
           "" None []); [constructor|by repeat constructor|done].
Defined.
