(* ===== verification/Gateway.v ===== *)
(** * Gateway: what the coordinator may assume of an agent gateway

    The coordinator calls [gateway.response(choice, stage, request,
    instructions)] on one of two gateways and relies on the same contract
    for both.  The class [AgentGateway] states it:

    - the events of a gateway are calls to its own agent, the state set on
      the choice, and appends to the stage it was given
      ([gateway_events]); in particular a gateway opens and closes no
      stage and writes nothing to the final answer;
    - the message it returns is an assistant message whose text is the text
      it appended to the stage ([gateway_answer]).

    [UMS_gateway] is the stateful gateway of [Ums].  [GPA_gateway] is the
    stateless one; its source is not part of the repository, so
    [gpa_response] follows the specification: forward the request and the
    instructions, stream the answer into the stage, return the accumulated
    text. *)

From Stdlib Require Import String Ascii ZArith List Lia Bool.
From stdpp Require Import base tactics option list strings.
From S2P Require Import Prelude Json JsonParse Effects Ums.

(** The events the stateful gateway working on [stage] may add. *)
Definition ums_event (stage : Stage) (e : Event) : bool :=
  match e with
  | EvStageAppend s _ => bool_decide (s = stage)
  | EvSetState _ | EvUmsCreate _ | EvUmsChat _ _ _ => true
  | _ => false
  end.

(** The events the stateless gateway working on [stage] may add. *)
Definition gpa_event (stage : Stage) (e : Event) : bool :=
  match e with
  | EvStageAppend s _ => bool_decide (s = stage)
  | EvGpaCall _ _ _ => true
  | _ => false
  end.

(** The events a gateway working on [stage] may add. *)
Definition gateway_event (stage : Stage) (e : Event) : bool :=
  ums_event stage e || gpa_event stage e.

Class AgentGateway (G : Type) : Type := {
  gateway_response : G → Stage → Request → option string → M Message;
  gateway_events : ∀ g stage request instr past r ev,
    gateway_response g stage request instr past = (r, ev) →
    forallb (gateway_event stage) ev = true;
  gateway_answer : ∀ g stage request instr past msg ev,
    gateway_response g stage request instr past = (Ok msg, ev) →
    msg = assistant_message (stage_text stage ev)
}.

Record GPAGateway : Type := mkGPAGateway { gpa_endpoint : string }.

Section WithEnv.
Context (env : Env).

(** The stateless gateway's [response]. *)
Definition gpa_response (self : GPAGateway) (stage : Stage) (request : Request)
    (additional_instructions : option string) : M Message :=
  _ ← emit_event (EvGpaCall (gpa_endpoint self) request additional_instructions);
  stream ← lift (gpa_stream env (gpa_endpoint self) request additional_instructions);
  content ← for_stream (chunk_body (stage_append_content stage))
               (items stream) (fault stream) "";
  mret (assistant_message content).

End WithEnv.

(** ** Consequences of [gateway_events] *)

(** [gateway_induction]: induction on a gateway's events, the head known to
    be a gateway event. *)
Ltac gateway_induction ev :=
  induction ev as [|e ev IH]; [done|];
  simpl; intros [He Hl]%andb_true_iff; specialize (IH Hl);
  destruct e; unfold gateway_event in *; simpl in *; try done.

Lemma ums_event_gateway stage e : ums_event stage e = true → gateway_event stage e = true.
Proof. unfold gateway_event. by intros ->. Qed.

Lemma gpa_event_gateway stage e : gpa_event stage e = true → gateway_event stage e = true.
Proof. unfold gateway_event. intros ->. apply orb_true_r. Qed.

Lemma ums_events_gpa_calls stage (ev : Trace) :
  forallb (ums_event stage) ev = true → gpa_calls ev = [].
Proof. gateway_induction ev. Qed.

Lemma gpa_events_ums_create_calls stage (ev : Trace) :
  forallb (gpa_event stage) ev = true → ums_create_calls ev = [].
Proof. gateway_induction ev. Qed.

Lemma gpa_events_ums_chat_calls stage (ev : Trace) :
  forallb (gpa_event stage) ev = true → ums_chat_calls ev = [].
Proof. gateway_induction ev. Qed.

Lemma gpa_events_set_states stage (ev : Trace) :
  forallb (gpa_event stage) ev = true → set_states ev = [].
Proof. gateway_induction ev. Qed.

Section GatewayEvents.
Context (stage : Stage).
Implicit Types (ev : Trace).

Lemma gateway_opened_stages ev :
  forallb (gateway_event stage) ev = true → opened_stages ev = [].
Proof. gateway_induction ev. Qed.

Lemma gateway_closed_stages ev :
  forallb (gateway_event stage) ev = true → closed_stages ev = [].
Proof. gateway_induction ev. Qed.

Lemma gateway_choice_fragments ev :
  forallb (gateway_event stage) ev = true → choice_fragments ev = [].
Proof. gateway_induction ev. Qed.

Lemma gateway_llm_complete_calls ev :
  forallb (gateway_event stage) ev = true → llm_complete_calls ev = [].
Proof. gateway_induction ev. Qed.

Lemma gateway_llm_stream_calls ev :
  forallb (gateway_event stage) ev = true → llm_stream_calls ev = [].
Proof. gateway_induction ev. Qed.

(** A gateway logs nothing. *)
Lemma gateway_logged ev :
  forallb (gateway_event stage) ev = true → logged ev = [].
Proof. gateway_induction ev. Qed.

Lemma gateway_stage_is_open ev (sid : Stage) (b : bool) :
  forallb (gateway_event stage) ev = true → stage_is_open_from sid b ev = b.
Proof.
  revert b. induction ev as [|e ev IH]; intros b; [done|].
  simpl. intros [He Hl]%andb_true_iff.
  destruct e; simpl in *; try done; by apply IH.
Qed.

Lemma gateway_other_stage ev (sid : Stage) :
  sid ≠ stage → forallb (gateway_event stage) ev = true →
  stage_fragments sid ev = [].
Proof.
  intros Hne. gateway_induction ev.
  rewrite orb_diag in He. apply bool_decide_eq_true in He as ->.
  by rewrite decide_False.
Qed.

Lemma gateway_inner_events ev :
  forallb (gateway_event stage) ev = true → forallb inner_event ev = true.
Proof. gateway_induction ev. Qed.

End GatewayEvents.

(** ** The two instances *)

Section Instances.
Context (env : Env).

Lemma forallb_ums_appends stage fs :
  forallb (ums_event stage) (map (EvStageAppend stage) fs) = true.
Proof. induction fs as [|f fs IH]; [done|]. simpl. by rewrite bool_decide_eq_true_2. Qed.

Lemma forallb_gpa_appends stage fs :
  forallb (gpa_event stage) (map (EvStageAppend stage) fs) = true.
Proof. induction fs as [|f fs IH]; [done|]. simpl. by rewrite bool_decide_eq_true_2. Qed.

Lemma response_ums_events self stage request instr past r ev :
  response env self stage request instr past = (r, ev) →
  forallb (ums_event stage) ev = true.
Proof.
  rewrite response_run.
  destruct (get_ums_conversation_id request) as [found|e]; [|by intros [= _ <-]].
  cbv zeta.
  destruct (if is_None found then created_id env self else Ok found) as [cid|e];
    [|intros [= _ <-]; by destruct (is_None found)].
  destruct (last_message request) as [m|e];
    [|intros [= _ <-]; by destruct (is_None found)].
  destruct (call_ums_agent _ _ _ _ _ _) as [r' ev'] eqn:Hc. intros [= _ <-].
  destruct (call_ums_agent_events _ _ _ _ _ _ _ _ Hc) as [fs ->].
  rewrite forallb_app. simpl. rewrite forallb_ums_appends.
  by destruct (is_None found).
Qed.

Lemma response_events self stage request instr past r ev :
  response env self stage request instr past = (r, ev) →
  forallb (gateway_event stage) ev = true.
Proof.
  intros H%response_ums_events. revert H. apply forallb_impl, ums_event_gateway.
Qed.

Lemma response_answer self stage request instr past msg ev :
  response env self stage request instr past = (Ok msg, ev) →
  msg = assistant_message (stage_text stage ev).
Proof.
  rewrite response_run.
  destruct (get_ums_conversation_id request) as [found|e]; [|done]. cbv zeta.
  destruct (if is_None found then created_id env self else Ok found) as [cid|e];
    [|done].
  destruct (last_message request) as [m|e]; [|done].
  rewrite call_ums_agent_run. cbv zeta.
  destruct (ums_chat _ _ _ _) as [resp|e]; [|done].
  destruct (raise_for_status _) as [[]|e]; [|done].
  destruct (sse_result _ _ _) as [text|e] eqn:Hr; [|done]. intros [= <- <-].
  f_equal. rewrite stage_text_app.
  change (EvUmsChat ?a ?b ?c :: ?l) with ([EvUmsChat a b c] ++ l).
  rewrite stage_text_app, stage_text_appends.
  unfold sse_result in Hr.
  destruct (sse_run _) as [fs [| |e]], (fault _), (is_None found);
    simpl in *; by inv Hr.
Qed.

#[export] Instance UMS_gateway : AgentGateway UMSAgentGateway := {|
  gateway_response := response env;
  gateway_events := response_events;
  gateway_answer := response_answer
|}.

Lemma gpa_response_run self stage request instr past :
  gpa_response env self stage request instr past =
  let call := EvGpaCall (gpa_endpoint self) request instr in
  match gpa_stream env (gpa_endpoint self) request instr with
  | Raise e => (Raise e, [call])
  | Ok stream =>
      let fs := omap chunk_content (items stream) in
      (match fault stream with
       | Some e => Raise e
       | None => Ok (assistant_message (str_concat fs))
       end,
       call :: map (EvStageAppend stage) fs)
  end.
Proof.
  unfold gpa_response.
  unfold mbind at 1, M_bind, bind at 1, emit_event at 1.
  unfold mbind at 1, M_bind, bind at 1, lift at 1.
  destruct (gpa_stream _ _ _ _) as [stream|e]; [|done]. cbv zeta.
  unfold mbind, M_bind, bind. unfold stage_append_content.
  rewrite (for_stream_chunks (EvStageAppend stage)).
  destruct (fault stream); [done|]. mrun. by rewrite app_nil_r.
Qed.

Lemma gpa_response_gpa_events self stage request instr past r ev :
  gpa_response env self stage request instr past = (r, ev) →
  forallb (gpa_event stage) ev = true.
Proof.
  rewrite gpa_response_run. cbv zeta.
  destruct (gpa_stream _ _ _ _) as [stream|e]; intros [= _ <-]; [|done].
  simpl. apply forallb_gpa_appends.
Qed.

Lemma gpa_response_events self stage request instr past r ev :
  gpa_response env self stage request instr past = (r, ev) →
  forallb (gateway_event stage) ev = true.
Proof.
  intros H%gpa_response_gpa_events. revert H. apply forallb_impl, gpa_event_gateway.
Qed.

Lemma gpa_response_answer self stage request instr past msg ev :
  gpa_response env self stage request instr past = (Ok msg, ev) →
  msg = assistant_message (stage_text stage ev).
Proof.
  rewrite gpa_response_run. cbv zeta.
  destruct (gpa_stream _ _ _ _) as [stream|e]; [|done].
  destruct (fault stream); [done|]. intros [= <- <-].
  change (EvGpaCall ?a ?b ?c :: ?l) with ([EvGpaCall a b c] ++ l).
  by rewrite stage_text_app, stage_text_appends.
Qed.

#[export] Instance GPA_gateway : AgentGateway GPAGateway := {|
  gateway_response := gpa_response env;
  gateway_events := gpa_response_events;
  gateway_answer := gpa_response_answer
|}.

End Instances.

(** ** The contract of the stateful gateway, in full *)

(** C27: whatever the stateful gateway's run ends with, its
    events are calls to its own agent, state updates and appends to the
    stage it was given: it opens and closes no stage, appends nothing to
    the choice and never calls the stateless agent; and when it returns a
    message, the message is an assistant message holding exactly the text
    it appended to the stage. *)
Theorem response_contract (env : Env) self stage request instr past r ev :
  response env self stage request instr past = (r, ev) →
  forallb (ums_event stage) ev = true ∧
  opened_stages ev = [] ∧ closed_stages ev = [] ∧ choice_fragments ev = [] ∧
  gpa_calls ev = [] ∧
  (∀ msg, r = Ok msg → msg = assistant_message (stage_text stage ev)).
Proof.
  intros H. pose proof (response_ums_events _ _ _ _ _ _ _ _ H) as Hu.
  pose proof (response_events _ _ _ _ _ _ _ _ H) as Hg.
  split_and!; [done|by eapply gateway_opened_stages|by eapply gateway_closed_stages
              |by eapply gateway_choice_fragments|by eapply ums_events_gpa_calls|].
  intros msg ->. by eapply response_answer.
Qed.

Lemma response_contract_witness :
  let ev := [EvUmsCreate "http://ums";
             EvSetState (JObject [(_UMS_CONVERSATION_ID, JString "c1")]);
             EvUmsChat "http://ums" (JString "c1") "create user Alice";
             EvStageAppend 1 "Hel"; EvStageAppend 1 "lo"] in
  forallb (ums_event 1) ev = true ∧
  opened_stages ev = [] ∧ closed_stages ev = [] ∧ choice_fragments ev = [] ∧
  gpa_calls ev = [] ∧
  (∀ msg, Ok (assistant_message "Hello") = Ok msg →
          msg = assistant_message (stage_text 1 ev)).
Proof.
  apply (response_contract sample_env sample_gateway 1 (mkRequest [sample_user])
           None []).
  by vm_compute.
Defined.
