(* ===== verification/Coordinator.v ===== *)
(** * Coordinator: routing, delegation and synthesis

    Model of [MASCoordinator] in [src/task/agent.py].

    - [prepare_coordination_request] asks the model for a decision and
      validates it ([model_validate], modelled from the specification of
      the decision schema because [task/models.py] is not part of the
      repository; an agent name is taken to be formatted as its value);
    - [handle_coordination_request] chooses the gateway by the decision;
    - [final_response] rewrites the last entry of the messages to hold the
      user's text and the agent's answer, streams the model's reply to the
      choice and returns it;
    - [handle_request] sequences them around two stages.

    The phase machine of the specification is the handler cut where the
    machine changes state: [routing_phase] and [delegation_phase] are the
    lines of [handle_request] up to the log record and up to the closing
    of the agent's stage, [phase_step] performs one transition of Idle,
    Routing, Delegating, Synthesizing, Done, and [run_phases] iterates it;
    their composition is the handler ([handle_request_phases],
    [handle_request_refines_phases]).  The phases are not a second model
    of the code: they are there so that what holds after each phase can be
    stated.  [phase_trans] is the same machine as a transition relation on
    configurations; [phase_invariant] holds of every configuration
    reachable from Idle. *)

From Stdlib Require Import String Ascii ZArith List Lia Bool.
From stdpp Require Import base tactics option list strings relations.
From S2P Require Import Prelude Json JsonParse JsonPrint Effects Prompts Adapter Ums Gateway.

(** ** The routing decision *)

Inductive AgentName : Type := GPA | UMS.

#[export] Instance AgentName_eq_dec : EqDecision AgentName.
Proof. solve_decision. Defined.

(** The value of the enumeration, as it is formatted into stage texts. *)
Definition agent_name_str (a : AgentName) : string :=
  match a with GPA => "GPA" | UMS => "UMS" end.

Record CoordinationRequest : Type := mkCoordinationRequest {
  agent_name : AgentName;
  additional_instructions : option string
}.

#[export] Instance CoordinationRequest_eq_dec : EqDecision CoordinationRequest.
Proof. solve_decision. Defined.

(** Validation of the field [agent_name]: one of the two names. *)
Definition validate_agent_name (v : JSON) : Result AgentName :=
  match v with
  | JString s =>
      if String.eqb s "GPA" then Ok GPA
      else if String.eqb s "UMS" then Ok UMS
      else Raise ValidationError
  | _ => Raise ValidationError
  end.

(** Validation of an optional string field: absent, [null] or a string. *)
Definition validate_optional_str (v : option JSON) : Result (option string) :=
  match v with
  | None | Some JNull => Ok None
  | Some (JString s) => Ok (Some s)
  | Some _ => Raise ValidationError
  end.

(** [CoordinationRequest.model_validate(data)]. *)
Definition model_validate (data : JSON) : Result CoordinationRequest :=
  match data with
  | JObject kvs =>
      match dict_get "agent_name" kvs with
      | Some a =>
          name ← validate_agent_name a;
          instr ← validate_optional_str (dict_get "additional_instructions" kvs);
          Ok (mkCoordinationRequest name instr)
      | None => Raise ValidationError
      end
  | _ => Raise ValidationError
  end.

(** ** The coordinator *)

Record MASCoordinator : Type := mkMASCoordinator {
  endpoint : string;
  deployment_name : string;
  coordinator_ums_agent_endpoint : string
}.

(** [response.choices[0].message.content], then [json.loads] and
    validation: the pure part of [__prepare_coordination_request]. *)
Definition decision_of_choices (choices : list (option string))
    : Result CoordinationRequest :=
  first ← match choices with c :: _ => Ok c | [] => Raise IndexError end;
  content ← match first with Some s => Ok s | None => Raise TypeError end;
  data ← json_loads content;
  model_validate data.

(** The text logged to the coordination stage. *)
Definition routing_text (coordination_request : CoordinationRequest) : string :=
  "Routing to: **" +:+ agent_name_str (agent_name coordination_request)
    +:+ "**" +:+ LF +:+ "Instructions: "
    +:+ or_str (additional_instructions coordination_request) "None".

Definition coordination_stage_name : string := "🧭 Coordination".

Definition agent_stage_name (coordination_request : CoordinationRequest) : string :=
  "🤖 " +:+ agent_name_str (agent_name coordination_request) +:+ " Agent".

(** The composite text that replaces the content of the last entry. *)
Definition augmented_content (original_content : string)
    (agent_message : Message) : string :=
  "## Original User Request" +:+ LF +:+ original_content +:+ LF +:+ LF
    +:+ "## Agent Response" +:+ LF +:+ or_str (content agent_message) "".

(** [if messages: last_msg = messages[-1]; last_msg['content'] = ...]:
    the last entry's content is replaced in place. *)
Definition augment_last (messages : list LLMMessage) (agent_message : Message)
    : list LLMMessage :=
  match last messages with
  | None => messages
  | Some last_msg =>
      let original_content := default "" (llm_content last_msg) in
      <[ pred (length messages) :=
           mkLLMMessage (llm_role last_msg)
             (Some (augmented_content original_content agent_message))
             (llm_custom_content last_msg) ]> messages
  end.

Section WithEnv.
Context (env : Env).

(** [__prepare_coordination_request]. *)
Definition prepare_coordination_request (self : MASCoordinator)
    (request : Request) : M CoordinationRequest :=
  let messages := prepare_messages request COORDINATION_REQUEST_SYSTEM_PROMPT in
  _ ← emit_event (EvLLMComplete (deployment_name self) messages);
  choices ← lift (llm_complete env (deployment_name self) messages);
  lift (decision_of_choices choices).

(** [__handle_coordination_request]. *)
Definition handle_coordination_request (self : MASCoordinator)
    (coordination_request : CoordinationRequest) (stage : Stage)
    (request : Request) : M Message :=
  if bool_decide (agent_name coordination_request = UMS) then
    let gateway := mkUMSAgentGateway (coordinator_ums_agent_endpoint self) in
    @gateway_response _ (UMS_gateway env) gateway stage request
      (additional_instructions coordination_request)
  else
    let gateway := mkGPAGateway (endpoint self) in
    @gateway_response _ (GPA_gateway env) gateway stage request
      (additional_instructions coordination_request).

(** [__final_response]. *)
Definition final_response (self : MASCoordinator) (request : Request)
    (agent_message : Message) : M Message :=
  let messages := prepare_messages request FINAL_RESPONSE_SYSTEM_PROMPT in
  let messages := augment_last messages agent_message in
  _ ← emit_event (EvLLMStream (deployment_name self) messages);
  stream ← lift (llm_stream env (deployment_name self) messages);
  content ← for_stream (chunk_body choice_append_content)
               (items stream) (fault stream) "";
  mret (assistant_message content).

(** The JSON object a decision is written as. *)
Definition decision_json (cr : CoordinationRequest) : JSON :=
  JObject
    (("agent_name", JString (agent_name_str (agent_name cr)))
     :: match additional_instructions cr with
        | Some s => [("additional_instructions", JString s)]
        | None => []
        end).

(** The record [f"Routing decision: {coordination_request}"]: the literal
    and the decision formatted into it. *)
Definition routing_log (coordination_request : CoordinationRequest) : list LogPart :=
  [LogText "Routing decision: "; LogValue (decision_json coordination_request)].

(** [handle_request]. *)
Definition handle_request (self : MASCoordinator) (request : Request)
    : M Message :=
  coordination_stage ← open_stage coordination_stage_name;
  coordination_request ← prepare_coordination_request self request;
  _ ← stage_append_content coordination_stage (routing_text coordination_request);
  _ ← close_stage_safely coordination_stage;
  _ ← logger_info (routing_log coordination_request);
  agent_stage ← open_stage (agent_stage_name coordination_request);
  agent_message ← handle_coordination_request self coordination_request
                     agent_stage request;
  _ ← close_stage_safely agent_stage;
  final_response self request agent_message.

(** ** The phase machine *)

(** The states between the transitions, each with what the run holds. *)
Inductive PhaseState : Type :=
| Idle
| Routing (coordination_request : CoordinationRequest)
| Delegating (agent_message : Message)
| Synthesizing (final_message : Message)
| Done (final_message : Message).

(** Idle to Routing: open the coordination stage, obtain the decision,
    show it on the stage, close the stage, log the decision. *)
Definition routing_phase (self : MASCoordinator) (request : Request)
    : M CoordinationRequest :=
  coordination_stage ← open_stage coordination_stage_name;
  coordination_request ← prepare_coordination_request self request;
  _ ← stage_append_content coordination_stage (routing_text coordination_request);
  _ ← close_stage_safely coordination_stage;
  _ ← logger_info (routing_log coordination_request);
  mret coordination_request.

(** Routing to Delegating: open the agent's stage, run the gateway, close
    the stage. *)
Definition delegation_phase (self : MASCoordinator) (request : Request)
    (coordination_request : CoordinationRequest) : M Message :=
  agent_stage ← open_stage (agent_stage_name coordination_request);
  agent_message ← handle_coordination_request self coordination_request
                     agent_stage request;
  _ ← close_stage_safely agent_stage;
  mret agent_message.

Definition phase_step (self : MASCoordinator) (request : Request)
    (s : PhaseState) : M PhaseState :=
  match s with
  | Idle => cr ← routing_phase self request; mret (Routing cr)
  | Routing cr => msg ← delegation_phase self request cr; mret (Delegating msg)
  | Delegating msg => final ← final_response self request msg; mret (Synthesizing final)
  | Synthesizing final => mret (Done final)
  | Done final => mret (Done final)
  end.

Fixpoint run_phases (self : MASCoordinator) (request : Request) (n : nat)
    (s : PhaseState) : M PhaseState :=
  match n with
  | O => mret s
  | S n' => s' ← phase_step self request s; run_phases self request n' s'
  end.

End WithEnv.

(** The position of a state in the linear order of phases. *)
Definition phase_index (s : PhaseState) : nat :=
  match s with
  | Idle => 0
  | Routing _ => 1
  | Delegating _ => 2
  | Synthesizing _ => 3
  | Done _ => 4
  end.

(** ** The phase machine as a transition relation *)

(** A configuration: the phase and the events of the run so far. *)
Definition Config : Type := (PhaseState * Trace)%type.

(** One transition of a run that started after [past]: a phase other than
    Done performs its step, and the events of the step are added. *)
Inductive phase_trans (env : Env) (self : MASCoordinator) (request : Request)
    (past : Trace) : Config → Config → Prop :=
| phase_trans_step (s s' : PhaseState) (ev ev' : Trace) :
    phase_index s < 4 →
    phase_step env self request s (past ++ ev) = (Ok s', ev') →
    phase_trans env self request past (s, ev) (s', ev ++ ev').

(** What holds between the transitions of a run whose first stage is [n]:
    the stages opened so far are the first ones from [n], one per phase
    completed and two at most, each of them has been closed, in the same
    order, and nothing reaches the choice before the synthesis. *)
Definition phase_inv (n : nat) (c : Config) : Prop :=
  opened_stages c.2 = seq n (Nat.min 2 (phase_index c.1)) ∧
  closed_stages c.2 = opened_stages c.2 ∧
  (phase_index c.1 < 3 → choice_fragments c.2 = []).

(** ** Abstract views of a run *)

(** The decision of a run: the pure part of the routing call. *)
Definition classify (env : Env) (self : MASCoordinator) (request : Request)
    : Result CoordinationRequest :=
  choices ← llm_complete env (deployment_name self)
              (prepare_messages request COORDINATION_REQUEST_SYSTEM_PROMPT);
  decision_of_choices choices.

(** The messages of the synthesis call. *)
Definition synthesis_messages (request : Request) (agent_message : Message)
    : list LLMMessage :=
  augment_last (prepare_messages request FINAL_RESPONSE_SYSTEM_PROMPT) agent_message.

(** The events of a successful run: the coordination stage around the
    routing call, the agent's stage around the gateway's events [evg], then
    the synthesis call and the fragments [fs] appended to the choice. *)
Definition success_trace (n : nat) (self : MASCoordinator) (request : Request)
    (cr : CoordinationRequest) (evg : Trace) (fs : list string) : Trace :=
  [EvStageOpen n coordination_stage_name;
   EvLLMComplete (deployment_name self)
     (prepare_messages request COORDINATION_REQUEST_SYSTEM_PROMPT);
   EvStageAppend n (routing_text cr);
   EvStageClose n;
   EvLogInfo (routing_log cr);
   EvStageOpen (S n) (agent_stage_name cr)]
  ++ evg
  ++ [EvStageClose (S n);
      EvLLMStream (deployment_name self)
        (synthesis_messages request (assistant_message (stage_text (S n) evg)))]
  ++ map EvChoiceAppend fs.

(** ** A sample run *)

Definition sample_coordinator : MASCoordinator :=
  mkMASCoordinator "http://dial" "gpt-4o" "http://ums".

Definition sample_request : Request := mkRequest [sample_user].

(** The events of [handle_request] in the sample environment. *)
Definition sample_events : Trace :=
  Eval vm_compute in
    (handle_request sample_env sample_coordinator sample_request []).2.

Definition sample_answer : Message := assistant_message "Done: Alice created".

(** The gateway's events in that run. *)
Definition sample_gateway_events : Trace :=
  [EvUmsCreate "http://ums";
   EvSetState (JObject [(_UMS_CONVERSATION_ID, JString "c1")]);
   EvUmsChat "http://ums" (JString "c1") "create user Alice";
   EvStageAppend 1 "Hel"; EvStageAppend 1 "lo"].

(** An environment whose classifier answers with text that is not JSON. *)
Definition broken_classifier_env : Env :=
  scripted_env (Ok [Some "not json"]) (Raise APIError) (Raise APIError)
    (Raise APIError) (Raise APIError).

(** An environment whose classifier chooses the stateful agent, which
    refuses the creation request. *)
Definition broken_agent_env : Env :=
  scripted_env (Ok [Some (decision_text "UMS")]) (Raise APIError)
    (Ok (mkHttpResponse 503 "")) (Raise APIError) (Raise APIError).

(** An environment whose synthesis stream breaks after one fragment. *)
Definition broken_stream_env : Env :=
  scripted_env (Ok [Some (decision_text "GPA")])
    (Ok (mkStream [mkChunk [Some "Par"]] (Some TransportError)))
    (Raise APIError) (Raise APIError)
    (Ok (mkStream [mkChunk [Some "42"]] None)).

(** The events of the routing phase in the sample environment. *)
Definition sample_routing_events : Trace :=
  Eval vm_compute in
    (routing_phase sample_env sample_coordinator sample_request []).2.

(** ** Stages around a phase *)

Lemma stage_is_open_after_open sid name (past rest : Trace) :
  stage_is_open sid (past ++ EvStageOpen sid name :: rest) =
  stage_is_open_from sid true rest.
Proof. rewrite stage_is_open_app. simpl. by rewrite decide_True. Qed.

Lemma n_stages_snoc_open (past : Trace) sid name :
  n_stages (past ++ [EvStageOpen sid name]) = S (n_stages past).
Proof. rewrite n_stages_app. unfold n_stages. simpl. lia. Qed.

Section CoordinatorProofs.
Context (env : Env).
Implicit Types (self : MASCoordinator) (request : Request) (past : Trace).

Lemma prepare_coordination_request_run self request past :
  prepare_coordination_request env self request past =
  (classify env self request,
   [EvLLMComplete (deployment_name self)
      (prepare_messages request COORDINATION_REQUEST_SYSTEM_PROMPT)]).
Proof.
  unfold prepare_coordination_request, classify. mrun.
  destruct (llm_complete _ _ _) as [choices|e]; simpl; [|done].
  by destruct (decision_of_choices choices).
Qed.

Lemma final_response_run self request agent_message past :
  final_response env self request agent_message past =
  let msgs := synthesis_messages request agent_message in
  let call := EvLLMStream (deployment_name self) msgs in
  match llm_stream env (deployment_name self) msgs with
  | Raise e => (Raise e, [call])
  | Ok stream =>
      let fs := omap chunk_content (items stream) in
      (match fault stream with
       | Some e => Raise e
       | None => Ok (assistant_message (str_concat fs))
       end,
       call :: map EvChoiceAppend fs)
  end.
Proof.
  unfold final_response, synthesis_messages. cbv zeta.
  unfold mbind at 1, M_bind, bind at 1, emit_event at 1.
  unfold mbind at 1, M_bind, bind at 1, lift at 1.
  destruct (llm_stream _ _ _) as [stream|e]; [|done].
  unfold mbind, M_bind, bind. unfold choice_append_content.
  rewrite (for_stream_chunks EvChoiceAppend).
  destruct (fault stream); [done|]. mrun. by rewrite app_nil_r.
Qed.

Lemma handle_coordination_request_events self cr stage request past r ev :
  handle_coordination_request env self cr stage request past = (r, ev) →
  forallb (gateway_event stage) ev = true.
Proof.
  unfold handle_coordination_request. destruct (bool_decide _); apply gateway_events.
Qed.

Lemma handle_coordination_request_answer self cr stage request past msg ev :
  handle_coordination_request env self cr stage request past = (Ok msg, ev) →
  msg = assistant_message (stage_text stage ev).
Proof.
  unfold handle_coordination_request. destruct (bool_decide _); apply gateway_answer.
Qed.

Lemma routing_phase_run self request past :
  routing_phase env self request past =
  let n := n_stages past in
  let pre := [EvStageOpen n coordination_stage_name;
              EvLLMComplete (deployment_name self)
                (prepare_messages request COORDINATION_REQUEST_SYSTEM_PROMPT)] in
  match classify env self request with
  | Raise e => (Raise e, pre)
  | Ok cr => (Ok cr, pre ++ [EvStageAppend n (routing_text cr); EvStageClose n;
                             EvLogInfo (routing_log cr)])
  end.
Proof.
  unfold routing_phase.
  unfold mbind at 1, M_bind, bind at 1, open_stage at 1.
  unfold mbind at 1, M_bind, bind at 1. rewrite prepare_coordination_request_run.
  destruct (classify env self request) as [cr|e]; [|done].
  unfold mbind at 1, M_bind, bind at 1, stage_append_content, emit_event.
  unfold mbind at 1, M_bind, bind at 1, close_stage_safely.
  rewrite <- !app_assoc. cbn [app]. rewrite stage_is_open_after_open. simpl. done.
Qed.

Lemma delegation_phase_run self request cr past :
  delegation_phase env self request cr past =
  let n := n_stages past in
  let open := EvStageOpen n (agent_stage_name cr) in
  match handle_coordination_request env self cr n request (past ++ [open]) with
  | (Raise e, ev) => (Raise e, open :: ev)
  | (Ok msg, ev) => (Ok msg, open :: ev ++ [EvStageClose n])
  end.
Proof.
  unfold delegation_phase.
  unfold mbind at 1, M_bind, bind at 1, open_stage at 1. cbv zeta.
  unfold mbind at 1, M_bind, bind at 1.
  destruct (handle_coordination_request _ _ _ _ _ _) as [[msg|e] ev] eqn:Hh;
    [|done].
  unfold mbind, M_bind, bind, close_stage_safely.
  rewrite <- !app_assoc. cbn [app]. rewrite stage_is_open_after_open.
  rewrite (gateway_stage_is_open _ _ _ _ (handle_coordination_request_events _ _ _ _ _ _ _ Hh)).
  simpl. done.
Qed.

(** [handle_request] is its three phases in sequence. *)
Lemma handle_request_phases self request :
  handle_request env self request ≡
  bind (routing_phase env self request) (λ cr,
    bind (delegation_phase env self request cr) (λ msg,
      final_response env self request msg)).
Proof.
  unfold handle_request, routing_phase, delegation_phase.
  unfold mbind, M_bind, mret, M_ret.
  rewrite bind_assoc. f_equiv. intros stage.
  rewrite bind_assoc. f_equiv. intros cr.
  rewrite bind_assoc. f_equiv. intros _.
  rewrite bind_assoc. f_equiv. intros _.
  rewrite bind_assoc. f_equiv. intros _.
  rewrite bind_ret_l.
  rewrite bind_assoc. f_equiv. intros astage.
  rewrite bind_assoc. f_equiv. intros msg.
  rewrite bind_assoc. f_equiv. intros _.
  by rewrite bind_ret_l.
Qed.

(** The whole handler, branch by branch. *)
Lemma handle_request_run self request past :
  handle_request env self request past =
  let n := n_stages past in
  let pre := [EvStageOpen n coordination_stage_name;
              EvLLMComplete (deployment_name self)
                (prepare_messages request COORDINATION_REQUEST_SYSTEM_PROMPT)] in
  match classify env self request with
  | Raise e => (Raise e, pre)
  | Ok cr =>
      let ev1 := pre ++ [EvStageAppend n (routing_text cr); EvStageClose n;
                         EvLogInfo (routing_log cr);
                         EvStageOpen (S n) (agent_stage_name cr)] in
      match handle_coordination_request env self cr (S n) request (past ++ ev1) with
      | (Raise e, evg) => (Raise e, ev1 ++ evg)
      | (Ok msg, evg) =>
          let ev2 := ev1 ++ evg ++ [EvStageClose (S n)] in
          let '(r, ev3) := final_response env self request msg (past ++ ev2) in
          (r, ev2 ++ ev3)
      end
  end.
Proof.
  rewrite (handle_request_phases self request past). unfold bind at 1.
  rewrite routing_phase_run. cbv zeta.
  destruct (classify env self request) as [cr|e]; [|done].
  unfold bind. rewrite delegation_phase_run. cbv zeta.
  replace (n_stages (past ++ _)) with (S (n_stages past))
    by (rewrite n_stages_app; unfold n_stages; simpl; lia).
  rewrite <- !app_assoc. cbn [app].
  destruct (handle_coordination_request _ _ _ _ _ _) as [[msg|e] evg]; [|done].
  rewrite <- !app_assoc. cbn [app].
  destruct (final_response _ _ _ _ _) as [r ev3]. by rewrite <- !app_assoc.
Qed.

End CoordinatorProofs.

(** [handle_request_cases]: the four ways a run of [handle_request] ends
    (the stream obtained, the synthesis call refused, the gateway failed,
    the routing failed). *)
Ltac handle_request_cases Hc Hg :=
  rewrite handle_request_run; cbv zeta;
  destruct (classify _ _ _) as [?cr|?e] eqn:Hc;
  [ destruct (handle_coordination_request _ _ _ _ _ _) as [[?msg|?e] ?evg] eqn:Hg;
    [ rewrite final_response_run; cbv zeta;
      destruct (llm_stream _ _ _) as [?stream|?e] | ] | ].

Section CoordinatorRuns.
Context (env : Env).
Implicit Types (self : MASCoordinator) (request : Request) (past : Trace).

Lemma handle_coordination_request_UMS self cr stage request :
  agent_name cr = UMS →
  handle_coordination_request env self cr stage request =
  response env (mkUMSAgentGateway (coordinator_ums_agent_endpoint self))
    stage request (additional_instructions cr).
Proof. intros H. unfold handle_coordination_request. by rewrite bool_decide_eq_true_2. Qed.

Lemma handle_coordination_request_GPA self cr stage request :
  agent_name cr = GPA →
  handle_coordination_request env self cr stage request =
  gpa_response env (mkGPAGateway (endpoint self))
    stage request (additional_instructions cr).
Proof.
  intros H. unfold handle_coordination_request.
  rewrite bool_decide_eq_false_2; [done|]. by rewrite H.
Qed.

(** A successful run, taken apart. *)
Lemma handle_request_Ok_inv self request past m ev :
  handle_request env self request past = (Ok m, ev) →
  let n := n_stages past in
  ∃ cr evg fs,
    classify env self request = Ok cr ∧
    forallb (gateway_event (S n)) evg = true ∧
    m = assistant_message (str_concat fs) ∧
    ev = success_trace n self request cr evg fs.
Proof.
  handle_request_cases Hc Hg; try done.
  destruct (fault stream); [done|]. intros [= <- <-].
  exists cr, evg, (omap chunk_content (items stream)).
  pose proof (handle_coordination_request_events _ _ _ _ _ _ _ _ Hg) as Hev.
  apply handle_coordination_request_answer in Hg as ->.
  split_and!; try done.
  unfold success_trace. by rewrite <- !app_assoc.
Qed.

(** C1: a successful run emits exactly: the coordination
    stage opened, the routing call, the decision logged, the stage closed,
    the agent's stage opened, the gateway's events, that stage closed, the
    synthesis call, one append to the choice per fragment, in this order;
    the message returned holds the concatenated fragments. *)
Theorem handle_request_success_trace self request past m ev :
  handle_request env self request past = (Ok m, ev) →
  ∃ cr evg fs,
    classify env self request = Ok cr ∧
    forallb (gateway_event (S (n_stages past))) evg = true ∧
    m = assistant_message (str_concat fs) ∧
    ev = success_trace (n_stages past) self request cr evg fs.
Proof. apply handle_request_Ok_inv. Qed.

(** What the views see of a successful run. *)
Lemma success_trace_views n self request cr evg fs :
  forallb (gateway_event (S n)) evg = true →
  let ev := success_trace n self request cr evg fs in
  opened_stages ev = [n; S n] ∧ closed_stages ev = [n; S n] ∧
  choice_fragments ev = fs ∧
  llm_complete_calls ev =
    [prepare_messages request COORDINATION_REQUEST_SYSTEM_PROMPT] ∧
  llm_stream_calls ev =
    [synthesis_messages request (assistant_message (stage_text (S n) evg))] ∧
  stage_text (S n) ev = stage_text (S n) evg.
Proof.
  intros Hev. unfold success_trace. cbv zeta. autorewrite with py.
  rewrite (gateway_opened_stages _ _ Hev), (gateway_closed_stages _ _ Hev),
    (gateway_choice_fragments _ _ Hev), (gateway_llm_complete_calls _ _ Hev),
    (gateway_llm_stream_calls _ _ Hev).
  split_and!; try done.
  unfold stage_text at 1 3. simpl. rewrite !decide_False by lia.
  by rewrite str_concat_nil, str_app_nil_l, !str_app_nil_r.
Qed.

Lemma success_trace_stage_closed n self request cr evg fs past sid :
  forallb (gateway_event (S n)) evg = true → sid = n ∨ sid = S n →
  stage_is_open sid (past ++ success_trace n self request cr evg fs) = false.
Proof.
  intros Hev Hsid. unfold success_trace.
  rewrite !stage_is_open_app, !stage_is_open_from_app. autorewrite with py.
  rewrite !(gateway_stage_is_open _ _ _ _ Hev). simpl.
  repeat case_decide; by try lia.
Qed.

(** C7: a successful run opens exactly two stages, numbered
    from the count of stages opened before, closes both in that order, and
    leaves neither open. *)
Theorem handle_request_closes_stages self request past m ev :
  handle_request env self request past = (Ok m, ev) →
  let n := n_stages past in
  opened_stages ev = [n; S n] ∧ closed_stages ev = [n; S n] ∧
  stage_is_open n (past ++ ev) = false ∧
  stage_is_open (S n) (past ++ ev) = false.
Proof.
  intros (cr & evg & fs & _ & Hev & _ & ->)%handle_request_Ok_inv.
  destruct (success_trace_views _ self request cr _ fs Hev) as (Ho & Hc & _).
  split_and!; [done..| |]; apply success_trace_stage_closed; auto.
Qed.

(** The message a successful run returns is an assistant
    message whose text is exactly what the run appended to the choice. *)
Lemma handle_request_answer_is_choice_text self request past m ev :
  handle_request env self request past = (Ok m, ev) →
  m = assistant_message (choice_text ev).
Proof.
  intros (cr & evg & fs & _ & Hev & -> & ->)%handle_request_Ok_inv.
  destruct (success_trace_views _ self request cr _ fs Hev) as (_ & _ & Hf & _).
  unfold choice_text. by rewrite Hf.
Qed.

(** A successful run calls the model twice: once without
    streaming on the history under the coordination prompt, once with
    streaming on the history under the synthesis prompt, the last entry
    rewritten to hold the text the agent's stage received. *)
Lemma handle_request_llm_calls self request past m ev :
  handle_request env self request past = (Ok m, ev) →
  llm_complete_calls ev =
    [prepare_messages request COORDINATION_REQUEST_SYSTEM_PROMPT] ∧
  llm_stream_calls ev =
    [synthesis_messages request
       (assistant_message (stage_text (S (n_stages past)) ev))].
Proof.
  intros (cr & evg & fs & _ & Hev & _ & ->)%handle_request_Ok_inv.
  destruct (success_trace_views _ self request cr _ fs Hev)
    as (_ & _ & _ & Hl & Hs & Ht).
  by rewrite Ht.
Qed.

(** C8: when the routing call or the validation of its
    answer raises, the run raises the same error after the coordination
    stage was opened and the model called: no gateway and no synthesis call
    is made, nothing reaches the choice, and the coordination stage is left
    open. *)
Theorem handle_request_routing_failure self request past e :
  classify env self request = Raise e →
  ∃ ev, handle_request env self request past = (Raise e, ev) ∧
    ev = [EvStageOpen (n_stages past) coordination_stage_name;
          EvLLMComplete (deployment_name self)
            (prepare_messages request COORDINATION_REQUEST_SYSTEM_PROMPT)] ∧
    stage_is_open (n_stages past) (past ++ ev) = true.
Proof.
  intros Hc. eexists. rewrite handle_request_run, Hc. cbv zeta.
  split_and!; [done..|]. by rewrite stage_is_open_after_open.
Qed.

(** C25: when the gateway raises, the run raises the
    same error: the synthesis call is not made, nothing reaches the choice,
    the coordination stage is closed and the agent's stage is left open. *)
Theorem handle_request_delegation_failure self request past e ev :
  handle_request env self request past = (Raise e, ev) →
  llm_stream_calls ev = [] →
  classify env self request = Raise e ∨
  (choice_fragments ev = [] ∧
   closed_stages ev = [n_stages past] ∧
   stage_is_open (S (n_stages past)) (past ++ ev) = true).
Proof.
  handle_request_cases Hc Hg;
    try pose proof (handle_coordination_request_events _ _ _ _ _ _ _ _ Hg) as Hev.
  1-2: intros [_ <-]%pair_equal_spec; autorewrite with py;
       by rewrite (gateway_llm_stream_calls _ _ Hev).
  - intros [[= <-] <-]%pair_equal_spec _. right.
    rewrite stage_is_open_app, !stage_is_open_from_app. autorewrite with py.
    rewrite (gateway_choice_fragments _ _ Hev), (gateway_closed_stages _ _ Hev).
    rewrite (gateway_stage_is_open _ _ _ _ Hev). simpl.
    repeat case_decide; by try lia.
  - intros [= <- <-]. by left.
Qed.

(** C3: a run whose decision names the stateful agent never
    calls the stateless one, and a run whose decision names the stateless
    agent never calls the stateful one and sets no state on the choice,
    whatever the outcome of the run. *)
Theorem handle_request_one_gateway self request past cr r ev :
  classify env self request = Ok cr →
  handle_request env self request past = (r, ev) →
  (agent_name cr = UMS → gpa_calls ev = []) ∧
  (agent_name cr = GPA →
     ums_create_calls ev = [] ∧ ums_chat_calls ev = [] ∧ set_states ev = []).
Proof.
  intros Hcr. handle_request_cases Hc Hg; simplify_eq.
  all: intros [_ <-]%pair_equal_spec; split; intros Ha.
  all: try (rewrite (handle_coordination_request_UMS _ _ _ _ Ha) in Hg;
            apply response_ums_events, ums_events_gpa_calls in Hg).
  all: try (rewrite (handle_coordination_request_GPA _ _ _ _ Ha) in Hg;
            apply gpa_response_gpa_events in Hg;
            pose proof (gpa_events_ums_create_calls _ _ Hg);
            pose proof (gpa_events_ums_chat_calls _ _ Hg);
            pose proof (gpa_events_set_states _ _ Hg)).
  all: autorewrite with py;
    repeat match goal with H : _ = [] |- _ => rewrite H end;
    simpl; by autorewrite with py.
Qed.

(** C36: when the synthesis stream breaks after some
    chunks, the fragments received before the fault have already been
    appended to the choice and the run raises the fault. *)
Theorem final_response_stream_fault self request agent_message past stream e :
  llm_stream env (deployment_name self)
    (synthesis_messages request agent_message) = Ok stream →
  fault stream = Some e →
  ∃ ev, final_response env self request agent_message past = (Raise e, ev) ∧
        choice_fragments ev = omap chunk_content (items stream).
Proof.
  intros Hs Hf. eexists. rewrite final_response_run. cbv zeta. rewrite Hs, Hf.
  split; [done|]. simpl. by autorewrite with py.
Qed.

(** A state from which no further phase runs. *)
Lemma run_phases_Done self request n m :
  run_phases env self request n (Done m) ≡ ret (Done m).
Proof.
  induction n as [|n IH]; [done|]. simpl.
  unfold mbind, M_bind, mret, M_ret. by rewrite bind_ret_l.
Qed.

(** [handle_request] is the phase machine run from
    Idle: for any number of steps from four on, running the machine gives
    the result and the events of the handler, ending in Done with the
    handler's message. *)
Lemma handle_request_refines_phases self request n :
  4 ≤ n →
  run_phases env self request n Idle ≡
  bind (handle_request env self request) (λ m, ret (Done m)).
Proof.
  intros Hn. do 4 (destruct n as [|n]; [lia|]). clear Hn.
  rewrite handle_request_phases. simpl.
  unfold mbind, mret, M_bind, M_ret.
  rewrite !bind_assoc. apply bind_proper; [done|intros cr]. rewrite bind_ret_l.
  simpl. unfold mbind, mret, M_bind, M_ret.
  rewrite !bind_assoc. apply bind_proper; [done|intros msg]. rewrite bind_ret_l.
  simpl. unfold mbind, mret, M_bind, M_ret.
  rewrite !bind_assoc. apply bind_proper; [done|intros final]. rewrite bind_ret_l.
  simpl. unfold mbind, mret, M_bind, M_ret. rewrite bind_ret_l.
  apply run_phases_Done.
Qed.

(** The calls and the state of a run are those of its gateway. *)
Lemma handle_request_gateway_run self request past cr r ev :
  classify env self request = Ok cr →
  handle_request env self request past = (r, ev) →
  ∃ past' rg evg,
    handle_coordination_request env self cr (S (n_stages past)) request past'
      = (rg, evg) ∧
    (is_Ok r = true → is_Ok rg = true) ∧
    ums_create_calls ev = ums_create_calls evg ∧
    ums_chat_calls ev = ums_chat_calls evg ∧
    set_states ev = set_states evg ∧
    gpa_calls ev = gpa_calls evg.
Proof.
  intros Hcr. rewrite handle_request_run, Hcr. cbv zeta.
  destruct (handle_coordination_request _ _ _ _ _ _) as [rg evg] eqn:Hg.
  destruct rg as [msg|e].
  - destruct (final_response _ _ _ _ _) as [r3 ev3] eqn:Hf.
    intros [_ <-]%pair_equal_spec. eexists _, _, _. split; [exact Hg|].
    rewrite final_response_run in Hf. cbv zeta in Hf.
    destruct (llm_stream _ _ _); apply pair_equal_spec in Hf as [_ <-];
      autorewrite with py; simpl; autorewrite with py; by rewrite ?app_nil_r.
  - intros [<- <-]%pair_equal_spec. eexists _, _, _. split; [exact Hg|].
    autorewrite with py. by simpl.
Qed.

(** The handler neither opens nor closes the choice. *)
Lemma handle_request_inner_events self request past r ev :
  handle_request env self request past = (r, ev) →
  forallb inner_event ev = true.
Proof.
  handle_request_cases Hc Hg;
    try pose proof (gateway_inner_events _ _
          (handle_coordination_request_events _ _ _ _ _ _ _ _ Hg)) as Hev.
  all: intros [_ <-]%pair_equal_spec; rewrite ?forallb_app; simpl.
  all: by rewrite ?Hev, ?forallb_inner_choice_appends.
Qed.

End CoordinatorRuns.

(** ** Reachable configurations of the phase machine *)

Section PhaseRelation.
Context (env : Env) (self : MASCoordinator) (request : Request).
Implicit Types (past ev : Trace) (s : PhaseState).

(** A successful step, by the phase it starts from. *)
Lemma phase_step_Ok_inv s past s' ev :
  phase_step env self request s past = (Ok s', ev) →
  match s with
  | Idle => ∃ cr, routing_phase env self request past = (Ok cr, ev) ∧
                  s' = Routing cr
  | Routing cr => ∃ msg, delegation_phase env self request cr past = (Ok msg, ev) ∧
                         s' = Delegating msg
  | Delegating msg => ∃ final, final_response env self request msg past = (Ok final, ev) ∧
                               s' = Synthesizing final
  | Synthesizing final | Done final => s' = Done final ∧ ev = []
  end.
Proof.
  destruct s; simpl; unfold mbind, M_bind, mret, M_ret.
  1-3: intros (a & ev1 & ev2 & H1 & [= <- <-] & ->)%run_bind_Ok_inv;
       rewrite app_nil_r; eauto.
  all: by intros [= <- <-].
Qed.

Lemma routing_phase_Ok_views past cr ev :
  routing_phase env self request past = (Ok cr, ev) →
  opened_stages ev = [n_stages past] ∧ closed_stages ev = [n_stages past] ∧
  choice_fragments ev = [].
Proof.
  rewrite routing_phase_run. cbv zeta.
  destruct (classify env self request); by intros [= <- <-].
Qed.

Lemma delegation_phase_Ok_views past cr msg ev :
  delegation_phase env self request cr past = (Ok msg, ev) →
  opened_stages ev = [n_stages past] ∧ closed_stages ev = [n_stages past] ∧
  choice_fragments ev = [].
Proof.
  rewrite delegation_phase_run. cbv zeta.
  destruct (handle_coordination_request _ _ _ _ _ _) as [[m|e] evg] eqn:Hg; [|done].
  apply handle_coordination_request_events in Hg.
  intros [_ <-]%pair_equal_spec.
  change (?e :: ?l ++ ?r) with ([e] ++ l ++ r). autorewrite with py.
  by rewrite (gateway_opened_stages _ _ Hg), (gateway_closed_stages _ _ Hg),
    (gateway_choice_fragments _ _ Hg).
Qed.

Lemma final_response_views past msg r ev :
  final_response env self request msg past = (r, ev) →
  opened_stages ev = [] ∧ closed_stages ev = [].
Proof.
  rewrite final_response_run. cbv zeta.
  destruct (llm_stream _ _ _); intros [_ <-]%pair_equal_spec; [|done].
  change (?e :: ?l) with ([e] ++ l). by autorewrite with py.
Qed.

Lemma phase_trans_preserves past c c' :
  phase_trans env self request past c c' →
  phase_inv (n_stages past) c → phase_inv (n_stages past) c'.
Proof.
  intros [s s' ev ev' Hlt Hstep] (Ho & Hc & Hf). simpl in *.
  assert (n_stages (past ++ ev) = n_stages past + Nat.min 2 (phase_index s)) as Hn
    by (rewrite n_stages_app; unfold n_stages at 2; by rewrite Ho, length_seq).
  apply phase_step_Ok_inv in Hstep. unfold phase_inv. simpl.
  autorewrite with py. rewrite Hc, Ho.
  destruct s; simpl in *.
  - destruct Hstep as (cr & (-> & -> & ->)%routing_phase_Ok_views & ->).
    rewrite Hn, Hf by lia. simpl. by rewrite Nat.add_0_r.
  - destruct Hstep as (msg & (-> & -> & ->)%delegation_phase_Ok_views & ->).
    rewrite Hn, Hf by lia. simpl. by rewrite Nat.add_1_r.
  - destruct Hstep as (final & (-> & ->)%final_response_views & ->).
    simpl. rewrite ?app_nil_r. split_and!; [done..|lia].
  - destruct Hstep as [-> ->]. simpl. rewrite ?app_nil_r. split_and!; [done..|lia].
  - lia.
Qed.

(** C24: at every configuration a run reaches from Idle,
    the stages opened so far are numbered from the count of stages opened
    before the run, one per phase completed and two at most, every one of
    them has been closed, in the same order, and nothing has been appended
    to the choice before the synthesis phase. *)
Theorem phase_invariant past c :
  rtc (phase_trans env self request past) (Idle, []) c →
  phase_inv (n_stages past) c.
Proof.
  revert c. apply rtc_ind_r; [done|].
  intros c c' _ Hstep IH. by eapply phase_trans_preserves.
Qed.

(** Every transition moves to the next phase, so a run makes four
    transitions at most. *)
Lemma phase_trans_index past c c' :
  phase_trans env self request past c c' →
  phase_index c'.1 = S (phase_index c.1).
Proof.
  intros [s s' ev ev' Hlt Hstep]. simpl.
  apply phase_step_Ok_inv in Hstep.
  destruct s; simpl in *; try lia.
  1-3: by destruct Hstep as (? & _ & ->).
  by destruct Hstep as [-> _].
Qed.

Lemma phase_nsteps_index past k c c' :
  nsteps (phase_trans env self request past) k c c' →
  phase_index c'.1 = phase_index c.1 + k.
Proof.
  induction 1 as [|k c1 c2 c3 Hstep _ IH]; [lia|].
  rewrite IH, (phase_trans_index _ _ _ Hstep). lia.
Qed.

(** A run of [k] transitions from Idle is in phase [k]:
    there are four transitions at most, and a run in Done has no further
    transition. *)
Lemma phase_trans_bounded past k c :
  nsteps (phase_trans env self request past) k (Idle, []) c →
  phase_index c.1 = k ∧ k ≤ 4 ∧
  (k = 4 → ∀ c', ¬ phase_trans env self request past c c').
Proof.
  intros Hk%phase_nsteps_index. simpl in Hk. split_and!; [done| |].
  - rewrite <- Hk. destruct c as [[] ev]; simpl; lia.
  - intros -> c' Hstep. inv Hstep. simpl in *. lia.
Qed.

End PhaseRelation.

(** ** The rewritten last entry *)

Section AugmentLast.
Context (messages : list LLMMessage) (agent_message : Message).

Lemma augment_last_length :
  length (augment_last messages agent_message) = length messages.
Proof.
  unfold augment_last. destruct (last messages); [|done].
  by rewrite length_insert.
Qed.

Lemma augment_last_snoc (init : list LLMMessage) (last_msg : LLMMessage) :
  augment_last (init ++ [last_msg]) agent_message =
  init ++ [mkLLMMessage (llm_role last_msg)
             (Some (augmented_content (default "" (llm_content last_msg))
                      agent_message))
             (llm_custom_content last_msg)].
Proof.
  unfold augment_last. rewrite last_snoc, length_app. simpl.
  replace (pred (length init + 1)) with (length init + 0) by lia.
  by rewrite insert_app_r.
Qed.

(** The rewriting keeps every entry but the last, and
    the last keeps its role and custom content while its content becomes
    the original text and the agent's answer under their two headings. *)
Lemma augment_last_spec (init : list LLMMessage) (last_msg : LLMMessage) :
  messages = init ++ [last_msg] →
  augment_last messages agent_message =
  init ++ [mkLLMMessage (llm_role last_msg)
             (Some ("## Original User Request" +:+ LF
                    +:+ default "" (llm_content last_msg) +:+ LF +:+ LF
                    +:+ "## Agent Response" +:+ LF
                    +:+ default "" (content agent_message)))
             (llm_custom_content last_msg)].
Proof.
  intros ->. rewrite augment_last_snoc. unfold augmented_content.
  by rewrite or_str_empty_default.
Qed.

End AugmentLast.

(** With an empty history the entry rewritten is the system entry. *)
Lemma synthesis_messages_empty_history (agent_message : Message) :
  synthesis_messages (mkRequest []) agent_message =
  [mkLLMMessage "system"
     (Some (augmented_content FINAL_RESPONSE_SYSTEM_PROMPT agent_message)) None].
Proof. reflexivity. Qed.

(** C35: the guard [if messages:] of [__final_response] never
    fails, and what it rewrites is the last entry of the prepared list
    whatever its role.  For every request the messages of the synthesis
    call are the prepared ones with the content of the last replaced by
    the composite text; so the synthesis prompt reaches the model as the
    first entry exactly when the history is not empty: with an empty
    history the entry rewritten is the system entry itself. *)
Theorem synthesis_messages_rewrites_last (request : Request) (agent_message : Message) :
  (∃ init last_msg,
     prepare_messages request FINAL_RESPONSE_SYSTEM_PROMPT = init ++ [last_msg] ∧
     synthesis_messages request agent_message =
       init ++ [mkLLMMessage (llm_role last_msg)
                  (Some (augmented_content (default "" (llm_content last_msg))
                           agent_message))
                  (llm_custom_content last_msg)]) ∧
  (head (synthesis_messages request agent_message) =
     Some (system_message FINAL_RESPONSE_SYSTEM_PROMPT) ↔ messages request ≠ []).
Proof.
  unfold synthesis_messages. rewrite prepare_messages_unfold.
  destruct (messages request) as [|m ms _] using rev_ind.
  - split; [by exists [], (system_message FINAL_RESPONSE_SYSTEM_PROMPT)|].
    split; [|done]. by intros [=].
  - rewrite map_app, app_comm_cons. cbn [map]. rewrite augment_last_snoc.
    split; [by eexists _, _|]. split; [intros _; by destruct ms|done].
Qed.

(** C34: when the history ends with a user message,
    the synthesis call receives the system entry with the synthesis prompt,
    the earlier messages as prepared, and a last entry of role user whose
    content holds the user's text and the agent's answer. *)
Theorem synthesis_messages_last_user (init : list Message) (m agent_message : Message) :
  role m = USER →
  synthesis_messages (mkRequest (init ++ [m])) agent_message =
  system_message FINAL_RESPONSE_SYSTEM_PROMPT :: map prepare_message init ++
  [mkLLMMessage "user"
     (Some (augmented_content (default "" (content m)) agent_message))
     (llm_custom_content (prepare_message m))].
Proof.
  intros Hr. unfold synthesis_messages. rewrite prepare_messages_unfold. simpl.
  rewrite map_app. simpl.
  rewrite app_comm_cons, augment_last_snoc.
  rewrite prepare_message_role, Hr. simpl. do 5 f_equal.
  unfold prepare_message, is_user_with_custom_content. rewrite Hr.
  destruct m as [r c [cc|]]; simpl; [|done]. by rewrite or_str_empty_default.
Qed.

(** ** The decision schema *)

(** Validation accepts the object of every decision and returns that
    decision. *)
Lemma model_validate_decision_json (cr : CoordinationRequest) :
  model_validate (decision_json cr) = Ok cr.
Proof. by destruct cr as [[] [s|]]. Qed.

(** Validation raises an error on every object whose agent name is absent
    or is not one of the two names. *)
Lemma model_validate_rejects (kvs : list (string * JSON)) :
  (∀ a, dict_get "agent_name" kvs = Some a →
        a ≠ JString "GPA" ∧ a ≠ JString "UMS") →
  model_validate (JObject kvs) = Raise ValidationError.
Proof.
  intros H. unfold model_validate.
  destruct (dict_get "agent_name" kvs) as [a|]; [|done].
  destruct (H a eq_refl) as [H1 H2].
  destruct a as [| | |s| |]; try done. simpl.
  destruct (String.eqb_spec s "GPA") as [->|_]; [done|].
  by destruct (String.eqb_spec s "UMS") as [->|_].
Qed.

(** When the content of the first choice parses to the object of a
    decision, that decision is returned, whatever the other choices hold. *)
Lemma decision_of_choices_accepts (cr : CoordinationRequest) (s : string)
    (rest : list (option string)) :
  json_loads s = Ok (decision_json cr) →
  decision_of_choices (Some s :: rest) = Ok cr.
Proof.
  intros Hj. unfold decision_of_choices. simpl. rewrite Hj. simpl.
  apply model_validate_decision_json.
Qed.

(** When the content of the first choice parses to
    an object whose agent name is absent or is not one of the two names, the
    run fails with a validation error: there is no fallback to a default
    agent. *)
Lemma decision_of_choices_rejects (kvs : list (string * JSON)) (s : string)
    (rest : list (option string)) :
  json_loads s = Ok (JObject kvs) →
  (∀ a, dict_get "agent_name" kvs = Some a →
        a ≠ JString "GPA" ∧ a ≠ JString "UMS") →
  decision_of_choices (Some s :: rest) = Raise ValidationError.
Proof.
  intros Hj Hk. unfold decision_of_choices. simpl. rewrite Hj. simpl.
  by apply model_validate_rejects.
Qed.

Lemma decision_json_encodable (cr : CoordinationRequest) :
  json_wf (decision_json cr) = true ∧ json_small (decision_json cr) = true.
Proof. by destruct cr as [[] [s|]]. Qed.

(** C38: the classifier reads back every decision: when the first
    choice of the model's answer is the JSON text of a decision, whatever
    its agent and whatever characters its instructions hold, that decision
    is returned. *)
Theorem decision_roundtrip (cr : CoordinationRequest) (rest : list (option string)) :
  decision_of_choices (Some (json_encode (decision_json cr)) :: rest) = Ok cr.
Proof.
  destruct (decision_json_encodable cr) as [Hwf Hsm].
  apply decision_of_choices_accepts. by apply json_loads_encode.
Qed.

Lemma model_validate_raises (data : JSON) (e : PyError) :
  model_validate data = Raise e → e = ValidationError.
Proof.
  unfold model_validate, validate_agent_name, validate_optional_str.
  intros H. result_cases H; by simplify_eq.
Qed.

(** The decision is obtained or the run fails: an
    empty list of choices, an absent content, text that is not JSON, an
    integer literal of too many digits, nesting beyond the recursion limit
    and a value that does not fit the schema each raise their own error,
    and nothing else can happen. *)
Lemma decision_of_choices_errors (choices : list (option string)) (e : PyError) :
  decision_of_choices choices = Raise e →
  (choices = [] ∧ e = IndexError) ∨
  (head choices = Some None ∧ e = TypeError) ∨
  (∃ s, head choices = Some (Some s) ∧
        (json_loads s = Raise e ∧
           (e = JSONDecodeError ∨ e = ValueError ∨ e = RecursionError) ∨
         ∃ data, json_loads s = Ok data ∧ json_wf data = true ∧
                 model_validate data = Raise e ∧ e = ValidationError)).
Proof.
  unfold decision_of_choices.
  destruct choices as [|[s|] rest]; simpl; [intros [= <-]; auto| |intros [= <-]; auto].
  intros H. right. right. exists s. split; [done|].
  destruct (json_loads s) as [data|e'] eqn:Hj; simpl in H.
  - right. exists data. pose proof (json_loads_wf _ _ Hj).
    by pose proof (model_validate_raises _ _ H).
  - left. simplify_eq. split; [done|].
    destruct (json_loads_total s) as [[v Hv]|[Hv|[Hv|Hv]]]; rewrite Hv in Hj;
      simplify_eq; auto.
Qed.

(** ** The theorems at the sample runs *)

Lemma handle_request_success_trace_witness :
  ∃ cr evg fs,
    classify sample_env sample_coordinator sample_request = Ok cr ∧
    forallb (gateway_event (S (n_stages []))) evg = true ∧
    sample_answer = assistant_message (str_concat fs) ∧
    sample_events =
      success_trace (n_stages []) sample_coordinator sample_request cr evg fs.
Proof.
  apply (handle_request_success_trace sample_env sample_coordinator
           sample_request [] sample_answer sample_events).
  by vm_compute.
Defined.

Lemma handle_request_closes_stages_witness :
  opened_stages sample_events = [0; 1] ∧ closed_stages sample_events = [0; 1] ∧
  stage_is_open 0 ([] ++ sample_events) = false ∧
  stage_is_open 1 ([] ++ sample_events) = false.
Proof.
  apply (handle_request_closes_stages sample_env sample_coordinator
           sample_request [] sample_answer sample_events).
  by vm_compute.
Defined.

Lemma handle_request_answer_is_choice_text_sample :
  sample_answer = assistant_message (choice_text sample_events).
Proof.
  apply (handle_request_answer_is_choice_text sample_env sample_coordinator
           sample_request [] sample_answer sample_events).
  by vm_compute.
Qed.

Lemma handle_request_llm_calls_sample :
  llm_complete_calls sample_events =
    [prepare_messages sample_request COORDINATION_REQUEST_SYSTEM_PROMPT] ∧
  llm_stream_calls sample_events =
    [synthesis_messages sample_request
       (assistant_message (stage_text 1 sample_events))].
Proof.
  apply (handle_request_llm_calls sample_env sample_coordinator
           sample_request [] sample_answer sample_events).
  by vm_compute.
Qed.

Lemma handle_request_routing_failure_witness :
  ∃ ev,
    handle_request broken_classifier_env sample_coordinator sample_request [] =
      (Raise JSONDecodeError, ev) ∧
    ev = [EvStageOpen 0 coordination_stage_name;
          EvLLMComplete "gpt-4o"
            (prepare_messages sample_request COORDINATION_REQUEST_SYSTEM_PROMPT)] ∧
    stage_is_open 0 ([] ++ ev) = true.
Proof.
  apply (handle_request_routing_failure broken_classifier_env
           sample_coordinator sample_request [] JSONDecodeError).
  by vm_compute.
Defined.

Lemma handle_request_delegation_failure_witness :
  let ev := (handle_request broken_agent_env sample_coordinator
               sample_request []).2 in
  classify broken_agent_env sample_coordinator sample_request =
    Raise (HTTPStatusError 503) ∨
  (choice_fragments ev = [] ∧ closed_stages ev = [0] ∧
   stage_is_open 1 ([] ++ ev) = true).
Proof.
  apply (handle_request_delegation_failure broken_agent_env sample_coordinator
           sample_request [] (HTTPStatusError 503)); by vm_compute.
Defined.

Lemma handle_request_one_gateway_witness :
  (UMS = UMS → gpa_calls sample_events = []) ∧
  (UMS = GPA →
     ums_create_calls sample_events = [] ∧ ums_chat_calls sample_events = [] ∧
     set_states sample_events = []).
Proof.
  apply (handle_request_one_gateway sample_env sample_coordinator
           sample_request [] (mkCoordinationRequest UMS None)
           (Ok sample_answer) sample_events); by vm_compute.
Defined.

Lemma final_response_stream_fault_witness :
  ∃ ev,
    final_response broken_stream_env sample_coordinator sample_request
      (assistant_message "42") [] = (Raise TransportError, ev) ∧
    choice_fragments ev = ["Par"].
Proof.
  apply (final_response_stream_fault broken_stream_env sample_coordinator
           sample_request (assistant_message "42") []
           (mkStream [mkChunk [Some "Par"]] (Some TransportError))
           TransportError); by vm_compute.
Defined.

Lemma handle_request_refines_phases_sample :
  run_phases sample_env sample_coordinator sample_request 6 Idle [] =
  bind (handle_request sample_env sample_coordinator sample_request)
    (λ m, ret (Done m)) [].
Proof.
  apply (handle_request_refines_phases sample_env sample_coordinator
           sample_request 6). lia.
Qed.

Lemma augment_last_spec_sample :
  augment_last ([system_message "p"] ++ [mkLLMMessage "user" (Some "hi") None])
    (assistant_message "ok") =
  [system_message "p"] ++
  [mkLLMMessage "user"
     (Some ("## Original User Request" +:+ LF +:+ "hi" +:+ LF +:+ LF
            +:+ "## Agent Response" +:+ LF +:+ "ok")) None].
Proof.
  apply (augment_last_spec _ (assistant_message "ok") [system_message "p"]
           (mkLLMMessage "user" (Some "hi") None)). done.
Qed.

Lemma synthesis_messages_last_user_witness :
  synthesis_messages (mkRequest ([] ++ [sample_user])) (assistant_message "ok") =
  system_message FINAL_RESPONSE_SYSTEM_PROMPT :: map prepare_message [] ++
  [mkLLMMessage "user"
     (Some (augmented_content "create user Alice" (assistant_message "ok")))
     None].
Proof.
  apply (synthesis_messages_last_user [] sample_user (assistant_message "ok")).
  done.
Defined.

Lemma decision_text_accepted :
  decision_of_choices (Some (decision_text "UMS") :: [None]) =
  Ok (mkCoordinationRequest UMS None).
Proof.
  apply (decision_of_choices_accepts (mkCoordinationRequest UMS None)
           (decision_text "UMS") [None]).
  by vm_compute.
Qed.

Lemma decision_of_choices_rejects_sample :
  decision_of_choices (Some (decision_text "gpa") :: []) = Raise ValidationError.
Proof.
  apply (decision_of_choices_rejects [("agent_name", JString "gpa")]
           (decision_text "gpa") []); [by vm_compute|].
  intros a [= <-]. by split.
Qed.

Lemma sample_routing_step :
  phase_trans sample_env sample_coordinator sample_request []
    (Idle, []) (Routing (mkCoordinationRequest UMS None), [] ++ sample_routing_events).
Proof. constructor; [simpl; lia|by vm_compute]. Qed.

Lemma phase_invariant_witness :
  phase_inv (n_stages [])
    (Routing (mkCoordinationRequest UMS None), [] ++ sample_routing_events).
Proof.
  apply (phase_invariant sample_env sample_coordinator sample_request []).
  eapply rtc_l; [apply sample_routing_step|apply rtc_refl].
Defined.

Lemma phase_trans_bounded_sample :
  let c := (Routing (mkCoordinationRequest UMS None), [] ++ sample_routing_events) in
  phase_index c.1 = 1 ∧ 1 ≤ 4 ∧
  (1 = 4 → ∀ c', ¬ phase_trans sample_env sample_coordinator sample_request [] c c').
Proof.
  apply (phase_trans_bounded sample_env sample_coordinator sample_request [] 1).
  eapply nsteps_l; [apply sample_routing_step|apply nsteps_O].
Qed.
