(* ===== verification/Protocol.v ===== *)
(** * Protocol: the discipline of stages and the budget of external calls

    The stages of the SDK are a protocol: a stage is created with the next
    free number, content is appended to a stage that is open, and a stage is
    closed while it is open.  The model of the SDK's operations in
    [Effects] records the events and does not fail on a closed stage; this
    file states the protocol as a decidable property of a run's events
    ([stage_ok]) and proves that [MASCoordinator.handle_request] follows it
    on every path, whatever the services answer, so that the failures of
    the SDK on a misused stage never occur in a run.  A gateway follows the
    protocol provided the stage it is handed is open, which is what
    [handle_request] ensures before it delegates.

    The second part counts the requests a run sends to services outside the
    process ([external_calls]): one classification call, at most two calls
    to the agent (creation and chat, or the single call of the stateless
    gateway) and at most one synthesis call.  Both parts are proved phase by
    phase with one composition lemma for [bind] each. *)

From Stdlib Require Import String Ascii ZArith List Lia Bool.
From stdpp Require Import base tactics option list strings.
From S2P Require Import Prelude Json JsonParse Effects Prompts Adapter Ums Gateway Coordinator.

(** ** The stage protocol *)

(** Whether the event [e] is allowed after the events [past]: a stage is
    opened under the next free number; content goes to an open stage; an
    open stage is closed. *)
Definition event_ok (past : Trace) (e : Event) : bool :=
  match e with
  | EvStageOpen s _ => bool_decide (s = n_stages past)
  | EvStageAppend s _ | EvStageClose s => stage_is_open s past
  | _ => true
  end.

(** Whether the events [ev] follow the protocol after [past]. *)
Fixpoint stage_ok (past ev : Trace) : bool :=
  match ev with
  | [] => true
  | e :: ev' => event_ok past e && stage_ok (past ++ [e]) ev'
  end.

(** The events that leave the stages alone. *)
Definition stage_free (e : Event) : bool :=
  match e with
  | EvStageOpen _ _ | EvStageAppend _ _ | EvStageClose _ => false
  | _ => true
  end.

(** ** External calls *)

(** The number of requests sent to the model, to the stateful agent and to
    the stateless agent in [tr]. *)
Definition external_calls (tr : Trace) : nat :=
  length (llm_complete_calls tr) + length (llm_stream_calls tr) +
  length (ums_create_calls tr) + length (ums_chat_calls tr) +
  length (gpa_calls tr).

(** ** The protocol composes *)

Lemma stage_ok_app past ev1 ev2 :
  stage_ok past (ev1 ++ ev2) = stage_ok past ev1 && stage_ok (past ++ ev1) ev2.
Proof.
  revert past. induction ev1 as [|e ev1 IH]; intros past; simpl.
  - by rewrite app_nil_r.
  - by rewrite IH, <- app_assoc, andb_assoc.
Qed.

Lemma stage_free_ok past ev : forallb stage_free ev = true → stage_ok past ev = true.
Proof.
  revert past. induction ev as [|e ev IH]; intros past; [done|].
  simpl. intros [He Hl]%andb_true_iff. rewrite IH by done.
  by destruct e.
Qed.

Lemma gateway_stage_ok stage past ev :
  stage_is_open stage past = true →
  forallb (gateway_event stage) ev = true → stage_ok past ev = true.
Proof.
  revert past. induction ev as [|e ev IH]; intros past Ho; [done|].
  simpl. intros [He Hl]%andb_true_iff. rewrite IH; [|  |done].
  - destruct e; simpl in *; try done.
    all: unfold gateway_event in He; simpl in He; rewrite ?orb_diag in He.
    all: try done. apply bool_decide_eq_true in He as ->. by rewrite Ho.
  - rewrite stage_is_open_app.
    rewrite (gateway_stage_is_open stage [e]); [done|]. simpl. by rewrite He.
Qed.

(** ** What the protocol gives *)

(** Stages are numbered in the order they are opened. *)
Lemma stage_ok_opened_stages past ev :
  stage_ok past ev = true → opened_stages ev = seq (n_stages past) (n_stages ev).
Proof.
  revert past. induction ev as [|e ev IH]; intros past; [done|].
  simpl. intros [He Hl]%andb_true_iff. apply IH in Hl.
  rewrite n_stages_app in Hl.
  destruct e; simpl in *; unfold n_stages in *; simpl in *;
    rewrite ?Nat.add_0_r in Hl; try done.
  apply bool_decide_eq_true in He as ->. rewrite Nat.add_1_r in Hl.
  by rewrite <- Hl.
Qed.

Lemma stage_is_open_from_opened sid b tr :
  stage_is_open_from sid b tr = true → b = true ∨ sid ∈ opened_stages tr.
Proof.
  revert b. induction tr as [|e tr IH]; intros b; [by left|].
  destruct e; simpl; try apply IH.
  - intros [Hb| Hin]%IH; [|right; by right].
    case_decide; subst; [right; by left|by left].
  - intros [Hb| Hin]%IH; [|by right]. case_decide; [done|by left].
Qed.

Lemma stage_ok_open_bound tr sid :
  stage_ok [] tr = true → stage_is_open sid tr = true → sid < n_stages tr.
Proof.
  intros Hok%stage_ok_opened_stages [?|Hin]%stage_is_open_from_opened; [done|].
  rewrite Hok in Hin. apply elem_of_seq in Hin. simpl in Hin. lia.
Qed.

Lemma stage_ok_NoDup past ev : stage_ok past ev = true → NoDup (opened_stages ev).
Proof. intros ->%stage_ok_opened_stages. apply NoDup_seq. Qed.

(** ** The handler follows the protocol *)

Section ProtocolProofs.
Context (env : Env).
Implicit Types (self : MASCoordinator) (request : Request) (past : Trace).

Lemma stage_is_open_snoc_open past sid name :
  stage_is_open sid (past ++ [EvStageOpen sid name]) = true.
Proof. by rewrite stage_is_open_after_open. Qed.

Lemma final_response_stage_free self request m past :
  forallb stage_free (final_response env self request m past).2 = true.
Proof.
  rewrite final_response_run. cbv zeta.
  destruct (llm_stream _ _ _); [|done]. simpl.
  by induction (omap chunk_content _).
Qed.

Lemma routing_phase_stage_ok self request past :
  stage_ok past (routing_phase env self request past).2 = true.
Proof.
  rewrite routing_phase_run. cbv zeta.
  destruct (classify _ _ _); simpl; rewrite bool_decide_eq_true_2 by done; simpl;
    [|done].
  rewrite <- !app_assoc. cbn [app].
  rewrite !stage_is_open_after_open. simpl. done.
Qed.

Lemma delegation_phase_stage_ok self request cr past :
  stage_ok past (delegation_phase env self request cr past).2 = true.
Proof.
  rewrite delegation_phase_run. cbv zeta.
  destruct (handle_coordination_request _ _ _ _ _ _) as [[msg|e] evg] eqn:Hg;
    apply handle_coordination_request_events in Hg; simpl;
    rewrite bool_decide_eq_true_2 by done; simpl.
  - rewrite stage_ok_app, (gateway_stage_ok (n_stages past)); simpl;
      [|apply stage_is_open_snoc_open|done].
    rewrite <- app_assoc. cbn [app]. rewrite stage_is_open_after_open.
    by rewrite (gateway_stage_is_open _ _ _ _ Hg).
  - apply (gateway_stage_ok (n_stages past)); [apply stage_is_open_snoc_open|done].
Qed.

Lemma stage_ok_bind {A B} (m : M A) (k : A → M B) past :
  stage_ok past (m past).2 = true →
  (∀ a past', stage_ok past' (k a past').2 = true) →
  stage_ok past (bind m k past).2 = true.
Proof.
  intros Hm Hk. unfold bind. destruct (m past) as [[a|e] ev1]; [|done].
  specialize (Hk a (past ++ ev1)). destruct (k a _) as [r ev2]. simpl in *.
  by rewrite stage_ok_app, Hm, Hk.
Qed.

(** The three phases in sequence follow the protocol. *)
Lemma phases_stage_ok self request past :
  stage_ok past
    (bind (routing_phase env self request) (λ cr,
       bind (delegation_phase env self request cr) (λ msg,
         final_response env self request msg)) past).2 = true.
Proof.
  apply stage_ok_bind; [apply routing_phase_stage_ok|]. intros cr past1.
  apply stage_ok_bind; [apply delegation_phase_stage_ok|]. intros msg past2.
  apply stage_free_ok, final_response_stage_free.
Qed.

(** C9: every run of the handler follows the stage protocol,
    whatever the services answer and whether it returns or raises: each
    stage is opened under the next free number, every fragment is appended
    to a stage that is open at that moment, and only open stages are
    closed. *)
Theorem handle_request_stage_ok self request past :
  stage_ok past (handle_request env self request past).2 = true.
Proof. rewrite (handle_request_phases env self request past). apply phases_stage_ok. Qed.

End ProtocolProofs.

(** ** The budget of external calls *)

Lemma external_calls_app t1 t2 :
  external_calls (t1 ++ t2) = external_calls t1 + external_calls t2.
Proof. unfold external_calls. autorewrite with py. rewrite !length_app. lia. Qed.

Lemma external_calls_stage_appends sid fs :
  external_calls (map (EvStageAppend sid) fs) = 0.
Proof. unfold external_calls. by autorewrite with py. Qed.

Lemma external_calls_choice_appends fs :
  external_calls (map EvChoiceAppend fs) = 0.
Proof. unfold external_calls. by autorewrite with py. Qed.

Lemma external_calls_cons e tr :
  external_calls (e :: tr) = external_calls [e] + external_calls tr.
Proof. apply (external_calls_app [e]). Qed.

Lemma calls_bind {A B} (m : M A) (k : A → M B) past a b c :
  a + b ≤ c →
  external_calls (m past).2 ≤ a →
  (∀ x past', external_calls (k x past').2 ≤ b) →
  external_calls (bind m k past).2 ≤ c.
Proof.
  intros Hc Hm Hk. unfold bind. destruct (m past) as [[x|e] ev1]; simpl in *; [|lia].
  specialize (Hk x (past ++ ev1)). destruct (k x _) as [r ev2]. simpl in *.
  rewrite external_calls_app. lia.
Qed.

Lemma calls_bind_ge {A B} (m : M A) (k : A → M B) past a :
  a ≤ external_calls (m past).2 → a ≤ external_calls (bind m k past).2.
Proof.
  intros Hm. unfold bind. destruct (m past) as [[x|e] ev1]; simpl in *; [|lia].
  destruct (k x _) as [r ev2]. simpl. rewrite external_calls_app. lia.
Qed.

Lemma external_calls_stage_event e tr :
  stage_free e = false → external_calls (e :: tr) = external_calls tr.
Proof. by destruct e. Qed.

Section Budget.
Context (env : Env).
Implicit Types (self : MASCoordinator) (g : UMSAgentGateway).
Implicit Types (request : Request) (past : Trace).

Lemma call_ums_agent_calls g cid msg stage past :
  external_calls (call_ums_agent env g cid msg stage past).2 = 1.
Proof.
  destruct (call_ums_agent _ _ _ _ _ _) as [r ev] eqn:Hc.
  destruct (call_ums_agent_events _ _ _ _ _ _ _ _ Hc) as [fs ->]. simpl.
  by rewrite external_calls_cons, external_calls_stage_appends.
Qed.

Lemma create_ums_conversation_calls g past :
  external_calls (create_ums_conversation env g past).2 = 1.
Proof. by rewrite create_ums_conversation_run. Qed.

Lemma response_calls g stage request instr past :
  external_calls (response env g stage request instr past).2 ≤ 2.
Proof.
  unfold response, mbind, M_bind, mret, M_ret.
  apply (calls_bind _ _ _ 0 2); [lia|by compute|]. intros found past1.
  apply (calls_bind _ _ _ 1 1); [lia| |].
  - destruct (is_None found); [|by compute; lia].
    apply (calls_bind _ _ _ 1 0);
      [lia|by rewrite create_ums_conversation_calls|by compute].
  - intros cid past2. apply (calls_bind _ _ _ 0 1); [lia|by compute|].
    intros m past3.
    apply (calls_bind _ _ _ 1 0); [lia|by rewrite call_ums_agent_calls|by compute].
Qed.

Lemma gpa_response_calls (g' : GPAGateway) stage request instr past :
  external_calls (gpa_response env g' stage request instr past).2 = 1.
Proof.
  rewrite gpa_response_run. cbv zeta.
  destruct (gpa_stream _ _ _ _); [|done]. simpl.
  by rewrite external_calls_cons, external_calls_stage_appends.
Qed.

Lemma handle_coordination_request_calls self cr stage request past :
  external_calls (handle_coordination_request env self cr stage request past).2 ≤ 2.
Proof.
  unfold handle_coordination_request. destruct (bool_decide _).
  - apply response_calls.
  - change (gateway_response ?g) with (gpa_response env g). rewrite gpa_response_calls. lia.
Qed.

Lemma final_response_calls self request m past :
  external_calls (final_response env self request m past).2 = 1.
Proof.
  rewrite final_response_run. cbv zeta.
  destruct (llm_stream _ _ _); [|done]. simpl.
  by rewrite external_calls_cons, external_calls_choice_appends.
Qed.

Lemma routing_phase_calls self request past :
  external_calls (routing_phase env self request past).2 = 1.
Proof. rewrite routing_phase_run. cbv zeta. by destruct (classify _ _ _). Qed.

Lemma delegation_phase_calls self request cr past :
  external_calls (delegation_phase env self request cr past).2 ≤ 2.
Proof.
  rewrite delegation_phase_run. cbv zeta.
  match goal with |- context [handle_coordination_request ?e ?s ?c ?n ?r ?p] =>
    pose proof (handle_coordination_request_calls s c n r p) as Hg;
    destruct (handle_coordination_request e s c n r p) as [[msg|e'] evg]
  end; simpl in *; rewrite external_calls_stage_event by done; [|done].
  rewrite external_calls_app, (external_calls_stage_event _ []) by done.
  by rewrite Nat.add_0_r.
Qed.

(** C23: a run of the handler sends at least one and at
    most four requests to outside services, whatever they answer: the
    classification call, at most two calls to the agent and at most one
    synthesis call. *)
Theorem handle_request_call_budget self request past :
  1 ≤ external_calls (handle_request env self request past).2 ≤ 4.
Proof.
  rewrite (handle_request_phases env self request past). split.
  - apply calls_bind_ge. by rewrite routing_phase_calls.
  - apply (calls_bind _ _ _ 1 3); [lia|by rewrite routing_phase_calls|].
    intros cr past1.
    apply (calls_bind _ _ _ 2 1); [lia|apply delegation_phase_calls|].
    intros m past2. by rewrite final_response_calls.
Qed.

(** ** The log *)

(** The decision is handed to the logger once, by the runs that obtained
    one; a run that fails in routing logs nothing, and nothing else is
    logged, whatever the gateway and the synthesis do. *)
Lemma handle_request_logged self request past :
  logged (handle_request env self request past).2 =
  match classify env self request with
  | Ok cr => [routing_log cr]
  | Raise _ => []
  end.
Proof.
  handle_request_cases Hc Hg; simpl; autorewrite with py; simpl; [..|done].
  all: rewrite (gateway_logged _ _ (handle_coordination_request_events _ _ _ _ _ _ _ _ Hg)).
  all: unfold logged; by rewrite ?omap_map_None.
Qed.

(** The decision is logged after the coordination stage is closed and
    before the stage of the agent is opened. *)
Lemma handle_request_log_position self request past r ev cr :
  handle_request env self request past = (r, ev) → classify env self request = Ok cr →
  ∃ ev', ev = [EvStageOpen (n_stages past) coordination_stage_name;
               EvLLMComplete (deployment_name self)
                 (prepare_messages request COORDINATION_REQUEST_SYSTEM_PROMPT);
               EvStageAppend (n_stages past) (routing_text cr);
               EvStageClose (n_stages past); EvLogInfo (routing_log cr);
               EvStageOpen (S (n_stages past)) (agent_stage_name cr)] ++ ev'.
Proof.
  rewrite handle_request_run. cbv zeta. intros Hr Hc. rewrite Hc in Hr. cbn [app] in Hr.
  destruct (handle_coordination_request _ _ _ _ _ _) as [[msg|e] evg].
  - destruct (final_response _ _ _ _ _) as [r' ev3]. injection Hr as _ <-.
    by eexists.
  - injection Hr as _ <-. by eexists.
Qed.

End Budget.

(** ** Samples *)

(** The protocol rejects an append to a stage that was closed, and a stage
    opened under a number already taken. *)
Lemma stage_ok_rejects :
  stage_ok [] [EvStageOpen 0 "a"; EvStageClose 0; EvStageAppend 0 "late"] = false ∧
  stage_ok [] [EvStageOpen 0 "a"; EvStageOpen 0 "b"] = false.
Proof. by vm_compute. Qed.

(** The sample run uses the whole budget. *)
Lemma sample_events_budget :
  external_calls sample_events = 4 ∧ stage_ok [] sample_events = true.
Proof. by vm_compute. Qed.
