(* ===== verification/Guarded.v ===== *)
(** * Guarded: the handler with every stage released on every path

    The specification asks that a stage opened by the coordinator is closed
    before an error leaves the handler.  [handle_request] of
    [src/task/agent.py] closes each stage after the phase that uses it and
    has no [try]/[finally], so a phase that raises leaves its stage open.
    This file holds the handler with that guarantee,
    [handle_request_guarded], as a reference, and compares the handler of
    the source with it on every path:

    - [stages_left_open] lists the stages a run opened and did not close;
    - [handle_request_left_open]: which stage the source leaves open, by
      the phase that raised;
    - [handle_request_guarded_run]: the guarded handler returns what the
      handler of the source returns, and its events are those of the source
      followed by the closing of the stages the source left open;
    - [handle_request_guarded_releases], [handle_request_guarded_stage_ok]:
      the guarded handler leaves no stage open and follows the protocol of
      stages;
    - [handle_request_guarded_ok]: on a run that returns the two handlers
      are the same;
    - [handle_request_guarded_spec] states the comparison as a whole. *)

From Stdlib Require Import String Ascii ZArith List Lia Bool.
From stdpp Require Import base tactics option list strings.
From S2P Require Import Prelude Json JsonParse Effects Prompts Adapter Ums Gateway Coordinator Protocol.

(** ** Definitions *)

(** The stages that [ev] opened after [past] and left open. *)
Definition stages_left_open (past ev : Trace) : list Stage :=
  filter (λ s, stage_is_open s (past ++ ev) = true) (opened_stages ev).

Section WithEnv.
Context (env : Env).

Definition routing_guarded (self : MASCoordinator) (request : Request)
    : M CoordinationRequest :=
  coordination_stage ← open_stage coordination_stage_name;
  coordination_request ←
    try_finally
      (coordination_request ← prepare_coordination_request env self request;
       _ ← stage_append_content coordination_stage (routing_text coordination_request);
       mret coordination_request)
      (close_stage_safely coordination_stage);
  _ ← logger_info (routing_log coordination_request);
  mret coordination_request.

Definition delegation_guarded (self : MASCoordinator) (request : Request)
    (coordination_request : CoordinationRequest) : M Message :=
  agent_stage ← open_stage (agent_stage_name coordination_request);
  try_finally
    (handle_coordination_request env self coordination_request agent_stage request)
    (close_stage_safely agent_stage).

(** The handler with the guarantee the specification asks for: each stage
    is closed when its phase ends, whether the phase returned or raised. *)
Definition handle_request_guarded (self : MASCoordinator) (request : Request)
    : M Message :=
  coordination_request ← routing_guarded self request;
  agent_message ← delegation_guarded self request coordination_request;
  final_response env self request agent_message.

End WithEnv.

(** ** Stages left open *)

Lemma stages_left_open_cons past e ev :
  stages_left_open past (e :: ev) =
  match e with
  | EvStageOpen s _ =>
      if stage_is_open s (past ++ e :: ev) then s :: stages_left_open (past ++ [e]) ev
      else stages_left_open (past ++ [e]) ev
  | _ => stages_left_open (past ++ [e]) ev
  end.
Proof.
  unfold stages_left_open. rewrite <- !app_assoc. cbn [app].
  destruct e; try done. cbn [opened_stages omap list_omap].
  destruct (stage_is_open sid _) eqn:Ho.
  - by rewrite filter_cons_True.
  - rewrite filter_cons_False; [done|]. by rewrite Ho.
Qed.

Lemma stages_left_open_free past ev :
  forallb stage_free ev = true → stages_left_open past ev = [].
Proof.
  revert past. induction ev as [|e ev IH]; intros past; [done|].
  simpl. intros [He Hl]%andb_true_iff. rewrite stages_left_open_cons, IH by done.
  by destruct e.
Qed.

Lemma stages_left_open_app past ev1 ev2 :
  stages_left_open past (ev1 ++ ev2) =
  filter (λ s, stage_is_open_from s (stage_is_open s (past ++ ev1)) ev2 = true)
    (opened_stages ev1) ++ stages_left_open (past ++ ev1) ev2.
Proof.
  unfold stages_left_open. rewrite opened_stages_app, filter_app, !app_assoc.
  f_equal. apply list_filter_iff. intros s.
  by rewrite (stage_is_open_app s (past ++ ev1)).
Qed.

Lemma stages_left_open_gateway stage past ev :
  forallb (gateway_event stage) ev = true → stages_left_open past ev = [].
Proof. intros H. unfold stages_left_open. by rewrite (gateway_opened_stages _ _ H). Qed.

(** Stages that a well-formed prefix opened and closed stay closed: the
    stages opened later carry fresh identifiers. *)
Lemma stages_left_open_seq past ev1 ev2 :
  stage_ok past ev1 = true → stage_ok (past ++ ev1) ev2 = true →
  stages_left_open past ev1 = [] →
  stages_left_open past (ev1 ++ ev2) = stages_left_open (past ++ ev1) ev2.
Proof.
  intros H1%stage_ok_opened_stages H2%stage_ok_opened_stages Hc.
  rewrite stages_left_open_app.
  replace (filter _ (opened_stages ev1)) with (@nil Stage); [done|].
  symmetry. apply elem_of_nil_inv. intros s [Ho Hs]%list_elem_of_filter.
  destruct (stage_is_open s (past ++ ev1)) eqn:Hp.
  - assert (s ∈ stages_left_open past ev1) as Hin
      by (unfold stages_left_open; apply list_elem_of_filter; by rewrite Hp).
    rewrite Hc in Hin. by apply elem_of_nil in Hin.
  - apply stage_is_open_from_opened in Ho as [?|Hin]; [done|].
    rewrite H1 in Hs. rewrite H2, n_stages_app in Hin.
    apply elem_of_seq in Hs, Hin. lia.
Qed.

Lemma stage_is_open_from_closes s b (l : list Stage) :
  stage_is_open_from s b (map EvStageClose l) = b && bool_decide (s ∉ l).
Proof.
  revert b. induction l as [|x l IH]; intros b; cbn [map stage_is_open_from].
  - rewrite (bool_decide_eq_true_2 (s ∉ [])) by apply not_elem_of_nil.
    by rewrite andb_true_r.
  - rewrite IH. destruct (decide (x = s)) as [->|Hx].
    + rewrite (bool_decide_eq_false_2 (s ∉ s :: l)), andb_false_r; [done|].
      intros H. apply H. by left.
    + by rewrite (bool_decide_ext (s ∉ x :: l) (s ∉ l))
        by (rewrite not_elem_of_cons; split; [intros [_ ?]|split; [intros ->|]]; done).
Qed.

(** Closing the stages left open leaves none open. *)
Lemma stages_left_open_closed past ev :
  stages_left_open past (ev ++ map EvStageClose (stages_left_open past ev)) = [].
Proof.
  rewrite stages_left_open_app. apply app_nil. split.
  - apply elem_of_nil_inv. intros s [Ho Hs]%list_elem_of_filter.
    rewrite stage_is_open_from_closes in Ho.
    apply andb_true_iff in Ho as [Ho Hn%bool_decide_eq_true].
    apply Hn. unfold stages_left_open. by apply list_elem_of_filter.
  - unfold stages_left_open.
    replace (opened_stages (map EvStageClose _)) with (@nil Stage); [done|].
    symmetry. unfold opened_stages. by apply omap_map_None.
Qed.

(** Closing them follows the protocol: each is open, and none is listed
    twice. *)
Lemma stage_ok_closes past (l : list Stage) :
  NoDup l → Forall (λ s, stage_is_open s past = true) l →
  stage_ok past (map EvStageClose l) = true.
Proof.
  revert past. induction l as [|x l IH]; intros past Hd Ho; [done|].
  apply NoDup_cons in Hd as [Hx Hd]. apply Forall_cons in Ho as [Hox Ho].
  simpl. rewrite Hox. apply IH; [done|].
  apply Forall_forall. intros s Hs. rewrite Forall_forall in Ho.
  rewrite stage_is_open_app. simpl. rewrite decide_False by (by intros ->).
  by apply Ho.
Qed.

Section GuardedProofs.
Context (env : Env).
Implicit Types (self : MASCoordinator) (request : Request) (past : Trace).

Lemma routing_guarded_run self request past :
  routing_guarded env self request past =
  let '(r, ev) := routing_phase env self request past in
  (r, if is_Ok r then ev else ev ++ [EvStageClose (n_stages past)]).
Proof.
  rewrite routing_phase_run. unfold routing_guarded.
  unfold mbind at 1, M_bind, bind at 1, open_stage at 1. cbv zeta.
  unfold mbind at 1, M_bind, bind at 1, try_finally.
  unfold mbind at 1, M_bind, bind at 1. rewrite prepare_coordination_request_run.
  destruct (classify env self request) as [cr|e]; simpl.
  - unfold close_stage_safely. rewrite <- !app_assoc. cbn [app].
    rewrite stage_is_open_after_open. simpl. done.
  - unfold close_stage_safely. rewrite <- !app_assoc. cbn [app].
    rewrite stage_is_open_after_open. simpl. done.
Qed.

Lemma delegation_guarded_run self request cr past :
  delegation_guarded env self request cr past =
  let '(r, ev) := delegation_phase env self request cr past in
  (r, if is_Ok r then ev else ev ++ [EvStageClose (n_stages past)]).
Proof.
  rewrite delegation_phase_run. unfold delegation_guarded, try_finally.
  unfold mbind at 1, M_bind, bind at 1, open_stage at 1. cbv zeta.
  destruct (handle_coordination_request _ _ _ _ _ _) as [r evg] eqn:Hg.
  apply handle_coordination_request_events in Hg.
  unfold close_stage_safely. rewrite <- !app_assoc. cbn [app].
  rewrite stage_is_open_after_open, (gateway_stage_is_open _ _ _ _ Hg).
  by destruct r.
Qed.

(** The guarded phases against the phases of the source. *)
Lemma routing_phase_left_open self request past :
  let '(r, ev) := routing_phase env self request past in
  stages_left_open past ev = if is_Ok r then [] else [n_stages past].
Proof.
  rewrite routing_phase_run. cbv zeta.
  destruct (classify _ _ _); unfold stages_left_open; simpl.
  - rewrite filter_cons_False; [done|].
    rewrite <- ?app_assoc. cbn [app]. rewrite stage_is_open_after_open. simpl.
    by rewrite decide_True.
  - rewrite filter_cons_True; [done|]. by rewrite stage_is_open_after_open.
Qed.

Lemma delegation_phase_left_open self request cr past :
  let '(r, ev) := delegation_phase env self request cr past in
  stages_left_open past ev = if is_Ok r then [] else [n_stages past].
Proof.
  rewrite delegation_phase_run. cbv zeta.
  destruct (handle_coordination_request _ _ _ _ _ _) as [[msg|e] evg] eqn:Hg;
    apply handle_coordination_request_events in Hg;
    unfold stages_left_open; simpl; autorewrite with py;
    rewrite (gateway_opened_stages _ _ Hg); simpl.
  - rewrite filter_cons_False; [done|].
    rewrite stage_is_open_after_open, stage_is_open_from_app.
    rewrite (gateway_stage_is_open _ _ _ _ Hg). simpl. by rewrite decide_True.
  - rewrite filter_cons_True; [done|].
    by rewrite stage_is_open_after_open, (gateway_stage_is_open _ _ _ _ Hg).
Qed.

(** Which stage a run of the handler leaves open: the coordination stage
    when routing raises, the agent stage when the gateway raises, none
    otherwise. *)
Lemma handle_request_left_open self request past :
  stages_left_open past (handle_request env self request past).2 =
  match routing_phase env self request past with
  | (Raise _, _) => [n_stages past]
  | (Ok cr, ev1) =>
      if is_Ok (delegation_phase env self request cr (past ++ ev1)).1 then []
      else [n_stages (past ++ ev1)]
  end.
Proof.
  rewrite (handle_request_phases env self request past). unfold bind.
  pose proof (routing_phase_left_open self request past) as L1.
  pose proof (routing_phase_stage_ok env self request past) as K1.
  destruct (routing_phase env self request past) as [[cr|e1] ev1]; simpl in *; [|done].
  pose proof (delegation_phase_left_open self request cr (past ++ ev1)) as L2.
  pose proof (delegation_phase_stage_ok env self request cr (past ++ ev1)) as K2.
  destruct (delegation_phase env self request cr _) as [[msg|e2] ev2]; simpl in *;
    [|by rewrite stages_left_open_seq].
  pose proof (final_response_stage_free env self request msg ((past ++ ev1) ++ ev2)) as F.
  destruct (final_response env self request msg _) as [r ev3]. simpl in *.
  rewrite !app_assoc, stages_left_open_seq, stages_left_open_free;
    rewrite ?stage_ok_app, ?K1, ?K2, ?stage_free_ok, ?stages_left_open_seq; done.
Qed.

(** The guarded handler, path by path: the result of [handle_request], and
    its events followed by the closing of the stages it left open. *)
Lemma handle_request_guarded_run self request past :
  handle_request_guarded env self request past =
  let '(r, ev) := handle_request env self request past in
  (r, ev ++ map EvStageClose (stages_left_open past ev)).
Proof.
  pose proof (handle_request_left_open self request past) as L. revert L.
  rewrite (handle_request_phases env self request past).
  unfold handle_request_guarded, mbind, M_bind, bind.
  rewrite routing_guarded_run.
  destruct (routing_phase env self request past) as [[cr|e1] ev1]; simpl;
    [|by intros ->].
  rewrite delegation_guarded_run.
  destruct (delegation_phase env self request cr _) as [[msg|e2] ev2]; simpl.
  - destruct (final_response env self request msg _) as [r ev3]. simpl.
    intros ->. by rewrite app_nil_r.
  - intros ->. by rewrite app_assoc.
Qed.

(** A run that returns has closed its stages. *)
Lemma handle_request_Ok_left_open self request past m ev :
  handle_request env self request past = (Ok m, ev) → stages_left_open past ev = [].
Proof.
  intros H. pose proof (handle_request_left_open self request past) as L.
  revert H L. rewrite (handle_request_phases env self request past). unfold bind.
  destruct (routing_phase env self request past) as [[cr|e1] ev1]; [|done].
  destruct (delegation_phase env self request cr _) as [[msg|e2] ev2]; [|done].
  destruct (final_response env self request msg _) as [r ev3].
  by intros [= _ <-].
Qed.

(** On a run that returns, the handler of the source is the guarded one. *)
Lemma handle_request_guarded_ok self request past m ev :
  handle_request env self request past = (Ok m, ev) →
  handle_request_guarded env self request past = (Ok m, ev).
Proof.
  intros H. rewrite handle_request_guarded_run, H.
  by rewrite (handle_request_Ok_left_open _ _ _ _ _ H), app_nil_r.
Qed.

(** The two handlers return or raise the same. *)
Lemma handle_request_guarded_result self request past :
  (handle_request_guarded env self request past).1 =
  (handle_request env self request past).1.
Proof.
  rewrite handle_request_guarded_run. by destruct (handle_request _ _ _ _).
Qed.

(** Every path of the guarded handler ends with no stage of the run open. *)
Lemma handle_request_guarded_releases self request past :
  stages_left_open past (handle_request_guarded env self request past).2 = [].
Proof.
  rewrite handle_request_guarded_run.
  destruct (handle_request _ _ _ _) as [r ev]. apply stages_left_open_closed.
Qed.

(** The guarded handler follows the protocol of stages. *)
Lemma handle_request_guarded_stage_ok self request past :
  stage_ok past (handle_request_guarded env self request past).2 = true.
Proof.
  rewrite handle_request_guarded_run.
  pose proof (phases_stage_ok env self request past) as Hok.
  rewrite <- (handle_request_phases env self request past) in Hok.
  destruct (handle_request _ _ _ _) as [r ev]. simpl in *.
  rewrite stage_ok_app, Hok. simpl. apply stage_ok_closes.
  - apply NoDup_filter. by eapply stage_ok_NoDup.
  - apply Forall_forall. by intros s [Ho _]%list_elem_of_filter.
Qed.

(** C10: the handler of the source against the handler that
    releases its stages.  On every path, whatever the services answer, the
    guarded handler returns or raises what [handle_request] returns or
    raises; its events are the events of [handle_request] followed by the
    closing of the stages [handle_request] left open; on a run that returns
    the events are the same; and the guarded run leaves no stage open and
    follows the protocol of stages. *)
Theorem handle_request_guarded_spec self request past :
  let '(r, ev) := handle_request env self request past in
  let '(rg, evg) := handle_request_guarded env self request past in
  rg = r ∧ evg = ev ++ map EvStageClose (stages_left_open past ev) ∧
  (is_Ok r = true → evg = ev) ∧
  stages_left_open past evg = [] ∧ stage_ok past evg = true.
Proof.
  pose proof (handle_request_guarded_releases self request past) as R.
  pose proof (handle_request_guarded_stage_ok self request past) as K.
  pose proof (handle_request_guarded_ok self request past) as O.
  rewrite handle_request_guarded_run in *.
  destruct (handle_request env self request past) as [r ev]. simpl in *.
  split_and!; try done.
  destruct r as [m|]; [|done]. intros _. specialize (O m ev eq_refl).
  by injection O.
Qed.

End GuardedProofs.

(** ** Samples *)

(** When the routing call fails the source leaves the coordination stage
    open; the guarded handler closes it. *)
Lemma guarded_routing_failure_sample :
  stages_left_open [] (handle_request broken_classifier_env sample_coordinator
                         sample_request []).2 = [0] ∧
  last (handle_request_guarded broken_classifier_env sample_coordinator
          sample_request []).2 = Some (EvStageClose 0).
Proof. by vm_compute. Qed.
