(* ===== verification/Session.v ===== *)
(** * Session: the conversation id across the turns of a conversation

    The stateful agent keeps a conversation of its own.  The coordinator
    stores the agent's conversation id in the state of the choice
    ([choice.set_state] in [UMSAgentGateway.response]); the caller attaches
    that state to the assistant message of the turn and sends the messages
    back with the next request, where [__get_ums_conversation_id] finds it.

    This file composes the two halves.  [reply_message] is the assistant
    message as the caller keeps it; a turn is one successful run of
    [handle_request] on a history extended by the user's message;
    [reachable_history] is the set of histories a conversation can have.
    The lookup of the source returns the first id of the history;
    [most_recent_conversation_id] is the lookup the specification
    describes.  The theorems show when the two agree, that every reachable
    history is one on which they agree unless the agent issued [null] as an
    id, and that an id stored by one turn is the id used by the next. *)

From Stdlib Require Import String Ascii ZArith List Lia Bool.
From stdpp Require Import base tactics option list strings.
From S2P Require Import Prelude Json JsonParse Effects Prompts Adapter Ums Gateway Coordinator.

(** ** The ids a history carries *)

(** The value a message carries under the tracked key, when its state is a
    dictionary that holds the key. *)
Definition carried (m : Message) : option JSON :=
  match role m, custom_content m with
  | ASSISTANT, Some cc =>
      match state cc with
      | JObject kvs => dict_get _UMS_CONVERSATION_ID kvs
      | _ => None
      end
  | _, _ => None
  end.

(** The state of an assistant message is absent or a dictionary: what the
    caller sends back of a state set by [choice.set_state]. *)
Definition state_shaped (m : Message) : Prop :=
  role m = ASSISTANT →
  ∀ cc, custom_content m = Some cc →
        state cc = JNull ∨ ∃ kvs, state cc = JObject kvs.

(** The values carried by the messages of a history, oldest first. *)
Definition carriers (h : list Message) : list JSON := omap carried h.

(** The lookup of the specification: the id of the most recent message
    that carries one, [JNull] when there is none. *)
Definition most_recent_conversation_id (h : list Message) : JSON :=
  default JNull (last (carriers h)).

(** A history in which an id that is not [null] is the only value
    carried. *)
Definition history_consistent (h : list Message) : Prop :=
  match carriers h with
  | [] => True
  | v :: rest => is_None v = false → rest = []
  end.

(** ** Turns *)

(** The assistant message of a turn as the caller keeps it: the text of
    the answer and the state that was set on the choice, if any. *)
Definition reply_message (answer : Message) (ev : Trace) : Message :=
  mkMessage ASSISTANT (content answer)
    (Some (mkCustomContent [] (default JNull (choice_state ev)))).

(** The histories of a conversation: each turn adds the user's message and
    the reply of a run that succeeded, in an environment of its own. *)
Inductive reachable_history (self : MASCoordinator) (P : Env → Prop)
    : list Message → Prop :=
| reachable_start : reachable_history self P []
| reachable_turn (env : Env) (h : list Message) (u answer : Message) (ev : Trace) :
    reachable_history self P h →
    P env →
    role u = USER →
    handle_request env self (mkRequest (h ++ [u])) [] = (Ok answer, ev) →
    reachable_history self P (h ++ [u; reply_message answer ev]).

(** The gateway the coordinator builds for the stateful agent. *)
Definition ums_gateway (self : MASCoordinator) : UMSAgentGateway :=
  mkUMSAgentGateway (coordinator_ums_agent_endpoint self).

(** An environment whose agent never issues [null] as a conversation id. *)
Definition ids_not_null (self : MASCoordinator) (env : Env) : Prop :=
  ∀ cid, created_id env (ums_gateway self) = Ok cid → is_None cid = false.

(** A history that carries no id, or one id that is not [null]. *)
Definition single_session (h : list Message) : Prop :=
  carriers h = [] ∨ ∃ v, carriers h = [v] ∧ is_None v = false.

(** ** A sample conversation *)

(** The history after the first turn of the sample run. *)
Definition sample_history : list Message :=
  [] ++ [sample_user; reply_message sample_answer sample_events].

Definition sample_followup : Message :=
  mkMessage USER (Some "rename her to Alicia") None.

(** The events of the second turn, on the history of the first. *)
Definition sample_second_events : Trace :=
  Eval vm_compute in
    (handle_request sample_env sample_coordinator
       (mkRequest (sample_history ++ [sample_followup])) []).2.

(** An environment whose agent issues [null] as a conversation id. *)
Definition null_id_env : Env :=
  scripted_env
    (Ok [Some (decision_text "UMS")])
    (Ok (mkStream [mkChunk [Some "ok"]] None))
    (Ok (mkHttpResponse 200 ("{" +:+ q "id" +:+ ": null}")))
    (Ok (mkChatResponse 200 (mkStream [content_line "done"; done_line] None)))
    (Raise APIError).

(** The events of a first turn with [null_id_env], the history after it,
    the events of a second turn with [sample_env], and the history after
    both. *)
Definition null_id_events : Trace :=
  Eval vm_compute in
    (handle_request null_id_env sample_coordinator (mkRequest [sample_user]) []).2.

Definition null_id_first : list Message :=
  [] ++ [sample_user; reply_message (assistant_message "ok") null_id_events].

Definition null_id_second_events : Trace :=
  Eval vm_compute in
    (handle_request sample_env sample_coordinator
       (mkRequest (null_id_first ++ [sample_followup])) []).2.

Definition null_id_history : list Message :=
  null_id_first ++ [sample_followup; reply_message sample_answer null_id_second_events].

(** ** The lookup on well-shaped histories *)

Lemma message_conversation_carried (m : Message) :
  state_shaped m → message_conversation m = Ok (carried m).
Proof.
  unfold state_shaped, message_conversation, carried.
  destruct (role m); [done..|]. destruct (custom_content m) as [cc|]; [|done].
  intros H. destruct (H eq_refl cc eq_refl) as [->|[kvs ->]]; [done|].
  cbv zeta. destruct kvs as [|kv kvs]; [done|].
  change (truthy (JObject (kv :: kvs))) with true. cbv iota.
  unfold py_contains, py_getitem_str, dict_mem.
  by destruct (dict_get _ _).
Qed.

Lemma get_ums_conversation_id_from_carriers (h : list Message) :
  Forall state_shaped h →
  get_ums_conversation_id_from h = Ok (default JNull (head (carriers h))).
Proof.
  induction 1 as [|m h Hm _ IH]; [done|].
  rewrite get_ums_conversation_id_from_cons, (message_conversation_carried _ Hm).
  unfold carriers. simpl. destruct (carried m); [done|]. apply IH.
Qed.

Lemma carriers_app (h1 h2 : list Message) :
  carriers (h1 ++ h2) = carriers h1 ++ carriers h2.
Proof. apply omap_app. Qed.

Lemma carried_user (u : Message) : role u = USER → carried u = None.
Proof. unfold carried. by intros ->. Qed.

Lemma state_shaped_user (u : Message) : role u = USER → state_shaped u.
Proof. unfold state_shaped. by intros ->. Qed.

Lemma single_session_consistent (h : list Message) :
  single_session h → history_consistent h.
Proof. unfold history_consistent. by intros [->|(v & -> & _)]. Qed.

(** On a history of one session the first id is the most recent one. *)
Lemma single_session_lookup (h : list Message) :
  Forall state_shaped h → single_session h →
  get_ums_conversation_id (mkRequest h) = Ok (most_recent_conversation_id h).
Proof.
  intros Hs Hh. unfold get_ums_conversation_id, most_recent_conversation_id.
  simpl. rewrite get_ums_conversation_id_from_carriers by done.
  by destruct Hh as [->|(v & -> & _)].
Qed.

(** ** What a turn adds to the history *)

Lemma carried_reply (answer : Message) (ev : Trace) :
  carried (reply_message answer ev) =
  match choice_state ev with
  | Some (JObject kvs) => dict_get _UMS_CONVERSATION_ID kvs
  | _ => None
  end.
Proof. unfold carried, reply_message. simpl. by destruct (choice_state ev). Qed.

Lemma carriers_turn (h : list Message) (u answer : Message) (ev : Trace) :
  role u = USER →
  carriers (h ++ [u; reply_message answer ev]) =
  carriers h ++ option_list (carried (reply_message answer ev)).
Proof.
  intros Hu. rewrite carriers_app. f_equal. unfold carriers. simpl.
  rewrite (carried_user _ Hu). by destruct (carried _).
Qed.

Lemma lookup_turn (h : list Message) (u : Message) :
  Forall state_shaped h → role u = USER →
  get_ums_conversation_id (mkRequest (h ++ [u])) =
  Ok (default JNull (head (carriers h))).
Proof.
  intros Hs Hu. unfold get_ums_conversation_id. simpl.
  rewrite get_ums_conversation_id_from_carriers
    by (apply Forall_app; split; [done|];
        constructor; [by apply state_shaped_user|constructor]).
  rewrite carriers_app. unfold carriers at 2. simpl.
  by rewrite (carried_user _ Hu), app_nil_r.
Qed.

Section Turn.
Context (env : Env) (self : MASCoordinator).
Implicit Types (request : Request) (h : list Message) (ev : Trace).

(** The state a run leaves on the choice and the conversations it creates:
    a run of the stateful gateway whose lookup finds no id creates one
    conversation and stores its id; every other run does neither. *)
Lemma turn_state request past cr r ev :
  classify env self request = Ok cr →
  handle_request env self request past = (r, ev) →
  match agent_name cr, get_ums_conversation_id request with
  | UMS, Ok found =>
      if is_None found then
        ums_create_calls ev = [coordinator_ums_agent_endpoint self] ∧
        match created_id env (ums_gateway self) with
        | Ok cid => set_states ev = [JObject [(_UMS_CONVERSATION_ID, cid)]]
        | Raise _ => set_states ev = []
        end
      else set_states ev = [] ∧ ums_create_calls ev = []
  | _, _ => set_states ev = [] ∧ ums_create_calls ev = []
  end.
Proof.
  intros Hc Hr.
  destruct (handle_request_gateway_run _ _ _ _ _ _ _ Hc Hr)
    as (past' & rg & evg & Hg & _ & -> & _ & -> & _).
  destruct (agent_name cr) eqn:Ha.
  - rewrite (handle_coordination_request_GPA _ _ _ _ _ Ha) in Hg.
    apply gpa_response_gpa_events in Hg.
    by rewrite (gpa_events_set_states _ _ Hg), (gpa_events_ums_create_calls _ _ Hg).
  - rewrite (handle_coordination_request_UMS _ _ _ _ _ Ha) in Hg.
    apply response_set_states in Hg.
    by destruct (get_ums_conversation_id request).
Qed.

(** The chat call of a run of the stateful gateway that found an id. *)
Lemma turn_chat_call request past cr r ev found m :
  classify env self request = Ok cr → agent_name cr = UMS →
  handle_request env self request past = (r, ev) →
  get_ums_conversation_id request = Ok found → is_None found = false →
  last_message request = Ok m →
  ums_chat_calls ev = [(found, augment_user_content m (additional_instructions cr))].
Proof.
  intros Hc Ha Hr Hf Hn Hm.
  destruct (handle_request_gateway_run _ _ _ _ _ _ _ Hc Hr)
    as (past' & rg & evg & Hg & _ & _ & -> & _).
  rewrite (handle_coordination_request_UMS _ _ _ _ _ Ha) in Hg.
  by eapply response_chat_calls.
Qed.

(** What the reply of a successful turn carries. *)
Lemma turn_carried h u answer ev :
  Forall state_shaped h → role u = USER →
  handle_request env self (mkRequest (h ++ [u])) [] = (Ok answer, ev) →
  state_shaped (reply_message answer ev) ∧
  (carried (reply_message answer ev) = None ∨
   ∃ cid, carried (reply_message answer ev) = Some cid ∧
          created_id env (ums_gateway self) = Ok cid ∧
          ∀ v rest, carriers h = v :: rest → is_None v = true).
Proof.
  intros Hs Hu Hr.
  destruct (handle_request_Ok_inv _ _ _ _ _ _ Hr) as (cr & _ & _ & Hc & _).
  pose proof (turn_state _ _ _ _ _ Hc Hr) as Ht.
  rewrite (lookup_turn _ _ Hs Hu) in Ht.
  rewrite carried_reply. unfold state_shaped, reply_message, choice_state. simpl.
  destruct (agent_name cr); [destruct Ht as [-> _]; split; [intros _ cc [= <-]|]; auto|].
  destruct (is_None (default JNull (head (carriers h)))) eqn:Hn;
    [|destruct Ht as [-> _]; split; [intros _ cc [= <-]|]; auto].
  destruct Ht as [_ Ht].
  destruct (created_id env (ums_gateway self)) as [cid|e]; rewrite Ht; simpl.
  - split; [intros _ cc [= <-]; eauto|]. right. exists cid.
    split_and!; [done..|]. intros v rest Hv. by rewrite Hv in Hn.
  - split; [intros _ cc [= <-]|]; auto.
Qed.

End Turn.

(** ** Reachable histories *)

Section Reachable.
Context (self : MASCoordinator).

Lemma reachable_history_shaped P h :
  reachable_history self P h → Forall state_shaped h.
Proof.
  induction 1 as [|env h u answer ev _ IH _ Hu Hr]; [done|].
  apply Forall_app. split; [done|].
  destruct (turn_carried _ _ _ _ _ _ IH Hu Hr) as [Hs _].
  constructor; [by apply state_shaped_user|]. constructor; [done|constructor].
Qed.


Lemma reachable_single_session h :
  reachable_history self (ids_not_null self) h → single_session h.
Proof.
  induction 1 as [|env h u answer ev Hh IH Hp Hu Hr]; [by left|].
  pose proof (reachable_history_shaped _ _ Hh) as Hs.
  destruct (turn_carried _ _ _ _ _ _ Hs Hu Hr) as [_ [Hn|(cid & Hc & Hcr & Hv)]];
    unfold single_session in *; rewrite (carriers_turn _ _ _ _ Hu).
  - rewrite Hn. simpl. by rewrite app_nil_r.
  - rewrite Hc. simpl. destruct IH as [->|(v & Hv' & Hnn)].
    + right. exists cid. split; [done|]. by apply Hp.
    + by rewrite (Hv _ _ Hv') in Hnn.
Qed.

(** C19: on every history a conversation can reach while the agent
    never issues [null] as an id, the lookup of the source, which returns
    the first id of the history, returns the id of the most recent message
    that carries one, as the specification asks. *)
Theorem reachable_lookup_most_recent h :
  reachable_history self (ids_not_null self) h →
  get_ums_conversation_id (mkRequest h) = Ok (most_recent_conversation_id h).
Proof.
  intros Hh. apply single_session_lookup.
  - by eapply reachable_history_shaped.
  - by apply reachable_single_session.
Qed.

(** C21: a turn of the stateful gateway on a reachable history
    that carries no id creates a conversation, and the history after the
    turn carries exactly the id the agent issued; the next lookup returns
    it. *)
Theorem turn_stores_created_id env h u u' cr answer ev :
  reachable_history self (ids_not_null self) h → ids_not_null self env →
  carriers h = [] → role u = USER → role u' = USER →
  classify env self (mkRequest (h ++ [u])) = Ok cr → agent_name cr = UMS →
  handle_request env self (mkRequest (h ++ [u])) [] = (Ok answer, ev) →
  ∃ cid, created_id env (ums_gateway self) = Ok cid ∧
         ums_create_calls ev = [coordinator_ums_agent_endpoint self] ∧
         carriers (h ++ [u; reply_message answer ev]) = [cid] ∧
         get_ums_conversation_id
           (mkRequest ((h ++ [u; reply_message answer ev]) ++ [u'])) = Ok cid.
Proof.
  intros Hh Hp Hc Hu Hu' Hcl Ha Hr.
  pose proof (reachable_history_shaped _ _ Hh) as Hs.
  pose proof (turn_state _ _ _ _ _ _ _ Hcl Hr) as Ht.
  rewrite Ha, (lookup_turn _ _ Hs Hu), Hc in Ht. simpl in Ht.
  destruct Ht as [Hcreate Hst].
  assert (reachable_history self (ids_not_null self)
            (h ++ [u; reply_message answer ev])) as Hh'
    by (by econstructor).
  destruct (created_id env (ums_gateway self)) as [cid|e] eqn:Hcid.
  - exists cid. split_and!; [done..| |].
    + rewrite (carriers_turn _ _ _ _ Hu), Hc, carried_reply.
      unfold choice_state. by rewrite Hst.
    + rewrite (lookup_turn _ _ (reachable_history_shaped _ _ Hh') Hu').
      rewrite (carriers_turn _ _ _ _ Hu), Hc, carried_reply.
      unfold choice_state. by rewrite Hst.
  - exfalso.
    destruct (handle_request_gateway_run _ _ _ _ _ _ _ Hcl Hr)
      as (past' & rg & evg & Hg & Hok & _).
    rewrite (handle_coordination_request_UMS _ _ _ _ _ Ha) in Hg.
    rewrite response_run, (lookup_turn _ _ Hs Hu), Hc in Hg. simpl in Hg.
    change (created_id env _) with (created_id env (ums_gateway self)) in Hg.
    rewrite Hcid in Hg. apply pair_equal_spec in Hg as [<- _].
    by specialize (Hok eq_refl).
Qed.

(** C22: on a history a conversation can reach while the agent
    never issues [null] as an id, a turn routed to the stateful
    agent creates a conversation exactly when the history carries no id;
    otherwise it makes no creation call, sets no state, and its chat call
    carries the id of the history with the text of the new user message. *)
Theorem reachable_turn_reuses env h u cr r ev :
  reachable_history self (ids_not_null self) h → role u = USER →
  classify env self (mkRequest (h ++ [u])) = Ok cr → agent_name cr = UMS →
  handle_request env self (mkRequest (h ++ [u])) [] = (r, ev) →
  match carriers h with
  | [] => ums_create_calls ev = [coordinator_ums_agent_endpoint self]
  | v :: _ =>
      ums_create_calls ev = [] ∧ set_states ev = [] ∧
      ums_chat_calls ev =
        [(v, augment_user_content u (additional_instructions cr))]
  end.
Proof.
  intros Hh Hu Hcl Ha Hr.
  pose proof (reachable_history_shaped _ _ Hh) as Hs.
  pose proof (turn_state _ _ _ _ _ _ _ Hcl Hr) as Ht.
  pose proof (lookup_turn _ _ Hs Hu) as Hl.
  rewrite Ha, Hl in Ht.
  destruct (reachable_single_session _ Hh) as [Hc|(v & Hc & Hv)];
    rewrite Hc in *; simpl in *.
  - by destruct Ht.
  - rewrite Hv in Ht. destruct Ht as [-> ->]. split_and!; [done..|].
    eapply turn_chat_call; [done..|].
    unfold last_message. simpl. by rewrite last_snoc.
Qed.

End Reachable.

(** ** The theorems at the sample conversation *)

Lemma sample_env_ids_not_null : ids_not_null sample_coordinator sample_env.
Proof. intros cid H. vm_compute in H. by simplify_eq. Qed.

Lemma sample_history_reachable :
  reachable_history sample_coordinator (ids_not_null sample_coordinator)
    sample_history.
Proof.
  apply (reachable_turn _ _ sample_env [] sample_user sample_answer sample_events);
    [constructor|apply sample_env_ids_not_null|done|by vm_compute].
Qed.


Lemma reachable_lookup_most_recent_witness :
  get_ums_conversation_id (mkRequest sample_history) =
  Ok (most_recent_conversation_id sample_history).
Proof.
  apply (reachable_lookup_most_recent sample_coordinator).
  apply sample_history_reachable.
Defined.

Lemma turn_stores_created_id_witness :
  ∃ cid, created_id sample_env (ums_gateway sample_coordinator) = Ok cid ∧
         ums_create_calls sample_events = ["http://ums"] ∧
         carriers ([] ++ [sample_user; reply_message sample_answer sample_events])
           = [cid] ∧
         get_ums_conversation_id
           (mkRequest (([] ++ [sample_user; reply_message sample_answer sample_events])
                         ++ [sample_followup])) = Ok cid.
Proof.
  apply (turn_stores_created_id sample_coordinator sample_env [] sample_user
           sample_followup (mkCoordinationRequest UMS None) sample_answer
           sample_events);
    [constructor|apply sample_env_ids_not_null|done..|by vm_compute|done|by vm_compute].
Defined.

Lemma reachable_turn_reuses_witness :
  ums_create_calls sample_second_events = [] ∧
  set_states sample_second_events = [] ∧
  ums_chat_calls sample_second_events =
    [(JString "c1",
      augment_user_content sample_followup
        (additional_instructions (mkCoordinationRequest UMS None)))].
Proof.
  apply (reachable_turn_reuses sample_coordinator sample_env sample_history
           sample_followup (mkCoordinationRequest UMS None)
           (Ok sample_answer) sample_second_events);
    [apply sample_history_reachable|done|by vm_compute|done|by vm_compute].
Defined.

(** After a [null] id the two lookups differ: the history is reachable, the
    most recent id is [c1], and the lookup of the source finds none. *)
Lemma null_id_history_reachable :
  reachable_history sample_coordinator (λ _, True) null_id_history.
Proof.
  apply (reachable_turn _ _ sample_env); [|done..|by vm_compute].
  apply (reachable_turn _ _ null_id_env); [constructor|done..|by vm_compute].
Qed.

Lemma null_id_lookup_differs :
  get_ums_conversation_id (mkRequest null_id_history) = Ok JNull ∧
  most_recent_conversation_id null_id_history = JString "c1".
Proof. by vm_compute. Qed.
