(* ===== verification/Conversation.v ===== *)
(** * Conversation: one conversation of the agent per conversation of the caller

    [Session] follows the conversation id through one turn.  This file
    follows it through a whole conversation.

    The specification describes the life cycle of the id: absent at first,
    created by one call when the stateful agent is first chosen, attached
    to the reply, and from then on recovered and reused.  [session_step]
    is that life cycle as a machine over [option JSON]: a turn routed to
    the other agent leaves the session as it is, the first turn of the
    stateful agent takes it from [None] to [Some cid] with one creation
    call, one state update and one chat call under [cid], and every later
    turn of the stateful agent makes one chat call under the id of the
    session and nothing else.  [session_run] is a run of the machine, and
    [session_run_spec] what holds of every run.

    [conversation] relates the history of a conversation to the events of
    all its turns, a turn being a run of [handle_request] that returned.
    [conversation_session_run] shows that the conversations of the
    coordinator are runs of the machine, the session being the id the
    history carries ([session_of]); [conversation_one_session] is the
    consequence for the calls of a whole conversation.

    A run that raises adds nothing to the history; [failed_turn_creates]
    shows a run that raises after it created a conversation, which a
    second attempt on the same history creates again. *)

From Stdlib Require Import String Ascii ZArith List Lia Bool.
From stdpp Require Import base tactics option list strings.
From S2P Require Import Prelude Json JsonParse Effects Prompts Adapter Ums Gateway Coordinator Session.

(** ** Definitions *)

(** The state the gateway sets on the choice for a conversation id. *)
Definition conversation_state (cid : JSON) : JSON :=
  JObject [(_UMS_CONVERSATION_ID, cid)].

(** The conversation ids of the chat calls of a trace, in order. *)
Definition chat_ids (tr : Trace) : list JSON := (ums_chat_calls tr).*1.

(** The session of the specification, one step per turn: what the turn
    may do to the session [s], with the events [ev] it may have.  [ep] is
    the endpoint of the stateful agent. *)
Inductive session_step (ep : string) : option JSON → Trace → option JSON → Prop :=
| session_stutter (s : option JSON) (ev : Trace) :
    ums_create_calls ev = [] → set_states ev = [] → chat_ids ev = [] →
    session_step ep s ev s
| session_create (cid : JSON) (ev : Trace) :
    ums_create_calls ev = [ep] → set_states ev = [conversation_state cid] →
    chat_ids ev = [cid] →
    session_step ep None ev (Some cid)
| session_resume (cid : JSON) (ev : Trace) :
    ums_create_calls ev = [] → set_states ev = [] → chat_ids ev = [cid] →
    session_step ep (Some cid) ev (Some cid).

(** The runs of the session from its start, with the events of all steps. *)
Inductive session_run (ep : string) : Trace → option JSON → Prop :=
| session_run_nil : session_run ep [] None
| session_run_step (T : Trace) (s : option JSON) (ev : Trace) (s' : option JSON) :
    session_run ep T s → session_step ep s ev s' →
    session_run ep (T ++ ev) s'.

(** The session of a history: the id it carries. *)
Definition session_of (h : list Message) : option JSON := head (carriers h).

(** The runs of a conversation: its history and the events of its turns,
    oldest first.  Each turn is a run of [handle_request] that returned,
    on the history extended by the user's message. *)
Inductive conversation (self : MASCoordinator) (P : Env → Prop)
    : list Message → Trace → Prop :=
| conversation_start : conversation self P [] []
| conversation_turn (env : Env) (h : list Message) (T : Trace)
    (u answer : Message) (ev : Trace) :
    conversation self P h T →
    P env →
    role u = USER →
    handle_request env self (mkRequest (h ++ [u])) [] = (Ok answer, ev) →
    conversation self P (h ++ [u; reply_message answer ev]) (T ++ ev).

(** ** A sample conversation of two turns *)

(** The history after the second turn of the sample conversation. *)
Definition sample_conversation_history : list Message :=
  sample_history ++ [sample_followup; reply_message sample_answer sample_second_events].

(** An environment whose agent creates a conversation and then refuses the
    chat call. *)
Definition chat_fails_env : Env :=
  scripted_env
    (Ok [Some (decision_text "UMS")])
    (Ok (mkStream [mkChunk [Some "ok"]] None))
    (Ok (mkHttpResponse 200 (created_body "c1")))
    (Raise TransportError)
    (Raise APIError).

(** ** Runs of the session *)

Lemma chat_ids_app (t1 t2 : Trace) : chat_ids (t1 ++ t2) = chat_ids t1 ++ chat_ids t2.
Proof. unfold chat_ids. by rewrite ums_chat_calls_app, fmap_app. Qed.

(** What holds of every run of the session: one creation call and one
    state update when the session has an id and none otherwise, and every
    chat call under the id of the session. *)
Lemma session_run_spec (ep : string) (T : Trace) (s : option JSON) :
  session_run ep T s →
  ums_create_calls T = (λ _, ep) <$> option_list s ∧
  set_states T = conversation_state <$> option_list s ∧
  ∀ c, c ∈ chat_ids T → s = Some c.
Proof.
  induction 1 as [|T s ev s' _ (IHc & IHs & IHi) Hstep].
  { split_and!; [done..|]. by intros c ?%elem_of_nil. }
  rewrite ums_create_calls_app, set_states_app, chat_ids_app, IHc, IHs.
  destruct Hstep as [s ev Hc Hs Hi|cid ev Hc Hs Hi|cid ev Hc Hs Hi];
    rewrite Hc, Hs, Hi, ?app_nil_r; simpl; (split_and!; [done..|]).
  - done.
  - intros c [Hin| ->%list_elem_of_singleton]%elem_of_app; [|done].
    by discriminate (IHi c Hin).
  - intros c [Hin| ->%list_elem_of_singleton]%elem_of_app; auto.
Qed.

(** ** A turn is a step of the session *)

Section Turn.
Context (env : Env) (self : MASCoordinator).
Implicit Types (h : list Message) (ev : Trace).

Lemma turn_session_step h u answer ev :
  Forall state_shaped h → single_session h → role u = USER →
  handle_request env self (mkRequest (h ++ [u])) [] = (Ok answer, ev) →
  session_step (coordinator_ums_agent_endpoint self)
    (session_of h) ev (session_of (h ++ [u; reply_message answer ev])).
Proof.
  intros Hs Hss Hu Hr. unfold session_of. rewrite (carriers_turn _ _ _ _ Hu).
  destruct (handle_request_Ok_inv _ _ _ _ _ _ Hr) as (cr & _ & _ & Hc & _).
  pose proof (turn_state _ _ _ _ _ _ _ Hc Hr) as Ht.
  destruct (handle_request_gateway_run _ _ _ _ _ _ _ Hc Hr)
    as (past' & rg & evg & Hg & Hok & _ & Hchat & _).
  specialize (Hok eq_refl). destruct rg as [msg|]; [clear Hok|done].
  rewrite carried_reply. unfold choice_state.
  destruct (agent_name cr) eqn:Ha.
  - destruct Ht as [Hst Hcr]. rewrite Hst. simpl. rewrite app_nil_r.
    rewrite (handle_coordination_request_GPA _ _ _ _ _ Ha) in Hg.
    apply gpa_response_gpa_events in Hg.
    apply session_stutter; [done..|].
    unfold chat_ids. by rewrite Hchat, (gpa_events_ums_chat_calls _ _ Hg).
  - rewrite (handle_coordination_request_UMS _ _ _ _ _ Ha) in Hg.
    apply response_Ok_inv in Hg as (found & cid & m & Hf & Hid & _ & Hcalls).
    assert (chat_ids ev = [cid]) as Hids by (unfold chat_ids; by rewrite Hchat, Hcalls).
    rewrite (lookup_turn _ _ Hs Hu) in Ht, Hf. injection Hf as <-.
    destruct Hss as [Hn|(v & Hv & Hnn)]; [rewrite Hn in *|rewrite Hv in *];
      simpl in Ht, Hid.
    + unfold ums_gateway in Ht. rewrite Hid in Ht. destruct Ht as [Hcr Hst].
      rewrite Hst. simpl. by apply session_create.
    + rewrite Hnn in Ht, Hid. destruct Ht as [Hst Hcr]. injection Hid as <-.
      rewrite Hst. simpl. by apply session_resume.
Qed.

End Turn.

(** ** Conversations are runs of the session *)

Section Conversation.
Context (self : MASCoordinator).

(** The histories of [conversation] are the reachable ones. *)
Lemma conversation_reachable P h T :
  conversation self P h T → reachable_history self P h.
Proof. induction 1; econstructor; eauto. Qed.

(** The conversations of the coordinator implement the session: the
    events of the turns are a run of the session that ends in the id the
    history carries. *)
Lemma conversation_session_run h T :
  conversation self (ids_not_null self) h T →
  session_run (coordinator_ums_agent_endpoint self) T (session_of h).
Proof.
  induction 1 as [|env h T u answer ev Hh IH Hp Hu Hr]; [constructor|].
  pose proof (conversation_reachable _ _ _ Hh) as Hrh.
  eapply session_run_step; [exact IH|].
  apply (turn_session_step env); [|exact (reachable_single_session _ _ Hrh)|done..].
  exact (reachable_history_shaped _ _ _ Hrh).
Qed.

(** C16: over a whole conversation made of turns that returned
    (the caller keeps nothing of a turn that raised), whatever agents its
    turns were routed to and as long as the agent never issues [null] as an
    id: at most one conversation is created on the agent, the calls that
    created one are as many as the ids the history carries, the state is
    set on the choice once, with the created id, and every chat call of
    every turn carries that id. *)
Theorem conversation_one_session h T :
  conversation self (ids_not_null self) h T →
  length (ums_create_calls T) = length (carriers h) ∧
  length (carriers h) ≤ 1 ∧
  set_states T = conversation_state <$> carriers h ∧
  ∀ c, c ∈ chat_ids T → carriers h = [c].
Proof.
  intros Hc.
  destruct (session_run_spec _ _ _ (conversation_session_run _ _ Hc)) as (Hn & Hs & Hi).
  apply conversation_reachable, reachable_single_session in Hc.
  assert (carriers h = option_list (session_of h)) as Hl
    by (unfold session_of; by destruct Hc as [->|(v & -> & _)]).
  rewrite Hn, Hs, Hl, !length_fmap. split_and!; [done| |done|].
  - destruct (session_of h); simpl; lia.
  - by intros c ->%Hi.
Qed.

End Conversation.

(** ** The theorem at the sample conversation *)

Lemma sample_conversation :
  conversation sample_coordinator (ids_not_null sample_coordinator)
    sample_conversation_history (([] ++ sample_events) ++ sample_second_events).
Proof.
  apply (conversation_turn _ _ sample_env sample_history);
    [|apply sample_env_ids_not_null|done|by vm_compute].
  apply (conversation_turn _ _ sample_env [] [] sample_user sample_answer);
    [constructor|apply sample_env_ids_not_null|done|by vm_compute].
Qed.

Lemma conversation_one_session_witness :
  length (ums_create_calls (sample_events ++ sample_second_events)) =
    length (carriers sample_conversation_history) ∧
  length (carriers sample_conversation_history) ≤ 1 ∧
  set_states (sample_events ++ sample_second_events) =
    conversation_state <$> carriers sample_conversation_history ∧
  ∀ c, c ∈ chat_ids (sample_events ++ sample_second_events) →
       carriers sample_conversation_history = [c].
Proof.
  apply (conversation_one_session sample_coordinator sample_conversation_history
           (([] ++ sample_events) ++ sample_second_events)).
  apply sample_conversation.
Defined.

(** The two turns of the sample create one conversation and send both
    messages to it. *)
Lemma sample_conversation_calls :
  ums_create_calls (sample_events ++ sample_second_events) = ["http://ums"] ∧
  chat_ids (sample_events ++ sample_second_events) = [JString "c1"; JString "c1"].
Proof. by vm_compute. Qed.

(** A run that raises after the conversation was created: the id was set
    on the choice, the caller receives the error, and the history is the
    one before the turn, on which the next attempt creates a conversation
    again. *)
Lemma failed_turn_creates :
  let '(r, ev) := handle_request chat_fails_env sample_coordinator sample_request [] in
  r = Raise TransportError ∧
  ums_create_calls ev = ["http://ums"] ∧
  set_states ev = [conversation_state (JString "c1")] ∧
  ums_create_calls sample_events = ["http://ums"].
Proof. by vm_compute. Qed.
