(* ===== verification/Wire.v ===== *)
(** * Wire: the requests sent to the stateful agent

    [Ums] records a call of the stateful agent as an event that carries the
    endpoint, the conversation id and the message.  This file writes out
    what [src/task/coordination/ums_agent.py] sends for it: the address of
    the creation call ([create_url]), the address of the chat call, an
    f-string over the conversation id ([chat_url]), and the body of the
    chat call ([chat_payload]).

    The id is formatted with [str]: [py_str] gives its text for strings,
    [None], booleans and integers, and nothing for floats and containers,
    whose [repr] is not modelled.  The source does not check the id the
    agent issued, so an id of [null] is sent as the path segment [None]
    ([null_id_address]).

    A request carries the [timeout] argument its client was made with:
    the client of the chat call is made with 120 seconds, the client of
    the creation call without the argument, so the creation runs under
    the default of the library ([http_calls_timeout]).

    The lemmas show that the address determines the text of the id
    ([chat_url_inj]) and that a peer which decodes the compact JSON text of
    the body reads the message it was sent, whatever characters it holds
    ([chat_payload_content]). *)

From Stdlib Require Import String Ascii ZArith List Lia Bool.
From stdpp Require Import base tactics option list strings.
From S2P Require Import Prelude Json JsonParse JsonPrint Effects Ums Coordinator Session.

(** ** Definitions *)

(** The address of the creation call. *)
Definition create_url (self : UMSAgentGateway) : string :=
  ums_agent_endpoint self +:+ "/conversations".

(** [str(v)] as an f-string writes it, for the values whose text is
    modelled: a string is itself, [None] and the booleans are their names,
    an integer is its decimal digits.  The [repr] of a float and of a
    container is not modelled. *)
Definition py_str (v : JSON) : option string :=
  match v with
  | JString s => Some s
  | JNull => Some "None"
  | JBool b => Some (if b then "True" else "False")
  | JNum (PInt z) => Some (encode_Z z)
  | _ => None
  end.

(** The address of the chat call. *)
Definition chat_url (self : UMSAgentGateway) (conversation_id : JSON) : option string :=
  s ← py_str conversation_id;
  Some (ums_agent_endpoint self +:+ "/conversations/" +:+ s +:+ "/chat").

(** The body of the chat call. *)
Definition chat_payload (user_message : string) : JSON :=
  JObject [("message", JObject [("role", JString "user");
                                ("content", JString user_message)]);
           ("stream", JBool true)].

(** What the agent reads of a body: the content of the message, when the
    body is the JSON text of an object that holds one. *)
Definition payload_content (body : string) : Result JSON :=
  data ← json_loads body;
  message ← py_getitem_str data "message";
  py_getitem_str message "content".

(** [timeout=120.0], the argument of the client of the chat call, in
    seconds. *)
Definition chat_timeout : Z := 120.

(** A request as it leaves the process: the method, the address, the body
    when there is one, and the [timeout] argument its client was made with,
    in seconds, when it was given one. *)
Record HttpCall : Type := mkHttpCall {
  call_method : string;
  call_url : option string;
  call_json : option JSON;
  call_timeout : option Z
}.

(** [client.post] on a client made without arguments. *)
Definition create_call (self : UMSAgentGateway) : HttpCall :=
  mkHttpCall "POST" (Some (create_url self)) None None.

(** [client.stream("POST", ...)] on a client made with the timeout. *)
Definition chat_call (self : UMSAgentGateway) (conversation_id : JSON)
    (user_message : string) : HttpCall :=
  mkHttpCall "POST" (chat_url self conversation_id)
    (Some (chat_payload user_message)) (Some chat_timeout).

(** The request an event stands for. *)
Definition http_call (e : Event) : option HttpCall :=
  match e with
  | EvUmsCreate ep => Some (create_call (mkUMSAgentGateway ep))
  | EvUmsChat ep cid msg => Some (chat_call (mkUMSAgentGateway ep) cid msg)
  | _ => None
  end.

(** The requests to the stateful agent in a trace, in order. *)
Definition http_calls (tr : Trace) : list HttpCall := omap http_call tr.

(** ** Lemmas *)

Lemma str_app_inv_tail (s1 s2 t : string) : s1 +:+ t = s2 +:+ t → s1 = s2.
Proof.
  revert s2. induction s1 as [|c s1 IH]; intros [|c2 s2];
    rewrite ?str_app_cons, ?str_app_nil_l; intros H; try done.
  - apply (f_equal String.length) in H. simpl in H. rewrite str_app_length in H. lia.
  - apply (f_equal String.length) in H. simpl in H. rewrite str_app_length in H. lia.
  - injection H as -> H. f_equal. by apply IH.
Qed.

Section Wire.
Context (self : UMSAgentGateway).

(** The agent reads the message it was sent, whatever characters it holds. *)
Lemma chat_payload_roundtrip (user_message : string) :
  json_loads (json_encode (chat_payload user_message)) = Ok (chat_payload user_message).
Proof. by apply json_loads_encode. Qed.

Lemma chat_payload_content (user_message : string) :
  payload_content (json_encode (chat_payload user_message)) = Ok (JString user_message).
Proof. unfold payload_content. by rewrite chat_payload_roundtrip. Qed.

(** Two ids with the same address have the same text. *)
Lemma chat_url_inj (c1 c2 : JSON) (u : string) :
  chat_url self c1 = Some u → chat_url self c2 = Some u → py_str c1 = py_str c2.
Proof.
  unfold chat_url. destruct (py_str c1) as [s1|], (py_str c2) as [s2|]; simpl; try done.
  intros [= <-] [= H]. f_equal.
  apply String.app_inj, String.app_inj in H. symmetry. by eapply str_app_inv_tail.
Qed.

Lemma chat_url_string_inj (s1 s2 : string) :
  chat_url self (JString s1) = chat_url self (JString s2) → s1 = s2.
Proof.
  intros H. assert (py_str (JString s1) = py_str (JString s2)) as [= ->]; [|done].
  by eapply chat_url_inj.
Qed.

End Wire.

Lemma http_calls_app (t1 t2 : Trace) : http_calls (t1 ++ t2) = http_calls t1 ++ http_calls t2.
Proof. apply omap_app. Qed.

(** The timeout bounds the chat calls only: of the requests of a trace,
    those with a body, the chat calls, were sent by a client made with the
    timeout, and those without, the creations, by a client made without. *)
Lemma http_calls_timeout (tr : Trace) :
  Forall (λ c, call_timeout c = (_ ← call_json c; Some chat_timeout)) (http_calls tr).
Proof.
  induction tr as [|e tr IH]; [constructor|].
  unfold http_calls in *. destruct e; cbn; try done; by constructor.
Qed.

(** ** Samples *)

(** The requests of the two turns of the sample conversation: one
    creation, then a chat call per turn at the address of the conversation
    created. *)
Lemma sample_http_calls :
  http_calls (sample_events ++ sample_second_events) =
  [mkHttpCall "POST" (Some "http://ums/conversations") None None;
   mkHttpCall "POST" (Some "http://ums/conversations/c1/chat")
     (Some (chat_payload "create user Alice")) (Some 120%Z);
   mkHttpCall "POST" (Some "http://ums/conversations/c1/chat")
     (Some (chat_payload "rename her to Alicia")) (Some 120%Z)].
Proof. by vm_compute. Qed.

(** An id of [null] issued by the agent is sent as the segment [None]. *)
Lemma null_id_address :
  call_url <$> http_calls null_id_events =
  [Some "http://ums/conversations"; Some "http://ums/conversations/None/chat"].
Proof. by vm_compute. Qed.
