(* ===== verification/Dial.v ===== *)
(** * Dial: the requests sent to the model

    [Coordinator] records a call of the model as an event that carries the
    deployment and the messages.  This file writes out what
    [src/task/agent.py] hands to the client for it: the client of a run,
    made from the endpoint of the coordinator and a fixed API version
    ([dial_client], line 76), and the arguments of the two calls of
    [client.chat.completions.create]: the routing call, which is not
    streamed and asks for an answer that fits the schema of the decision
    ([routing_completion], lines 115 to 130), and the synthesis call, which
    is streamed and asks for no format ([synthesis_completion], lines 234
    to 238).

    The schema is [CoordinationRequest.model_json_schema()]; the class is
    defined in [task/models.py], which is not part of the repository, so
    the schema is a parameter here.  What the client does with the
    arguments (the address it calls, headers, retries) is the library's.

    The lemmas give the requests of a run in order: a run that returns
    made these two requests and no other ([handle_request_completions]);
    every run made the routing request first and at most one other
    ([handle_request_first_completion]). *)

From Stdlib Require Import String Ascii ZArith List Lia Bool.
From stdpp Require Import base tactics option list strings.
From S2P Require Import Prelude Json Effects Prompts Adapter Ums Gateway Coordinator.

(** ** Definitions *)

(** [AsyncDial(base_url=..., api_version=...)]. *)
Record AsyncDial : Type := mkAsyncDial {
  base_url : string;
  api_version : string
}.

(** The keyword arguments of [client.chat.completions.create], with the
    client they are handed to; [stream] is false when it is not given. *)
Record Completion : Type := mkCompletion {
  completion_client : AsyncDial;
  completion_model : string;
  completion_messages : list LLMMessage;
  completion_extra_body : option JSON;
  completion_stream : bool
}.

(** The client of a run. *)
Definition dial_client (self : MASCoordinator) : AsyncDial :=
  mkAsyncDial (endpoint self) "2025-01-01-preview".

(** [extra_body] of the routing call: the response format that names the
    schema. *)
Definition routing_extra_body (schema : JSON) : JSON :=
  JObject
    [("response_format",
      JObject [("type", JString "json_schema");
               ("json_schema",
                JObject [("name", JString "response"); ("schema", schema)])])].

(** The routing call. *)
Definition routing_completion (self : MASCoordinator) (schema : JSON)
    (request : Request) : Completion :=
  mkCompletion (dial_client self) (deployment_name self)
    (prepare_messages request COORDINATION_REQUEST_SYSTEM_PROMPT)
    (Some (routing_extra_body schema)) false.

(** The synthesis call. *)
Definition synthesis_completion (self : MASCoordinator) (request : Request)
    (agent_message : Message) : Completion :=
  mkCompletion (dial_client self) (deployment_name self)
    (synthesis_messages request agent_message) None true.

(** The request an event stands for, made by the coordinator [self]. *)
Definition completion_of (self : MASCoordinator) (schema : JSON) (e : Event)
    : option Completion :=
  match e with
  | EvLLMComplete model msgs =>
      Some (mkCompletion (dial_client self) model msgs
              (Some (routing_extra_body schema)) false)
  | EvLLMStream model msgs =>
      Some (mkCompletion (dial_client self) model msgs None true)
  | _ => None
  end.

(** The requests to the model in a trace, in order. *)
Definition completions (self : MASCoordinator) (schema : JSON) (tr : Trace)
    : list Completion :=
  omap (completion_of self schema) tr.

(** ** Lemmas *)

Section Dial.
Context (env : Env) (self : MASCoordinator) (schema : JSON).

Lemma completions_app (t1 t2 : Trace) :
  completions self schema (t1 ++ t2) =
  completions self schema t1 ++ completions self schema t2.
Proof. apply omap_app. Qed.

Lemma completions_cons (e : Event) (tr : Trace) :
  completions self schema (e :: tr) =
  match completion_of self schema e with
  | Some c => c :: completions self schema tr
  | None => completions self schema tr
  end.
Proof. unfold completions. cbn. by destruct (completion_of self schema e). Qed.

(** A gateway sends nothing to the model. *)
Lemma gateway_completions stage (ev : Trace) :
  forallb (gateway_event stage) ev = true → completions self schema ev = [].
Proof. gateway_induction ev. Qed.

Lemma choice_appends_completions (fs : list string) :
  completions self schema (map EvChoiceAppend fs) = [].
Proof. unfold completions. by apply omap_map_None. Qed.

(** A run that returns made two requests to the model: the routing call
    on the history under the coordination prompt, then the synthesis call
    on the history with the text the stage of the agent received, both
    with the client of the coordinator and for its deployment. *)
Lemma handle_request_completions request past m ev :
  handle_request env self request past = (Ok m, ev) →
  completions self schema ev =
  [routing_completion self schema request;
   synthesis_completion self request
     (assistant_message (stage_text (S (n_stages past)) ev))].
Proof.
  intros (cr & evg & fs & _ & Hev & _ & ->)%handle_request_Ok_inv.
  destruct (success_trace_views _ self request cr _ fs Hev) as (_ & _ & _ & _ & _ & ->).
  unfold success_trace. rewrite !completions_app.
  by rewrite (gateway_completions _ _ Hev), choice_appends_completions.
Qed.

(** Every run made the routing request first, and at most one request
    after it. *)
Lemma handle_request_first_completion request past :
  ∃ rest, completions self schema (handle_request env self request past).2 =
            routing_completion self schema request :: rest ∧ length rest ≤ 1.
Proof.
  handle_request_cases Hc Hg; cbn [snd];
    try pose proof (handle_coordination_request_events _ _ _ _ _ _ _ _ Hg) as Hev;
    rewrite ?completions_app, ?(gateway_completions _ _ Hev), ?completions_cons;
    cbn [completion_of app]; rewrite ?choice_appends_completions;
    (eexists; split; [reflexivity|cbn; lia]).
Qed.

End Dial.

(** ** Sample *)

(** The two requests of the sample run. *)
Lemma sample_completions (schema : JSON) :
  completions sample_coordinator schema sample_events =
  [routing_completion sample_coordinator schema sample_request;
   synthesis_completion sample_coordinator sample_request
     (assistant_message (stage_text 1 sample_events))].
Proof.
  apply (handle_request_completions sample_env sample_coordinator schema
           sample_request [] sample_answer). by vm_compute.
Qed.
