(* ===== verification/Liveness.v ===== *)
(** * Liveness: a run whose peers send what they should returns

    The handler waits for its peers: the model for the decision and for the
    synthesis, the agent for its answer.  [well_behaved] describes the
    peers by what they send: the model the JSON text of a decision, the
    stateful agent a status of success with the JSON text of an id for a
    creation and with content chunks, lines of metadata and the terminator
    for a chat, the stateless agent and the synthesis a stream that ends
    without fault.  On a history that is not empty and whose states are
    objects or null, a run with such peers returns
    ([well_behaved_run_returns]).  The proof reads the texts with the
    decoder: it uses the round trip of [JsonPrint], the stream lemmas of
    [Stream] and the lookup lemmas of [Session].

    [responsive] is the same condition stated on what the program reads
    (the decision, the id, the result of the stream); it is what the proof
    goes through ([well_behaved_responsive]), and under it every
    configuration of the phase machine that a run can reach leads on to
    Done ([responsive_run_reaches_done]). *)

From Stdlib Require Import String Ascii ZArith List Lia Bool.
From stdpp Require Import base tactics option list strings relations.
From S2P Require Import Prelude Json JsonParse JsonPrint Effects Prompts Adapter Ums Stream Gateway Coordinator Session.

(** ** Environments that answer *)

Definition status_ok (st : Z) : Prop := (200 ≤ st ≤ 299)%Z.

(** A chat response that is accepted and whose lines are read to an end:
    to the terminator, or to the last line of a stream without fault. *)
Definition chat_completes (resp : ChatResponse) : Prop :=
  status_ok (chat_status resp) ∧
  is_Ok (sse_result "" (sse_run (items (chat_lines resp)))
           (fault (chat_lines resp))) = true.

(** The stateful agent answers a run on [request] with the instructions
    [instr]: the history can be searched and has a last message, a
    conversation is created when the history carries none, and the chat
    call of the run, under the id found or created and with the text of
    the last message, is accepted and read to an end. *)
Definition ums_answers (env : Env) (self : MASCoordinator) (request : Request)
    (instr : option string) : Prop :=
  ∃ found m cid resp,
    get_ums_conversation_id request = Ok found ∧ last_message request = Ok m ∧
    (if is_None found then created_id env (ums_gateway self) else Ok found) = Ok cid ∧
    ums_chat env (coordinator_ums_agent_endpoint self) cid
      (augment_user_content m instr) = Ok resp ∧
    chat_completes resp.

(** The stateless agent answers with a stream that ends without fault. *)
Definition gpa_answers (env : Env) (self : MASCoordinator) (request : Request)
    (instr : option string) : Prop :=
  ∃ stream, gpa_stream env (endpoint self) request instr = Ok stream ∧
            fault stream = None.

Definition agent_answers (env : Env) (self : MASCoordinator) (request : Request)
    (cr : CoordinationRequest) : Prop :=
  match agent_name cr with
  | UMS => ums_answers env self request (additional_instructions cr)
  | GPA => gpa_answers env self request (additional_instructions cr)
  end.

(** The services answer the requests of a run on [request]: the model
    returns a decision, the agent it names answers, and the synthesis
    stream ends without fault. *)
Record responsive (env : Env) (self : MASCoordinator) (request : Request) : Prop := {
  responsive_decision : ∃ cr, classify env self request = Ok cr;
  responsive_agent :
    ∀ cr, classify env self request = Ok cr → agent_answers env self request cr;
  responsive_synthesis :
    ∀ msgs, ∃ stream,
      llm_stream env (deployment_name self) msgs = Ok stream ∧
      fault stream = None
}.

(** The text a peer answers a creation request with. *)
Definition created_text (cid : JSON) : string := json_encode (JObject [("id", cid)]).

(** A value the agent sends on a line of the chat stream: a content chunk,
    or an object of metadata, which has no choices. *)
Definition agent_value (v : JSON) : Prop :=
  (∃ s, v = chunk_json s) ∨
  (∃ kvs, v = JObject kvs ∧ dict_get "choices" kvs = None ∧
          json_wf v = true ∧ json_small v = true).

(** What the stateful agent sends, as texts: an id in answer to a creation
    request, and content chunks and metadata up to the terminator in answer
    to a chat request, each with a status of success. *)
Definition ums_sends (env : Env) (self : MASCoordinator) : Prop :=
  (∃ st cid,
     ums_create env (coordinator_ums_agent_endpoint self) =
       Ok (mkHttpResponse st (created_text cid)) ∧
     status_ok st ∧ json_wf cid = true ∧ json_small (JObject [("id", cid)]) = true) ∧
  ∀ cid msg, ∃ st vs rest flt,
    ums_chat env (coordinator_ums_agent_endpoint self) cid msg =
      Ok (mkChatResponse st (mkStream (map data_line vs ++ done_line :: rest) flt)) ∧
    status_ok st ∧ Forall agent_value vs.

(** A request the gateway can serve: its history has a last message, and
    the state of each assistant message is an object or null. *)
Definition request_ok (request : Request) : Prop :=
  messages request ≠ [] ∧ Forall state_shaped (messages request).

(** What the peers send, as texts: the model the text of a decision, the
    agent it names its answers, the synthesis a stream without fault. *)
Definition well_behaved (env : Env) (self : MASCoordinator) (request : Request)
    : Prop :=
  (∃ cr rest,
     llm_complete env (deployment_name self)
       (prepare_messages request COORDINATION_REQUEST_SYSTEM_PROMPT) =
     Ok (Some (json_encode (decision_json cr)) :: rest) ∧
     match agent_name cr with
     | UMS => ums_sends env self
     | GPA => gpa_answers env self request (additional_instructions cr)
     end) ∧
  ∀ msgs, ∃ stream,
    llm_stream env (deployment_name self) msgs = Ok stream ∧ fault stream = None.

(** ** A sample whose texts need escaping *)

(** An environment whose model asks for the stateful agent with
    instructions that hold quotes and a line feed, and whose agent answers
    with fragments that hold a quote, a line feed and a backslash, then the
    terminator and a line that is not read. *)
Definition quoting_fragments : list string := [q "Alice"; LF; "\ done"; ""].

Definition quoting_env : Env :=
  scripted_env
    (Ok [Some (json_encode
                 (decision_json (mkCoordinationRequest UMS (Some (q "x" +:+ LF)))))])
    (Ok (mkStream [mkChunk [Some "ok"]] None))
    (Ok (mkHttpResponse 201 (created_text (JString "c 1"))))
    (Ok (mkChatResponse 200
           (mkStream (map (λ s, data_line (chunk_json s)) quoting_fragments
                        ++ [done_line; "not read"]) None)))
    (Raise APIError).

(** ** From texts to answers *)

Lemma response_json_encode v :
  json_wf v = true → json_small v = true → response_json (json_encode v) = Ok v.
Proof.
  intros Hwf Hsm. unfold response_json.
  destruct (strip_prefix BOM (json_encode v)) as [r|] eqn:Hs.
  - exfalso. destruct (json_encode_starts v) as (c & s' & Hc & Hv).
    rewrite Hc in Hs. by destruct c as [[] [] [] [] [] [] [] []].
  - by apply json_loads_encode.
Qed.

Section Liveness.
Context (env : Env) (self : MASCoordinator) (request : Request).
Implicit Types (past : Trace).

Lemma phase_trans_deterministic past c c1 c2 :
  phase_trans env self request past c c1 →
  phase_trans env self request past c c2 → c1 = c2.
Proof. intros H1 H2. inv H1. inv H2. congruence. Qed.

Lemma phase_trans_Done past m ev c :
  ¬ phase_trans env self request past (Done m, ev) c.
Proof. intros H. inv H. simpl in *. lia. Qed.

(** A successful run of the handler is a path of the phase machine from
    Idle to Done. *)
Lemma handle_request_path past m ev :
  handle_request env self request past = (Ok m, ev) →
  nsteps (phase_trans env self request past) 4 (Idle, []) (Done m, ev).
Proof.
  rewrite (handle_request_phases env self request past).
  intros (cr & ev1 & ev' & Hr & (msg & ev2 & ev3 & Hd & Hf & ->)%run_bind_Ok_inv & ->)
    %run_bind_Ok_inv.
  rewrite (app_assoc ev1), <- (app_nil_r ((ev1 ++ ev2) ++ ev3)).
  eapply nsteps_l; [|eapply nsteps_l; [|eapply nsteps_l; [|eapply nsteps_l;
    [|apply nsteps_O]]]].
  - apply (phase_trans_step _ _ _ _ Idle (Routing cr) [] ev1); [simpl; lia|].
    simpl. unfold mbind, M_bind, bind. rewrite app_nil_r, Hr. simpl.
    by rewrite app_nil_r.
  - simpl. apply (phase_trans_step _ _ _ _ (Routing cr) (Delegating msg) ev1 ev2);
      [simpl; lia|].
    simpl. unfold mbind, M_bind, bind. rewrite Hd. simpl. by rewrite app_nil_r.
  - apply (phase_trans_step _ _ _ _ (Delegating msg) (Synthesizing m) _ ev3);
      [simpl; lia|].
    simpl. unfold mbind, M_bind, bind. rewrite app_assoc, Hf. simpl.
    by rewrite app_nil_r.
  - by apply (phase_trans_step _ _ _ _ (Synthesizing m) (Done m) _ []); [simpl; lia|].
Qed.

Lemma created_id_created_text st cid :
  ums_create env (coordinator_ums_agent_endpoint self) =
    Ok (mkHttpResponse st (created_text cid)) →
  status_ok st → json_wf cid = true → json_small (JObject [("id", cid)]) = true →
  created_id env (ums_gateway self) = Ok cid.
Proof.
  intros Hc Hst Hwf Hsm. unfold created_id, ums_gateway. simpl. rewrite Hc. simpl.
  rewrite (proj2 (raise_for_status_Ok st) Hst). simpl.
  unfold created_text. rewrite response_json_encode; [done| |done].
  simpl. by rewrite Hwf.
Qed.

Lemma agent_value_ok v : agent_value v → value_ok v.
Proof.
  intros [[s ->]|(kvs & -> & Hk & Hwf & Hsm)]; [apply chunk_json_ok|].
  split_and!; [done..|].
  unfold chunk_fragment, py_contains, dict_mem. by rewrite Hk.
Qed.

Lemma request_ok_served :
  request_ok request →
  ∃ found m, get_ums_conversation_id request = Ok found ∧ last_message request = Ok m.
Proof.
  intros [Hne Hsh]. unfold get_ums_conversation_id, last_message.
  rewrite (get_ums_conversation_id_from_carriers _ Hsh).
  destruct (last (messages request)) as [m|] eqn:Hl; [by eexists _, _|].
  by apply last_None in Hl.
Qed.

Lemma ums_sends_answers instr :
  request_ok request → ums_sends env self → ums_answers env self request instr.
Proof.
  intros (found & m & Hf & Hm)%request_ok_served
    ((st & cid & Hc & Hst & Hwf & Hsm) & Hchat).
  pose proof (created_id_created_text _ _ Hc Hst Hwf Hsm) as Hid.
  set (cid' := if is_None found then cid else found).
  destruct (Hchat cid' (augment_user_content m instr))
    as (st' & vs & rest & flt & Hch & Hst' & Hvs).
  exists found, m, cid'. eexists.
  split; [done|]. split; [done|]. split; [unfold cid'; by destruct (is_None found)|].
  split; [exact Hch|]. split; [done|].
  pose proof (Forall_impl _ _ _ Hvs agent_value_ok) as Hok.
  simpl. rewrite (sse_run_stop _ _ _ line_action_done), (sse_run_values _ Hok).
  unfold sse_result. simpl. by destruct flt.
Qed.

(** Peers that send what they should are peers that answer. *)
Lemma well_behaved_responsive :
  request_ok request → well_behaved env self request → responsive env self request.
Proof.
  intros Hreq [(cr & rest & Hd & Ha) Hs].
  assert (classify env self request = Ok cr) as Hcr.
  { unfold classify. rewrite Hd. unfold mbind, Result_bind.
    destruct (decision_json_encodable cr) as [Hwf Hsm].
    apply decision_of_choices_accepts. by apply json_loads_encode. }
  split; [by exists cr| |done].
  intros cr' Hcr'. rewrite Hcr in Hcr'. injection Hcr' as <-.
  unfold agent_answers. destruct (agent_name cr); [done|].
  by apply ums_sends_answers.
Qed.

Section Runs.
Context (Hresp : responsive env self request).

Lemma ums_answers_call cid msg resp stage past :
  ums_chat env (coordinator_ums_agent_endpoint self) cid msg = Ok resp →
  chat_completes resp →
  ∃ text ev, call_ums_agent env (ums_gateway self) cid msg stage past = (Ok text, ev).
Proof.
  intros Hc [Hst Hok].
  rewrite call_ums_agent_run. unfold ums_gateway. simpl. rewrite Hc. simpl.
  rewrite (proj2 (raise_for_status_Ok _) Hst). simpl.
  destruct (sse_result _ _ _); [eauto|done].
Qed.

Lemma ums_answers_response instr stage past :
  ums_answers env self request instr →
  ∃ m ev, response env (ums_gateway self) stage request instr past = (Ok m, ev).
Proof.
  intros (found & m & cid & resp & Hf & Hm & Hid & Hc & Hok).
  rewrite response_run, Hf, Hm, Hid. cbv zeta.
  destruct (ums_answers_call cid _ resp stage past Hc Hok) as (text & ev & ->).
  simpl. eauto.
Qed.

Lemma agent_answers_gateway cr stage past :
  agent_answers env self request cr →
  ∃ m ev, handle_coordination_request env self cr stage request past = (Ok m, ev).
Proof.
  unfold agent_answers. destruct (agent_name cr) eqn:Ha.
  - intros (stream & Hs & Hf). rewrite (handle_coordination_request_GPA _ _ _ _ _ Ha).
    rewrite gpa_response_run. simpl. rewrite Hs, Hf. eauto.
  - intros Hu. rewrite (handle_coordination_request_UMS _ _ _ _ _ Ha).
    by apply ums_answers_response.
Qed.

Lemma responsive_final_response m past :
  ∃ final ev, final_response env self request m past = (Ok final, ev).
Proof.
  destruct (responsive_synthesis _ _ _ Hresp (synthesis_messages request m))
    as (stream & Hs & Hf).
  rewrite final_response_run. cbv zeta. rewrite Hs, Hf. eauto.
Qed.

Lemma responsive_handle_request past :
  ∃ m ev, handle_request env self request past = (Ok m, ev).
Proof.
  destruct (responsive_decision _ _ _ Hresp) as [cr Hcr].
  rewrite handle_request_run, Hcr. cbv zeta.
  pose proof (responsive_agent _ _ _ Hresp cr Hcr) as Ha.
  match goal with |- context [handle_coordination_request ?e ?s ?c ?n ?r ?p] =>
    destruct (agent_answers_gateway c n p Ha) as (msg & evg & ->) end.
  match goal with |- context [final_response ?e ?s ?r ?m ?p] =>
    destruct (responsive_final_response m p) as (final & ev3 & ->) end.
  eauto.
Qed.

(** In an environment that answers, the handler returns, and every
    configuration that the phase machine can reach from Idle leads on to
    Done with the handler's message and events: no run gets stuck on the
    way. *)
Lemma responsive_run_reaches_done past c :
  rtc (phase_trans env self request past) (Idle, []) c →
  ∃ m ev, handle_request env self request past = (Ok m, ev) ∧
          rtc (phase_trans env self request past) c (Done m, ev).
Proof.
  intros Hc. destruct (responsive_handle_request past) as (m & ev & Hr).
  exists m, ev. split; [done|].
  eapply rtc_deterministic_final; [apply phase_trans_deterministic| |
    eapply rtc_nsteps_2, handle_request_path, Hr|done].
  apply phase_trans_Done.
Qed.

End Runs.

(** C15: a run whose peers send what they should returns.  When the
    history is not empty and the state of each of its assistant messages
    is an object or null, the model answers with the JSON text of a
    decision, the agent the decision names answers (the stateful agent
    with a status of success and the JSON text of an id for a creation,
    and with content chunks, metadata and the terminator for a chat; the
    stateless agent with a stream that ends without fault), and the
    synthesis stream ends without fault, then [handle_request] returns a
    message, whatever was recorded before the run. *)
Theorem well_behaved_run_returns past :
  request_ok request → well_behaved env self request →
  ∃ m ev, handle_request env self request past = (Ok m, ev).
Proof.
  intros Hreq Hwb. by apply responsive_handle_request, well_behaved_responsive.
Qed.

End Liveness.

Lemma sample_env_responsive : responsive sample_env sample_coordinator sample_request.
Proof.
  split.
  - by eexists.
  - intros cr [= <-]. eexists _, _, _, _. split_and!; [done..|by vm_compute|done].
  - intros msgs. by eexists.
Qed.

Lemma quoting_env_well_behaved :
  well_behaved quoting_env sample_coordinator sample_request.
Proof.
  split; [|intros msgs; by eexists].
  eexists _, _. split; [done|]. simpl. split_and!.
  - eexists _, _. by split_and!.
  - intros cid msg. exists 200%Z, (map chunk_json quoting_fragments), ["not read"], None.
    split_and!; [done|done|]. apply Forall_map, Forall_true. intros s. left. by exists s.
Qed.

(** The fragments of [quoting_env] reach the stage as they were sent. *)
Lemma quoting_env_stage_text :
  stage_text 1
    (handle_request quoting_env sample_coordinator sample_request []).2 =
  str_concat quoting_fragments.
Proof. by vm_compute. Qed.

(** ** The theorems at the sample runs *)

Lemma responsive_run_reaches_done_sample :
  ∃ m ev,
    handle_request sample_env sample_coordinator sample_request [] = (Ok m, ev) ∧
    rtc (phase_trans sample_env sample_coordinator sample_request [])
      (Idle, []) (Done m, ev).
Proof.
  apply (responsive_run_reaches_done sample_env sample_coordinator sample_request
           sample_env_responsive [] (Idle, [])).
  apply rtc_refl.
Qed.

Lemma well_behaved_run_returns_witness :
  ∃ m ev, handle_request quoting_env sample_coordinator sample_request [] = (Ok m, ev).
Proof.
  apply (well_behaved_run_returns quoting_env sample_coordinator sample_request []).
  - split; [done|]. by constructor; [apply state_shaped_user|constructor].
  - apply quoting_env_well_behaved.
Defined.
