(* ===== verification/Agent.v ===== *)
(** * Agent: the coordinator and the stateful agent together

    The specification gives the protocol of the stateful agent:
    [POST /conversations] answers with a new id, and
    [POST /conversations/{id}/chat] takes a message for the conversation
    under that id and answers with a stream of content chunks.  This file
    holds such an agent and runs the coordinator against it.

    - [UmsAgent] is the class of agents: how the next id is chosen, which
      is not in use ([issue_fresh]), and what is answered to a
      conversation.  The store of the agent is a finite map from ids to
      the messages of each conversation.
    - [agent_create] and [agent_chat] are the two operations.  A chat
      under an id that names no conversation is answered with 404.
    - [agent_serves] runs the calls of a trace against the store: the
      answers the environment of the run gave must be the agent's.
    - [system] is the coordinator and the agent together: from a store
      [st0], any number of turns, each a run of [handle_request] on the
      history the caller holds, served by the agent.  The caller keeps
      the reply of a run that returned and nothing of one that raised
      ([turn_history]).

    The theorems are about every state of the system, by induction on its
    turns with the invariant [system_inv]:

    - [system_session_record]: conversations that existed before are
      untouched; the id the history carries names a conversation created
      since, which holds exactly the messages sent under it; any other
      conversation created since holds one message, left by a turn that
      raised after creating it;
    - [system_chat_accepted]: every chat call is addressed to a
      conversation the agent holds, so it is accepted;
    - [system_turn_returns]: when the model answers, the turn returns;
    - [serving_env_serves]: every state of the system can take a turn;
    - [system_size]: the agent holds one conversation more for every
      creation request, and a turn makes one such request at most
      ([system_turn_creations]).

    The answer of a chat is given as its lines; they are the lines the
    HTTP library cuts from the body an agent writes line by line
    ([answer_lines_body], with [Frame]).

    The network is reliable in this model: a request reaches the agent
    and its answer reaches the coordinator. *)

From Stdlib Require Import String Ascii ZArith List Lia Bool.
From stdpp Require Import base tactics option list strings gmap.
From S2P Require Import Prelude Json JsonParse JsonPrint Effects Prompts Adapter Ums Stream Frame Gateway Coordinator Session Conversation Wire Liveness.

(** ** The agent *)

(** The conversations of the agent: under each id the messages it was
    sent, oldest first. *)
Abbreviation Store := (gmap string (list string)).

(** An agent: the id it gives the next conversation, which is not in use,
    and the fragments it answers with to the messages of a conversation,
    the new one last. *)
Class UmsAgent : Type := {
  issue : Store → string;
  answer : list string → list string;
  issue_fresh : ∀ st, st !! issue st = None
}.

#[export] Instance HttpResponse_eq_dec : EqDecision HttpResponse.
Proof. solve_decision. Defined.

#[export] Instance Stream_eq_dec `{EqDecision A} : EqDecision (Stream A).
Proof. solve_decision. Defined.

#[export] Instance ChatResponse_eq_dec : EqDecision ChatResponse.
Proof. solve_decision. Defined.

(** A request to the agent. *)
Inductive AgentCall : Type :=
| CreateCall (endpoint : string)
| ChatCall (endpoint : string) (conversation_id : JSON) (user_message : string).

#[export] Instance AgentCall_eq_dec : EqDecision AgentCall.
Proof. solve_decision. Defined.

Definition agent_call (e : Event) : option AgentCall :=
  match e with
  | EvUmsCreate ep => Some (CreateCall ep)
  | EvUmsChat ep cid msg => Some (ChatCall ep cid msg)
  | _ => None
  end.

(** The requests to the agent in a trace, in order. *)
Definition agent_calls (tr : Trace) : list AgentCall := omap agent_call tr.

(** The messages sent to the conversation [k]. *)
Definition sent_to (k : string) (calls : list AgentCall) : list string :=
  omap (λ c, match c with
             | ChatCall _ cid msg =>
                 if decide (py_str cid = Some k) then Some msg else None
             | CreateCall _ => None
             end) calls.

(** The number of creation requests among the calls. *)
Definition is_create (c : AgentCall) : bool :=
  match c with CreateCall _ => true | ChatCall _ _ _ => false end.

Definition creations (calls : list AgentCall) : nat :=
  length (filter (λ c, is_create c = true) calls).

Section Agent.
Context `{UmsAgent}.

(** [POST /conversations]: a new conversation under a new id. *)
Definition agent_create (st : Store) : Store * HttpResponse :=
  (<[issue st := []]> st,
   mkHttpResponse 200 (created_text (JString (issue st)))).

(** The lines of a chat answer: a content chunk per fragment, then the
    terminator. *)
Definition answer_lines (fragments : list string) : list string :=
  map (λ s, data_line (chunk_json s)) fragments ++ [done_line].

(** The chat answer that carries [fragments]. *)
Definition chat_ok (fragments : list string) : ChatResponse :=
  mkChatResponse 200 (mkStream (answer_lines fragments) None).

(** [POST /conversations/{k}/chat]: the message is added to the
    conversation and answered; an id that names no conversation is
    answered with 404. *)
Definition agent_chat (st : Store) (k : string) (msg : string)
    : Store * ChatResponse :=
  match st !! k with
  | Some msgs =>
      (<[k := msgs ++ [msg]]> st, chat_ok (answer (msgs ++ [msg])))
  | None => (st, mkChatResponse 404 (mkStream [] None))
  end.

(** A call served: the answer the environment gave is the agent's, and
    the store after it.  A chat call is addressed by the text of its id. *)
Definition agent_step (env : Env) (st : Store) (c : AgentCall) : option Store :=
  match c with
  | CreateCall ep =>
      let '(st', resp) := agent_create st in
      if decide (ums_create env ep = Ok resp) then Some st' else None
  | ChatCall ep cid msg =>
      k ← py_str cid;
      let '(st', resp) := agent_chat st k msg in
      if decide (ums_chat env ep cid msg = Ok resp) then Some st' else None
  end.

(** The calls of a run served in order. *)
Fixpoint agent_serves (env : Env) (st : Store) (calls : list AgentCall)
    : option Store :=
  match calls with
  | [] => Some st
  | c :: calls' => st' ← agent_step env st c; agent_serves env st' calls'
  end.

(** The id in the state that was set last, if any. *)
Definition state_id (states : list JSON) : option JSON :=
  s ← last states;
  match s with
  | JObject kvs => dict_get _UMS_CONVERSATION_ID kvs
  | _ => None
  end.

(** The history after a turn: the caller keeps the reply of a run that
    returned, and nothing of a run that raised. *)
Definition turn_history (h : list Message) (u : Message) (r : Result Message)
    (ev : Trace) : list Message :=
  match r with
  | Ok answer => h ++ [u; reply_message answer ev]
  | Raise _ => h
  end.

(** The coordinator and the agent together, from the store [st0]: the
    store, the history and the events after any number of turns. *)
Inductive system (self : MASCoordinator) (st0 : Store)
    : Store → list Message → Trace → Prop :=
| system_start : system self st0 st0 [] []
| system_turn (env : Env) (st st' : Store) (h : list Message) (T : Trace)
    (u : Message) (r : Result Message) (ev : Trace) :
    system self st0 st h T →
    role u = USER →
    handle_request env self (mkRequest (h ++ [u])) [] = (r, ev) →
    agent_serves env st (agent_calls ev) = Some st' →
    system self st0 st' (turn_history h u r ev) (T ++ ev).

(** What a turn does at the agent, by the decision and by what the history
    carries: no call; a creation of a conversation and a chat under its
    id; a chat under the id the history carries.  Each chat is answered to
    the conversation so far. *)
Inductive turn_case (env : Env) (self : MASCoordinator) (st : Store)
    (h : list Message) (u : Message) (ev : Trace) (st' : Store) : Prop :=
| turn_idle :
    (∀ cr, classify env self (mkRequest (h ++ [u])) = Ok cr → agent_name cr = GPA) →
    agent_calls ev = [] → set_states ev = [] → st' = st →
    turn_case env self st h u ev st'
| turn_create (cr : CoordinationRequest) :
    let ep := coordinator_ums_agent_endpoint self in
    let msg := augment_user_content u (additional_instructions cr) in
    classify env self (mkRequest (h ++ [u])) = Ok cr → agent_name cr = UMS →
    carriers h = [] →
    created_id env (ums_gateway self) = Ok (JString (issue st)) →
    ums_chat env ep (JString (issue st)) msg = Ok (chat_ok (answer [msg])) →
    agent_calls ev = [CreateCall ep; ChatCall ep (JString (issue st)) msg] →
    set_states ev = [conversation_state (JString (issue st))] →
    st' = <[issue st := [msg]]> st →
    turn_case env self st h u ev st'
| turn_resume (cr : CoordinationRequest) (k : string) (msgs : list string) :
    let ep := coordinator_ums_agent_endpoint self in
    let msg := augment_user_content u (additional_instructions cr) in
    classify env self (mkRequest (h ++ [u])) = Ok cr → agent_name cr = UMS →
    carriers h = [JString k] → st !! k = Some msgs →
    ums_chat env ep (JString k) msg = Ok (chat_ok (answer (msgs ++ [msg]))) →
    agent_calls ev = [ChatCall ep (JString k) msg] →
    set_states ev = [] →
    st' = <[k := msgs ++ [msg]]> st →
    turn_case env self st h u ev st'.

(** What holds of the store, the history and the events of the system: the
    id the history carries names a conversation that was created since
    [st0]; the conversations of [st0] are as they were and were sent
    nothing; every other conversation holds exactly the messages sent to
    it, and nothing was sent to an id that names no conversation; a
    conversation created since [st0] that the history does not carry was
    sent one message. *)
Record system_inv (st0 st : Store) (h : list Message) (T : Trace) : Prop := {
  inv_shaped : Forall state_shaped h;
  inv_session :
    carriers h = [] ∨
    ∃ k msgs, carriers h = [JString k] ∧ st !! k = Some msgs ∧ st0 !! k = None;
  inv_frame :
    ∀ k, is_Some (st0 !! k) →
         st !! k = st0 !! k ∧ sent_to k (agent_calls T) = [];
  inv_record :
    ∀ k, st0 !! k = None → default [] (st !! k) = sent_to k (agent_calls T);
  inv_orphans :
    ∀ k msgs, st0 !! k = None → st !! k = Some msgs →
              carriers h = [JString k] ∨ length msgs = 1
}.

(** The environment of a run that starts at the store [st]: the model and
    the other agent answer as scripted, and the stateful agent answers as
    it does at [st], or, to a chat under an id that [st] does not hold, as
    it does after the creation of a conversation. *)
Definition serving_env (decision : Result (list (option string)))
    (final gpa : Result (Stream Chunk)) (st : Store) : Env :=
  mkEnv (λ _ _, decision) (λ _ _, final)
    (λ _, Ok (agent_create st).2)
    (λ _ cid msg,
       match py_str cid with
       | Some k =>
           Ok (agent_chat (match st !! k with
                           | Some _ => st
                           | None => (agent_create st).1
                           end) k msg).2
       | None => Raise TransportError
       end)
    (λ _ _ _, gpa).

End Agent.

(** ** A sample agent and two turns with it *)

(** The agent that numbers its conversations by a name not in use and
    answers with the last message it was sent. *)
Definition echo_agent : UmsAgent :=
  {| issue := λ st, fresh (dom st);
     answer := λ msgs, ["Done: "; default "" (last msgs)];
     issue_fresh := λ st, proj1 (not_elem_of_dom st _) (is_fresh (dom st)) |}.

(** The environment of a turn with the echo agent: the model chooses the
    stateful agent and the synthesis ends as given. *)
Definition echo_env (final : Result (Stream Chunk)) (st : Store) : Env :=
  @serving_env echo_agent (Ok [Some (decision_text "UMS")]) final (Raise APIError) st.

Definition echo_final : Result (Stream Chunk) := Ok (mkStream [mkChunk [Some "ok"]] None).

(** A first turn that returns, and a second on its history. *)
Definition echo_store1 : Store := <["0" := ["create user Alice"]]> ∅.

Definition echo_events1 : Trace :=
  Eval vm_compute in
    (handle_request (echo_env echo_final ∅) sample_coordinator
       (mkRequest ([] ++ [sample_user])) []).2.

Definition echo_history1 : list Message :=
  turn_history [] sample_user (Ok (assistant_message "ok")) echo_events1.

Definition echo_store2 : Store :=
  <["0" := ["create user Alice"; "rename her to Alicia"]]> ∅.

Definition echo_events2 : Trace :=
  Eval vm_compute in
    (handle_request (echo_env echo_final echo_store1) sample_coordinator
       (mkRequest (echo_history1 ++ [sample_followup])) []).2.

Definition echo_history2 : list Message :=
  turn_history echo_history1 sample_followup (Ok (assistant_message "ok")) echo_events2.

(** A first turn whose synthesis fails, and a second attempt. *)
Definition echo_failed_events : Trace :=
  Eval vm_compute in
    (handle_request (echo_env (Raise APIError) ∅) sample_coordinator
       (mkRequest ([] ++ [sample_user])) []).2.

Definition echo_retry_store : Store :=
  <["1" := ["create user Alice"]]> echo_store1.

Definition echo_retry_events : Trace :=
  Eval vm_compute in
    (handle_request (echo_env echo_final echo_store1) sample_coordinator
       (mkRequest ([] ++ [sample_user])) []).2.

(** ** The calls of a run *)

Lemma agent_calls_app (t1 t2 : Trace) :
  agent_calls (t1 ++ t2) = agent_calls t1 ++ agent_calls t2.
Proof. apply omap_app. Qed.

Lemma agent_calls_stage_appends (sid : Stage) (fs : list string) :
  agent_calls (map (EvStageAppend sid) fs) = [].
Proof. unfold agent_calls. by apply omap_map_None. Qed.

Lemma agent_calls_choice_appends (fs : list string) :
  agent_calls (map EvChoiceAppend fs) = [].
Proof. unfold agent_calls. by apply omap_map_None. Qed.

Lemma agent_calls_gpa stage (ev : Trace) :
  forallb (gpa_event stage) ev = true → agent_calls ev = [].
Proof.
  induction ev as [|e ev IH]; [done|]. cbn [forallb].
  intros [He Hl]%andb_true_iff. specialize (IH Hl). by destruct e.
Qed.

Lemma creations_app calls1 calls2 :
  creations (calls1 ++ calls2) = creations calls1 + creations calls2.
Proof. unfold creations. by rewrite filter_app, length_app. Qed.

Lemma creations_cons c calls :
  creations (c :: calls) = (if is_create c then 1 else 0) + creations calls.
Proof.
  unfold creations. destruct c; [by rewrite filter_cons_True|by rewrite filter_cons_False].
Qed.

Lemma sent_to_app k (c1 c2 : list AgentCall) :
  sent_to k (c1 ++ c2) = sent_to k c1 ++ sent_to k c2.
Proof. apply omap_app. Qed.

(** The ids of the chat calls, from the calls. *)
Lemma chat_ids_agent_calls (tr : Trace) :
  chat_ids tr =
  omap (λ c, match c with ChatCall _ cid _ => Some cid | _ => None end)
    (agent_calls tr).
Proof.
  induction tr as [|e tr IH]; [done|].
  destruct e; try exact IH. cbn. f_equal. exact IH.
Qed.

Section Calls.
Context (env : Env).

(** The calls of the stateful gateway: a creation call when the history
    carries no id, then the chat call when an id was found or created and
    the history has a last message. *)
Lemma response_agent_calls self stage request instr past :
  agent_calls (response env self stage request instr past).2 =
  match get_ums_conversation_id request with
  | Raise _ => []
  | Ok found =>
      (if is_None found then [CreateCall (ums_agent_endpoint self)] else []) ++
      match (if is_None found then created_id env self else Ok found),
            last_message request with
      | Ok cid, Ok m =>
          [ChatCall (ums_agent_endpoint self) cid (augment_user_content m instr)]
      | _, _ => []
      end
  end.
Proof.
  rewrite response_run.
  destruct (get_ums_conversation_id request) as [found|e]; [|done]. cbv zeta.
  destruct (if is_None found then _ else _) as [cid|e] eqn:Hid;
    [|by destruct (is_None found)].
  destruct (last_message request) as [m|e]; [|by destruct (is_None found)].
  destruct (call_ums_agent _ _ _ _ _ _) as [r' ev'] eqn:Hc.
  destruct (call_ums_agent_events _ _ _ _ _ _ _ _ Hc) as [fs ->].
  simpl. rewrite agent_calls_app. simpl. rewrite agent_calls_stage_appends.
  by destruct (is_None found).
Qed.

(** The calls of a run are those of its gateway. *)
Lemma handle_request_agent_calls self request past :
  agent_calls (handle_request env self request past).2 =
  match classify env self request with
  | Raise _ => []
  | Ok cr =>
      match agent_name cr with
      | GPA => []
      | UMS => agent_calls
                 (response env (ums_gateway self) (S (n_stages past)) request
                    (additional_instructions cr) []).2
      end
  end.
Proof.
  handle_request_cases Hc Hg; simpl; rewrite ?agent_calls_app; simpl;
    rewrite ?agent_calls_app, ?agent_calls_choice_appends, ?app_nil_r; [..|done].
  all: destruct (agent_name cr) eqn:Ha.
  all: try (rewrite (handle_coordination_request_GPA _ _ _ _ _ Ha) in Hg;
            apply gpa_response_gpa_events in Hg; by rewrite (agent_calls_gpa _ _ Hg)).
  all: rewrite (handle_coordination_request_UMS _ _ _ _ _ Ha) in Hg.
  all: apply (f_equal snd) in Hg; simpl in Hg; rewrite <- Hg.
  all: unfold ums_gateway; by rewrite !response_agent_calls.
Qed.

End Calls.

(** ** A turn of the system *)

Lemma last_message_turn (h : list Message) (u : Message) :
  last_message (mkRequest (h ++ [u])) = Ok u.
Proof. unfold last_message. simpl. by rewrite last_snoc. Qed.

(** What the caller keeps of a turn: the id in the state the run set last,
    when the run returned. *)
Lemma carriers_turn_history (h : list Message) (u : Message) (r : Result Message)
    (ev : Trace) :
  role u = USER →
  carriers (turn_history h u r ev) =
  carriers h ++ (if is_Ok r then option_list (state_id (set_states ev)) else []).
Proof.
  intros Hu. destruct r as [answer|e]; simpl; [|by rewrite app_nil_r].
  rewrite (carriers_turn _ _ _ _ Hu), carried_reply. unfold choice_state, state_id.
  by destruct (last (set_states ev)) as [[]|].
Qed.

Lemma carriers_no_state {A} (r : Result A) (l : list JSON) :
  l ++ (if is_Ok r then option_list (state_id []) else []) = l.
Proof. destruct r; apply app_nil_r. Qed.

Lemma state_id_conversation_state (cid : JSON) :
  state_id [conversation_state cid] = Some cid.
Proof. reflexivity. Qed.

Section Turn.
Context `{UmsAgent} (env : Env) (self : MASCoordinator).
Implicit Types (st : Store) (h : list Message) (ev : Trace).

Lemma system_turn_cases st st' h u r ev :
  Forall state_shaped h → role u = USER →
  (carriers h = [] ∨ ∃ k msgs, carriers h = [JString k] ∧ st !! k = Some msgs) →
  handle_request env self (mkRequest (h ++ [u])) [] = (r, ev) →
  agent_serves env st (agent_calls ev) = Some st' →
  turn_case env self st h u ev st'.
Proof.
  intros Hs Hu Hsess Hr Hsv.
  pose proof (handle_request_agent_calls env self (mkRequest (h ++ [u])) []) as Hcalls.
  rewrite Hr in Hcalls. simpl in Hcalls.
  destruct (classify env self (mkRequest (h ++ [u]))) as [cr|e] eqn:Hc.
  2:{ rewrite Hcalls in Hsv. injection Hsv as <-.
      apply turn_idle; [by rewrite Hc|done| |done].
      revert Hr. rewrite handle_request_run, Hc. by intros [= _ <-]. }
  pose proof (turn_state _ _ _ _ _ _ _ Hc Hr) as Ht.
  destruct (agent_name cr) eqn:Ha.
  { rewrite Hcalls in Hsv. injection Hsv as <-. destruct Ht.
    apply turn_idle; [|done..]. rewrite Hc. by intros ? [= <-]. }
  rewrite response_agent_calls, last_message_turn in Hcalls.
  rewrite (lookup_turn _ _ Hs Hu) in Hcalls, Ht.
  destruct Hsess as [Hn|(k & msgs & Hk & Hst)]; rewrite ?Hn, ?Hk in Hcalls, Ht;
    simpl in Hcalls, Ht; rewrite Hcalls in Hsv.
  - simpl in Hsv. case_decide as Hcr; [|done].
    assert (created_id env (ums_gateway self) = Ok (JString (issue st))) as Hid
      by (by eapply created_id_created_text).
    rewrite Hid in Hcalls, Hsv, Ht. simpl in Hsv.
    unfold agent_chat in Hsv. rewrite lookup_insert_eq in Hsv.
    case_decide as Hch; [|done]. injection Hsv as <-. rewrite insert_insert_eq.
    destruct Ht as [_ Ht]. by eapply turn_create.
  - simpl in Hsv. unfold agent_chat in Hsv. rewrite Hst in Hsv.
    case_decide as Hch; [|done]. injection Hsv as <-. destruct Ht as [Ht _].
    by eapply turn_resume.
Qed.

End Turn.

(** ** The agent's side *)

Lemma sent_to_create k ep (calls : list AgentCall) :
  sent_to k (CreateCall ep :: calls) = sent_to k calls.
Proof. reflexivity. Qed.

Lemma sent_to_chat k ep k' msg :
  sent_to k [ChatCall ep (JString k') msg] = if decide (k' = k) then [msg] else [].
Proof.
  unfold sent_to. simpl. destruct (decide (k' = k)) as [->|Hne].
  - by rewrite decide_True.
  - rewrite decide_False; [done|]. by intros [= ?].
Qed.

(** The lines of an answer are read to the terminator, and give the
    fragments that are not empty. *)
Lemma sse_run_answer_lines (fs : list string) :
  sse_run (answer_lines fs) = (filter (λ s, str_truthy s = true) fs, Stopped).
Proof.
  unfold answer_lines. rewrite <- (map_map chunk_json data_line).
  rewrite (sse_run_stop _ _ _ line_action_done), sse_run_values.
  - by rewrite omap_value_fragment_chunks.
  - apply Forall_map, Forall_true. apply chunk_json_ok.
Qed.

(** The lines of a chat answer are the lines of its body: an agent that
    writes its answer line by line sends the stream of [chat_ok]. *)
Lemma answer_lines_body eol fragments :
  line_end eol → Forall (λ s, narrow s = true) fragments →
  splitlines (body_text eol 0 (answer_lines fragments)) = answer_lines fragments.
Proof.
  intros He Hfs. by apply (splitlines_body_text _ _ He), chunk_lines_unbroken.
Qed.

Lemma chat_ok_completes (fs : list string) : chat_completes (chat_ok fs).
Proof.
  split; [unfold status_ok; simpl; lia|]. simpl. by rewrite sse_run_answer_lines.
Qed.

(** ** The invariant of the system *)

Section Invariant.
Context `{UmsAgent} (st0 : Store).
Implicit Types (st : Store) (h : list Message) (T ev : Trace).

Lemma system_inv_start : system_inv st0 st0 [] [].
Proof.
  split; [done|by left|done| |].
  - intros k Hk. by rewrite Hk.
  - intros k msgs Hk. by rewrite Hk.
Qed.

(** The id the history carries names a conversation of the store. *)
Lemma system_inv_session st h T :
  system_inv st0 st h T →
  carriers h = [] ∨ ∃ k msgs, carriers h = [JString k] ∧ st !! k = Some msgs.
Proof. intros [_ [?|(k & msgs & ? & ? & ?)] _ _ _]; eauto. Qed.

(** An id in use is not the next one, and was not in the first store if
    it was issued since. *)
Lemma issue_not_held st h T k :
  system_inv st0 st h T → is_Some (st0 !! k) → issue st ≠ k.
Proof.
  intros Hinv Hk <-. destruct (inv_frame _ _ _ _ Hinv _ Hk) as [Hf _].
  rewrite issue_fresh in Hf. rewrite <- Hf in Hk. by destruct Hk.
Qed.

(** A turn without a call. *)
Lemma system_inv_idle st h h' T ev :
  system_inv st0 st h T → Forall state_shaped h' → carriers h' = carriers h →
  agent_calls ev = [] →
  system_inv st0 st h' (T ++ ev).
Proof.
  intros [Hs Hsess Hfr Hrec Horph] Hs' Hc Hcalls.
  split; rewrite ?Hc, ?agent_calls_app, ?Hcalls, ?app_nil_r; done.
Qed.

(** A turn that creates a conversation and sends it a message. *)
Lemma system_inv_create st h h' T ev ep msg :
  system_inv st0 st h T → Forall state_shaped h' → carriers h = [] →
  carriers h' = [] ∨ carriers h' = [JString (issue st)] →
  agent_calls ev = [CreateCall ep; ChatCall ep (JString (issue st)) msg] →
  system_inv st0 (<[issue st := [msg]]> st) h' (T ++ ev).
Proof.
  intros Hinv Hs' Hn Hc' Hcalls. pose proof Hinv as [Hs Hsess Hfr Hrec Horph].
  split; [done|..]; rewrite ?agent_calls_app, ?Hcalls, ?sent_to_app.
  - destruct Hc' as [?|Hc']; [by left|right].
    exists (issue st), [msg]. rewrite lookup_insert_eq. split_and!; [done..|].
    destruct (st0 !! issue st) eqn:E; [|done].
    by destruct (issue_not_held st h T (issue st) Hinv).
  - intros k Hk. destruct (Hfr k Hk) as [Hf Hse].
    pose proof (issue_not_held _ _ _ _ Hinv Hk) as Hne.
    rewrite lookup_insert_ne by done. split; [done|].
    intros. by rewrite sent_to_app, Hse, sent_to_create, sent_to_chat, decide_False.
  - intros k Hk. rewrite sent_to_app, <- (Hrec k Hk), sent_to_create, sent_to_chat.
    destruct (decide (issue st = k)) as [<-|Hne].
    + by rewrite lookup_insert_eq, issue_fresh.
    + by rewrite lookup_insert_ne, app_nil_r.
  - intros k l H0 Hl. destruct (decide (issue st = k)) as [<-|Hne].
    + rewrite lookup_insert_eq in Hl. injection Hl as <-. by right.
    + rewrite lookup_insert_ne in Hl by done.
      destruct (Horph k l H0 Hl) as [Hk|?]; [by rewrite Hn in Hk|by right].
Qed.

(** A turn that sends a message to the conversation the history carries. *)
Lemma system_inv_resume st h h' T ev ep k msgs msg :
  system_inv st0 st h T → Forall state_shaped h' →
  carriers h = [JString k] → carriers h' = carriers h → st !! k = Some msgs →
  agent_calls ev = [ChatCall ep (JString k) msg] →
  system_inv st0 (<[k := msgs ++ [msg]]> st) h' (T ++ ev).
Proof.
  intros [Hs Hsess Hfr Hrec Horph] Hs' Hk Hc' Hl Hcalls.
  destruct Hsess as [Hn|(k' & msgs' & Hk' & _ & H0)]; [by rewrite Hk in Hn|].
  rewrite Hk in Hk'. injection Hk' as <-.
  split; [done|..]; rewrite ?Hc', ?Hk, ?agent_calls_app, ?Hcalls.
  - right. exists k, (msgs ++ [msg]). by rewrite lookup_insert_eq.
  - intros k' Hk'. destruct (Hfr k' Hk') as [Hf Hse].
    assert (k ≠ k') as Hne by (intros <-; rewrite H0 in Hk'; by destruct Hk').
    rewrite lookup_insert_ne by done. split; [done|].
    by rewrite sent_to_app, Hse, sent_to_chat, decide_False.
  - intros k' Hk'. rewrite sent_to_app, <- (Hrec k' Hk'), sent_to_chat.
    destruct (decide (k = k')) as [<-|Hne].
    + by rewrite lookup_insert_eq, Hl.
    + by rewrite lookup_insert_ne, app_nil_r.
  - intros k' l H0' Hl'. destruct (decide (k = k')) as [<-|Hne]; [by left|].
    rewrite lookup_insert_ne in Hl' by done.
    destruct (Horph k' l H0' Hl') as [Hc''|?]; [|by right].
    rewrite Hk in Hc''. by injection Hc''.
Qed.

End Invariant.

Section System.
Context `{UmsAgent} (self : MASCoordinator) (st0 : Store).
Implicit Types (st : Store) (h : list Message) (T ev : Trace).

(** The history after a turn is well shaped. *)
Lemma turn_history_shaped env h u r ev :
  Forall state_shaped h → role u = USER →
  handle_request env self (mkRequest (h ++ [u])) [] = (r, ev) →
  Forall state_shaped (turn_history h u r ev).
Proof.
  intros Hs Hu Hr. destruct r as [answer|e]; [|done]. simpl.
  destruct (turn_carried _ _ _ _ _ _ Hs Hu Hr) as [Hsr _].
  apply Forall_app. split; [done|].
  constructor; [by apply state_shaped_user|]. by constructor.
Qed.

(** Every turn keeps the invariant. *)
Lemma system_inv_turn env st st' h T u r ev :
  system_inv st0 st h T → role u = USER →
  handle_request env self (mkRequest (h ++ [u])) [] = (r, ev) →
  agent_serves env st (agent_calls ev) = Some st' →
  system_inv st0 st' (turn_history h u r ev) (T ++ ev).
Proof.
  intros Hinv Hu Hr Hsv. pose proof (inv_shaped _ _ _ _ Hinv) as Hs.
  pose proof (turn_history_shaped _ _ _ _ _ Hs Hu Hr) as Hs'.
  pose proof (carriers_turn_history h u r ev Hu) as Hc'.
  destruct (system_turn_cases env self st st' h u r ev Hs Hu
              (system_inv_session _ _ _ _ Hinv) Hr Hsv)
    as [_ Hc Hst ->|cr ep msg _ _ Hn _ _ Hc Hst ->|cr k msgs ep msg _ _ Hk Hl _ Hc Hst ->];
    rewrite Hst, ?carriers_no_state, ?state_id_conversation_state in Hc'.
  - by eapply system_inv_idle.
  - eapply system_inv_create; [done..| |done]. rewrite Hc', Hn. destruct r; auto.
  - by eapply system_inv_resume.
Qed.

(** The invariant holds of every state of the system. *)
Lemma system_system_inv st h T : system self st0 st h T → system_inv st0 st h T.
Proof.
  induction 1; [apply system_inv_start|by eapply system_inv_turn].
Qed.

(** The agent holds one conversation more for every creation request: no
    request of the coordinator removes a conversation, and none is created
    without a request. *)
Lemma system_size st h T :
  system self st0 st h T → size st = size st0 + creations (agent_calls T).
Proof.
  induction 1 as [|env st st' h T u r ev Hsys IH Hu Hr Hsv]; [by rewrite Nat.add_0_r|].
  pose proof (system_system_inv _ _ _ Hsys) as Hinv.
  rewrite agent_calls_app, creations_app, Nat.add_assoc, <- IH.
  destruct (system_turn_cases env self st st' h u r ev (inv_shaped _ _ _ _ Hinv) Hu
              (system_inv_session _ _ _ _ Hinv) Hr Hsv)
    as [_ -> _ ->|cr ep msg _ _ _ _ _ -> _ ->|cr k msgs ep msg _ _ _ Hl _ -> _ ->].
  - by rewrite Nat.add_0_r.
  - rewrite map_size_insert_None, !creations_cons by apply issue_fresh. cbn. lia.
  - rewrite map_size_insert_Some, !creations_cons by done. cbn. lia.
Qed.

(** A turn makes one creation request at most. *)
Lemma system_turn_creations env st st' h T u r ev :
  system self st0 st h T → role u = USER →
  handle_request env self (mkRequest (h ++ [u])) [] = (r, ev) →
  agent_serves env st (agent_calls ev) = Some st' →
  creations (agent_calls ev) ≤ 1.
Proof.
  intros Hsys Hu Hr Hsv. pose proof (system_system_inv _ _ _ Hsys) as Hinv.
  by destruct (system_turn_cases env self st st' h u r ev (inv_shaped _ _ _ _ Hinv) Hu
                 (system_inv_session _ _ _ _ Hinv) Hr Hsv)
    as [_ -> _ _|cr ep msg _ _ _ _ _ -> _ _|cr k msgs ep msg _ _ _ _ _ -> _ _];
    rewrite ?creations_cons; cbn; lia.
Qed.

(** In a turn of the system the stateful agent answers the run. *)
Lemma system_turn_ums_answers env st st' h T u r ev cr :
  system self st0 st h T → role u = USER →
  handle_request env self (mkRequest (h ++ [u])) [] = (r, ev) →
  agent_serves env st (agent_calls ev) = Some st' →
  classify env self (mkRequest (h ++ [u])) = Ok cr → agent_name cr = UMS →
  ums_answers env self (mkRequest (h ++ [u])) (additional_instructions cr).
Proof.
  intros Hinv%system_system_inv Hu Hr Hsv Hcr Ha.
  pose proof (inv_shaped _ _ _ _ Hinv) as Hs.
  pose proof (lookup_turn _ _ Hs Hu) as Hl.
  destruct (system_turn_cases env self st st' h u r ev Hs Hu
              (system_inv_session _ _ _ _ Hinv) Hr Hsv)
    as [Hg _ _ _|cr' ep msg Hc _ Hn Hid Hch _ _ _|cr' k msgs ep msg Hc _ Hk _ Hch _ _ _].
  - by rewrite (Hg cr Hcr) in Ha.
  - rewrite Hcr in Hc. injection Hc as <-. rewrite Hn in Hl.
    eexists _, u, _, _. split_and!; [exact Hl|apply last_message_turn|exact Hid
                                  |exact Hch|apply chat_ok_completes].
  - rewrite Hcr in Hc. injection Hc as <-. rewrite Hk in Hl.
    eexists _, u, _, _. split_and!; [exact Hl|apply last_message_turn|done
                                  |exact Hch|apply chat_ok_completes].
Qed.

(** C17: the stateful agent never makes a turn fail.  In
    every turn of the system in which the model returns a decision, the
    other agent answers when it is the one chosen, and the synthesis
    stream ends without fault, the run returns: when the stateful agent is
    chosen, the conversation it is asked for exists, the call is accepted
    and its stream is read to the terminator. *)
Theorem system_turn_returns env st st' h T u r ev cr :
  system self st0 st h T → role u = USER →
  handle_request env self (mkRequest (h ++ [u])) [] = (r, ev) →
  agent_serves env st (agent_calls ev) = Some st' →
  classify env self (mkRequest (h ++ [u])) = Ok cr →
  (agent_name cr = GPA →
   gpa_answers env self (mkRequest (h ++ [u])) (additional_instructions cr)) →
  (∀ msgs, ∃ stream,
     llm_stream env (deployment_name self) msgs = Ok stream ∧ fault stream = None) →
  ∃ answer, r = Ok answer ∧
            system self st0 st' (h ++ [u; reply_message answer ev]) (T ++ ev).
Proof.
  intros Hsys Hu Hr Hsv Hcr Hgpa Hsyn.
  assert (responsive env self (mkRequest (h ++ [u]))) as Hresp.
  { split; [by exists cr| |done]. intros cr' Hcr'. rewrite Hcr in Hcr'.
    injection Hcr' as <-. unfold agent_answers.
    destruct (agent_name cr) eqn:Ha; [by apply Hgpa|].
    by eapply system_turn_ums_answers. }
  destruct (responsive_handle_request _ _ _ Hresp []) as (answer & ev' & Hr').
  rewrite Hr in Hr'. injection Hr' as -> ->. exists answer. split; [done|].
  by apply (system_turn self st0 env st st' h T u (Ok answer) ev').
Qed.

(** The system can take a turn from each of its states, whatever the
    message and whatever the model and the other agent do: in the
    environment of the store, the calls of the run are served. *)
Lemma serving_env_serves decision final gpa st h T u :
  system self st0 st h T → role u = USER →
  let env := serving_env decision final gpa st in
  is_Some (agent_serves env st
             (agent_calls (handle_request env self (mkRequest (h ++ [u])) []).2)).
Proof.
  intros [Hs Hsess _ _ _]%system_system_inv Hu env.
  rewrite handle_request_agent_calls.
  destruct (classify env self _) as [cr|e]; [|done].
  destruct (agent_name cr); [done|].
  rewrite response_agent_calls, last_message_turn, (lookup_turn _ _ Hs Hu).
  destruct Hsess as [->|(k & msgs & -> & Hl & _)]; simpl.
  - rewrite decide_True by done.
    rewrite (created_id_created_text env self 200 (JString (issue st))); [|done..].
    simpl. rewrite issue_fresh. simpl. unfold agent_chat.
    rewrite lookup_insert_eq. simpl. by rewrite decide_True.
  - rewrite Hl. unfold agent_chat. rewrite Hl. simpl. by rewrite decide_True.
Qed.

(** C11: the session at the agent.  In every state of the
    system, whatever the model decided in each turn and whether the turns
    returned or raised: the conversations the agent held before are as
    they were, and when the history carries an id, the id is a string that
    names a conversation created since, which holds exactly the messages
    the coordinator sent under that id, in the order of the turns; every
    other conversation created since holds one message, left by a turn
    that raised after it created the conversation. *)
Theorem system_session_record st h T :
  system self st0 st h T →
  (∀ k, is_Some (st0 !! k) → st !! k = st0 !! k) ∧
  (carriers h = [] ∨
   ∃ k, carriers h = [JString k] ∧ st0 !! k = None ∧
        st !! k = Some (sent_to k (agent_calls T))) ∧
  (∀ k msgs, st0 !! k = None → st !! k = Some msgs →
             carriers h = [JString k] ∨ ∃ m, msgs = [m]).
Proof.
  intros [Hs Hsess Hfr Hrec Horph]%system_system_inv. split_and!.
  - intros k Hk. by apply Hfr.
  - destruct Hsess as [?|(k & msgs & Hk & Hl & H0)]; [by left|right].
    exists k. split_and!; [done..|]. rewrite <- (Hrec k H0), Hl. done.
  - intros k msgs H0 Hl. destruct (Horph k msgs H0 Hl) as [?|Hlen]; [by left|right].
    destruct msgs as [|m [|]]; try done. by exists m.
Qed.

(** C18: no chat call is addressed to a conversation that
    the agent does not hold.  In every turn of the system, each chat call
    carries a string id under which the agent holds a conversation at that
    moment, so the agent accepts it, adds the message and answers to the
    conversation so far. *)
Theorem system_chat_accepted env st st' h T u r ev :
  system self st0 st h T → role u = USER →
  handle_request env self (mkRequest (h ++ [u])) [] = (r, ev) →
  agent_serves env st (agent_calls ev) = Some st' →
  ∀ ep cid msg, ChatCall ep cid msg ∈ agent_calls ev →
    ∃ k msgs, cid = JString k ∧ st' !! k = Some (msgs ++ [msg]) ∧
              ums_chat env ep cid msg = Ok (chat_ok (answer (msgs ++ [msg]))).
Proof.
  intros Hinv%system_system_inv Hu Hr Hsv ep cid msg Hin.
  destruct (system_turn_cases env self st st' h u r ev (inv_shaped _ _ _ _ Hinv) Hu
              (system_inv_session _ _ _ _ Hinv) Hr Hsv)
    as [_ Hc _ _|cr ep' m _ _ _ _ Hch Hc _ ->|cr k msgs ep' m _ _ _ _ Hch Hc _ ->];
    rewrite Hc in Hin.
  - by apply elem_of_nil in Hin.
  - apply elem_of_cons in Hin as [?|[= -> -> ->]%list_elem_of_singleton]; [done|].
    exists (issue st), []. by rewrite lookup_insert_eq.
  - apply list_elem_of_singleton in Hin as [= -> -> ->].
    exists k, msgs. by rewrite lookup_insert_eq.
Qed.

End System.

(** ** The theorems at the sample turns *)

Lemma echo_system1 :
  @system echo_agent sample_coordinator ∅ echo_store1 echo_history1 ([] ++ echo_events1).
Proof.
  apply (@system_turn echo_agent _ _ (echo_env echo_final ∅) ∅ echo_store1 []
           [] sample_user (Ok (assistant_message "ok")) echo_events1);
    [constructor|done|by vm_compute|by vm_compute].
Qed.

Lemma echo_system2 :
  @system echo_agent sample_coordinator ∅ echo_store2 echo_history2
    (([] ++ echo_events1) ++ echo_events2).
Proof.
  apply (@system_turn echo_agent _ _ (echo_env echo_final echo_store1) echo_store1
           echo_store2 echo_history1 _ sample_followup
           (Ok (assistant_message "ok")) echo_events2);
    [apply echo_system1|done|by vm_compute|by vm_compute].
Qed.

(** The failed turn leaves conversation [0] behind; the second attempt
    creates conversation [1], which the history then carries. *)
Lemma echo_system_retry :
  @system echo_agent sample_coordinator ∅ echo_retry_store
    (turn_history [] sample_user (Ok (assistant_message "ok")) echo_retry_events)
    (([] ++ echo_failed_events) ++ echo_retry_events).
Proof.
  apply (@system_turn echo_agent _ _ (echo_env echo_final echo_store1) echo_store1
           echo_retry_store (turn_history [] sample_user (Raise APIError)
                               echo_failed_events) _ sample_user
           (Ok (assistant_message "ok")) echo_retry_events);
    [|done|by vm_compute|by vm_compute].
  apply (@system_turn echo_agent _ _ (echo_env (Raise APIError) ∅) ∅ echo_store1 []
           [] sample_user (Raise APIError) echo_failed_events);
    [constructor|done|by vm_compute|by vm_compute].
Qed.

Lemma echo_retry_carries :
  carriers (turn_history [] sample_user (Ok (assistant_message "ok")) echo_retry_events)
    = [JString "1"] ∧
  echo_retry_store !! "0" = Some ["create user Alice"] ∧
  echo_retry_store !! "1" = Some ["create user Alice"].
Proof. by vm_compute. Qed.

Lemma system_session_record_witness :
  (∀ k, is_Some ((∅ : Store) !! k) → echo_store2 !! k = (∅ : Store) !! k) ∧
  (carriers echo_history2 = [] ∨
   ∃ k, carriers echo_history2 = [JString k] ∧ (∅ : Store) !! k = None ∧
        echo_store2 !! k =
          Some (sent_to k (agent_calls (([] ++ echo_events1) ++ echo_events2)))) ∧
  (∀ k msgs, (∅ : Store) !! k = None → echo_store2 !! k = Some msgs →
             carriers echo_history2 = [JString k] ∨ ∃ m, msgs = [m]).
Proof.
  apply (@system_session_record echo_agent sample_coordinator ∅ echo_store2
           echo_history2 (([] ++ echo_events1) ++ echo_events2)).
  apply echo_system2.
Defined.

Lemma system_chat_accepted_witness :
  ChatCall "http://ums" (JString "0") "rename her to Alicia" ∈ agent_calls echo_events2 ∧
  ∃ k msgs, JString "0" = JString k ∧
            echo_store2 !! k = Some (msgs ++ ["rename her to Alicia"]) ∧
            ums_chat (echo_env echo_final echo_store1) "http://ums" (JString "0")
                "rename her to Alicia" =
              Ok (@chat_ok (@answer echo_agent (msgs ++ ["rename her to Alicia"]))).
Proof.
  assert (Hin : ChatCall "http://ums" (JString "0") "rename her to Alicia"
                  ∈ agent_calls echo_events2) by (vm_compute; left).
  split; [exact Hin|].
  apply (@system_chat_accepted echo_agent sample_coordinator ∅
           (echo_env echo_final echo_store1) echo_store1 echo_store2 echo_history1
           ([] ++ echo_events1) sample_followup (Ok (assistant_message "ok"))
           echo_events2);
    [apply echo_system1|done|by vm_compute|by vm_compute|exact Hin].
Defined.

Lemma system_turn_returns_witness :
  ∃ answer, Ok (assistant_message "ok") = Ok answer ∧
    @system echo_agent sample_coordinator ∅ echo_store2
      (echo_history1 ++ [sample_followup; reply_message answer echo_events2])
      (([] ++ echo_events1) ++ echo_events2).
Proof.
  apply (@system_turn_returns echo_agent sample_coordinator ∅
           (echo_env echo_final echo_store1) echo_store1 echo_store2 echo_history1
           ([] ++ echo_events1) sample_followup (Ok (assistant_message "ok"))
           echo_events2 (mkCoordinationRequest UMS None));
    [apply echo_system1|done|by vm_compute|by vm_compute|by vm_compute|done|].
  intros msgs. by eexists.
Defined.
