(* ===== verification/Concurrent.v ===== *)
(** * Concurrent: turns served at the same time

    The server handles requests concurrently: the runs of [handle_request]
    for different requests interleave at their calls to the outside.  The
    runs share no state of the coordinator (each has its own choice, stages
    and gateway); what they share is the stateful agent.  This file takes
    any number of turns, of any conversations, whose calls to the agent
    arrive in any interleaving, each call served as a whole.

    - [serves_all] serves a sequence of calls, each with the environment of
      the run that makes it: the answer that run was given must be the
      answer of the agent at that moment.
    - [interleaving] is an interleaving of the calls of several runs, the
      calls of each run in their order.
    - [Pending] is a turn about to run: the environment of its run, the
      history its caller holds and the new message; [serial] serves the
      turns one after the other.
    - [DomIssue] is the class of agents that choose a new id by the ids in
      use.

    The theorem, [concurrent_turns_serializable]: whatever the
    interleaving, the agent ends with the conversations it would hold had
    it served the turns one after the other in some order, and every run
    was given the answers it would have been given in that order.  The
    proof moves the chat call of a run back to its creation call: a chat
    call is a left mover ([chat_moves_before]), because it touches one
    conversation, which no other run can name before this run has
    returned its id to its caller. *)

From Stdlib Require Import String Ascii ZArith List Lia Bool.
From stdpp Require Import base tactics option list strings gmap.
From S2P Require Import Prelude Json JsonParse JsonPrint Effects Prompts Adapter Ums Stream Gateway Coordinator Session Conversation Wire Liveness Agent.

(** An agent that chooses the id of a new conversation by the ids in use,
    whatever the conversations hold. *)
Class DomIssue (agent : UmsAgent) : Prop :=
  issue_dom : ∀ st1 st2 : Store, dom st1 = dom st2 → @issue agent st1 = @issue agent st2.

(** A call with the environment of the run that makes it. *)
Abbreviation RunCall := (Env * AgentCall)%type.

(** An interleaving of the runs: at each step the next call of one of
    them. *)
Inductive interleaving {A : Type} : list (list A) → list A → Prop :=
| interleaving_done runs : Forall (λ r, r = []) runs → interleaving runs []
| interleaving_step runs i x r l :
    runs !! i = Some (x :: r) → interleaving (<[i := r]> runs) l →
    interleaving runs (x :: l).

(** A turn about to run. *)
Record Pending : Type := mkPending {
  pending_env : Env;
  pending_history : list Message;
  pending_message : Message
}.

(** The conversation a call is addressed to is not [k]. *)
Definition foreign (k : string) (c : AgentCall) : Prop :=
  match c with
  | CreateCall _ => True
  | ChatCall _ cid _ => py_str cid ≠ Some k
  end.

Section Concurrent.
Context (agent : UmsAgent) `{!DomIssue agent} (self : MASCoordinator).

(** The calls served in order, each answered to the run that makes it. *)
Fixpoint serves_all (st : Store) (l : list RunCall) : option Store :=
  match l with
  | [] => Some st
  | c :: l' => st' ← agent_step c.1 st c.2; serves_all st' l'
  end.

Definition pending_calls (p : Pending) : list AgentCall :=
  agent_calls (handle_request (pending_env p) self
                 (mkRequest (pending_history p ++ [pending_message p])) []).2.

Definition pending_run (p : Pending) : list RunCall :=
  map (pair (pending_env p)) (pending_calls p).

(** The turns served one after the other. *)
Fixpoint serial (st : Store) (ps : list Pending) : option Store :=
  match ps with
  | [] => Some st
  | p :: ps' => st' ← agent_serves (pending_env p) st (pending_calls p); serial st' ps'
  end.

(** The history of a turn is one the system can reach with the store [st]:
    the id it carries, if any, names a conversation of [st]. *)
Definition pending_ok (st : Store) (p : Pending) : Prop :=
  Forall state_shaped (pending_history p) ∧ role (pending_message p) = USER ∧
  (carriers (pending_history p) = [] ∨
   ∃ k, carriers (pending_history p) = [JString k] ∧ is_Some (st !! k)).

(** The calls of a run: none; a chat under an id of [st]; a creation and,
    when it is answered with an id, a chat under that id. *)
Inductive run_shape (st : Store) : list RunCall → Prop :=
| shape_idle : run_shape st []
| shape_resume env k m :
    is_Some (st !! k) →
    run_shape st [(env, ChatCall (coordinator_ums_agent_endpoint self) (JString k) m)]
| shape_create env m :
    run_shape st
      ((env, CreateCall (coordinator_ums_agent_endpoint self)) ::
       match created_id env (ums_gateway self) with
       | Ok cid => [(env, ChatCall (coordinator_ums_agent_endpoint self) cid m)]
       | Raise _ => []
       end).

(** What is left of a run after its first call, served from [st] to [st1]:
    nothing, or a chat under an id that [st1] holds and [st] does not. *)
Definition late (st st1 : Store) (r : list RunCall) : Prop :=
  r = [] ∨ ∃ env ep k m, r = [(env, ChatCall ep (JString k) m)] ∧
                         st !! k = None ∧ is_Some (st1 !! k).

End Concurrent.

(** ** Two turns at the same time *)

(** Two first turns of two conversations with the sample agent.  The second
    run is answered as the agent answers once the first conversation
    exists. *)
Definition first_pending : Pending :=
  mkPending (echo_env echo_final ∅) [] sample_user.
Definition second_pending : Pending :=
  mkPending (echo_env echo_final echo_store1) [] sample_followup.

(** Both creations come first, and the chat of the second run comes before
    the chat of the first. *)
Definition crossed_calls : list RunCall :=
  [(pending_env first_pending, CreateCall "http://ums");
   (pending_env second_pending, CreateCall "http://ums");
   (pending_env second_pending, ChatCall "http://ums" (JString "1") "rename her to Alicia");
   (pending_env first_pending, ChatCall "http://ums" (JString "0") "create user Alice")].

Definition crossed_store : Store :=
  <["1" := ["rename her to Alicia"]]> (<["0" := ["create user Alice"]]> ∅).

(** An agent that chooses the next id by what the conversations hold: it
    passes over one id once a conversation holds a message. *)
Definition skipping_issue (st : Store) : string :=
  if bool_decide (map_Forall (λ _ msgs, msgs = []) st) then fresh (dom st)
  else fresh ({[fresh (dom st)]} ∪ dom st).

Definition skipping_agent : UmsAgent := {|
  issue := skipping_issue;
  answer := λ msgs, ["Done: "; default "" (last msgs)];
  issue_fresh := λ st,
    proj1 (not_elem_of_dom st _)
      (match bool_decide (map_Forall (λ _ msgs, msgs = []) st) as b
             return (if b then fresh (dom st)
                     else fresh ({[fresh (dom st)]} ∪ dom st)) ∉ dom st with
       | true => is_fresh (dom st)
       | false => λ Hin, is_fresh ({[fresh (dom st)]} ∪ dom st)
                           (proj2 (elem_of_union _ _ _) (or_intror Hin))
       end)
|}.

Section Serving.
Context (agent : UmsAgent) `{!DomIssue agent}.

Lemma serves_all_app st l1 l2 :
  serves_all agent st (l1 ++ l2) = st' ← serves_all agent st l1; serves_all agent st' l2.
Proof.
  revert st. induction l1 as [|c l1 IH]; intros st; [done|]. cbn.
  destruct (agent_step c.1 st c.2); [apply IH|done].
Qed.

Lemma serves_all_cons st c l st1 :
  agent_step c.1 st c.2 = Some st1 →
  serves_all agent st (c :: l) = serves_all agent st1 l.
Proof. cbn. by intros ->. Qed.

Lemma serves_all_tagged env st calls :
  serves_all agent st (map (pair env) calls) = agent_serves env st calls.
Proof.
  revert st. induction calls as [|c calls IH]; intros st; [done|]. cbn.
  destruct (agent_step env st c); [apply IH|done].
Qed.

Lemma issue_fresh_ne st k : is_Some (st !! k) → issue st ≠ k.
Proof. intros [msgs Hk] <-. by rewrite issue_fresh in Hk. Qed.

(** A call served removes no conversation. *)
Lemma agent_step_mono env st c st' k :
  agent_step env st c = Some st' → is_Some (st !! k) → is_Some (st' !! k).
Proof.
  intros Hs Hk. destruct c as [ep|ep cid m]; cbn in Hs.
  - case_decide; [|done]. injection Hs as <-.
    by rewrite lookup_insert_ne by by apply issue_fresh_ne.
  - destruct (py_str cid) as [k'|]; [|done]. cbn in Hs. unfold agent_chat in Hs.
    destruct (st !! k') as [msgs|] eqn:Hk'; case_decide; try done; injection Hs as <-; [|done].
    destruct (decide (k' = k)) as [->|]; [by rewrite lookup_insert_eq|by rewrite lookup_insert_ne].
Qed.

Lemma serves_all_mono st l st' k :
  serves_all agent st l = Some st' → is_Some (st !! k) → is_Some (st' !! k).
Proof.
  revert st. induction l as [|c l IH]; intros st; cbn; [by intros [= <-]|].
  destruct (agent_step c.1 st c.2) as [st1|] eqn:Hc; [|done]. cbn.
  intros Hl Hk. eapply IH; [done|]. by eapply agent_step_mono.
Qed.

(** A chat call is a left mover: served after a call of another run that
    is addressed to another conversation, it is served before it as well,
    with the same answers and the same store in the end. *)
Lemma chat_moves_before s c env ep k m rest st' :
  foreign k c.2 → is_Some (s !! k) →
  serves_all agent s (c :: (env, ChatCall ep (JString k) m) :: rest) = Some st' →
  serves_all agent s ((env, ChatCall ep (JString k) m) :: c :: rest) = Some st'.
Proof.
  intros Hf [msgs Hk]. destruct c as [envc [epc|epc cid m']]; cbn in *.
  - pose proof (issue_fresh_ne s k ltac:(by eexists)) as Hne.
    case_decide as Hc; [|done]. cbn. unfold agent_chat.
    rewrite lookup_insert_ne, Hk by done. case_decide; [|done]. cbn.
    rewrite (issue_dom (<[k := msgs ++ [m]]> s) s) by (by apply dom_insert_lookup_L).
    rewrite decide_True by done. cbn. by rewrite insert_insert_ne.
  - destruct (py_str cid) as [k'|]; [|done]. cbn. unfold agent_chat. rewrite Hk.
    assert (k' ≠ k) as Hne by congruence.
    destruct (s !! k') as [msgs'|] eqn:Hk'; case_decide; try done; cbn.
    + rewrite lookup_insert_ne, Hk by done. case_decide; [|done]. cbn.
      rewrite lookup_insert_ne, Hk' by done. rewrite decide_True by done. cbn.
      by rewrite insert_insert_ne.
    + rewrite Hk. case_decide; [|done]. cbn. rewrite lookup_insert_ne, Hk' by done.
      by rewrite decide_True.
Qed.

End Serving.

(** ** Lists of runs *)

Lemma insert_delete_Permutation {A} (l : list A) (i : nat) (x y : A) :
  l !! i = Some x → <[i := y]> l ≡ₚ y :: delete i l.
Proof.
  revert i. induction l as [|z l IH]; intros [|i] Hi; try done. cbn in *.
  rewrite (IH _ Hi). apply Permutation_swap.
Qed.

(** A serial order of the runs with [r] in place of the run [run] gives
    one of the runs, with [run] in front. *)
Lemma front_Permutation {A} (runs : list (list A)) i run r L R :
  runs !! i = Some run → L ++ r :: R ≡ₚ <[i := r]> runs →
  run :: L ++ R ≡ₚ runs ∧ ∀ e, e ∈ L → e ∈ runs.
Proof.
  intros Hi Hp. rewrite (insert_delete_Permutation _ _ _ _ Hi) in Hp.
  rewrite <- Permutation_middle in Hp. apply Permutation_cons_inv in Hp.
  split; [by rewrite Hp, <- (delete_Permutation _ _ _ Hi)|].
  intros e He. apply (list_elem_of_delete_inv _ i). rewrite <- Hp.
  apply elem_of_app. by left.
Qed.

Section Serializable.
Context (agent : UmsAgent) `{!DomIssue agent} (self : MASCoordinator).

Lemma run_shape_mono st st1 run :
  (∀ k, is_Some (st !! k) → is_Some (st1 !! k)) →
  run_shape self st run → run_shape self st1 run.
Proof. intros Hm []; constructor; auto. Qed.

(** A creation call served gives the run the id of the new conversation. *)
Lemma created_id_served env s s1 :
  agent_step env s (CreateCall (coordinator_ums_agent_endpoint self)) = Some s1 →
  created_id env (ums_gateway self) = Ok (JString (issue s)) ∧ s1 = <[issue s := []]> s.
Proof.
  cbn. case_decide as Hc; [|done]. intros [= <-]. split; [|done].
  by eapply created_id_created_text.
Qed.

(** After its first call a run is a run of the store it left, and what is
    left of it is late. *)
Lemma run_step st st1 x r :
  run_shape self st (x :: r) → agent_step x.1 st x.2 = Some st1 →
  run_shape self st1 r ∧ late st st1 r.
Proof.
  inversion 1 as [|env k m Hk|env m]; subst; cbn; intros Hx.
  - split; [constructor|by left].
  - destruct (created_id_served _ _ _ Hx) as [-> ->].
    assert (is_Some (<[issue st := []]> st !! issue st)) by by rewrite lookup_insert_eq.
    split; [by constructor|]. right. eexists _, _, _, _.
    split; [done|]. split; [apply issue_fresh|done].
Qed.

(** The chat call of a late run moves before a whole run of another
    turn. *)
Lemma late_moves_run st s k env ep m run rest st' :
  run_shape self st run → st !! k = None → is_Some (s !! k) →
  serves_all agent s (run ++ (env, ChatCall ep (JString k) m) :: rest) = Some st' →
  serves_all agent s ((env, ChatCall ep (JString k) m) :: run ++ rest) = Some st'.
Proof.
  intros [|env' k' m' Hk'|env' m'] Hn Hk Hsv; [done|..].
  - apply chat_moves_before; [done| |done..]. cbn. intros [= ->].
    rewrite Hn in Hk'. by destruct Hk'.
  - cbn [app serves_all fst snd] in Hsv.
    destruct (agent_step env' s _) as [s1|] eqn:Hc; [|done]. cbn in Hsv.
    destruct (created_id_served _ _ _ Hc) as [Hid _]. rewrite Hid in *.
    cbn [app] in *. apply chat_moves_before; [done..|].
    rewrite (serves_all_cons _ s (env', CreateCall _) _ s1 Hc).
    assert (foreign k (ChatCall (coordinator_ums_agent_endpoint self)
                         (JString (issue s)) m')) as Hf.
    { cbn. intros [= He]. by apply (issue_fresh_ne agent s k). }
    apply (chat_moves_before agent s1 (env', _) env ep k m rest st' Hf);
      [by eapply agent_step_mono|done].
Qed.

(** What is left of a run moves before the runs served before it. *)
Lemma late_moves_left st s r L rest st' :
  late st s r → Forall (run_shape self st) L →
  serves_all agent s (concat L ++ r ++ rest) = Some st' →
  serves_all agent s (r ++ concat L ++ rest) = Some st'.
Proof.
  intros [->|(env & ep & k & m & -> & Hn & Hk)] HL; [done|]. cbn [app].
  revert s Hk. induction HL as [|run L Hrun _ IH]; intros s Hk Hsv; [done|].
  cbn [concat] in *. rewrite <- (assoc_L (++)), serves_all_app in Hsv.
  destruct (serves_all agent s run) as [s1|] eqn:Hr; [|done]. cbn in Hsv.
  apply IH in Hsv; [|by eapply serves_all_mono].
  rewrite <- (assoc_L (++)). apply (late_moves_run st); [done..|].
  by rewrite serves_all_app, Hr.
Qed.

(** The runs, interleaved in any way, are served as they are one after
    the other in some order. *)
Lemma interleaving_serializable runs l st st' :
  Forall (run_shape self st) runs → interleaving runs l →
  serves_all agent st l = Some st' →
  ∃ runs', runs' ≡ₚ runs ∧ serves_all agent st (concat runs') = Some st'.
Proof.
  intros Hsh Hil. revert st Hsh.
  induction Hil as [runs Hnil|runs i x r l Hi Hil IH]; intros st Hsh Hsv.
  { exists runs. split; [done|]. by rewrite (proj2 (concat_nil_Forall _) Hnil). }
  cbn in Hsv. destruct (agent_step x.1 st x.2) as [st1|] eqn:Hx; [|done]. cbn in Hsv.
  pose proof (λ k, agent_step_mono agent _ _ _ _ k Hx) as Hm.
  destruct (run_step st st1 x r (Forall_lookup_1 _ _ _ _ Hsh Hi) Hx) as [Hr Hlate].
  destruct (IH st1) as (runs2 & Hp & Hs2); [|done|].
  { apply Forall_insert; [|done]. eapply Forall_impl; [done|]. intros run.
    by apply run_shape_mono. }
  assert (r ∈ runs2) as (L & R & ->)%list_elem_of_split.
  { rewrite Hp. eapply list_elem_of_lookup_2, list_lookup_insert_eq.
    by eapply lookup_lt_Some. }
  destruct (front_Permutation _ _ _ _ _ _ Hi Hp) as [Hp' HL].
  exists ((x :: r) :: L ++ R). split; [done|]. cbn. rewrite Hx. cbn.
  rewrite concat_app in *. cbn [concat] in Hs2.
  apply (late_moves_left st); [done| |done].
  apply Forall_forall. intros e He. by eapply Forall_forall, HL.
Qed.

End Serializable.

(** ** The turns of the coordinator *)

#[export] Instance echo_dom_issue : DomIssue echo_agent.
Proof. intros st1 st2 Hd. cbn. by rewrite Hd. Qed.

Lemma interleaving_crossed {A} (a1 a2 b1 b2 : A) :
  interleaving [[a1; a2]; [b1; b2]] [a1; b1; b2; a2].
Proof.
  apply (interleaving_step _ 0 a1 [a2]); [done|].
  apply (interleaving_step _ 1 b1 [b2]); [done|].
  apply (interleaving_step _ 1 b2 []); [done|].
  apply (interleaving_step _ 0 a2 []); [done|].
  apply interleaving_done. by repeat constructor.
Qed.

Section Turns.
Context (agent : UmsAgent) `{!DomIssue agent} (self : MASCoordinator).

(** The calls of a turn on a history the system can reach. *)
Lemma pending_run_shape st p : pending_ok st p → run_shape self st (pending_run self p).
Proof.
  intros (Hs & Hu & Hc). unfold pending_run, pending_calls.
  rewrite handle_request_agent_calls.
  destruct (classify _ _ _) as [cr|e]; [|constructor].
  destruct (agent_name cr); [constructor|].
  rewrite response_agent_calls, last_message_turn, (lookup_turn _ _ Hs Hu).
  destruct Hc as [Hn|(k & Hk & Hst)]; rewrite ?Hn, ?Hk; cbn.
  - pose proof (shape_create self st (pending_env p)
                  (augment_user_content (pending_message p)
                     (additional_instructions cr))) as Hsh.
    by destruct (created_id _ _).
  - by constructor.
Qed.

Lemma serial_concat st ps :
  serial agent self st ps = serves_all agent st (concat (map (pending_run self) ps)).
Proof.
  revert st. induction ps as [|p ps IH]; intros st; [done|]. cbn [map concat serial].
  change (pending_run self p) with (map (pair (pending_env p)) (pending_calls self p)).
  rewrite serves_all_app, serves_all_tagged.
  destruct (agent_serves _ _ _); [apply IH|done].
Qed.

(** C12: turns served at the same time are served as one after the
    other.  Take any number of turns of any conversations whose histories
    the system can reach with the store of the agent, and let their calls
    to the agent arrive in any interleaving, each answered by the agent as
    it is at that moment.  Then there is an order of the turns in which the
    agent, serving them one after the other, gives every run the same
    answers and ends with the same conversations. *)
Theorem concurrent_turns_serializable st st' ps l :
  Forall (pending_ok st) ps →
  interleaving (map (pending_run self) ps) l →
  serves_all agent st l = Some st' →
  ∃ ps', ps' ≡ₚ ps ∧ serial agent self st ps' = Some st'.
Proof.
  intros Hok Hil Hsv.
  destruct (interleaving_serializable agent self _ _ _ _
              (proj2 (Forall_map _ _ _) (Forall_impl _ _ _ Hok (pending_run_shape st))) Hil Hsv)
    as (runs' & Hp & Hs).
  apply Permutation_map_inv in Hp as (ps' & -> & Hp).
  exists ps'. split; [done|]. by rewrite serial_concat.
Qed.

End Turns.

Lemma sample_runs :
  map (pending_run sample_coordinator) [first_pending; second_pending] =
  [[(pending_env first_pending, CreateCall "http://ums");
    (pending_env first_pending, ChatCall "http://ums" (JString "0") "create user Alice")];
   [(pending_env second_pending, CreateCall "http://ums");
    (pending_env second_pending,
     ChatCall "http://ums" (JString "1") "rename her to Alicia")]].
Proof.
  unfold pending_run. cbn [map].
  by replace (pending_calls sample_coordinator first_pending)
    with [CreateCall "http://ums";
          ChatCall "http://ums" (JString "0") "create user Alice"] by (by vm_compute);
  replace (pending_calls sample_coordinator second_pending)
    with [CreateCall "http://ums";
          ChatCall "http://ums" (JString "1") "rename her to Alicia"] by (by vm_compute).
Qed.

Lemma concurrent_turns_serializable_witness :
  ∃ ps', ps' ≡ₚ [first_pending; second_pending] ∧
         serial echo_agent sample_coordinator ∅ ps' = Some crossed_store.
Proof.
  apply (concurrent_turns_serializable echo_agent sample_coordinator ∅ crossed_store
           [first_pending; second_pending] crossed_calls).
  - repeat constructor.
  - rewrite sample_runs.
    apply interleaving_crossed.
  - by vm_compute.
Defined.

(** Without [DomIssue] the turns need not be served as one after the
    other: the agent that passes over an id once a conversation holds a
    message serves the crossed calls, and serves the two turns in neither
    order with the answers the runs were given. *)
Lemma skipping_not_serializable :
  interleaving (map (pending_run sample_coordinator) [first_pending; second_pending])
    crossed_calls ∧
  serves_all skipping_agent ∅ crossed_calls = Some crossed_store ∧
  ∀ ps', ps' ≡ₚ [first_pending; second_pending] →
         serial skipping_agent sample_coordinator ∅ ps' = None.
Proof.
  split; [rewrite sample_runs; apply interleaving_crossed|].
  split; [by vm_compute|].
  by intros ps' [-> | ->]%Permutation_sym%Permutation_length_2_inv; vm_compute.
Qed.
