(* ===== verification/App.v ===== *)
(** * App: the chat-completion endpoint

    Model of [src/task/app.py]: the configuration read from the process
    environment with its defaults, [chat_completion], which creates the
    single choice of the response, builds the coordinator from the
    configuration and hands it the request, the registration of the
    application under its deployment name ([dial_app]) and the constants of
    the start-up.

    The choice is a context manager: it is opened on entry and closed on
    exit, on the normal path and when the body raises; the error of the body
    is raised again after the choice is closed.  [chat_completion] is
    therefore [handle_request] between [EvChoiceOpen] and [EvChoiceClose]
    ([chat_completion_run]). *)

From Stdlib Require Import String Ascii ZArith List Lia Bool.
From stdpp Require Import base tactics option list strings.
From S2P Require Import Prelude Json JsonParse Effects Prompts Adapter Ums Gateway Coordinator Protocol.

(** ** Configuration *)

(** The process environment: variable names and their values. *)
Definition Environ : Type := list (string * string).

(** [os.getenv(key, default)]. *)
Definition os_getenv (environ : Environ) (key default : string) : string :=
  match dict_get key environ with
  | Some v => v
  | None => default
  end.

Definition DIAL_ENDPOINT (environ : Environ) : string :=
  os_getenv environ "DIAL_ENDPOINT" "http://localhost:8080".

Definition DEPLOYMENT_NAME (environ : Environ) : string :=
  os_getenv environ "DEPLOYMENT_NAME" "gpt-4o".

Definition UMS_AGENT_ENDPOINT (environ : Environ) : string :=
  os_getenv environ "UMS_AGENT_ENDPOINT" "http://localhost:8042".

(** The level handed to the logging set-up. *)
Definition LOG_LEVEL (environ : Environ) : string :=
  os_getenv environ "LOG_LEVEL" "INFO".

(** The coordinator built for each request. *)
Definition coordinator (environ : Environ) : MASCoordinator :=
  mkMASCoordinator (DIAL_ENDPOINT environ) (DEPLOYMENT_NAME environ)
    (UMS_AGENT_ENDPOINT environ).

(** ** The endpoint *)

(** [with response.create_single_choice() as choice: body]. *)
Definition with_single_choice {A} (body : M A) : M A :=
  _ ← emit_event EvChoiceOpen;
  try_finally body (emit_event EvChoiceClose).

Section WithEnv.
Context (env : Env) (environ : Environ).

(** [MASCoordinatorApplication.chat_completion]. *)
Definition chat_completion (request : Request) : M unit :=
  with_single_choice
    (_ ← handle_request env (coordinator environ) request; mret tt).

(** [app.add_chat_completion("mas-coordinator", agent_app)]: the
    application serves the requests addressed to the deployment it is
    registered under, and no other. *)
Definition dial_app (deployment : string) (request : Request) : option (M unit) :=
  if String.eqb deployment "mas-coordinator" then Some (chat_completion request)
  else None.

End WithEnv.

(** The lines logged when the module is run as a program, and the port and
    the host the server is started on. *)
Definition startup_messages (environ : Environ) : list string :=
  ["Starting MAS Coordinator on port 8055";
   "DIAL Endpoint: " +:+ DIAL_ENDPOINT environ;
   "UMS Agent Endpoint: " +:+ UMS_AGENT_ENDPOINT environ].

Definition server_address : Z * string := (8055%Z, "0.0.0.0").

(** ** Views *)

(** Whether the choice is open after [tr]. *)
Fixpoint choice_is_open_from (open : bool) (tr : Trace) : bool :=
  match tr with
  | [] => open
  | EvChoiceOpen :: tr' => choice_is_open_from true tr'
  | EvChoiceClose :: tr' => choice_is_open_from false tr'
  | _ :: tr' => choice_is_open_from open tr'
  end.

(** Whether an event addresses the choice or one of its stages. *)
Definition on_choice (e : Event) : bool :=
  match e with
  | EvStageOpen _ _ | EvStageAppend _ _ | EvStageClose _
  | EvChoiceAppend _ | EvSetState _ => true
  | _ => false
  end.

(** Every event on the choice happens while it is open. *)
Fixpoint choice_protocol (open : bool) (tr : Trace) : bool :=
  match tr with
  | [] => true
  | EvChoiceOpen :: tr' => negb open && choice_protocol true tr'
  | EvChoiceClose :: tr' => open && choice_protocol false tr'
  | e :: tr' => (negb (on_choice e) || open) && choice_protocol open tr'
  end.

(** ** A sample run *)

(** An environment that sets the three variables to the sample endpoints. *)
Definition sample_environ : Environ :=
  [("DIAL_ENDPOINT", "http://dial"); ("DEPLOYMENT_NAME", "gpt-4o");
   ("UMS_AGENT_ENDPOINT", "http://ums"); ("LOG_LEVEL", "DEBUG")].

(** The events of the endpoint in the sample environment. *)
Definition sample_endpoint_events : Trace :=
  EvChoiceOpen :: sample_events ++ [EvChoiceClose].

(** ** Configuration *)

Lemma os_getenv_set environ key default v :
  dict_get key environ = Some v → os_getenv environ key default = v.
Proof. unfold os_getenv. by intros ->. Qed.

Lemma os_getenv_unset environ key default :
  dict_get key environ = None → os_getenv environ key default = default.
Proof. unfold os_getenv. by intros ->. Qed.

(** With none of the three variables set, the coordinator
    is built with the local defaults: the model endpoint on port 8080, the
    deployment gpt-4o and the user-management agent on port 8042. *)
Lemma coordinator_defaults environ :
  dict_get "DIAL_ENDPOINT" environ = None →
  dict_get "DEPLOYMENT_NAME" environ = None →
  dict_get "UMS_AGENT_ENDPOINT" environ = None →
  coordinator environ =
  mkMASCoordinator "http://localhost:8080" "gpt-4o" "http://localhost:8042".
Proof.
  intros H1 H2 H3. unfold coordinator, DIAL_ENDPOINT, DEPLOYMENT_NAME,
    UMS_AGENT_ENDPOINT. by rewrite !os_getenv_unset.
Qed.

(** A variable that is set overrides its default, and only its own field
    of the coordinator. *)
Lemma coordinator_from_environ environ a b c :
  dict_get "DIAL_ENDPOINT" environ = Some a →
  dict_get "DEPLOYMENT_NAME" environ = Some b →
  dict_get "UMS_AGENT_ENDPOINT" environ = Some c →
  coordinator environ = mkMASCoordinator a b c.
Proof.
  intros H1 H2 H3. unfold coordinator, DIAL_ENDPOINT, DEPLOYMENT_NAME,
    UMS_AGENT_ENDPOINT.
  by rewrite (os_getenv_set _ _ _ _ H1), (os_getenv_set _ _ _ _ H2),
    (os_getenv_set _ _ _ _ H3).
Qed.

(** The application answers for its own deployment only, with
    [chat_completion]. *)
Lemma dial_app_Some env environ deployment request h :
  dial_app env environ deployment request = Some h ↔
  deployment = "mas-coordinator" ∧ h = chat_completion env environ request.
Proof.
  unfold dial_app.
  destruct (String.eqb_spec deployment "mas-coordinator") as [->|Hne]; split.
  - by intros [= <-].
  - by intros [_ ->].
  - done.
  - by intros [? _].
Qed.

(** ** The choice around the handler *)

Lemma with_single_choice_run {A} (body : M A) past :
  with_single_choice body past =
  let '(r, ev) := body (past ++ [EvChoiceOpen]) in
  (r, EvChoiceOpen :: ev ++ [EvChoiceClose]).
Proof.
  unfold with_single_choice, try_finally. mrun.
  by destruct (body (past ++ [EvChoiceOpen])) as [r ev].
Qed.

Lemma choice_is_open_from_app b (t1 t2 : Trace) :
  choice_is_open_from b (t1 ++ t2) =
  choice_is_open_from (choice_is_open_from b t1) t2.
Proof. revert b. induction t1 as [|[] t1 IH]; intros b; simpl; auto. Qed.

Lemma choice_protocol_app b (t1 t2 : Trace) :
  choice_protocol b (t1 ++ t2) =
  choice_protocol b t1 && choice_protocol (choice_is_open_from b t1) t2.
Proof.
  revert b. induction t1 as [|[] t1 IH]; intros b; simpl; auto;
    by rewrite IH, andb_assoc.
Qed.

Lemma choice_protocol_inner (tr : Trace) :
  forallb inner_event tr = true →
  choice_protocol true tr = true ∧ choice_is_open_from true tr = true.
Proof.
  induction tr as [|[] tr IH]; simpl; try done.
  all: rewrite ?orb_true_r; auto.
Qed.

Lemma n_stages_choice_open (past : Trace) :
  n_stages (past ++ [EvChoiceOpen]) = n_stages past.
Proof. rewrite n_stages_app. unfold n_stages. simpl. lia. Qed.

Section AppProofs.
Context (env : Env) (environ : Environ).

Lemma chat_completion_run request past :
  chat_completion env environ request past =
  let '(r, ev) := handle_request env (coordinator environ) request
                    (past ++ [EvChoiceOpen]) in
  (r ≫= λ _, Ok tt, EvChoiceOpen :: ev ++ [EvChoiceClose]).
Proof.
  unfold chat_completion. rewrite with_single_choice_run.
  unfold mbind at 1, M_bind, bind.
  destruct (handle_request _ _ _ _) as [[m|e] ev]; simpl; [|done].
  by rewrite app_nil_r.
Qed.

(** C26: whatever the handler does, the endpoint opens
    the choice first and closes it last: every stage event, append and state
    update happens while the choice is open, and the choice is closed at the
    end, on success and on failure. *)
Theorem chat_completion_choice_protocol request past r ev :
  chat_completion env environ request past = (r, ev) →
  choice_protocol false ev = true ∧ choice_is_open_from false ev = false.
Proof.
  rewrite chat_completion_run.
  destruct (handle_request _ _ _ _) as [r' ev'] eqn:Hh.
  intros [_ <-]%pair_equal_spec.
  destruct (choice_protocol_inner _ (handle_request_inner_events _ _ _ _ _ _ Hh))
    as [Hp Ho].
  simpl. rewrite choice_protocol_app, choice_is_open_from_app, Hp, Ho. done.
Qed.

(** The endpoint follows the stage protocol as well: the events of the
    choice leave the stages alone. *)
Lemma chat_completion_stage_ok request past :
  stage_ok past (chat_completion env environ request past).2 = true.
Proof.
  rewrite chat_completion_run.
  pose proof (phases_stage_ok env (coordinator environ) request
                (past ++ [EvChoiceOpen])) as Hok.
  rewrite <- (handle_request_phases env (coordinator environ) request) in Hok.
  destruct (handle_request _ _ _ _) as [r ev]. simpl in *.
  rewrite stage_ok_app, Hok. simpl. done.
Qed.

(** When the endpoint returns normally, the text of the
    choice is the text of the synthesis stream, the two stages of the run
    are closed, and the model was called once for routing and once for
    synthesis. *)
Lemma chat_completion_success request past ev :
  chat_completion env environ request past = (Ok tt, ev) →
  let n := n_stages past in
  ∃ m ev',
    handle_request env (coordinator environ) request (past ++ [EvChoiceOpen])
      = (Ok m, ev') ∧
    ev = EvChoiceOpen :: ev' ++ [EvChoiceClose] ∧
    m = assistant_message (choice_text ev) ∧
    opened_stages ev = [n; S n] ∧ closed_stages ev = [n; S n] ∧
    length (llm_complete_calls ev) = 1 ∧ length (llm_stream_calls ev) = 1.
Proof.
  rewrite chat_completion_run.
  destruct (handle_request _ _ _ _) as [[m|e] ev'] eqn:Hh; [|done].
  intros [_ <-]%pair_equal_spec. exists m, ev'.
  destruct (handle_request_Ok_inv _ _ _ _ _ _ Hh)
    as (cr & evg & fs & _ & Hev & -> & ->).
  rewrite n_stages_choice_open in *.
  destruct (success_trace_views _ (coordinator environ) request cr _ fs Hev)
    as (Ho & Hc & Hf & Hl & Hs & _).
  change (EvChoiceOpen :: ?l) with ([EvChoiceOpen] ++ l).
  unfold choice_text. autorewrite with py. rewrite Ho, Hc, Hf, Hl, Hs.
  by rewrite !app_nil_r.
Qed.

End AppProofs.

(** ** The theorems at the sample runs *)

Lemma coordinator_defaults_sample :
  coordinator [("LOG_LEVEL", "DEBUG")] =
  mkMASCoordinator "http://localhost:8080" "gpt-4o" "http://localhost:8042".
Proof. by apply (coordinator_defaults [("LOG_LEVEL", "DEBUG")]). Qed.

Lemma sample_environ_coordinator :
  coordinator sample_environ = sample_coordinator.
Proof.
  by apply (coordinator_from_environ sample_environ "http://dial" "gpt-4o"
              "http://ums").
Qed.

Lemma chat_completion_choice_protocol_witness :
  choice_protocol false sample_endpoint_events = true ∧
  choice_is_open_from false sample_endpoint_events = false.
Proof.
  apply (chat_completion_choice_protocol sample_env sample_environ
           sample_request [] (Ok tt) sample_endpoint_events).
  by vm_compute.
Defined.

Lemma chat_completion_success_sample :
  ∃ m ev',
    handle_request sample_env (coordinator sample_environ) sample_request
      ([] ++ [EvChoiceOpen]) = (Ok m, ev') ∧
    sample_endpoint_events = EvChoiceOpen :: ev' ++ [EvChoiceClose] ∧
    m = assistant_message (choice_text sample_endpoint_events) ∧
    opened_stages sample_endpoint_events = [0; 1] ∧
    closed_stages sample_endpoint_events = [0; 1] ∧
    length (llm_complete_calls sample_endpoint_events) = 1 ∧
    length (llm_stream_calls sample_endpoint_events) = 1.
Proof.
  apply (chat_completion_success sample_env sample_environ sample_request []
           sample_endpoint_events).
  by vm_compute.
Qed.
